(* ===== verification/_CoqProject ===== *)
-Q . S2P
Prelude.v
Utils.v
Registers.v
StateMem.v
CPUState.v
AArch64.v
X86.v
Regoffs.v
Operands.v
IMetaData.v
MetaOperands.v
Convert.v
OpcodeCache.v
Emulate.v
Handler.v
PreEncoder.v
SharedOperands.v
Interp.v
Modules.v
Memory.v
Orchestrator.v
Event.v
Chain.v
UtilsAArch64.v
MCInst.v
Emit.v
Dump.v
NativeA64.v
IosChain.v
IosHandler.v
Trampolines.v
NativeX64.v
CodePages.v
DynHandler.v
TrampolinesX64.v
Lifter.v
AetherVM.v
Context.v
Intrinsic.v
IntrinsicTable.v
Debugger.v
Xml.v
TargetXml.v
DebugSession.v
