(* ===== verification/Prelude.v ===== *)
(** AetherVM: a verification library for the AetherVM emulator.

    AetherVM runs code of a guest (aarch64 or x86_64) in a process of the host.
    It takes opcodes apart with LLVM, lifts them with remill to semantic
    functions, and runs them in one of three ways:
    - opcode by opcode ([emulate]): a handler per opcode, interpreted with
      operands evaluated on the bytes of remill's [State];
    - as threaded code ([execute]): the text of a binary is lifted to native
      handlers, its functions become blocks of handlers with events between
      them, and assembly trampolines go from one to the next;
    - from a file encoded before ([runMain]): metadata records that an
      interpreter without LLVM and remill executes.
    A debug server of LLDB watches the threads in all of them.

    * What is modelled where

    Foundations.
    - Prelude: outcomes of C++ code ([exec]: a value, [abort], undefined
      behaviour), integers of a width and their bits, bytes in memory, little
      endian; the hint databases [aether] and [bits].
    - Utils: include/Utils.h, [string_view_split] of src/Utils.cpp.
    - Registers: include/Register.h. StateMem: a register file given by a
      switch over fields of a byte-addressed state; the classes [RegFile] and
      [RegFileLaws] say what clients may rely on (a map from registers to
      64-bit values, flag registers mirrored in bytes). CPUState: the two
      switches of src/CPUState.cpp as instances, and a thread's context.
    - AArch64, X86, Regoffs: where registers are by name or number
      (src/AArch64.cpp, src/X86.cpp, the table of src/OpcodeEngine.cpp).

    Interpretation.
    - Operands: raw operand values from remill's operands; Convert: operands
      turned into metadata; IMetaData: the records of the file and their bytes;
      MetaOperands: the same values from records. SharedOperands: operands
      shared by handlers, [initRemill]. Handler: the sorted tables of semantic
      functions. OpcodeCache: the handler sets, [prefetch], [emulate]; Emulate:
      one opcode run by the engine's handlers or the thread's.
    - PreEncoder: indexing handlers and writing the file (src/PreEncoder.cpp);
      Dump: reading it back for display ([PreEncoder::dump]). Interp: both
      interpreters of one instruction, finding instructions in loaded modules,
      the loop [vmEntry]. Modules: the vector of modules with its copies and
      destructors, [runMain].
    - MCInst: instructions on the stack pointer that are interpreted from LLVM's
      form (src/OpcodeAArch64.cpp).

    Threaded code.
    - Memory: the guest's reservation (src/Memory.cpp) and the memory calls of
      the engine. Orchestrator: blocks of handlers, their search and cache.
      Event: events, callbacks, every event handler and the machine of the
      trampolines as a step function; Chain: a simulation between the machine on
      an instrumented binary and on the plain one.
    - Trampolines, TrampolinesX64: the assembly of src/AArch64.cpp and
      src/X86.cpp that enters the handlers, leaves them, and calls the host.
    - UtilsAArch64: registers of an instruction, renaming, lists of opcodes.
      Emit: text of assembly. NativeA64, NativeX64: handlers that run an
      opcode on the host's own processor (src/Lifter.cpp); IosChain, IosHandler:
      the same from prebuilt pieces of code, with registers renamed when the
      opcode was not prebuilt (ios/OpcodeEngine.cpp). CodePages: the pages that
      hold such handlers, and the threads in them; DynHandler: the text of a
      handler assembled into such a page ([initDynamic]). Lifter: the table of
      dynamic handlers, lifting and binding. Intrinsic: what lifted code calls;
      IntrinsicTable: the functions it may call, by name.
    - AetherVM: the engine's interface that composes them: lifting a text,
      mapping, lifting and encoding a binary, starting it; the program counter.

    Debugging and tools.
    - Debugger: threads, breakpoints and documents in pieces (lldb/src). Context:
      its view of registers; TargetXml: the description of them it sends, against
      the reader of Xml. DebugSession: the engine's calls of the debugger, from
      the table of handlers on, and its view of memory.

    State corresponds to the code's as follows. Structs are records with the
    members' names. [std::map] and [std::set] are [gmap]s or sorted lists when
    their order matters, [std::vector] is a list, pointers into vectors are
    positions. Memory is a map from addresses to bytes. remill's [State] is
    such a map with field offsets as a class parameter ([A64Layout], [X86Layout]:
    disjoint fields of the sizes the code relies on). A call that can fail in C++
    returns [exec]; callbacks thread a state of their own, any type.

    * What the theorems show

    - Interpretation is the same from remill's operands and from the file:
      [Convert.convertOperands_preserves], [MetaOperands.metadata_roundtrip],
      [PreEncoder.serialize_roundtrip], [Interp.interpreters_agree]; handlers and
      operands are found where they were put ([PreEncoder.handlerIndex_spec],
      [OpcodeCache.emulate_cache_transparent], [Emulate.emulate_runs_chosen], [SharedOperands.initRemill_args],
      [Interp.find_spec]) and the loop keeps its invariant
      ([Interp.vm_invariant]).
    - Operand arithmetic has its meaning, undefined shifts and wrapping included
      ([Operands]).
    - Register files refine a map ([CPUState.register_file_refines_map]), and the
      ways to find a register agree ([X86.offset_reg_is_getRegister]).
    - Instrumenting a binary with any events changes nothing but the events
      ([Chain.instrumentation_transparent], by simulation;
      [Orchestrator.encode_config_independent]), and lookups through a thread's
      cache give what a search gives ([Orchestrator.find_cache_transparent]).
    - Native handlers do on the guest's registers what the opcode does, and keep
      the host's ([NativeA64], [NativeX64]), and so do chains of prebuilt pieces,
      when the instruction leaves the chain's own registers alone ([IosChain]),
      and renamed opcodes, when the registers renamed and borrowed are all
      different ([IosHandler]); the registers they move are exactly those of the
      instruction, pairs apart; without pairs and with new register sets renaming
      is injective, onto registers the instruction does not use, and keeps its
      operands' views ([UtilsAArch64]).
    - Their text becomes their code byte for byte, in an executable page, within
      the buffer ([DynHandler.dynamic_handler_made]); placed handlers never
      overlap, and a running thread faults only while another makes one, as
      long as one thread at a time places handlers, or all do so under the mutex
      of one engine ([CodePages.dynamic_handlers_safe]); prefetching takes no
      mutex, and then placing itself can fault ([CodePages.unlocked_placement_faults]).
    - The trampolines hand over the arguments and give the host its registers
      and stack back ([Trampolines], [TrampolinesX64]).
    - Lifting gives every opcode its function and never rebinds another, as
      long as the emitter of native handlers does not abort
      ([Lifter], [AetherVM]; it can for x86_64, [Lifter.native_abort_ends_lifting]); mapping and starting a binary
      ([AetherVM.orchBinary_covers], [AetherVM.execute_target_start]).
    - Blocks of guest memory do not overlap ([Memory]); the floating-point
      environment and memory accesses are the guest's ([Intrinsic]); every name
      that lifted code may call is bound to its function
      ([IntrinsicTable.intrinsics_found]).
    - The debugger never runs a thread it stopped, an invariant of all
      interleavings ([Debugger]); what it writes to registers it reads
      ([Context]); its description of them is well-formed and reaches the client
      whole ([TargetXml.client_reads_target]); no order of the engine's calls
      makes a handler follow a null or erased pointer
      ([DebugSession.session_safe]).
    - The modules of a program stay sorted, and one alone is mapped as long as it
      runs; a second unmaps it, which is an error of the program
      ([Modules.modules_lifetime]).
    Theorems with hypotheses on the parameters come with a closed instance.

    * Bounds and fuel

    Integers are [Z] with the wrap-around of their width written out. Loops that
    are not structural have fuel: expression trees (one more than the nodes),
    the sweep over a text (one more than its bytes), the search for a free
    register, the machines of Interp and Chain (a number of steps, and the
    theorems hold for every number). That the fuel is enough is proved for each
    of them. Assertions are those of a release build: compiled out.

    * What is not modelled

    LLVM, remill, LLDB, the binary loader (a submodule) and the operating system
    are parameters with the laws the code relies on. Memory has no faults:
    every address can be read (but files that were unmapped, in Modules). Caches that are thread-local are seen by one
    thread; the debugger's threads and those that run and make handlers
    ([CodePages]) are the only concurrency. Handlers of native opcodes do not
    model the flags. The machine of Event and Chain takes the trampolines by what
    they do; their instructions are those of Trampolines and TrampolinesX64. Left
    out altogether, as they only call those parameters or print:
    src/Platform.cpp, logging, the construction of LLVM functions in
    src/Lifter.cpp, the tables of semantic functions in src/HandlerX86.cpp and
    src/HandlerAArch64.cpp, the engine's constructor, the debugger's sockets, src/Workaround.cpp,
    demo/emubin, build programs (build.cc), samples, tools and scripts. *)
From Stdlib Require Import ZArith Lia List.
From stdpp Require Import base list gmap.

Declare Scope aether_scope.
Delimit Scope aether_scope with aether.
#[global] Open Scope Z_scope.

(** * The outcome of running a piece of the C++ code *)

(** A call returns a value, calls [abort()], or does something the C++
    language leaves undefined (an out-of-range read, a null call, an
    over-long shift, a signed overflow). *)
Inductive exec (A : Type) : Type :=
| Ret (a : A)
| Abort
| Undef.
Arguments Ret {A} _.
Arguments Abort {A}.
Arguments Undef {A}.

#[export] Instance exec_ret : MRet exec := @Ret.
#[export] Instance exec_bind : MBind exec := λ A B f e,
  match e with Ret a => f a | Abort => Abort | Undef => Undef end.
#[export] Instance exec_fmap : FMap exec := λ A B f e,
  match e with Ret a => Ret (f a) | Abort => Abort | Undef => Undef end.

(** Two outcomes of the same kind, with related values. *)
Inductive exec_rel {A B} (R : A -> B -> Prop) : exec A -> exec B -> Prop :=
| rel_Ret a b : R a b -> exec_rel R (Ret a) (Ret b)
| rel_Abort : exec_rel R Abort Abort
| rel_Undef : exec_rel R Undef Undef.

Definition of_option {A} (dflt : exec A) (o : option A) : exec A :=
  match o with Some a => Ret a | None => dflt end.

Fixpoint mapE {A B} (f : A -> exec B) (l : list A) : exec (list B) :=
  match l with
  | [] => Ret []
  | x :: l' => y ← f x; ys ← mapE f l'; Ret (y :: ys)
  end.

(** A C++ [switch]: the first case whose label is the scrutinee. *)
Fixpoint switch {A} (v : Z) (cases : list (Z * A)) : option A :=
  match cases with
  | [] => None
  | (k, a) :: cs => if v =? k then Some a else switch v cs
  end.

(** * Machine integers *)

(** Unsigned integers of [w] bits are [Z] reduced modulo [2 ^ w]. *)
Definition wrap (w : Z) (z : Z) : Z := z mod 2 ^ w.
Abbreviation wrap8 := (wrap 8).
Abbreviation wrap16 := (wrap 16).
Abbreviation wrap32 := (wrap 32).
Abbreviation wrap64 := (wrap 64).

(** The two's complement reading of a [w]-bit pattern. *)
Definition to_signed (w z : Z) : Z :=
  if z mod 2 ^ w <? 2 ^ (w - 1) then z mod 2 ^ w else z mod 2 ^ w - 2 ^ w.

Definition fits (w z : Z) : Prop := 0 <= z < 2 ^ w.
Abbreviation u8 := (fits 8).
Abbreviation u16 := (fits 16).
Abbreviation u32 := (fits 32).
Abbreviation u64 := (fits 64).

#[export] Instance fits_dec w z : Decision (fits w z).
Proof. unfold fits. apply _. Defined.

(** [x << n] and [x >> n] on [uint64_t]: undefined from 64 on. *)
Definition shl64 (x n : Z) : exec Z :=
  if n <? 64 then Ret (wrap64 (Z.shiftl x n)) else Undef.
Definition shr64 (x n : Z) : exec Z :=
  if n <? 64 then Ret (Z.shiftr x n) else Undef.

(** * Little-endian memory *)

(** A byte store: an address with no entry holds 0, which is what the
    [memset] of a fresh state leaves there. *)
Abbreviation bytes := (gmap Z Z).

Definition get8 (m : bytes) (a : Z) : Z := default 0 (m !! a).

Fixpoint le_bytes (n : nat) (v : Z) : list Z :=
  match n with
  | O => []
  | S n' => v mod 256 :: le_bytes n' (v / 256)
  end.

Fixpoint le_value (l : list Z) : Z :=
  match l with
  | [] => 0
  | b :: l' => b + 256 * le_value l'
  end.

(** [memcpy] out of and into the store. *)
Fixpoint load_bytes (m : bytes) (a : Z) (n : nat) : list Z :=
  match n with
  | O => []
  | S n' => get8 m a :: load_bytes m (a + 1) n'
  end.

Fixpoint store_bytes (m : bytes) (a : Z) (l : list Z) : bytes :=
  match l with
  | [] => m
  | b :: l' => store_bytes (<[a := b]> m) (a + 1) l'
  end.

Definition load (n : nat) (m : bytes) (a : Z) : Z := le_value (load_bytes m a n).
Definition store (n : nat) (m : bytes) (a v : Z) : bytes :=
  store_bytes m a (le_bytes n v).

(** Every byte of the store is a byte. *)
Definition byte_store (m : bytes) : Prop := ∀ a b, m !! a = Some b -> u8 b.

(** * Hint databases of the development *)

Create HintDb aether.
Create HintDb bits.

(** Splits boolean tests of the code into the propositions they decide. *)
Ltac bsplit :=
  repeat match goal with
  | H : _ && _ = true |- _ => apply andb_true_iff in H; destruct H
  | H : _ || _ = false |- _ => apply orb_false_iff in H; destruct H
  | H : (_ =? _)%Z = true |- _ => apply Z.eqb_eq in H
  | H : (_ =? _)%Z = false |- _ => apply Z.eqb_neq in H
  | H : (_ <? _)%Z = true |- _ => apply Z.ltb_lt in H
  | H : (_ <? _)%Z = false |- _ => apply Z.ltb_ge in H
  | H : (_ <=? _)%Z = true |- _ => apply Z.leb_le in H
  | H : (_ <=? _)%Z = false |- _ => apply Z.leb_gt in H
  | H : negb _ = true |- _ => apply negb_true_iff in H
  | H : negb _ = false |- _ => apply negb_false_iff in H
  end.

(** Finds an element of an explicit list. *)
Ltac in_list := repeat (apply list_elem_of_here || apply list_elem_of_further).

(** Case analysis on the first boolean comparison of the goal. *)
Ltac zcase :=
  match goal with
  | |- context [(?a =? ?b)%Z] => destruct (Z.eqb_spec a b)
  | |- context [(?a <? ?b)%Z] => destruct (Z.ltb_spec a b)
  | |- context [(?a <=? ?b)%Z] => destruct (Z.leb_spec a b)
  end.

(** Peels one monadic step of an hypothesis [e ≫= f = Ret r]. *)
Ltac bind_inv H :=
  match type of H with
  | mbind _ ?e = Ret _ =>
      let E := fresh "E" in destruct e eqn:E; simpl in H; try discriminate H
  end.

(** * Lemmas on machine integers *)

Lemma pow2_pos n : 0 <= n -> 0 < 2 ^ n.
Proof. intros. apply Z.pow_pos_nonneg; lia. Qed.

Lemma wrap_fits w z : 0 <= w -> fits w (wrap w z).
Proof. intros. apply Z.mod_pos_bound, pow2_pos; lia. Qed.

Lemma wrap_small w z : fits w z -> wrap w z = z.
Proof. intros. by apply Z.mod_small. Qed.

Lemma wrap_wrap w z : wrap w (wrap w z) = wrap w z.
Proof. apply Zmod_mod. Qed.

Lemma wrap_add_l w a b : wrap w (wrap w a + b) = wrap w (a + b).
Proof. apply Zplus_mod_idemp_l. Qed.

Lemma wrap_add_r w a b : wrap w (a + wrap w b) = wrap w (a + b).
Proof. apply Zplus_mod_idemp_r. Qed.

Lemma wrap_sub_l w a b : wrap w (wrap w a - b) = wrap w (a - b).
Proof. apply Zminus_mod_idemp_l. Qed.

Lemma wrap_sub_r w a b : wrap w (a - wrap w b) = wrap w (a - b).
Proof. apply Zminus_mod_idemp_r. Qed.

Lemma wrap_mul_r w a b : wrap w (a * wrap w b) = wrap w (a * b).
Proof. apply Zmult_mod_idemp_r. Qed.

Lemma land_mask x n : 0 <= n -> Z.land x (2 ^ n - 1) = x mod 2 ^ n.
Proof. intros. rewrite <- Z.land_ones by lia. by rewrite Z.ones_equiv, Z.sub_1_r. Qed.

Lemma fits_mono w w' z : w <= w' -> fits w z -> fits w' z.
Proof.
  unfold fits. intros Hw [H1 H2]. split; [lia|].
  apply Z.lt_le_trans with (2 ^ w); [lia|].
  apply Z.pow_le_mono_r; lia.
Qed.

Lemma testbit_fits w z n : fits w z -> w <= n -> Z.testbit z n = false.
Proof.
  unfold fits. intros [H1 H2] Hn.
  destruct (decide (0 <= w)); [|rewrite Z.pow_neg_r in H2; lia].
  rewrite <- (Z.mod_small z (2 ^ w)) by lia. apply Z.mod_pow2_bits_high. lia.
Qed.

Lemma shiftr_fits w z n : 0 <= n -> fits w z -> fits w (Z.shiftr z n).
Proof.
  unfold fits. intros Hn [H1 H2]. rewrite Z.shiftr_div_pow2 by lia.
  pose proof (pow2_pos n Hn). split; [by apply Z.div_pos|].
  apply Z.le_lt_trans with z; [|lia]. apply Z.div_le_upper_bound; nia.
Qed.

Lemma bits_fits w z :
  0 <= w -> 0 <= z -> (∀ n, w <= n -> Z.testbit z n = false) -> fits w z.
Proof.
  intros Hw Hz Hb. assert (z mod 2 ^ w = z) as <-; [|by apply wrap_fits].
  apply Z.bits_inj'. intros n Hn. destruct (decide (n < w)).
  - by rewrite Z.mod_pow2_bits_low by lia.
  - rewrite Z.mod_pow2_bits_high by lia. symmetry. apply Hb. lia.
Qed.

Lemma lor_fits w a b : 0 <= w -> fits w a -> fits w b -> fits w (Z.lor a b).
Proof.
  intros Hw Ha Hb. apply bits_fits; [done| |].
  - apply Z.lor_nonneg. by destruct Ha, Hb.
  - intros n Hn. by rewrite Z.lor_spec, (testbit_fits w a), (testbit_fits w b).
Qed.

Lemma lxor_fits w a b : 0 <= w -> fits w a -> fits w b -> fits w (Z.lxor a b).
Proof.
  intros Hw Ha Hb. apply bits_fits; [done| |].
  - apply Z.lxor_nonneg. unfold fits in *. lia.
  - intros n Hn. by rewrite Z.lxor_spec, (testbit_fits w a), (testbit_fits w b).
Qed.

Lemma land_fits_r w a b : 0 <= w -> fits w b -> fits w (Z.land a b).
Proof.
  intros Hw Hb. apply bits_fits; [done| |].
  - apply Z.land_nonneg. right. apply Hb.
  - intros n Hn. by rewrite Z.land_spec, (testbit_fits w b), andb_false_r.
Qed.

Lemma land_fits_l w a b : 0 <= w -> fits w a -> fits w (Z.land a b).
Proof. intros. rewrite Z.land_comm. by apply land_fits_r. Qed.

#[export] Hint Resolve wrap_fits shiftr_fits lor_fits lxor_fits land_fits_l
  land_fits_r : bits.

(** * Lemmas on the little-endian store *)

Lemma le_bytes_length n v : length (le_bytes n v) = n.
Proof. revert v. induction n; intros; simpl; auto. Qed.

Lemma le_bytes_u8 n v : Forall u8 (le_bytes n v).
Proof.
  revert v. induction n; intros v; simpl; constructor; [|done].
  apply (wrap_fits 8 v). lia.
Qed.

Lemma pow2_S8 (n : nat) : 2 ^ (8 * Z.of_nat (S n)) = 256 * 2 ^ (8 * Z.of_nat n).
Proof.
  replace (8 * Z.of_nat (S n)) with (8 + 8 * Z.of_nat n) by lia.
  by rewrite Z.pow_add_r by lia.
Qed.

Lemma le_value_bytes n v : le_value (le_bytes n v) = v mod 2 ^ (8 * Z.of_nat n).
Proof.
  revert v. induction n as [|n IH]; intros v; cbn [le_bytes le_value].
  - by rewrite Z.mod_1_r.
  - rewrite IH, pow2_S8.
    pose proof (pow2_pos (8 * Z.of_nat n)).
    rewrite Z.rem_mul_r by lia. lia.
Qed.

Lemma le_value_fits l : Forall u8 l -> fits (8 * Z.of_nat (length l)) (le_value l).
Proof.
  induction 1 as [|b l Hb Hl IH]; unfold fits in *; cbn [le_value length].
  - lia.
  - rewrite pow2_S8. lia.
Qed.

Lemma le_bytes_value l : Forall u8 l -> le_bytes (length l) (le_value l) = l.
Proof.
  induction 1 as [|b l Hb Hl IH]; [done|].
  cbn [le_value length le_bytes]. unfold fits in Hb. f_equal.
  - rewrite (Z.mul_comm 256), Z.mod_add by lia. by apply Z.mod_small.
  - rewrite (Z.mul_comm 256), Z.div_add by lia. by rewrite Z.div_small, Z.add_0_l by lia.
Qed.

Lemma le_value_app l l' :
  le_value (l ++ l') = le_value l + 2 ^ (8 * Z.of_nat (length l)) * le_value l'.
Proof.
  induction l as [|b l IH].
  - cbn [app le_value length]. change (8 * Z.of_nat 0) with 0. lia.
  - cbn [app le_value length]. rewrite IH, pow2_S8. lia.
Qed.

Lemma load_bytes_length m a n : length (load_bytes m a n) = n.
Proof. revert a. induction n; intros; simpl; auto. Qed.

Lemma get8_insert m a b a' :
  get8 (<[a := b]> m) a' = if decide (a = a') then b else get8 m a'.
Proof. unfold get8. rewrite lookup_insert. by case_decide. Qed.

Lemma get8_store_bytes l : ∀ m a x,
  get8 (store_bytes m a l) x =
  if decide (a <= x < a + Z.of_nat (length l))
  then default 0 (l !! Z.to_nat (x - a)) else get8 m x.
Proof.
  induction l as [|b l IH]; intros m a x; cbn [store_bytes length].
  - rewrite decide_False by lia. done.
  - rewrite IH, get8_insert.
    destruct (decide (a = x)) as [->|Hne].
    + rewrite decide_False by lia. rewrite decide_True by lia.
      by replace (Z.to_nat (x - x)) with O by lia.
    + destruct (decide (a + 1 <= x < a + 1 + Z.of_nat (length l))).
      * rewrite decide_True by lia.
        by replace (Z.to_nat (x - a)) with (S (Z.to_nat (x - (a + 1)))) by lia.
      * by rewrite decide_False by lia.
Qed.

Lemma load_bytes_ext m m' n : ∀ a,
  (∀ x, a <= x < a + Z.of_nat n -> get8 m x = get8 m' x) ->
  load_bytes m a n = load_bytes m' a n.
Proof.
  induction n as [|n IH]; intros a H; [done|]. cbn [load_bytes].
  f_equal; [apply H; lia|]. apply IH. intros. apply H. lia.
Qed.

Lemma load_bytes_lookup m n : ∀ a (i : nat),
  (i < n)%nat -> load_bytes m a n !! i = Some (get8 m (a + Z.of_nat i)).
Proof.
  induction n as [|n IH]; intros a i Hi; [lia|]. cbn [load_bytes].
  destruct i as [|i]; [by rewrite Z.add_0_r|]. simpl. rewrite IH by lia.
  do 2 f_equal. lia.
Qed.

Lemma load_store_bytes m a l : load_bytes (store_bytes m a l) a (length l) = l.
Proof.
  apply list_eq. intros i. destruct (decide (i < length l)%nat).
  - rewrite load_bytes_lookup, get8_store_bytes by done.
    rewrite decide_True by lia. replace (Z.to_nat _) with i by lia.
    by destruct (lookup_lt_is_Some_2 l i) as [b ->].
  - rewrite (proj2 (lookup_ge_None l i)) by lia.
    apply lookup_ge_None. rewrite load_bytes_length. lia.
Qed.

Lemma load_store_bytes_disjoint m a l a' n :
  a' + Z.of_nat n <= a \/ a + Z.of_nat (length l) <= a' ->
  load_bytes (store_bytes m a l) a' n = load_bytes m a' n.
Proof.
  intros H. apply load_bytes_ext. intros x Hx.
  rewrite get8_store_bytes. by rewrite decide_False by lia.
Qed.

(** Reading back what was written. *)
Lemma load_store n m a v : load n (store n m a v) a = v mod 2 ^ (8 * Z.of_nat n).
Proof.
  unfold load, store.
  rewrite <- (le_bytes_length n v) at 2. by rewrite load_store_bytes, le_value_bytes.
Qed.

(** A write leaves every disjoint read alone. *)
Lemma load_store_disjoint n n' m a a' v :
  a' + Z.of_nat n' <= a \/ a + Z.of_nat n <= a' ->
  load n' (store n m a v) a' = load n' m a'.
Proof.
  intros H. unfold load, store.
  rewrite load_store_bytes_disjoint; [done|]. rewrite le_bytes_length. done.
Qed.

Lemma byte_store_empty : byte_store ∅.
Proof. intros a b H. by rewrite lookup_empty in H. Qed.

Lemma byte_store_bytes m a l :
  byte_store m -> Forall u8 l -> byte_store (store_bytes m a l).
Proof.
  intros Hm Hl. revert m a Hm. induction Hl as [|b l Hb Hl IH]; intros; [done|].
  simpl. apply IH. intros a' b' H. rewrite lookup_insert in H.
  case_decide; simplify_eq; eauto.
Qed.

Lemma byte_store_store n m a v : byte_store m -> byte_store (store n m a v).
Proof. intros. apply byte_store_bytes; [done|]. apply le_bytes_u8. Qed.

Lemma get8_u8 m a : byte_store m -> u8 (get8 m a).
Proof.
  intros Hm. unfold get8. destruct (m !! a) eqn:E; simpl; [eauto|]. done.
Qed.

Lemma load_bytes_u8 m a n : byte_store m -> Forall u8 (load_bytes m a n).
Proof. intros. revert a. induction n; intros; simpl; constructor; auto using get8_u8. Qed.

Lemma load_fits n m a : byte_store m -> fits (8 * Z.of_nat n) (load n m a).
Proof.
  intros H. unfold load. pose proof (le_value_fits _ (load_bytes_u8 m a n H)) as F.
  by rewrite load_bytes_length in F.
Qed.

#[export] Hint Resolve byte_store_empty byte_store_store get8_u8 load_fits : aether.

(** * Lemmas on lists and on [switch] *)

Lemma switch_Some {A} v (cs : list (Z * A)) a : switch v cs = Some a -> (v, a) ∈ cs.
Proof.
  induction cs as [|[k b] cs IH]; simpl; [done|]. zcase; intros; simplify_eq.
  - apply list_elem_of_here.
  - apply list_elem_of_further. auto.
Qed.

Lemma switch_None {A} v (cs : list (Z * A)) : switch v cs = None <-> v ∉ cs.*1.
Proof.
  induction cs as [|[k b] cs IH]; simpl.
  - split; [intros _; apply not_elem_of_nil|done].
  - rewrite not_elem_of_cons, <- IH. zcase; split; intros; destruct_and?; done || by split.
Qed.

Lemma switch_elem {A} v (cs : list (Z * A)) a : NoDup cs.*1 -> (v, a) ∈ cs -> switch v cs = Some a.
Proof.
  induction cs as [|[k b] cs IH]; cbn [fmap list_fmap fst]; intros Hnd He.
  - by apply elem_of_nil in He.
  - apply NoDup_cons in Hnd as [Hk Hnd]. cbn [switch]. apply elem_of_cons in He as [[= -> ->]|He].
    + by rewrite Z.eqb_refl.
    + destruct (Z.eqb_spec v k) as [->|]; [|by apply IH].
      exfalso. apply Hk. apply (list_elem_of_fmap_2 fst _ (k, a) He).
Qed.

(** Two switches on the same labels, with related cases. *)
Lemma switch_rel {A B} (R : Z -> A -> B -> Prop) v (cs : list (Z * A)) (ds : list (Z * B)) :
  Forall2 (fun c d => c.1 = d.1 ∧ R c.1 c.2 d.2) cs ds ->
  match switch v cs, switch v ds with
  | Some a, Some b => R v a b
  | None, None => True
  | _, _ => False
  end.
Proof.
  induction 1 as [|[k a] [k' b] cs ds [Hk HR] _ IH]; [done|]. cbn in *. subst k'.
  by destruct (Z.eqb_spec v k) as [->|].
Qed.

(** Cases whose labels are all below the scrutinee are passed over. *)
Lemma switch_skip {A} v b (l l' : list (Z * A)) :
  bool_decide (Forall (fun c => c.1 < b) l) = true -> b <= v ->
  switch v (l ++ l') = switch v l'.
Proof.
  rewrite bool_decide_eq_true. intros Hl Hb. induction Hl as [|[k a] l Hk Hl IH]; [done|].
  simpl in *. rewrite (proj2 (Z.eqb_neq v k)) by lia. done.
Qed.

(** The [i]-th block of a concatenation, between what precedes and follows. *)
Lemma join_split {A B} (g : A -> list B) (l : list A) (i : nat) x :
  l !! i = Some x ->
  mjoin (g <$> l) = mjoin (g <$> take i l) ++ g x ++ mjoin (g <$> drop (S i) l).
Proof.
  intros Hi. rewrite <- (take_drop_middle l i x Hi) at 1. by rewrite fmap_app, join_app.
Qed.

Lemma join_length {A B} (g : A -> list B) (l : list A) n :
  (∀ x, x ∈ l -> length (g x) = n) -> length (mjoin (g <$> l)) = (n * length l)%nat.
Proof.
  intros Hg. induction l as [|x l IH]; [simpl; lia|].
  change (mjoin (g <$> x :: l)) with (g x ++ mjoin (g <$> l)).
  rewrite length_app, Hg by apply list_elem_of_here.
  rewrite IH; [simpl; lia|]. intros y Hy. by apply Hg, list_elem_of_further.
Qed.

Lemma exec_rel_bind {A B C D} (R : A -> B -> Prop) (Q : C -> D -> Prop) e e' f f' :
  exec_rel R e e' -> (∀ a b, R a b -> exec_rel Q (f a) (f' b)) -> exec_rel Q (e ≫= f) (e' ≫= f').
Proof. intros [a b Hab| |] Hf; cbn; [by apply Hf|constructor..]. Qed.

Lemma exec_rel_refl {A} (R : A -> A -> Prop) e : (∀ a, R a a) -> exec_rel R e e.
Proof. intros. destruct e; by constructor. Qed.

Lemma mapE_length {A B} (f : A -> exec B) l r : mapE f l = Ret r -> length r = length l.
Proof.
  revert r. induction l as [|x l IH]; intros r H; simpl in H; [by simplify_eq|].
  bind_inv H. bind_inv H. simplify_eq. simpl. f_equal. auto.
Qed.
