(* ===== verification/Utils.v ===== *)
(** The header-only utilities of include/Utils.h and [string_view_split] of
    src/Utils.cpp: branchless binary search, alignment, the one-byte
    Fibonacci hashes behind the opcode caches, the 128-bit opcode key. *)
From Stdlib Require Import ZArith Lia List Sorting.Sorted.
From stdpp Require Import base list gmap.
From S2P Require Import Prelude.

(** * Binary search *)

Section BinarySearch.
Context {T : Type}.
(** [ltb] is the [operator<] of the element type; [rd i] is what lies at
    index [i] behind the array pointer, [None] outside the object. *)
Variable ltb : T -> T -> bool.
Variable rd : nat -> option T.

(** The loop of [binary_search]; the fuel bounds its iterations. *)
Fixpoint bs_loop (fuel : nat) (key : T) (base size : nat) : exec nat :=
  match fuel with
  | O => Ret base
  | S fuel' =>
      if (size <=? 1)%nat then Ret base
      else
        let half := (size / 2)%nat in
        x ← of_option Undef (rd (base + half - 1)%nat);
        bs_loop fuel' key (if ltb x key then (base + half)%nat else base) (size - half)%nat
  end.

Definition binary_search (size : nat) (key : T) : exec nat :=
  base ← bs_loop size key 0%nat size;
  x ← of_option Undef (rd base);
  Ret (if ltb x key then (base + 1)%nat else base).

(** [is_exact]: the element found is in the array and equal to the key. *)
Definition is_exact (eqb : T -> T -> bool) (found size : nat) (key : T) : exec bool :=
  if (found =? size)%nat then Ret false
  else x ← of_option Undef (rd found); Ret (eqb x key).

(** [q] splits the array in the elements below [key] and the others. *)
Definition split_point (size : nat) (key : T) (q : nat) : Prop :=
  (q <= size)%nat ∧
  ∀ i, (i < size)%nat -> ∃ x, rd i = Some x ∧ ltb x key = bool_decide (i < q)%nat.

Lemma bs_loop_spec q key n fuel : ∀ base size,
  split_point n key q -> (size <= fuel)%nat -> (1 <= size)%nat ->
  (base + size <= n)%nat -> (base <= q <= base + size)%nat ->
  ∃ b, bs_loop fuel key base size = Ret b ∧ (b < n)%nat ∧ (b <= q <= b + 1)%nat.
Proof.
  intros base size Hq. revert base size.
  induction fuel as [|fuel IH]; intros base size Hf Hs Hn Hb; [lia|].
  cbn [bs_loop]. destruct (Nat.leb_spec size 1) as [Hle|Hgt].
  { exists base. split; [done|]. lia. }
  pose proof (Nat.div_mod_eq size 2). pose proof (Nat.mod_upper_bound size 2).
  assert (1 <= size / 2)%nat by (apply Nat.div_le_lower_bound; lia).
  generalize dependent (size / 2)%nat. intros half Hd Hh.
  destruct (proj2 Hq (base + half - 1)%nat) as (x & Hx & Hlt); [lia|].
  rewrite Hx. simpl. rewrite Hlt.
  case_bool_decide; apply IH; lia.
Qed.

Lemma binary_search_split size key q :
  (0 < size)%nat -> split_point size key q -> binary_search size key = Ret q.
Proof.
  intros Hs Hq. unfold binary_search.
  destruct (bs_loop_spec q key size size 0 size) as (b & -> & Hb & Hbq);
    [done|lia|lia|lia|destruct Hq; lia|].
  simpl. destruct (proj2 Hq b Hb) as (x & -> & Hlt). simpl. rewrite Hlt.
  case_bool_decide; f_equal; lia.
Qed.
End BinarySearch.

(** Search in an array ordered by an integer key, which is how every
    [operator<] searched with in the code compares. *)
Section KeyedSearch.
Context {T : Type} (key_of : T -> Z).

Definition key_ltb (x y : T) : bool := key_of x <? key_of y.
Definition key_eqb (x y : T) : bool := key_of x =? key_of y.

(** The array pointed to is [arr] and nothing is known beyond it. *)
Definition arr_rd (arr : list T) (i : nat) : option T := arr !! i.

Definition key_sorted (arr : list T) : Prop :=
  ∀ (i j : nat) x y, (i <= j)%nat -> arr !! i = Some x -> arr !! j = Some y ->
    key_of x <= key_of y.

(** How many elements are below the key. *)
Fixpoint rank (arr : list T) (k : Z) : nat :=
  match arr with
  | [] => 0
  | x :: arr' => if key_of x <? k then S (rank arr' k) else 0
  end.

Lemma key_sorted_tail x arr : key_sorted (x :: arr) -> key_sorted arr.
Proof. intros H i j y z Hij Hi Hj. apply (H (S i) (S j)); [lia|done..]. Qed.

Lemma rank_split arr key :
  key_sorted arr ->
  split_point key_ltb (arr_rd arr) (length arr) key (rank arr (key_of key)).
Proof.
  unfold split_point, arr_rd, key_ltb. induction arr as [|x arr IH]; intros Hs.
  { simpl. split; [lia|]. intros. lia. }
  specialize (IH (key_sorted_tail _ _ Hs)). destruct IH as [Hle Hall]. simpl.
  destruct (Z.ltb_spec (key_of x) (key_of key)) as [Hlt|Hge]; (split; [lia|]); intros i Hi.
  - destruct i as [|i].
    + exists x. split; [done|]. rewrite bool_decide_true by lia. by apply Z.ltb_lt.
    + destruct (Hall i) as (y & Hy & Hyk); [simpl in Hi; lia|]. exists y. split; [done|].
      rewrite Hyk. apply bool_decide_ext. lia.
  - destruct (lookup_lt_is_Some_2 (x :: arr) i) as [y Hy]; [simpl; lia|].
    exists y. split; [done|]. rewrite bool_decide_false by lia.
    apply Z.ltb_ge. pose proof (Hs 0%nat i x y ltac:(lia) eq_refl Hy). lia.
Qed.

(** The search returns the lower bound: everything before it is below the
    key, nothing from it on is. *)
Lemma binary_search_rank arr key :
  arr <> [] -> key_sorted arr ->
  binary_search key_ltb (arr_rd arr) (length arr) key = Ret (rank arr (key_of key)).
Proof.
  intros Hne Hs. apply binary_search_split; [|by apply rank_split].
  destruct arr; [done|simpl; lia].
Qed.

Lemma rank_le arr k : (rank arr k <= length arr)%nat.
Proof. induction arr as [|x arr IH]; simpl; [lia|]. zcase; lia. Qed.

Lemma rank_lookup arr k (i : nat) x :
  key_sorted arr -> arr !! i = Some x -> key_of x < k <-> (i < rank arr k)%nat.
Proof.
  revert i. induction arr as [|y arr IH]; intros i Hs Hi; [done|]. simpl.
  destruct (Z.ltb_spec (key_of y) k) as [Hlt|Hge].
  - destruct i as [|i]; simpl in Hi; [simplify_eq; lia|].
    rewrite (IH i (key_sorted_tail _ _ Hs) Hi). lia.
  - pose proof (Hs 0%nat i y x ltac:(lia) eq_refl Hi). lia.
Qed.

(** With strictly increasing keys the element holding the key sits at the
    key's rank. *)
Lemma rank_found arr (i : nat) x :
  (∀ (a b : nat) y z, (a < b)%nat -> arr !! a = Some y -> arr !! b = Some z ->
     key_of y < key_of z) ->
  arr !! i = Some x -> rank arr (key_of x) = i.
Proof.
  intros Hs. revert i Hs. induction arr as [|y arr IH]; intros i Hs Hi; [done|]. simpl.
  destruct i as [|i]; simpl in Hi; simplify_eq.
  - by rewrite Z.ltb_irrefl.
  - pose proof (Hs 0%nat (S i) y x ltac:(lia) eq_refl Hi).
    rewrite (proj2 (Z.ltb_lt _ _)) by done. f_equal. apply IH; [|done].
    intros a b u v Hab Ha Hb. by apply (Hs (S a) (S b)); [lia|..].
Qed.

Lemma strict_sorted arr :
  (∀ (a b : nat) y z, (a < b)%nat -> arr !! a = Some y -> arr !! b = Some z ->
     key_of y < key_of z) -> key_sorted arr.
Proof.
  intros Hs i j x y Hij Hi Hj. destruct (decide (i = j)) as [->|]; [simplify_eq; lia|].
  pose proof (Hs i j x y ltac:(lia) Hi Hj). lia.
Qed.
End KeyedSearch.

(** * Alignment, on a [size_t] *)

Definition align_up (value align_size : Z) : Z :=
  Z.land (wrap64 (value + align_size - 1)) (wrap64 (Z.lnot (wrap64 (align_size - 1)))).

Definition align_down (value align_size : Z) : Z :=
  Z.land value (wrap64 (Z.lnot (wrap64 (align_size - 1)))).

(** * One-byte Fibonacci hashes *)

Definition K16 : Z := 40503.
Definition K32 : Z := 2654435769.
Definition K64 : Z := 11400714819323198485.

Definition fib_hash8_u8 (x : Z) : exec Z := Ret x.

(** The product is computed in [int], where overflow is undefined. *)
Definition fib_hash8_u16 (x : Z) : exec Z :=
  if x * K16 <? 2 ^ 31 then Ret (wrap8 (Z.shiftr (x * K16) 8)) else Undef.

Definition fib_hash8_u32 (x : Z) : exec Z := Ret (wrap8 (Z.shiftr (wrap32 (x * K32)) 24)).

Definition fib_hash8_u64 (x : Z) : exec Z := Ret (wrap8 (Z.shiftr (wrap64 (x * K64)) 56)).

(** ** The 128-bit key *)

Record uint128_var_t := U128 { low : Z; high : Z }.

#[export] Instance uint128_eq_dec : EqDecision uint128_var_t.
Proof. solve_decision. Defined.

(** [operator<=>]: the high words decide, then the low words. *)
Definition u128_compare (x y : uint128_var_t) : comparison :=
  match high x ?= high y with
  | Eq => low x ?= low y
  | c => c
  end.

Definition fib_hash8_u128 (x : uint128_var_t) : exec Z :=
  let combined := Z.lxor (low x) (high x) in
  Ret (wrap8 (Z.shiftr (wrap64 (combined * K64)) 56)).

(** The number the two words hold, and the key [memcpy]d from raw bytes. *)
Definition u128_value (x : uint128_var_t) : Z := low x + 2 ^ 64 * high x.
Definition u128_of_bytes (l : list Z) : uint128_var_t :=
  U128 (le_value (take 8 l)) (le_value (take 8 (drop 8 l))).

(** * Splitting a string at a delimiter *)

Section Split.
Context {A : Type} `{EqDecision A}.

(** [str.find(delimiter, start)]. *)
Fixpoint index_of (d : A) (l : list A) : option nat :=
  match l with
  | [] => None
  | c :: l' => if decide (c = d) then Some 0%nat else S <$> index_of d l'
  end.
Definition sv_find (d : A) (str : list A) (start : nat) : option nat :=
  (fun i => (start + i)%nat) <$> index_of d (drop start str).

Definition substr (str : list A) (pos n : nat) : list A := take n (drop pos str).

Fixpoint split_loop (fuel : nat) (str : list A) (d : A) (result : list (list A))
    (start : nat) (end_ : option nat) : list (list A) :=
  match end_, fuel with
  | Some e, S fuel' =>
      split_loop fuel' str d (result ++ [substr str start (e - start)])
        (e + 1)%nat (sv_find d str (e + 1)%nat)
  | _, _ => result ++ [drop start str]
  end.

Definition string_view_split (str : list A) (d : A) : list (list A) :=
  split_loop (length str) str d [] 0%nat (sv_find d str 0%nat).

(** The inverse: the pieces with the delimiter between them. *)
Fixpoint join (d : A) (pieces : list (list A)) : list A :=
  match pieces with
  | [] => []
  | [p] => p
  | p :: ps => p ++ d :: join d ps
  end.

Lemma index_of_Some d l n :
  index_of d l = Some n -> (d ∉ take n l) ∧ (drop n l = d :: drop (S n) l) ∧ (n < length l)%nat.
Proof.
  revert n. induction l as [|c l IH]; intros n H; simpl in H; [done|].
  case_decide; simplify_eq.
  - simpl. rewrite drop_0. split_and!; [apply not_elem_of_nil|done|lia].
  - destruct (index_of d l) as [m|]; simpl in H; simplify_eq.
    destruct (IH m eq_refl) as (H1 & H2 & H3).
    simpl. split_and!; [by rewrite not_elem_of_cons|done|lia].
Qed.

Lemma index_of_None d l : index_of d l = None -> d ∉ l.
Proof.
  induction l as [|c l IH]; simpl; [intros _; apply not_elem_of_nil|].
  case_decide; [done|]. destruct (index_of d l); [done|]. rewrite not_elem_of_cons. auto.
Qed.

Lemma split_loop_spec d str fuel : ∀ result start,
  (length str - start <= fuel)%nat ->
  ∃ ps, split_loop fuel str d result start (sv_find d str start) = result ++ ps ∧
    ps <> [] ∧ join d ps = drop start str ∧ Forall (λ p, d ∉ p) ps.
Proof.
  induction fuel as [|fuel IH]; intros result start Hf; unfold sv_find;
    destruct (index_of d (drop start str)) as [n|] eqn:E; cbn [fmap option_fmap option_map];
    try (exists [drop start str]; split_and!; [done|done|done|
      repeat constructor; by apply index_of_None]).
  - apply index_of_Some in E as (_ & _ & E). rewrite length_drop in E. lia.
  - apply index_of_Some in E as (E1 & E2 & E3). rewrite length_drop in E3.
    cbn [split_loop].
    destruct (IH (result ++ [substr str start (start + n - start)]) (start + n + 1)%nat)
      as (ps & -> & Hne & Hj & Hd); [lia|].
    exists (take n (drop start str) :: ps). split_and!.
    + rewrite <- app_assoc. unfold substr. simpl. do 3 f_equal. lia.
    + done.
    + assert (drop (start + n + 1) str = drop (S n) (drop start str)) as Hdr.
      { rewrite drop_drop. f_equal. lia. }
      rewrite Hdr in Hj. destruct ps as [|p ps]; [done|].
      cbn [join] in Hj |- *. rewrite Hj, <- E2. apply take_drop.
    + by constructor.
Qed.
End Split.

(** * Lemmas *)

Lemma lnot_mask64 n : 0 <= n <= 64 -> ∀ i, 0 <= i ->
  Z.testbit (wrap64 (Z.lnot (wrap64 (2 ^ n - 1)))) i = (n <=? i) && (i <? 64).
Proof.
  intros Hn i Hi. rewrite (wrap_small 64 (2 ^ n - 1)).
  2:{ split; [pose proof (pow2_pos n); lia|]. pose proof (Z.pow_le_mono_r 2 n 64). lia. }
  destruct (Z.ltb_spec i 64).
  - unfold wrap. rewrite Z.mod_pow2_bits_low, Z.lnot_spec by lia.
    rewrite Z.sub_1_r, <- Z.ones_equiv. rewrite Z.testbit_ones by lia.
    rewrite andb_true_r. zcase; zcase; simpl; try lia; zcase; simpl; lia || done.
  - unfold wrap. rewrite Z.mod_pow2_bits_high by lia. by rewrite andb_false_r.
Qed.

(** Clearing the low [n] bits rounds down to a multiple of [2 ^ n]. *)
Lemma land_lnot_mask x n :
  0 <= n <= 64 -> u64 x ->
  Z.land x (wrap64 (Z.lnot (wrap64 (2 ^ n - 1)))) = 2 ^ n * (x / 2 ^ n).
Proof.
  intros Hn Hx. rewrite (Z.mul_comm (2 ^ n)), <- Z.shiftr_div_pow2, <- Z.shiftl_mul_pow2 by lia.
  apply Z.bits_inj'. intros i Hi. rewrite Z.land_spec, lnot_mask64 by lia.
  rewrite Z.shiftl_spec by lia.
  destruct (Z.leb_spec n i).
  - rewrite Z.shiftr_spec by lia. replace (i - n + n) with i by lia.
    destruct (Z.ltb_spec i 64); [by rewrite andb_true_r|].
    by rewrite (testbit_fits 64 x) by done.
  - rewrite (Z.testbit_neg_r _ (i - n)) by lia. by rewrite andb_false_r.
Qed.

Lemma u128_of_bytes_value l :
  Forall u8 l -> (length l <= 16)%nat -> u128_value (u128_of_bytes (l ++ replicate (16 - length l) 0)) = le_value l.
Proof.
  intros Hl Hn. unfold u128_value, u128_of_bytes; cbn [low high].
  set (l' := l ++ replicate (16 - length l) 0).
  assert (length l' = 16%nat) by (unfold l'; rewrite length_app, length_replicate; lia).
  assert (le_value l' = le_value l) as <-.
  { unfold l'. rewrite le_value_app.
    assert (∀ k, le_value (replicate k 0) = 0) as -> by (intros k; induction k; simpl; lia). lia. }
  rewrite <- (take_drop 8 l') at 3. rewrite le_value_app, length_take.
  rewrite (take_ge (drop 8 l')) by (rewrite length_drop; lia).
  by replace (8 `min` length l')%nat with 8%nat by lia.
Qed.

Lemma align_up_cases (v n : Z) :
  0 <= n < 64 -> u64 v ->
  (v <= 2 ^ 64 - 2 ^ n ->
     v <= align_up v (2 ^ n) < v + 2 ^ n ∧ (2 ^ n | align_up v (2 ^ n)) ∧
     align_down (align_up v (2 ^ n)) (2 ^ n) = align_up v (2 ^ n)) ∧
  (2 ^ 64 - 2 ^ n < v -> align_up v (2 ^ n) = 0).
Proof.
  intros Hn Hv. pose proof (pow2_pos n ltac:(lia)). unfold fits in Hv.
  pose proof (Z.pow_lt_mono_r 2 n 64 ltac:(lia) ltac:(lia) ltac:(lia)).
  unfold align_up, align_down.
  rewrite (land_lnot_mask (wrap64 (v + 2 ^ n - 1)) n) by (first [lia|apply wrap_fits; lia]).
  assert (Hd : ∀ x, 2 ^ n * (x / 2 ^ n) <= x < 2 ^ n * (x / 2 ^ n) + 2 ^ n).
  { intros x. pose proof (Z.div_mod x (2 ^ n)). pose proof (Z.mod_pos_bound x (2 ^ n)). lia. }
  split; intros Hv'.
  - rewrite wrap_small by (unfold fits; lia). specialize (Hd (v + 2 ^ n - 1)).
    assert (0 <= (v + 2 ^ n - 1) / 2 ^ n) by (apply Z.div_pos; lia).
    assert (u64 (2 ^ n * ((v + 2 ^ n - 1) / 2 ^ n))) by (unfold fits; nia).
    split_and!; [lia|lia|apply Z.divide_factor_l|].
    rewrite land_lnot_mask by (done || lia). f_equal. rewrite Z.mul_comm. by apply Z.div_mul; lia.
  - unfold wrap. replace (v + 2 ^ n - 1) with (v + 2 ^ n - 1 - 2 ^ 64 + 1 * 2 ^ 64) by lia.
    rewrite Z.mod_add by lia. rewrite Z.mod_small by lia.
    rewrite (Z.div_small (v + 2 ^ n - 1 - 2 ^ 64)) by lia. lia.
Qed.

Lemma Sorted_key_sorted {T} (k : T -> Z) l : Sorted (fun x y => k x <= k y) l -> key_sorted k l.
Proof.
  intros Hs. apply Sorted_StronglySorted in Hs; [|intros x y z; lia].
  induction Hs as [|x l Hl IH Hx]; intros i j y z Hij Hi Hj; [done|].
  destruct i as [|i], j as [|j]; simpl in Hi, Hj; simplify_eq; [lia| |lia|].
  - rewrite Forall_forall in Hx. apply Hx. by eapply list_elem_of_lookup_2.
  - apply (IH i j); [lia|done|done].
Qed.

Lemma key_sorted_fmap {A B} (f : A -> B) (k : B -> Z) l : key_sorted (fun x => k (f x)) l -> key_sorted k (f <$> l).
Proof.
  intros Hs i j x y Hij Hi Hj. rewrite list_lookup_fmap in Hi, Hj.
  apply fmap_Some in Hi as (x' & Hi & ->). apply fmap_Some in Hj as (y' & Hj & ->). by apply (Hs i j).
Qed.

(** * Properties *)

(** On a non-empty array ordered by its key, [binary_search] terminates,
    reads only inside the array and returns the lower bound of the key: the
    position before which every element is smaller and from which none is;
    [is_exact] then answers whether the key occurs in the array. *)
Theorem binary_search_lower_bound {T} (key_of : T -> Z) (arr : list T) (key : T) :
  arr <> [] -> key_sorted key_of arr ->
  ∃ p, binary_search (key_ltb key_of) (arr_rd arr) (length arr) key = Ret p ∧
    (p <= length arr)%nat ∧
    (∀ (i : nat) x, arr !! i = Some x -> key_of x < key_of key <-> (i < p)%nat) ∧
    is_exact (arr_rd arr) (key_eqb key_of) p (length arr) key =
      Ret (bool_decide (key_of key ∈ key_of <$> arr)).
Proof.
  intros Hne Hs. exists (rank key_of arr (key_of key)).
  split_and!; [by apply binary_search_rank|apply rank_le|
    intros; by apply rank_lookup|].
  set (p := rank key_of arr (key_of key)). unfold is_exact, arr_rd.
  pose proof (rank_le key_of arr (key_of key)) as Hp. fold p in Hp.
  destruct (Nat.eqb_spec p (length arr)) as [He|Hn].
  - rewrite bool_decide_false; [done|]. intros Hin.
    apply list_elem_of_fmap in Hin as (x & Hx & Hin).
    apply list_elem_of_lookup in Hin as [i Hi]. pose proof (lookup_lt_Some _ _ _ Hi).
    assert (key_of x < key_of key) by (apply (rank_lookup key_of arr _ i x); auto; lia). lia.
  - destruct (lookup_lt_is_Some_2 arr p) as [x Hx]; [lia|]. rewrite Hx. simpl. f_equal.
    unfold key_eqb. apply eq_true_iff_eq. rewrite bool_decide_eq_true, Z.eqb_eq.
    rewrite list_elem_of_fmap. split.
    + intros E. exists x. split; [done|]. apply list_elem_of_lookup. eauto.
    + intros (y & Hy & Hin). apply list_elem_of_lookup in Hin as [i Hi].
      assert (~ key_of x < key_of key) by (rewrite (rank_lookup key_of arr _ p x Hs Hx); fold p; lia).
      assert (~ key_of y < key_of key) as Hyk by lia.
      rewrite (rank_lookup key_of arr _ i y Hs Hi) in Hyk. fold p in Hyk.
      pose proof (Hs p i x y ltac:(lia) Hx Hi). lia.
Qed.

Theorem binary_search_witness :
  ∃ p, binary_search (key_ltb id) (arr_rd [16; 20; 24]) 3 20 = Ret p ∧ (p <= 3)%nat ∧
    (∀ (i : nat) x, [16; 20; 24] !! i = Some x -> x < 20 <-> (i < p)%nat) ∧
    is_exact (arr_rd [16; 20; 24]) (key_eqb id) p 3 20 =
      Ret (bool_decide (20 ∈ id <$> [16; 20; 24])).
Proof.
  apply (binary_search_lower_bound id [16; 20; 24] 20); [discriminate|].
  apply strict_sorted. intros a b y z Hab Ha Hb.
  destruct a as [|[|[|a]]], b as [|[|[|b]]]; simpl in *; simplify_eq; unfold id; lia.
Defined.

(** For a power-of-two alignment [align_up] returns the least multiple of
    it not below the value, as long as that multiple is representable in 64
    bits; otherwise the sum wraps and the result is 0. *)
Theorem align_up_least_multiple (v n : Z) :
  0 <= n < 64 -> u64 v ->
  (v <= 2 ^ 64 - 2 ^ n ->
     v <= align_up v (2 ^ n) < v + 2 ^ n ∧ (2 ^ n | align_up v (2 ^ n)) ∧
     align_down (align_up v (2 ^ n)) (2 ^ n) = align_up v (2 ^ n)) ∧
  (2 ^ 64 - 2 ^ n < v -> align_up v (2 ^ n) = 0).
Proof. exact (align_up_cases v n). Qed.

Theorem align_up_witness :
  (5000 <= align_up 5000 (2 ^ 12) < 5000 + 2 ^ 12 ∧ (2 ^ 12 | align_up 5000 (2 ^ 12)) ∧
     align_down (align_up 5000 (2 ^ 12)) (2 ^ 12) = align_up 5000 (2 ^ 12)) ∧
  align_up (2 ^ 64 - 1) (2 ^ 12) = 0.
Proof.
  split.
  - apply (align_up_least_multiple 5000 12); [lia|split; lia|lia].
  - apply (align_up_least_multiple (2 ^ 64 - 1) 12); [lia|split; lia|lia].
Defined.

(** C40: [string_view_split] loses nothing and splits everywhere: joining the
    pieces with the delimiter gives the string back and no piece contains the
    delimiter. *)
Theorem string_view_split_join {A} `{EqDecision A} (str : list A) (d : A) :
  join d (string_view_split str d) = str ∧
  Forall (λ p, d ∉ p) (string_view_split str d).
Proof.
  unfold string_view_split.
  destruct (split_loop_spec d str (length str) [] 0%nat) as (ps & -> & _ & Hj & Hd); [lia|].
  simpl. by rewrite Hj, drop_0.
Qed.

(** Comparing two 128-bit keys word by word, high word first, orders them
    as the 128-bit numbers they hold, and the comparison is [Eq] exactly on
    equal keys. *)
Theorem u128_compare_value (x y : uint128_var_t) :
  u64 (low x) -> u64 (high x) -> u64 (low y) -> u64 (high y) ->
  u128_compare x y = (u128_value x ?= u128_value y) ∧
  (u128_compare x y = Eq <-> x = y).
Proof.
  destruct x as [xl xh], y as [yl yh]; unfold u128_compare, u128_value, fits; cbn [low high].
  intros. destruct (Z.compare_spec xh yh) as [->|Hlt|Hgt].
  - split.
    + destruct (Z.compare_spec xl yl); symmetry;
        [apply Z.compare_eq_iff|apply Z.compare_lt_iff|apply Z.compare_gt_iff]; lia.
    + rewrite Z.compare_eq_iff. split; [by intros ->|by intros [= ->]].
  - split; [symmetry; apply Z.compare_lt_iff; nia|]. split; [done|intros [= -> ->]; lia].
  - split; [symmetry; apply Z.compare_gt_iff; nia|]. split; [done|intros [= -> ->]; lia].
Qed.

Theorem u128_compare_witness :
  u128_compare (U128 9 1) (U128 3 2) = (u128_value (U128 9 1) ?= u128_value (U128 3 2)) ∧
  (u128_compare (U128 9 1) (U128 3 2) = Eq <-> U128 9 1 = U128 3 2).
Proof. apply u128_compare_value; split; simpl; lia. Defined.
