(* ===== verification/Registers.v ===== *)
(** include/Register.h: the numbers behind [enum class Register], the 64-bit
    register value with its two flag layouts, and the 128-bit SIMD value. *)
From Stdlib Require Import ZArith Lia List.
From stdpp Require Import base list gmap.
From S2P Require Import Prelude.

(** * The enumerators

    An enumerator without an initializer is one more than the enumerator
    written before it, which for [RAX] is [RSP]: the x86_64 names restart at
    the number after [X31]. *)
Module Register.
Definition ZERO : Z := 0.
Definition PC : Z := ZERO + 1.
Definition X0 : Z := PC + 1.
Definition X1 : Z := X0 + 1.
Definition X2 : Z := X1 + 1.
Definition X3 : Z := X2 + 1.
Definition X4 : Z := X3 + 1.
Definition X5 : Z := X4 + 1.
Definition X6 : Z := X5 + 1.
Definition X7 : Z := X6 + 1.
Definition X8 : Z := X7 + 1.
Definition X9 : Z := X8 + 1.
Definition X10 : Z := X9 + 1.
Definition X11 : Z := X10 + 1.
Definition X12 : Z := X11 + 1.
Definition X13 : Z := X12 + 1.
Definition X14 : Z := X13 + 1.
Definition X15 : Z := X14 + 1.
Definition X16 : Z := X15 + 1.
Definition X17 : Z := X16 + 1.
Definition X18 : Z := X17 + 1.
Definition X19 : Z := X18 + 1.
Definition X20 : Z := X19 + 1.
Definition X21 : Z := X20 + 1.
Definition X22 : Z := X21 + 1.
Definition X23 : Z := X22 + 1.
Definition X24 : Z := X23 + 1.
Definition X25 : Z := X24 + 1.
Definition X26 : Z := X25 + 1.
Definition X27 : Z := X26 + 1.
Definition X28 : Z := X27 + 1.
Definition X29 : Z := X28 + 1.
Definition X30 : Z := X29 + 1.
Definition X31 : Z := X30 + 1.
Definition NZCV : Z := X31 + 1.
Definition Q0 : Z := NZCV + 1.
Definition Q1 : Z := Q0 + 1.
Definition Q2 : Z := Q1 + 1.
Definition Q3 : Z := Q2 + 1.
Definition Q4 : Z := Q3 + 1.
Definition Q5 : Z := Q4 + 1.
Definition Q6 : Z := Q5 + 1.
Definition Q7 : Z := Q6 + 1.
Definition Q8 : Z := Q7 + 1.
Definition Q9 : Z := Q8 + 1.
Definition Q10 : Z := Q9 + 1.
Definition Q11 : Z := Q10 + 1.
Definition Q12 : Z := Q11 + 1.
Definition Q13 : Z := Q12 + 1.
Definition Q14 : Z := Q13 + 1.
Definition Q15 : Z := Q14 + 1.
Definition Q16 : Z := Q15 + 1.
Definition Q17 : Z := Q16 + 1.
Definition Q18 : Z := Q17 + 1.
Definition Q19 : Z := Q18 + 1.
Definition Q20 : Z := Q19 + 1.
Definition Q21 : Z := Q20 + 1.
Definition Q22 : Z := Q21 + 1.
Definition Q23 : Z := Q22 + 1.
Definition Q24 : Z := Q23 + 1.
Definition Q25 : Z := Q24 + 1.
Definition Q26 : Z := Q25 + 1.
Definition Q27 : Z := Q26 + 1.
Definition Q28 : Z := Q27 + 1.
Definition Q29 : Z := Q28 + 1.
Definition Q30 : Z := Q29 + 1.
Definition Q31 : Z := Q30 + 1.
Definition FPSR : Z := Q31 + 1.
Definition FPCR : Z := FPSR + 1.
Definition FP : Z := X29.
Definition LR : Z := X30.
Definition SP : Z := X31.
Definition RIP : Z := PC.
Definition RBP : Z := FP.
Definition RSP : Z := SP.
Definition RAX : Z := RSP + 1.
Definition RBX : Z := RAX + 1.
Definition RCX : Z := RBX + 1.
Definition RDI : Z := RCX + 1.
Definition RDX : Z := RDI + 1.
Definition RSI : Z := RDX + 1.
Definition R8 : Z := RSI + 1.
Definition R9 : Z := R8 + 1.
Definition R10 : Z := R9 + 1.
Definition R11 : Z := R10 + 1.
Definition R12 : Z := R11 + 1.
Definition R13 : Z := R12 + 1.
Definition R14 : Z := R13 + 1.
Definition R15 : Z := R14 + 1.
Definition RFLAGS : Z := R15 + 1.
Definition SS : Z := RFLAGS + 1.
Definition ES : Z := SS + 1.
Definition GS : Z := ES + 1.
Definition FS : Z := GS + 1.
Definition DS : Z := FS + 1.
Definition CS : Z := DS + 1.
Definition ST0 : Z := CS + 1.
Definition ST1 : Z := ST0 + 1.
Definition ST2 : Z := ST1 + 1.
Definition ST3 : Z := ST2 + 1.
Definition ST4 : Z := ST3 + 1.
Definition ST5 : Z := ST4 + 1.
Definition ST6 : Z := ST5 + 1.
Definition ST7 : Z := ST6 + 1.
Definition MM0 : Z := ST7 + 1.
Definition MM1 : Z := MM0 + 1.
Definition MM2 : Z := MM1 + 1.
Definition MM3 : Z := MM2 + 1.
Definition MM4 : Z := MM3 + 1.
Definition MM5 : Z := MM4 + 1.
Definition MM6 : Z := MM5 + 1.
Definition MM7 : Z := MM6 + 1.
Definition XMM0 : Z := MM7 + 1.
Definition XMM1 : Z := XMM0 + 1.
Definition XMM2 : Z := XMM1 + 1.
Definition XMM3 : Z := XMM2 + 1.
Definition XMM4 : Z := XMM3 + 1.
Definition XMM5 : Z := XMM4 + 1.
Definition XMM6 : Z := XMM5 + 1.
Definition XMM7 : Z := XMM6 + 1.
Definition XMM8 : Z := XMM7 + 1.
Definition XMM9 : Z := XMM8 + 1.
Definition XMM10 : Z := XMM9 + 1.
Definition XMM11 : Z := XMM10 + 1.
Definition XMM12 : Z := XMM11 + 1.
Definition XMM13 : Z := XMM12 + 1.
Definition XMM14 : Z := XMM13 + 1.
Definition XMM15 : Z := XMM14 + 1.
Definition XMM16 : Z := XMM15 + 1.
Definition XMM17 : Z := XMM16 + 1.
Definition XMM18 : Z := XMM17 + 1.
Definition XMM19 : Z := XMM18 + 1.
Definition XMM20 : Z := XMM19 + 1.
Definition XMM21 : Z := XMM20 + 1.
Definition XMM22 : Z := XMM21 + 1.
Definition XMM23 : Z := XMM22 + 1.
Definition XMM24 : Z := XMM23 + 1.
Definition XMM25 : Z := XMM24 + 1.
Definition XMM26 : Z := XMM25 + 1.
Definition XMM27 : Z := XMM26 + 1.
Definition XMM28 : Z := XMM27 + 1.
Definition XMM29 : Z := XMM28 + 1.
Definition XMM30 : Z := XMM29 + 1.
Definition XMM31 : Z := XMM30 + 1.
End Register.

(** * Bit-fields

    A bit-field is [width] bits from bit [off] of its storage unit; a store
    keeps the low [width] bits of the value. *)
Record bitfield := BitField { bf_off : Z; bf_width : Z }.

Definition bf_get (f : bitfield) (v : Z) : Z :=
  Z.land (Z.shiftr v (bf_off f)) (Z.ones (bf_width f)).
Definition bf_set (f : bitfield) (v x : Z) : Z :=
  Z.lor (Z.ldiff v (Z.shiftl (Z.ones (bf_width f)) (bf_off f)))
        (Z.shiftl (Z.land x (Z.ones (bf_width f))) (bf_off f)).

(** [RegisterValue::NZCV], the AArch64 flags. *)
Definition NZCV_v := BitField 28 1.
Definition NZCV_c := BitField 29 1.
Definition NZCV_z := BitField 30 1.
Definition NZCV_n := BitField 31 1.

(** [RegisterValue::rflags], the x86_64 flags. *)
Definition rflags_cf := BitField 0 1.
Definition rflags_must_be_1 := BitField 1 1.
Definition rflags_pf := BitField 2 1.
Definition rflags_must_be_0a := BitField 3 1.
Definition rflags_af := BitField 4 1.
Definition rflags_must_be_0b := BitField 5 1.
Definition rflags_zf := BitField 6 1.
Definition rflags_sf := BitField 7 1.
Definition rflags_tf := BitField 8 1.
Definition rflags_if := BitField 9 1.
Definition rflags_df := BitField 10 1.
Definition rflags_of := BitField 11 1.
Definition rflags_iopl := BitField 12 2.
Definition rflags_nt := BitField 14 1.
Definition rflags_must_be_0c := BitField 15 1.
Definition rflags_rf := BitField 16 1.
Definition rflags_vm := BitField 17 1.
Definition rflags_ac := BitField 18 1.
Definition rflags_vif := BitField 19 1.
Definition rflags_vip := BitField 20 1.
Definition rflags_id := BitField 21 1.
Definition rflags_reserved_eflags := BitField 22 10.
Definition rflags_reserved_rflags := BitField 32 32.

Definition nzcv_fields : list bitfield := [NZCV_v; NZCV_c; NZCV_z; NZCV_n].
Definition rflags_fields : list bitfield :=
  [rflags_cf; rflags_must_be_1; rflags_pf; rflags_must_be_0a; rflags_af;
   rflags_must_be_0b; rflags_zf; rflags_sf; rflags_tf; rflags_if; rflags_df;
   rflags_of; rflags_iopl; rflags_nt; rflags_must_be_0c; rflags_rf; rflags_vm;
   rflags_ac; rflags_vif; rflags_vip; rflags_id; rflags_reserved_eflags;
   rflags_reserved_rflags].

(** [RegisterValue] is 8 bytes, seen here as the number [u8] reads; the
    SIMD value is two of them. *)
Record RegisterValueSIMD := SIMD { simd_low : Z; simd_high : Z }.

(** * Lemmas *)

Lemma bf_get_testbit f v i :
  0 <= bf_off f -> 0 <= bf_width f -> 0 <= i ->
  Z.testbit (bf_get f v) i = Z.testbit v (i + bf_off f) && (i <? bf_width f).
Proof.
  intros Ho Hw Hi. unfold bf_get. rewrite Z.land_spec, Z.shiftr_spec by lia.
  rewrite Z.testbit_ones by lia. by rewrite (proj2 (Z.leb_le 0 i)) by lia.
Qed.

Lemma bf_set_testbit f v x i :
  0 <= bf_off f -> 0 <= bf_width f -> 0 <= i ->
  Z.testbit (bf_set f v x) i =
  if decide (bf_off f <= i < bf_off f + bf_width f)
  then Z.testbit x (i - bf_off f) else Z.testbit v i.
Proof.
  intros Ho Hw Hi. unfold bf_set.
  rewrite Z.lor_spec, Z.ldiff_spec, !Z.shiftl_spec by lia.
  destruct (decide (bf_off f <= i)).
  - rewrite Z.land_spec, Z.testbit_ones by lia.
    rewrite (proj2 (Z.leb_le 0 (i - bf_off f))) by lia. cbn [andb].
    case_decide.
    + rewrite (proj2 (Z.ltb_lt _ _)) by lia.
      by rewrite andb_false_r, andb_true_r.
    + rewrite (proj2 (Z.ltb_ge _ _)) by lia.
      by rewrite andb_true_r, andb_false_r, orb_false_r.
  - rewrite !(Z.testbit_neg_r _ (i - bf_off f)) by lia.
    rewrite decide_False by lia. by rewrite andb_true_r, orb_false_r.
Qed.

(** Writing back the value a field holds changes nothing. *)
Lemma bf_set_get f v :
  0 <= bf_off f -> 0 <= bf_width f -> bf_set f v (bf_get f v) = v.
Proof.
  intros Ho Hw. apply Z.bits_inj'. intros i Hi. rewrite bf_set_testbit by done.
  case_decide; [|done]. rewrite bf_get_testbit by lia.
  rewrite (proj2 (Z.ltb_lt _ _)) by lia. rewrite andb_true_r. f_equal. lia.
Qed.

Lemma bf_get_set f v x :
  0 <= bf_off f -> 0 <= bf_width f -> bf_get f (bf_set f v x) = x mod 2 ^ bf_width f.
Proof.
  intros Ho Hw. apply Z.bits_inj'. intros i Hi.
  rewrite bf_get_testbit, bf_set_testbit by lia.
  destruct (decide (i < bf_width f)).
  - rewrite decide_True by lia. rewrite Z.mod_pow2_bits_low by lia.
    rewrite (proj2 (Z.ltb_lt _ _)) by lia. rewrite andb_true_r. f_equal. lia.
  - rewrite Z.mod_pow2_bits_high by lia.
    rewrite (proj2 (Z.ltb_ge _ _)) by lia. by rewrite andb_false_r.
Qed.

(** Fields that do not overlap do not interfere. *)
Definition bf_disjoint (f g : bitfield) : Prop :=
  bf_off f + bf_width f <= bf_off g \/ bf_off g + bf_width g <= bf_off f.

Lemma bf_get_set_other f g v x :
  0 <= bf_off f -> 0 <= bf_width f -> 0 <= bf_off g -> 0 <= bf_width g ->
  bf_disjoint f g -> bf_get g (bf_set f v x) = bf_get g v.
Proof.
  unfold bf_disjoint. intros. apply Z.bits_inj'. intros i Hi.
  rewrite !bf_get_testbit, bf_set_testbit by lia.
  destruct (Z.ltb_spec i (bf_width g)); [|by rewrite !andb_false_r].
  by rewrite decide_False by lia.
Qed.

Lemma bf_get_1 f v : bf_width f = 1 -> 0 <= bf_off f -> 0 <= bf_get f v <= 1.
Proof.
  intros Hw Ho. unfold bf_get. rewrite Hw, Z.land_ones by lia.
  change (2 ^ 1) with 2. pose proof (Z.mod_pos_bound (Z.shiftr v (bf_off f)) 2). lia.
Qed.

Lemma bf_set_fits w f v x :
  0 <= bf_off f -> 0 <= bf_width f -> bf_off f + bf_width f <= w ->
  fits w v -> fits w (bf_set f v x).
Proof.
  intros Ho Hw Hb Hv. apply bits_fits; [lia| |].
  - unfold bf_set. apply Z.lor_nonneg. split.
    + apply Z.ldiff_nonneg. left. apply Hv.
    + apply Z.shiftl_nonneg, Z.land_nonneg. right. rewrite Z.ones_equiv.
      pose proof (pow2_pos (bf_width f)). lia.
  - intros i Hi. rewrite bf_set_testbit by lia. rewrite decide_False by lia.
    by apply (testbit_fits w).
Qed.

#[export] Hint Resolve bf_set_get bf_set_fits : bits.
