(* ===== verification/StateMem.v ===== *)
(** The emulated register file inside the bytes of
    remill's [State], for any architecture given by its switch, with the
    contract a register file keeps. The [State] structs are remill's: their field
    offsets are the parameter [StateLayout]. *)
From Stdlib Require Import ZArith Lia List.
From stdpp Require Import base list gmap.
From S2P Require Import Prelude Registers.

(** * The layout of a remill [State] *)

(** The fields of a struct lie at offsets where no two overlap. [ok] tells
    the array indices that exist, [size] how many bytes the field has. *)
Class StateLayout (F : Type) (ok : F -> bool) (size : F -> Z) := {
  off : F -> Z;
  off_disjoint : ∀ f g, ok f = true -> ok g = true -> f <> g ->
    off f + size f <= off g \/ off g + size g <= off f
}.

(** * Registers shared by the two architectures *)

(** What a register file promises to its clients: a get that yields the
    address of the register or nothing, a set that says whether the register
    exists; [independent] tells the registers whose 8 bytes are their own. *)
Class RegFile := {
  rf_get : Z -> bytes -> option Z * bytes;
  rf_set : Z -> Z -> bytes -> bool * bytes;
  independent : Z -> bool
}.

(** The value [getRegister(reg)->u8] of the model's clients. *)
Definition rf_read `{RegFile} (reg : Z) (m : bytes) : option Z :=
  match rf_get reg m with
  | (Some p, m') => Some (load 8 m' p)
  | (None, _) => None
  end.

(** The contract: a map from registers to 64-bit values, where reading has no
    visible effect and writing is a point update. *)
Class RegFileLaws `{R : RegFile} := {
  rf_valid : ∀ reg, independent reg = true -> ∀ m, is_Some (rf_read reg m);
  rf_get_ptr : ∀ reg m m', (rf_get reg m).1 = (rf_get reg m').1;
  rf_get_bytes : ∀ reg m, byte_store m -> byte_store (rf_get reg m).2;
  rf_set_bytes : ∀ reg v m, byte_store m -> byte_store (rf_set reg v m).2;
  rf_get_frame : ∀ r reg m, byte_store m -> independent reg = true ->
    rf_read reg (rf_get r m).2 = rf_read reg m;
  rf_set_valid : ∀ reg v m, (rf_set reg v m).1 = bool_decide (is_Some (rf_get reg m).1);
  rf_set_invalid : ∀ reg v m, (rf_get reg m).1 = None -> (rf_set reg v m).2 = m;
  rf_set_read : ∀ r reg v m, independent r = true -> independent reg = true -> u64 v ->
    rf_read reg (rf_set r v m).2 = if decide (reg = r) then Some v else rf_read reg m
}.

Section FlagRegister.
Context {F : Type} `{EqDecision F} {ok : F -> bool} {size : F -> Z} `{!StateLayout F ok size}.
(** A flags register [fr] of 8 bytes whose bits are mirrored in one-byte
    fields: the bit field of each next to the mirror. *)
Variable fr : F.
Variable flags : list (bitfield * F).

(** [nzcv.n = sr.n; ...], bit field by bit field. *)
Definition sync_in (m : bytes) : bytes :=
  fold_left (fun m bf => store 8 m (off fr)
      (bf_set bf.1 (load 8 m (off fr)) (load 1 m (off bf.2)))) flags m.

(** [sr.n = nzcv.n; ...]. *)
Definition sync_out (m : bytes) : bytes :=
  fold_left (fun m bf => store 1 m (off bf.2) (bf_get bf.1 (load 8 m (off fr)))) flags m.

Definition flags_ok (l : list (bitfield * F)) : Prop :=
  ok fr = true ∧ 8 <= size fr ∧ NoDup l.*2 ∧
  Forall (fun bf => ok bf.2 = true ∧ 1 <= size bf.2 ∧ bf.2 <> fr ∧
    0 <= bf_off bf.1 ∧ bf_width bf.1 = 1 ∧ bf_off bf.1 < 64) l.

Lemma load_field f g (n k : nat) m v :
  ok f = true -> ok g = true -> f <> g ->
  Z.of_nat n <= size f -> Z.of_nat k <= size g ->
  load k (store n m (off f) v) (off g) = load k m (off g).
Proof.
  intros Hf Hg Hne Hn Hk. apply load_store_disjoint.
  pose proof (off_disjoint f g Hf Hg Hne). lia.
Qed.

Lemma load8_same f m v : u64 v -> load 8 (store 8 m (off f) v) (off f) = v.
Proof. intros. rewrite load_store. by apply (wrap_small 64). Qed.

(** Syncing in touches the flags register only. *)
Lemma sync_in_frame g (k : nat) m :
  ok fr = true -> 8 <= size fr -> ok g = true -> g <> fr -> Z.of_nat k <= size g ->
  load k (sync_in m) (off g) = load k m (off g).
Proof.
  intros Hfr Hs Hg Hne Hk. unfold sync_in. revert m.
  induction flags as [|bf l IH]; intros m; [done|]. cbn [fold_left].
  rewrite IH. apply load_field; auto.
Qed.

(** Syncing out touches the mirrors only. *)
Lemma sync_out_frame g (k : nat) m :
  Forall (fun bf => ok bf.2 = true ∧ 1 <= size bf.2 ∧ bf.2 <> g) flags ->
  ok g = true -> Z.of_nat k <= size g ->
  load k (sync_out m) (off g) = load k m (off g).
Proof.
  intros Hl Hg Hk. unfold sync_out. revert m.
  induction Hl as [|bf l (H1 & H2 & H3) Hl IH]; intros m; [done|]. cbn [fold_left].
  rewrite IH. apply load_field; auto.
Qed.

End FlagRegister.

Section FlagRegisterLaws.
Context {F : Type} `{EqDecision F} {ok : F -> bool} {size : F -> Z} `{!StateLayout F ok size}.
Variable fr : F.

(** The value synced in depends on the flags register and the mirrors only. *)
Lemma sync_in_ext flags : ∀ m m',
  flags_ok (ok := ok) (size := size) fr flags ->
  load 8 m (off fr) = load 8 m' (off fr) ->
  Forall (fun bf => load 1 m (off bf.2) = load 1 m' (off bf.2)) flags ->
  load 8 (sync_in fr flags m) (off fr) = load 8 (sync_in fr flags m') (off fr).
Proof.
  induction flags as [|[b f] l IH]; intros m m' (Hfr & Hs & Hnd & Hl) He Hm; [done|].
  apply Forall_cons in Hl as [(H1 & H2 & H3 & H4) Hl].
  apply Forall_cons in Hm as [Hm1 Hm]. cbn [fmap list_fmap] in Hnd.
  apply NoDup_cons in Hnd as [_ Hnd].
  unfold sync_in. cbn [fold_left]. apply IH; [done|..].
  - rewrite !load_store. simpl in Hm1. cbn [fst snd]. by rewrite He, Hm1.
  - apply Forall_forall. intros [b' f'] Hin. rewrite Forall_forall in Hm, Hl.
    specialize (Hm _ Hin). destruct (Hl _ Hin) as (H1' & H2' & H3' & _). cbn [fst snd] in *.
    rewrite !(load_field (ok := ok) (size := size)) by (auto; lia). done.
Qed.

(** When every mirror holds the bit of the flags register, syncing in
    changes nothing. *)
Lemma sync_in_id flags v : ∀ m,
  flags_ok (ok := ok) (size := size) fr flags -> u64 v ->
  load 8 m (off fr) = v ->
  Forall (fun bf => load 1 m (off bf.2) = bf_get bf.1 v) flags ->
  load 8 (sync_in fr flags m) (off fr) = v.
Proof.
  induction flags as [|[b f] l IH]; intros m (Hfr & Hs & Hnd & Hl) Hv He Hm; [done|].
  apply Forall_cons in Hl as [(H1 & H2 & H3 & H4 & H5 & H6) Hl].
  apply Forall_cons in Hm as [Hm1 Hm]. cbn [fmap list_fmap] in Hnd.
  apply NoDup_cons in Hnd as [_ Hnd]. cbn [fst snd] in *.
  unfold sync_in. cbn [fold_left fst snd]. rewrite He, Hm1, bf_set_get by lia.
  apply IH; [done|done|by apply load8_same|].
  apply Forall_forall. intros [b' f'] Hin. rewrite Forall_forall in Hm, Hl.
  specialize (Hm _ Hin). destruct (Hl _ Hin) as (H1' & H2' & H3' & _). cbn [fst snd] in *.
  rewrite (load_field (ok := ok) (size := size)) by (auto; lia). done.
Qed.

(** After syncing out every mirror holds its bit. *)
Lemma sync_out_mirrors flags v : ∀ m,
  flags_ok (ok := ok) (size := size) fr flags ->
  load 8 m (off fr) = v ->
  Forall (fun bf => load 1 (sync_out fr flags m) (off bf.2) = bf_get bf.1 v) flags.
Proof.
  induction flags as [|[b f] l IH]; intros m (Hfr & Hs & Hnd & Hl) He; [done|].
  apply Forall_cons in Hl as [(H1 & H2 & H3 & H4 & H5 & H6) Hl]. cbn [fst snd] in *.
  cbn [fmap list_fmap] in Hnd. apply NoDup_cons in Hnd as [Hni Hnd]. cbn [fst snd] in *.
  unfold sync_out. cbn [fold_left fst snd]. constructor.
  - change (load 1 (sync_out fr l (store 1 m (off f) (bf_get b (load 8 m (off fr))))) (off f)
      = bf_get b v).
    rewrite (sync_out_frame (ok := ok) (size := size) fr l); [|clear IH|done|lia].
    + rewrite load_store, He. apply Z.mod_small. pose proof (bf_get_1 b v). lia.
    + rewrite Forall_forall in Hl |- *. intros [b' f'] Hin.
      destruct (Hl _ Hin) as (? & ? & ? & _).
      cbn [fst snd] in *. split_and!; [done|done|]. intros ->. apply Hni.
      apply list_elem_of_fmap. by exists (b', f).
  - apply (IH (store 1 m (off f) (bf_get b (load 8 m (off fr))))); [done|].
    rewrite (load_field (ok := ok) (size := size)) by (auto; lia). done.
Qed.
(** The value synced in, as a function of the old value and the mirrors. *)
Definition sync_value (x : F -> Z) (l : list (bitfield * F)) (v : Z) : Z :=
  fold_left (fun v bf => wrap64 (bf_set bf.1 v (x bf.2))) l v.

Lemma sync_in_value flags : ∀ m x,
  flags_ok (ok := ok) (size := size) fr flags ->
  Forall (fun bf => load 1 m (off bf.2) = x bf.2) flags ->
  load 8 (sync_in fr flags m) (off fr) = sync_value x flags (load 8 m (off fr)).
Proof.
  induction flags as [|[b f] l IH]; intros m x (Hfr & Hs & Hnd & Hl) Hm; [done|].
  apply Forall_cons in Hl as [(H1 & H2 & H3 & H4) Hl].
  apply Forall_cons in Hm as [Hm1 Hm]. cbn [fmap list_fmap] in Hnd.
  apply NoDup_cons in Hnd as [_ Hnd]. cbn [fst snd] in *.
  unfold sync_in, sync_value. cbn [fold_left fst snd].
  rewrite <- Hm1. change (fold_left _ l ?m') with (sync_in fr l m') at 1.
  rewrite (IH _ x); [|done|].
  - by rewrite load_store.
  - apply Forall_forall. intros [b' f'] Hin. rewrite Forall_forall in Hm, Hl.
    destruct (Hl _ Hin) as (H1' & H2' & H3' & _). cbn [fst snd] in *.
    rewrite (load_field (ok := ok) (size := size)) by (auto; lia). apply (Hm _ Hin).
Qed.

(** Each bit of the result either comes from a mirror or from the old value. *)
Lemma sync_value_bit x l i : 0 <= i ->
  Forall (fun bf => 0 <= bf_off bf.1 ∧ bf_width bf.1 = 1 ∧ bf_off bf.1 < 64) l ->
  (∃ c, ∀ v, Z.testbit (sync_value x l v) i = c) \/
  (∀ v, u64 v -> Z.testbit (sync_value x l v) i = Z.testbit v i).
Proof.
  intros Hi. induction 1 as [|[b f] l (Ho & Hw & Hb) Hl IH]; [by right|].
  cbn [fst snd] in *. unfold sync_value in *. cbn [fold_left fst snd].
  destruct IH as [[c Hc]|Hv]; [left; by exists c|].
  destruct (decide (bf_off b <= i < bf_off b + bf_width b)) as [Hin|Hout].
  - left. exists (Z.testbit (x f) (i - bf_off b)). intros v.
    rewrite Hv by (apply wrap_fits; lia). unfold wrap.
    rewrite Z.mod_pow2_bits_low, bf_set_testbit by lia. by rewrite decide_True.
  - right. intros v Hu. rewrite Hv by (apply wrap_fits; lia).
    rewrite wrap_small by (apply bf_set_fits; lia || done).
    rewrite bf_set_testbit by lia. by rewrite decide_False.
Qed.

Lemma sync_value_fits x l v : u64 v -> u64 (sync_value x l v).
Proof.
  unfold sync_value. revert v. induction l as [|bf l IH]; intros v Hv; [done|].
  cbn [fold_left]. apply IH, wrap_fits. lia.
Qed.

Lemma sync_value_idem x l v :
  Forall (fun bf => 0 <= bf_off bf.1 ∧ bf_width bf.1 = 1 ∧ bf_off bf.1 < 64) l ->
  u64 v -> sync_value x l (sync_value x l v) = sync_value x l v.
Proof.
  intros Hl Hv. apply Z.bits_inj'. intros i Hi.
  destruct (sync_value_bit x l i Hi Hl) as [[c Hc]|Hb]; [by rewrite !Hc|].
  apply Hb. by apply sync_value_fits.
Qed.

Lemma bf_get_wrap64 b v : 0 <= bf_off b -> bf_width b = 1 -> bf_off b < 64 ->
  bf_get b (wrap64 v) = bf_get b v.
Proof.
  intros Ho Hw Hb. apply Z.bits_inj'. intros i Hi. rewrite !bf_get_testbit by lia.
  destruct (Z.ltb_spec i (bf_width b)); [|by rewrite !andb_false_r].
  unfold wrap. by rewrite Z.mod_pow2_bits_low by lia.
Qed.

Lemma sync_value_other x l v b :
  Forall (fun bf => 0 <= bf_off bf.1 ∧ bf_width bf.1 = 1 ∧ bf_off bf.1 < 64) l ->
  0 <= bf_off b -> bf_width b = 1 -> bf_off b < 64 ->
  bf_off b ∉ (fun bf => bf_off bf.1) <$> l -> bf_get b (sync_value x l v) = bf_get b v.
Proof.
  intros Hl Ho Hw Hb. unfold sync_value. revert v.
  induction Hl as [|bf l (? & ? & ?) Hl IH]; intros v Hn; [done|].
  cbn [fmap list_fmap] in Hn. apply not_elem_of_cons in Hn as [Hn1 Hn]. cbn [fold_left].
  rewrite IH, bf_get_wrap64 by done. apply bf_get_set_other; try lia. unfold bf_disjoint. lia.
Qed.

(** Every bit synced in is the low bit of its mirror. *)
Lemma sync_value_get x l v b f :
  Forall (fun bf => 0 <= bf_off bf.1 ∧ bf_width bf.1 = 1 ∧ bf_off bf.1 < 64) l ->
  NoDup ((fun bf => bf_off bf.1) <$> l) -> (b, f) ∈ l ->
  bf_get b (sync_value x l v) = x f mod 2.
Proof.
  intros Hl. revert v. induction Hl as [|bf l (H1 & H2 & H3) Hl IH]; intros v Hnd Hin.
  { by apply elem_of_nil in Hin. }
  cbn [fmap list_fmap] in Hnd. apply NoDup_cons in Hnd as [Hn Hnd].
  unfold sync_value. cbn [fold_left].
  apply elem_of_cons in Hin as [<-|Hin]; [|by apply IH]. cbn [fst snd] in *.
  change (fold_left _ l ?v') with (sync_value x l v').
  rewrite sync_value_other, bf_get_wrap64, bf_get_set, H2 by lia || done. done.
Qed.

(** Syncing in twice is syncing in once. *)
Lemma sync_in_idem flags m : flags_ok (ok := ok) (size := size) fr flags ->
  u64 (load 8 m (off fr)) ->
  load 8 (sync_in fr flags (sync_in fr flags m)) (off fr) = load 8 (sync_in fr flags m) (off fr).
Proof.
  intros Hok Hu. destruct Hok as (H1 & H2 & H3 & Hl) eqn:E. clear E.
  set (x := fun f => load 1 m (off f)).
  assert (Forall (fun bf => load 1 (sync_in fr flags m) (off bf.2) = x bf.2) flags).
  { apply Forall_forall. intros bf Hin. rewrite Forall_forall in Hl.
    destruct (Hl _ Hin) as (? & ? & ? & _). by apply sync_in_frame. }
  rewrite (sync_in_value _ (sync_in fr flags m) x), (sync_in_value _ m x) by
    (done || by apply Forall_forall).
  apply sync_value_idem; [|done].
  eapply Forall_impl; [exact Hl|]. simpl. tauto.
Qed.
End FlagRegisterLaws.

(** ** A register file given by its switch *)

Section TableRegFile.
Context {F : Type} `{EqDecision F} {ok : F -> bool} {size : F -> Z} `{!StateLayout F ok size}.
(** The cases [reg -> field] of [getRegister...], the enumerator and the field
    of the flags register, its mirrors. *)
Variable cases : list (Z * F).
Variable frreg : Z.
Variable fr : F.
Variable flags : list (bitfield * F).

Definition table_get (reg : Z) (m : bytes) : option Z * bytes :=
  let m' := if reg =? frreg then sync_in fr flags m else m in
  (off <$> switch reg cases, m').

(** [*ptr = val] and the mirrors; [false] on a null pointer. *)
Definition table_set (reg v : Z) (m : bytes) : bool * bytes :=
  match table_get reg m with
  | (None, m') => (false, m')
  | (Some p, m') =>
      let m2 := store 8 m' p v in
      (true, if reg =? frreg then sync_out fr flags m2 else m2)
  end.

(** [ptr[0] = val.low; ptr[1] = val.high] on the registers of a range; the
    null pointer is not tested. *)
Definition table_set_simd (first last reg : Z) (v : RegisterValueSIMD) (m : bytes)
  : exec (bool * bytes) :=
  if (first <=? reg) && (reg <=? last) then
    match table_get reg m with
    | (None, _) => Undef
    | (Some p, m') => Ret (true, store 8 (store 8 m' p (simd_low v)) (p + 8) (simd_high v))
    end
  else Ret (false, m).

Definition table_independent (reg : Z) : bool :=
  match switch reg cases with Some f => 8 <=? size f | None => false end.

#[local] Instance table_RegFile : RegFile :=
  {| rf_get := table_get; rf_set := table_set; independent := table_independent |}.

(** What the table of an architecture has to satisfy; decidable. *)
Definition table_ok : Prop :=
  NoDup cases.*2 ∧ switch frreg cases = Some fr ∧ flags_ok (ok := ok) (size := size) fr flags ∧
  Forall (fun c => ok c.2 = true ∧ c.2 ∉ flags.*2) cases.

Hypothesis Hok : table_ok.

Lemma table_field reg f : switch reg cases = Some f -> ok f = true ∧ f ∉ flags.*2.
Proof.
  intros H. apply switch_Some in H. destruct Hok as (_ & _ & _ & H1).
  rewrite Forall_forall in H1. apply (H1 _ H).
Qed.

Lemma table_fields_ne r reg f g :
  switch r cases = Some f -> switch reg cases = Some g -> r <> reg -> f <> g.
Proof.
  intros Hf Hg Hne ->. apply switch_Some in Hf, Hg. destruct Hok as (H1 & _).
  apply list_elem_of_lookup in Hf as [i Hi], Hg as [j Hj].
  assert (i = j) as ->; [|by simplify_eq].
  apply (NoDup_lookup _ _ _ g H1); by rewrite list_lookup_fmap, ?Hi, ?Hj.
Qed.

Lemma mirror_ne reg f : switch reg cases = Some f ->
  Forall (fun bf => ok bf.2 = true ∧ 1 <= size bf.2 ∧ bf.2 <> f) flags.
Proof.
  intros H. apply table_field in H as [_ Hn]. destruct Hok as (_ & _ & (_ & _ & _ & Hl) & _).
  rewrite Forall_forall in Hl |- *. intros bf Hin. destruct (Hl _ Hin) as (? & ? & _).
  split_and!; [done|done|]. intros <-. apply Hn, list_elem_of_fmap. eauto.
Qed.

Lemma read_unfold reg m : rf_read reg m =
  (fun f => load 8 (if reg =? frreg then sync_in fr flags m else m) (off f)) <$> switch reg cases.
Proof. unfold rf_read. simpl. unfold table_get. by destruct (switch reg cases). Qed.

Lemma independent_field reg : table_independent reg = true ->
  ∃ f, switch reg cases = Some f ∧ ok f = true ∧ 8 <= size f.
Proof.
  unfold table_independent. destruct (switch reg cases) as [f|] eqn:E; [|done].
  intros H. bsplit. exists f. split_and!; [done|by apply (table_field reg)|done].
Qed.

(** Reads see neither a sync nor a write to another field. *)
Lemma read_ext reg m m' f : switch reg cases = Some f ->
  load 8 m (off f) = load 8 m' (off f) ->
  Forall (fun bf => load 1 m (off bf.2) = load 1 m' (off bf.2)) flags ->
  rf_read reg m = rf_read reg m'.
Proof.
  intros Hf He Hm. rewrite !read_unfold, Hf. simpl. f_equal. zcase; [|done].
  subst reg. destruct Hok as (_ & Hfr & Hfl & _). rewrite Hfr in Hf. simplify_eq.
  by apply sync_in_ext.
Qed.

Lemma sync_in_mirrors m :
  Forall (fun bf => load 1 (sync_in fr flags m) (off bf.2) = load 1 m (off bf.2)) flags.
Proof.
  destruct Hok as (_ & _ & (H1 & H2 & _ & Hl) & _).
  apply Forall_forall. intros bf Hin. rewrite Forall_forall in Hl.
  destruct (Hl _ Hin) as (? & ? & ? & _). by apply sync_in_frame.
Qed.


Lemma table_get_frame r reg m : byte_store m -> table_independent reg = true ->
  rf_read reg (table_get r m).2 = rf_read reg m.
Proof.
  intros Hm Hi. apply independent_field in Hi as (f & Hf & Hfok & Hs).
  unfold table_get. cbn [snd]. destruct (Z.eqb_spec r frreg) as [->|]; [|done].
  destruct Hok as (_ & Hfr & Hfl & _). pose proof Hfl as (H1 & H2 & _).
  destruct (decide (reg = frreg)) as [->|Hne].
  - rewrite !read_unfold, Hf, Z.eqb_refl. assert (f = fr) as -> by congruence. simpl. f_equal.
    apply sync_in_idem; [done|]. apply (load_fits 8). done.
  - apply (read_ext reg _ _ f Hf); [|apply sync_in_mirrors].
    apply sync_in_frame; [done|done|done| |done].
    by apply not_eq_sym, (table_fields_ne frreg reg).
Qed.

Lemma table_set_read r reg v m :
  table_independent r = true -> table_independent reg = true -> u64 v ->
  rf_read reg (table_set r v m).2 = if decide (reg = r) then Some v else rf_read reg m.
Proof.
  intros Hr Hreg Hv.
  apply independent_field in Hr as (f & Hf & Hfok & Hfs).
  apply independent_field in Hreg as (g & Hg & Hgok & Hgs).
  pose proof Hok as (_ & Hfr & Hfl & _). pose proof Hfl as (F1 & F2 & _).
  unfold table_set, table_get. rewrite Hf. cbn [fmap option_fmap option_map snd].
  destruct (Z.eqb_spec r frreg) as [->|Hr].
  - assert (f = fr) as -> by congruence. destruct (decide (reg = frreg)) as [->|Hne].
    + rewrite read_unfold, Hfr, Z.eqb_refl. simpl. f_equal.
      set (m2 := store 8 _ _ _).
      assert (load 8 m2 (off fr) = v) as H2 by (by apply load8_same).
      apply sync_in_id; [done|done| |by apply sync_out_mirrors].
      rewrite (sync_out_frame fr flags fr 8) by (done || by apply (mirror_ne frreg)). done.
    + pose proof (table_fields_ne _ _ _ _ Hf Hg (not_eq_sym Hne)).
      rewrite !read_unfold, Hg. rewrite (proj2 (Z.eqb_neq reg frreg)) by done. simpl. f_equal.
      rewrite (sync_out_frame fr flags g 8) by (done || by apply (mirror_ne reg)).
      rewrite (load_field fr g 8 8) by done. by apply sync_in_frame.
  - destruct (decide (reg = r)) as [->|Hne].
    + rewrite read_unfold, Hg. rewrite (proj2 (Z.eqb_neq r frreg)) by done.
      assert (g = f) as -> by congruence. simpl. f_equal. by apply load8_same.
    + pose proof (table_fields_ne _ _ _ _ Hf Hg (not_eq_sym Hne)).
      apply (read_ext reg _ _ g Hg); [by apply load_field|].
      pose proof (mirror_ne r f Hf) as Hm. rewrite Forall_forall in Hm |- *.
      intros bf Hin. destruct (Hm _ Hin) as (? & ? & ?).
      apply (load_field f bf.2 8 1); (done || lia).
Qed.

Lemma sync_in_bytes m : byte_store m -> byte_store (sync_in fr flags m).
Proof.
  unfold sync_in. revert m. induction flags as [|bf l IH]; intros m Hm; [done|].
  cbn [fold_left]. auto with aether.
Qed.

Lemma table_get_bytes reg m : byte_store m -> byte_store (table_get reg m).2.
Proof. intros. unfold table_get. cbn [snd]. zcase; [by apply sync_in_bytes|done]. Qed.

Lemma table_set_bytes reg v m : byte_store m -> byte_store (table_set reg v m).2.
Proof.
  intros Hm. apply (table_get_bytes reg) in Hm. unfold table_set.
  destruct (table_get reg m) as [[p|] m']; [|done]. cbn [snd] in *. zcase; [|auto with aether].
  apply (byte_store_store 8 m' p v) in Hm. revert Hm. generalize (store 8 m' p v).
  unfold sync_out. induction flags as [|bf l IH]; intros m2 Hm; [done|].
  cbn [fold_left]. auto with aether.
Qed.

Lemma table_laws : RegFileLaws.
Proof.
  split; simpl.
  - intros reg Hi m. apply independent_field in Hi as (f & Hf & _).
    rewrite read_unfold, Hf. by eexists.
  - done.
  - intros. by apply table_get_bytes.
  - intros. by apply table_set_bytes.
  - intros. by apply table_get_frame.
  - intros reg v m. unfold table_set, table_get. by destruct (switch reg cases).
  - intros reg v m. unfold table_set, table_get. destruct (switch reg cases) eqn:E; [done|].
    intros _. cbn [fmap option_fmap option_map snd]. zcase; [|done]. subst.
    destruct Hok as (_ & Hfr & _). congruence.
  - intros. by apply table_set_read.
Qed.
(** The two halves of a 16-byte register. *)
Definition simd_read (reg : Z) (m : bytes) : option RegisterValueSIMD :=
  (fun f => SIMD (load 8 m (off f)) (load 8 m (off f + 8))) <$> switch reg cases.

Lemma table_set_simd_spec first last reg v m f :
  (first <=? reg) && (reg <=? last) = true -> switch reg cases = Some f ->
  16 <= size f -> reg <> frreg -> u64 (simd_low v) -> u64 (simd_high v) ->
  ∃ m', table_set_simd first last reg v m = Ret (true, m') ∧
    simd_read reg m' = Some v ∧
    (∀ r g, switch r cases = Some g -> r <> reg -> 16 <= size g ->
       simd_read r m' = simd_read r m) ∧
    (∀ r, table_independent r = true -> r <> reg -> rf_read r m' = rf_read r m).
Proof.
  intros Hr Hf Hs Hne Hl Hh. unfold table_set_simd, table_get. rewrite Hr, Hf.
  rewrite (proj2 (Z.eqb_neq reg frreg)) by done. cbn [fmap option_fmap option_map].
  set (m1 := store 8 m (off f) (simd_low v)). set (m' := store 8 m1 _ _).
  exists m'. pose proof (table_field _ _ Hf) as [Hfok _].
  assert (Hframe : ∀ g a (k : nat), ok g = true -> f <> g -> 0 <= a -> a + Z.of_nat k <= size g ->
    load k m' (off g + a) = load k m (off g + a)).
  { intros g a k Hg Hfg Ha Hk. pose proof (off_disjoint f g Hfok Hg Hfg).
    unfold m', m1. rewrite !load_store_disjoint by lia. done. }
  split_and!; [done|..].
  - unfold simd_read. rewrite Hf. simpl. destruct v as [lo hi]; cbn [simd_low simd_high] in *.
    unfold m', m1. rewrite load_store. rewrite load_store_disjoint by lia. rewrite load_store.
    do 2 f_equal; by apply (wrap_small 64).
  - intros r g Hg Hrr Hsg. unfold simd_read. rewrite Hg. simpl. do 2 f_equal.
    + rewrite <- (Z.add_0_r (off g)). apply Hframe; [by apply (table_field r)| |lia|lia].
      by apply (table_fields_ne reg r); auto.
    + apply Hframe; [by apply (table_field r)| |lia|lia].
      by apply (table_fields_ne reg r); auto.
  - intros r Hi Hrr. apply independent_field in Hi as (g & Hg & Hgok & Hgs).
    apply (read_ext r _ _ g Hg).
    + rewrite <- (Z.add_0_r (off g)). apply Hframe; [done| |lia|lia].
      by apply (table_fields_ne reg r); auto.
    + pose proof (mirror_ne reg f Hf) as Hm. rewrite Forall_forall in Hm |- *.
      intros bf Hin. destruct (Hm _ Hin) as (? & ? & ?).
      rewrite <- (Z.add_0_r (off bf.2)). apply Hframe; [done|by apply not_eq_sym|lia|lia].
Qed.

(** The mirrors after a write, and the flags register as read. *)
Lemma set_mirror v m b f : u64 v -> (b, f) ∈ flags ->
  load 1 (table_set frreg v m).2 (off f) = bf_get b v.
Proof.
  intros Hv Hin. pose proof Hok as (_ & Hfr & Hfl & _).
  unfold table_set, table_get. rewrite Hfr, Z.eqb_refl. cbn [fmap option_fmap option_map snd].
  pose proof (sync_out_mirrors fr flags v (store 8 (sync_in fr flags m) (off fr) v) Hfl) as Hs.
  rewrite Forall_forall in Hs. apply (Hs (load8_same fr _ v Hv) (b, f) Hin).
Qed.

Lemma read_mirror m b f x : NoDup ((fun bf => bf_off bf.1) <$> flags) -> (b, f) ∈ flags ->
  rf_read frreg m = Some x -> bf_get b x = load 1 m (off f) mod 2.
Proof.
  intros Hnd Hin. pose proof Hok as (_ & Hfr & Hfl & _).
  rewrite read_unfold, Hfr, Z.eqb_refl. simpl. intros [= <-].
  rewrite (sync_in_value fr flags m (fun f => load 1 m (off f))); [|done|by apply Forall_forall].
  apply (sync_value_get (fun f => load 1 m (off f)) flags _ b f); [|done|done].
  destruct Hfl as (_ & _ & _ & Hl). eapply Forall_impl; [exact Hl|]. simpl. tauto.
Qed.
End TableRegFile.
