(* ===== verification/CPUState.v ===== *)
(** src/CPUState.{h,cpp}: the registers of the two architectures as fields of
    remill's [State] (the switches of [getRegisterAArch64] and
    [getRegisterX86]), the setters, and the life of a thread's context. *)
From Stdlib Require Import ZArith Lia List.
From stdpp Require Import base list gmap.
From S2P Require Import Prelude Registers StateMem.

(** * The fields the code takes addresses of *)

Inductive a64_sr := sr_tpidr_el0 | sr_tpidrro_el0 | sr_n | sr_z | sr_c | sr_v
  | sr_ixc | sr_ofc | sr_ufc | sr_idc | sr_ioc | sr_dzc.
Inductive a64_sleigh := sleigh_NG | sleigh_ZR | sleigh_CY | sleigh_OV | sleigh_shift_carry.

(** [gpr.x0 .. x30], [gpr.sp], [gpr.pc], the reused [gpr._n], [_0],
    [simd.v[n]], and so on. *)
Inductive a64_field :=
| gpr_x (n : Z) | gpr_sp | gpr_pc | gpr_ (n : Z) | state_0 | simd_v (n : Z)
| f_nzcv | f_fpcr | f_fpsr | f_sr (s : a64_sr) | f_sleigh (s : a64_sleigh).

#[export] Instance a64_sr_eq_dec : EqDecision a64_sr.
Proof. solve_decision. Defined.
#[export] Instance a64_sleigh_eq_dec : EqDecision a64_sleigh.
Proof. solve_decision. Defined.
#[export] Instance a64_field_eq_dec : EqDecision a64_field.
Proof. solve_decision. Defined.

Definition a64_ok (f : a64_field) : bool :=
  match f with
  | gpr_x n => (0 <=? n) && (n <=? 30)
  | gpr_ n => (0 <=? n) && (n <=? 6)
  | simd_v n => (0 <=? n) && (n <=? 31)
  | _ => true
  end.

Definition a64_size (f : a64_field) : Z :=
  match f with
  | simd_v _ => 16
  | f_sr sr_tpidr_el0 | f_sr sr_tpidrro_el0 => 8
  | f_sr _ | f_sleigh _ => 1
  | _ => 8
  end.

(** remill's aarch64 [State]; the strides are the ones the comment on
    [call_host] in src/AArch64.cpp and the static assertions rely on. *)
Class A64Layout := {
  #[global] a64_state :: StateLayout a64_field a64_ok a64_size;
  a64_x_stride : ∀ n, 0 <= n <= 30 -> off (gpr_x n) = off (gpr_x 0) + 0x10 * n;
  a64_sp_stride : off gpr_sp = off (gpr_x 0) + 0x1f0;
  a64_v_stride : ∀ n, 0 <= n <= 31 -> off (simd_v n) = off (simd_v 0) + 0x10 * n
}.

Inductive x86_gpr := g_rax | g_rbx | g_rcx | g_rdx | g_rsi | g_rdi | g_rsp | g_rbp | g_rip.
Inductive x86_flag := fl_cf | fl_pf | fl_af | fl_zf | fl_sf | fl_df | fl_of.
Inductive x86_seg := seg_ss | seg_es | seg_gs | seg_fs | seg_ds | seg_cs.
Inductive x86_sw := sw_c0 | sw_c1 | sw_c2 | sw_c3 | sw_pe | sw_ue | sw_oe | sw_ze
  | sw_de | sw_ie | sw_sf.

(** [gpr.rax ..], [gpr.r8 .. r15], the reused [gpr._n], [rflag], [aflag.cf ..],
    [seg.ss ..], [addr.ss_base ..], [sw.c0 ..], [st.elems[n]] and so on. *)
Inductive x86_field :=
| gpr_g (g : x86_gpr) | gpr_r (n : Z) | gpr_n (n : Z) | f_rflag | f_aflag (s : x86_flag)
| f_seg (s : x86_seg) | f_addr (s : x86_seg) | f_sw (s : x86_sw)
| st_elems (n : Z) | mmx_elems (n : Z) | x86_vec (n : Z) | k_elems (n : Z).

#[export] Instance x86_gpr_eq_dec : EqDecision x86_gpr.
Proof. solve_decision. Defined.
#[export] Instance x86_flag_eq_dec : EqDecision x86_flag.
Proof. solve_decision. Defined.
#[export] Instance x86_seg_eq_dec : EqDecision x86_seg.
Proof. solve_decision. Defined.
#[export] Instance x86_sw_eq_dec : EqDecision x86_sw.
Proof. solve_decision. Defined.
#[export] Instance x86_field_eq_dec : EqDecision x86_field.
Proof. solve_decision. Defined.

Definition x86_ok (f : x86_field) : bool :=
  match f with
  | gpr_r n => (8 <=? n) && (n <=? 15)
  | gpr_n n => (0 <=? n) && (n <=? 10)
  | st_elems n | mmx_elems n | k_elems n => (0 <=? n) && (n <=? 7)
  | x86_vec n => (0 <=? n) && (n <=? 31)
  | _ => true
  end.

(** A segment selector has 2 bytes, although its register is set with 8. *)
Definition x86_size (f : x86_field) : Z :=
  match f with
  | x86_vec _ => 64
  | st_elems _ | mmx_elems _ => 16
  | f_seg _ => 2
  | f_aflag _ | f_sw _ => 1
  | _ => 8
  end.

(** remill's x86 [State], with the sizes and the stride of the static
    assertions and the comments of src/X86.cpp. *)
Class X86Layout := {
  #[global] x86_state :: StateLayout x86_field x86_ok x86_size;
  x86_r_stride : ∀ n, 8 <= n <= 15 -> off (gpr_r n) = off (gpr_r 8) + 0x10 * (n - 8);
  x86_st_stride : ∀ n, 0 <= n <= 7 -> off (st_elems n) = off (st_elems 0) + 0x10 * n;
  x86_mmx_stride : ∀ n, 0 <= n <= 7 -> off (mmx_elems n) = off (mmx_elems 0) + 0x10 * n;
  x86_vec_stride : ∀ n, 0 <= n <= 31 -> off (x86_vec n) = off (x86_vec 0) + 0x40 * n
}.

(** * The register switches *)

(** [case r0: ... case r0+n-1: ptr = &array[reg - r0]]. *)
Definition case_range {F} (r0 n : Z) (f : Z -> F) : list (Z * F) :=
  (fun i => (r0 + i, f i)) <$> seqZ 0 n.

Definition aarch64_cases : list (Z * a64_field) :=
  [(Register.PC, gpr_pc); (Register.ZERO, state_0);
   (Register.X0, gpr_x 0); (Register.X1, gpr_x 1); (Register.X2, gpr_x 2);
   (Register.X3, gpr_x 3); (Register.X4, gpr_x 4); (Register.X5, gpr_x 5);
   (Register.X6, gpr_x 6); (Register.X7, gpr_x 7); (Register.X8, gpr_x 8);
   (Register.X9, gpr_x 9); (Register.X10, gpr_x 10); (Register.X11, gpr_x 11);
   (Register.X12, gpr_x 12); (Register.X13, gpr_x 13); (Register.X14, gpr_x 14);
   (Register.X15, gpr_x 15); (Register.X16, gpr_x 16); (Register.X17, gpr_x 17);
   (Register.X18, gpr_x 18); (Register.X19, gpr_x 19); (Register.X20, gpr_x 20);
   (Register.X21, gpr_x 21); (Register.X22, gpr_x 22); (Register.X23, gpr_x 23);
   (Register.X24, gpr_x 24); (Register.X25, gpr_x 25); (Register.X26, gpr_x 26);
   (Register.X27, gpr_x 27); (Register.X28, gpr_x 28); (Register.X29, gpr_x 29);
   (Register.X30, gpr_x 30); (Register.X31, gpr_sp); (Register.NZCV, f_nzcv)] ++
  case_range Register.Q0 32 simd_v ++
  [(Register.FPSR, f_fpsr); (Register.FPCR, f_fpcr)].

Definition nzcv_mirrors : list (bitfield * a64_field) :=
  [(NZCV_n, f_sr sr_n); (NZCV_z, f_sr sr_z); (NZCV_c, f_sr sr_c); (NZCV_v, f_sr sr_v)].

Definition x86_cases : list (Z * x86_field) :=
  [(Register.RIP, gpr_g g_rip); (Register.ZERO, gpr_n 10);
   (Register.RAX, gpr_g g_rax); (Register.RBP, gpr_g g_rbp); (Register.RBX, gpr_g g_rbx);
   (Register.RCX, gpr_g g_rcx); (Register.RDI, gpr_g g_rdi); (Register.RDX, gpr_g g_rdx);
   (Register.RSI, gpr_g g_rsi); (Register.RSP, gpr_g g_rsp);
   (Register.R8, gpr_r 8); (Register.R9, gpr_r 9); (Register.R10, gpr_r 10);
   (Register.R11, gpr_r 11); (Register.R12, gpr_r 12); (Register.R13, gpr_r 13);
   (Register.R14, gpr_r 14); (Register.R15, gpr_r 15); (Register.RFLAGS, f_rflag);
   (Register.SS, f_seg seg_ss); (Register.ES, f_seg seg_es); (Register.GS, f_seg seg_gs);
   (Register.FS, f_seg seg_fs); (Register.DS, f_seg seg_ds); (Register.CS, f_seg seg_cs)] ++
  case_range Register.ST0 8 st_elems ++ case_range Register.MM0 8 mmx_elems ++
  case_range Register.XMM0 32 x86_vec.

Definition rflags_mirrors : list (bitfield * x86_field) :=
  [(rflags_af, f_aflag fl_af); (rflags_cf, f_aflag fl_cf); (rflags_df, f_aflag fl_df);
   (rflags_of, f_aflag fl_of); (rflags_pf, f_aflag fl_pf); (rflags_sf, f_aflag fl_sf);
   (rflags_zf, f_aflag fl_zf)].

Lemma switch_case_range {F} r0 n (f : Z -> F) l v :
  r0 <= v < r0 + n -> switch v (case_range r0 n f ++ l) = Some (f (v - r0)).
Proof.
  unfold case_range. intros Hv.
  assert (∀ k i, r0 + i <= v < r0 + i + Z.of_nat k ->
    switch v (((fun i => (r0 + i, f i)) <$> seqZ i (Z.of_nat k)) ++ l) = Some (f (v - r0))) as Hg.
  { induction k as [|k IH]; intros i Hi; [lia|].
    rewrite seqZ_cons by lia. simpl. destruct (Z.eqb_spec v (r0 + i)).
    - do 2 f_equal. lia.
    - replace (Z.pred _) with (Z.of_nat k) by lia. apply IH. lia. }
  replace n with (Z.of_nat (Z.to_nat n)) by lia. apply Hg. lia.
Qed.

Lemma switch_q reg : Register.Q0 <= reg <= Register.Q31 ->
  switch reg aarch64_cases = Some (simd_v (reg - Register.Q0)).
Proof.
  intros Hr. unfold aarch64_cases.
  rewrite (switch_skip _ Register.Q0) by (done || lia). apply switch_case_range.
  unfold Register.Q0 in *. change Register.Q31 with (Register.Q0 + 31) in Hr.
  unfold Register.Q0 in *. lia.
Qed.

Lemma switch_xmm reg : Register.XMM0 <= reg <= Register.XMM31 ->
  switch reg x86_cases = Some (x86_vec (reg - Register.XMM0)).
Proof.
  intros Hr. unfold x86_cases.
  do 3 (rewrite (switch_skip _ Register.XMM0) by (done || lia)).
  rewrite <- (app_nil_r (case_range _ _ _)). apply switch_case_range.
  change Register.XMM31 with (Register.XMM0 + 31) in Hr. lia.
Qed.

Section AArch64.
Context `{A64Layout}.

Definition getRegisterAArch64 (reg : Z) (m : bytes) : option Z * bytes :=
  table_get aarch64_cases Register.NZCV f_nzcv nzcv_mirrors reg m.
Definition setRegisterAArch64 (reg val : Z) (m : bytes) : bool * bytes :=
  table_set aarch64_cases Register.NZCV f_nzcv nzcv_mirrors reg val m.
Definition setRegisterNEON (reg : Z) (val : RegisterValueSIMD) (m : bytes)
  : exec (bool * bytes) :=
  table_set_simd aarch64_cases Register.NZCV f_nzcv nzcv_mirrors
    Register.Q0 Register.Q31 reg val m.

#[export] Instance a64_regfile : RegFile :=
  {| rf_get := getRegisterAArch64; rf_set := setRegisterAArch64;
     independent := table_independent (size := a64_size) aarch64_cases |}.
End AArch64.

Section X86.
Context `{X86Layout}.

Definition getRegisterX86 (reg : Z) (m : bytes) : option Z * bytes :=
  table_get x86_cases Register.RFLAGS f_rflag rflags_mirrors reg m.
Definition setRegisterX86 (reg val : Z) (m : bytes) : bool * bytes :=
  table_set x86_cases Register.RFLAGS f_rflag rflags_mirrors reg val m.
Definition setRegisterSSE (reg : Z) (val : RegisterValueSIMD) (m : bytes)
  : exec (bool * bytes) :=
  table_set_simd x86_cases Register.RFLAGS f_rflag rflags_mirrors
    Register.XMM0 Register.XMM31 reg val m.

#[export] Instance x86_regfile : RegFile :=
  {| rf_get := getRegisterX86; rf_set := setRegisterX86;
     independent := table_independent (size := x86_size) x86_cases |}.
End X86.

Lemma a64_table_ok : table_ok (ok := a64_ok) (size := a64_size)
  aarch64_cases Register.NZCV f_nzcv nzcv_mirrors.
Proof. unfold table_ok, flags_ok. apply (bool_decide_unpack _). by vm_compute. Qed.

Lemma x86_table_ok : table_ok (ok := x86_ok) (size := x86_size)
  x86_cases Register.RFLAGS f_rflag rflags_mirrors.
Proof. unfold table_ok, flags_ok. apply (bool_decide_unpack _). by vm_compute. Qed.

#[export] Instance a64_laws `{A64Layout} : RegFileLaws (R := a64_regfile).
Proof. exact (table_laws _ _ _ _ a64_table_ok). Qed.

#[export] Instance x86_laws `{X86Layout} : RegFileLaws (R := x86_regfile).
Proof. exact (table_laws _ _ _ _ x86_table_ok). Qed.

(** * A thread's context *)

Inductive arch_t := ARM64 | X64.

(** The part of [BinaryEngineImpl] the context asks for. *)
Record runtime_t := Runtime { rt_arch : arch_t; rt_debug : bool }.

(** [pcptr] is the address of the pc slot inside the state; [stack = 0] is
    the null pointer. *)
Record CPUState := mkCPU {
  pcptr : option Z;
  runtime : option runtime_t;
  state : bytes;
  pc : Z;
  rvalue : Z;
  retaddr : Z;
  stack : Z;
  stacksize : Z
}.

(** The constructor's [memset]; also the whole object after [freeContext]. *)
Definition CPUState_new : CPUState := mkCPU None None ∅ 0 0 0 0 0.

(** [dbgContext.thread_handler(this)] and [thread_handler(nullptr)]. *)
Inductive thread_call := thread_this | thread_null.

Section Context.
Context `{A64Layout} `{X86Layout}.
(** [stack_size()] of src/Platform.cpp asks the operating system; [alloc] is
    the address [new char[n]] returns. *)
Variable stack_size : Z.
Variable alloc : Z -> Z.

(** [arch == ARM64 ? ...AArch64 : ...X86]. *)
Definition regfile_of (arch : arch_t) : RegFile :=
  match arch with ARM64 => a64_regfile | X64 => x86_regfile end.

#[export] Instance regfile_of_laws arch : RegFileLaws (R := regfile_of arch).
Proof. destruct arch; apply _. Qed.

Definition initContext (entry : Z) (cpu : CPUState) : exec (bool * CPUState * list thread_call) :=
  let '(stk, size) :=
    if stack cpu =? 0 then (alloc stack_size, stack_size) else (stack cpu, stacksize cpu) in
  if stk =? 0 then Ret (false, mkCPU (pcptr cpu) (runtime cpu) (state cpu) (pc cpu) (rvalue cpu)
                                     (retaddr cpu) stk size, [])
  else
    match runtime cpu with
    | None => Undef
    | Some rt =>
        let R := regfile_of (rt_arch rt) in
        let m1 := (rf_set Register.PC entry (state cpu)).2 in
        let m2 := (rf_set Register.SP (wrap64 (stk + size)) m1).2 in
        let '(p, m3) := rf_get Register.PC m2 in
        Ret (true, mkCPU p (runtime cpu) m3 (pc cpu) (rvalue cpu) (retaddr cpu) stk size,
             if rt_debug rt then [thread_this] else [])
    end.

Definition freeContext (cpu : CPUState) : CPUState * list thread_call :=
  (CPUState_new,
   match runtime cpu with Some rt => if rt_debug rt then [thread_null] else [] | None => [] end).

Lemma pc_sp_independent arch :
  independent (RegFile := regfile_of arch) Register.PC = true ∧
  independent (RegFile := regfile_of arch) Register.SP = true.
Proof. by destruct arch. Qed.

(** The two register writes of [initContext], for any lawful register file. *)
Lemma init_writes `{R : RegFile} `{!RegFileLaws} entry sp m :
  independent Register.PC = true -> independent Register.SP = true ->
  byte_store m -> u64 entry -> u64 sp ->
  let m' := (rf_set Register.SP sp (rf_set Register.PC entry m).2).2 in
  ∃ p m'', rf_get Register.PC m' = (Some p, m'') ∧ load 8 m'' p = entry ∧ byte_store m'' ∧
    rf_read Register.PC m'' = Some entry ∧ rf_read Register.SP m'' = Some sp ∧
    (∀ reg, independent reg = true -> reg <> Register.PC -> reg <> Register.SP ->
       rf_read reg m'' = rf_read reg m).
Proof.
  intros Hpc Hsp Hm He Hs m'.
  assert (Hr : ∀ reg, independent reg = true -> rf_read reg m' =
    if decide (reg = Register.SP) then Some sp else
    if decide (reg = Register.PC) then Some entry else rf_read reg m).
  { intros reg Hi. unfold m'. rewrite rf_set_read by done. case_decide; [done|].
    by rewrite rf_set_read. }
  assert (Hm' : byte_store m') by (unfold m'; auto using rf_set_bytes).
  pose proof (Hr Register.PC Hpc) as Hpc'.
  rewrite decide_False, decide_True in Hpc' by done.
  pose proof (λ reg Hi, rf_get_frame Register.PC reg m' Hm' Hi) as Hf.
  pose proof (rf_get_bytes Register.PC m' Hm') as Hb.
  unfold rf_read in Hpc' at 1. destruct (rf_get Register.PC m') as [[p|] m'']; [|done].
  cbn [snd] in *. exists p, m''. split_and!; [done|by injection Hpc'|done|..].
  - rewrite Hf, Hr, decide_False, decide_True by done. done.
  - rewrite Hf, Hr, decide_True by done. done.
  - intros reg Hi Hn1 Hn2. rewrite Hf, Hr, !decide_False by done. done.
Qed.
End Context.

(** * Concrete layouts, for evaluation *)

Definition a64_sr_index (s : a64_sr) : Z :=
  match s with
  | sr_tpidr_el0 => 0 | sr_tpidrro_el0 => 1 | sr_n => 2 | sr_z => 3 | sr_c => 4 | sr_v => 5
  | sr_ixc => 6 | sr_ofc => 7 | sr_ufc => 8 | sr_idc => 9 | sr_ioc => 10 | sr_dzc => 11
  end.
Definition a64_sleigh_index (s : a64_sleigh) : Z :=
  match s with
  | sleigh_NG => 0 | sleigh_ZR => 1 | sleigh_CY => 2 | sleigh_OV => 3 | sleigh_shift_carry => 4
  end.

Definition a64_sample_off (f : a64_field) : Z :=
  match f with
  | simd_v n => 0x10 * n
  | f_nzcv => 0x200 | f_fpcr => 0x208 | f_fpsr => 0x210 | state_0 => 0x218
  | gpr_ n => 0x240 + 0x10 * n
  | gpr_x n => 0x248 + 0x10 * n
  | gpr_sp => 0x438 | gpr_pc => 0x448
  | f_sr s => 0x500 + 8 * a64_sr_index s
  | f_sleigh s => 0x600 + 8 * a64_sleigh_index s
  end.

Definition a64_sample_state : StateLayout a64_field a64_ok a64_size.
Proof.
  refine {| off := a64_sample_off |}. intros f g Hf Hg Hne.
  assert (∀ s, 0 <= a64_sr_index s <= 11) as Hi by (intros []; simpl; lia).
  assert (∀ s, 0 <= a64_sleigh_index s <= 4) as Hj by (intros []; simpl; lia).
  assert (∀ s t, s <> t -> a64_sr_index s <> a64_sr_index t) as Hi'
    by (intros [] []; simpl; congruence || lia).
  assert (∀ s t, s <> t -> a64_sleigh_index s <> a64_sleigh_index t) as Hj'
    by (intros [] []; simpl; congruence || lia).
  assert (∀ s, a64_size (f_sr s) <= 8) as Hs by (intros []; simpl; lia).
  destruct f as [n| | |n| |n| | | |s|s], g as [k| | |k| |k| | | |t|t]; try congruence;
    try (pose proof (Hi s)); try (pose proof (Hi t)); try (pose proof (Hj s));
    try (pose proof (Hj t)); try (pose proof (Hs s)); try (pose proof (Hs t));
    try pose proof (Hi' s t ltac:(congruence)); try pose proof (Hj' s t ltac:(congruence));
    try (assert (n <> k) by congruence); unfold a64_ok in Hf, Hg; bsplit;
    unfold a64_sample_off; cbn [a64_size] in *; lia.
Defined.

Definition a64_sample : A64Layout.
Proof. refine {| a64_state := a64_sample_state |}; intros; simpl; lia. Defined.

Definition x86_gpr_index (g : x86_gpr) : Z :=
  match g with
  | g_rax => 0 | g_rbx => 1 | g_rcx => 2 | g_rdx => 3 | g_rsi => 4 | g_rdi => 5 | g_rsp => 6
  | g_rbp => 7 | g_rip => 8
  end.
Definition x86_flag_index (s : x86_flag) : Z :=
  match s with
  | fl_cf => 0 | fl_pf => 1 | fl_af => 2 | fl_zf => 3 | fl_sf => 4 | fl_df => 5 | fl_of => 6
  end.
Definition x86_seg_index (s : x86_seg) : Z :=
  match s with
  | seg_ss => 0 | seg_es => 1 | seg_gs => 2 | seg_fs => 3 | seg_ds => 4 | seg_cs => 5
  end.
Definition x86_sw_index (s : x86_sw) : Z :=
  match s with
  | sw_c0 => 0 | sw_c1 => 1 | sw_c2 => 2 | sw_c3 => 3 | sw_pe => 4 | sw_ue => 5 | sw_oe => 6
  | sw_ze => 7 | sw_de => 8 | sw_ie => 9 | sw_sf => 10
  end.

Definition x86_sample_off (f : x86_field) : Z :=
  match f with
  | x86_vec n => 0x40 * n
  | st_elems n => 0x800 + 0x10 * n
  | mmx_elems n => 0x900 + 0x10 * n
  | k_elems n => 0xa00 + 0x10 * n
  | gpr_n n => 0xb00 + 0x10 * n
  | gpr_g g => 0xc00 + 0x10 * x86_gpr_index g
  | gpr_r n => 0xd00 + 0x10 * n
  | f_rflag => 0xe00
  | f_aflag s => 0xe10 + 2 * x86_flag_index s
  | f_seg s => 0xe40 + 4 * x86_seg_index s
  | f_addr s => 0xe80 + 8 * x86_seg_index s
  | f_sw s => 0xf00 + 2 * x86_sw_index s
  end.

Definition x86_sample_state : StateLayout x86_field x86_ok x86_size.
Proof.
  refine {| off := x86_sample_off |}. intros f g Hf Hg Hne.
  assert (∀ s, 0 <= x86_gpr_index s <= 8) as I1 by (intros []; simpl; lia).
  assert (∀ s, 0 <= x86_flag_index s <= 6) as I2 by (intros []; simpl; lia).
  assert (∀ s, 0 <= x86_seg_index s <= 5) as I3 by (intros []; simpl; lia).
  assert (∀ s, 0 <= x86_sw_index s <= 10) as I4 by (intros []; simpl; lia).
  assert (∀ s t, s <> t -> x86_gpr_index s <> x86_gpr_index t) as J1
    by (intros [] []; simpl; congruence || lia).
  assert (∀ s t, s <> t -> x86_flag_index s <> x86_flag_index t) as J2
    by (intros [] []; simpl; congruence || lia).
  assert (∀ s t, s <> t -> x86_seg_index s <> x86_seg_index t) as J3
    by (intros [] []; simpl; congruence || lia).
  assert (∀ s t, s <> t -> x86_sw_index s <> x86_sw_index t) as J4
    by (intros [] []; simpl; congruence || lia).
  destruct f as [s|n|n| |s|s|s|s|n|n|n|n], g as [t|k|k| |t|t|t|t|k|k|k|k]; try congruence;
    try pose proof (I1 s); try pose proof (I1 t); try pose proof (I2 s); try pose proof (I2 t);
    try pose proof (I3 s); try pose proof (I3 t); try pose proof (I4 s); try pose proof (I4 t);
    try pose proof (J1 s t ltac:(congruence)); try pose proof (J2 s t ltac:(congruence));
    try pose proof (J3 s t ltac:(congruence)); try pose proof (J4 s t ltac:(congruence));
    try (assert (n <> k) by congruence); unfold x86_ok in Hf, Hg; bsplit;
    unfold x86_sample_off; cbn [x86_size] in *; lia.
Defined.

Definition x86_sample : X86Layout.
Proof. refine {| x86_state := x86_sample_state |}; intros; simpl; lia. Defined.

#[local] Existing Instance a64_sample.
#[local] Existing Instance x86_sample.

(** * Properties *)

(** C6: on either architecture the register file is a map from registers to
    64-bit values: setting an independent register succeeds, reading it back
    gives the value (the flags register included, through its mirrors), every
    other register reads as before, and so it does after any read; an unknown
    register is refused and nothing changes. *)
Theorem register_file_refines_map `{A64Layout} `{X86Layout} (arch : arch_t) (r v : Z) (m : bytes) :
  let R := regfile_of arch in
  byte_store m -> u64 v ->
  ((rf_get r m).1 = None -> rf_set r v m = (false, m)) ∧
  (independent r = true ->
     (rf_set r v m).1 = true ∧
     ∀ reg, independent reg = true ->
       rf_read reg (rf_set r v m).2 = (if decide (reg = r) then Some v else rf_read reg m) ∧
       rf_read reg (rf_get r m).2 = rf_read reg m).
Proof.
  intros R Hm Hv. split.
  - intros Hn. pose proof (rf_set_valid r v m) as H1. pose proof (rf_set_invalid r v m Hn) as H2.
    rewrite Hn in H1. rewrite bool_decide_false in H1 by by intros [].
    destruct (rf_set r v m); simpl in *. by subst.
  - intros Hi. pose proof (rf_valid r Hi m) as [x Hx]. split.
    + rewrite rf_set_valid, bool_decide_true; [done|]. unfold rf_read in Hx.
      destruct (rf_get r m) as [[p|] ?]; [by eexists|done].
    + intros reg Hreg. split; [by apply rf_set_read|by apply rf_get_frame].
Qed.

Theorem register_file_refines_map_witness :
  let R := regfile_of ARM64 in
  rf_set Register.RAX 0x60000000 ∅ = (true, (rf_set Register.NZCV 0x60000000 ∅).2) ∧
  rf_read Register.NZCV (rf_set Register.NZCV 0x60000000 ∅).2 = Some 0x60000000 ∧
  rf_read Register.X3 (rf_set Register.NZCV 0x60000000 ∅).2 = rf_read Register.X3 ∅.
Proof.
  pose proof (register_file_refines_map ARM64 Register.NZCV 0x60000000 ∅ byte_store_empty
    ltac:(split; lia)) as [_ H]. specialize (H eq_refl) as [H1 H2].
  split_and!; [by vm_compute|apply (H2 Register.NZCV eq_refl)|apply (H2 Register.X3 eq_refl)].
Defined.

(** The SIMD setters write all 128 bits of a register of their range and
    nothing of any other register, report [false] and change nothing outside
    the range, and never dereference the null pointer they do not test. *)
Theorem setRegisterSIMD_spec `{A64Layout} `{X86Layout} (reg : Z) (v : RegisterValueSIMD) (m : bytes) :
  u64 (simd_low v) -> u64 (simd_high v) ->
  (Register.Q0 <= reg <= Register.Q31 ->
     ∃ m', setRegisterNEON reg v m = Ret (true, m') ∧
       simd_read aarch64_cases reg m' = Some v ∧
       (∀ r, Register.Q0 <= r <= Register.Q31 -> r <> reg ->
          simd_read aarch64_cases r m' = simd_read aarch64_cases r m) ∧
       (∀ r, independent (RegFile := a64_regfile) r = true -> r <> reg ->
          rf_read (H := a64_regfile) r m' = rf_read (H := a64_regfile) r m)) ∧
  (~ Register.Q0 <= reg <= Register.Q31 -> setRegisterNEON reg v m = Ret (false, m)) ∧
  (Register.XMM0 <= reg <= Register.XMM31 ->
     ∃ m', setRegisterSSE reg v m = Ret (true, m') ∧
       simd_read x86_cases reg m' = Some v ∧
       (∀ r, Register.XMM0 <= r <= Register.XMM31 -> r <> reg ->
          simd_read x86_cases r m' = simd_read x86_cases r m) ∧
       (∀ r, independent (RegFile := x86_regfile) r = true -> r <> reg ->
          rf_read (H := x86_regfile) r m' = rf_read (H := x86_regfile) r m)) ∧
  (~ Register.XMM0 <= reg <= Register.XMM31 -> setRegisterSSE reg v m = Ret (false, m)).
Proof.
  intros Hl Hh.
  assert (Hout : ∀ a b, ~ a <= reg <= b -> (a <=? reg) && (reg <=? b) = false).
  { intros a b Hn. apply andb_false_iff. destruct (Z.leb_spec a reg), (Z.leb_spec reg b); auto. lia. }
  assert (Hin : ∀ a b, a <= reg <= b -> (a <=? reg) && (reg <=? b) = true).
  { intros a b Hn. apply andb_true_iff. split; apply Z.leb_le; lia. }
  split_and!.
  - intros Hr. pose proof (switch_q reg Hr) as Hs.
    destruct (table_set_simd_spec _ _ _ _ a64_table_ok _ _ reg v m _ (Hin _ _ Hr) Hs)
      as (m' & H1 & H2 & H3 & H4); [done| |done|done|].
    { intros ->. destruct Hr as [Hr _]. by vm_compute in Hr. }
    exists m'. split_and!; [done|done| |done].
    intros r Hr' Hne. by eapply H3; [by apply switch_q|done|].
  - intros Hr. unfold setRegisterNEON, table_set_simd. by rewrite Hout.
  - intros Hr. pose proof (switch_xmm reg Hr) as Hs.
    destruct (table_set_simd_spec _ _ _ _ x86_table_ok _ _ reg v m _ (Hin _ _ Hr) Hs)
      as (m' & H1 & H2 & H3 & H4); [done| |done|done|].
    { intros ->. destruct Hr as [Hr _]. by vm_compute in Hr. }
    exists m'. split_and!; [done|done| |done].
    intros r Hr' Hne. by eapply H3; [by apply switch_xmm|done|].
  - intros Hr. unfold setRegisterSSE, table_set_simd. by rewrite Hout.
Qed.

Theorem setRegisterSIMD_spec_witness :
  ∃ m', setRegisterNEON Register.Q7 (SIMD 5 9) ∅ = Ret (true, m') ∧
    simd_read aarch64_cases Register.Q7 m' = Some (SIMD 5 9) ∧
    simd_read aarch64_cases Register.Q8 m' = simd_read aarch64_cases Register.Q8 ∅.
Proof.
  destruct (setRegisterSIMD_spec Register.Q7 (SIMD 5 9) ∅) as [H _]; [split; simpl; lia..|].
  destruct H as (m' & H1 & H2 & H3 & _); [split; by vm_compute|].
  exists m'. split_and!; [done|done|]. apply H3; [split; by vm_compute|done].
Defined.

(** The flag bytes and the flags registers mirror each other: writing
    NZCV (RFLAGS) leaves in every flag byte the bit of the value written, and
    reading it yields a value whose flag bits are the low bits of the flag
    bytes, whatever the stored word held before. *)
Theorem flag_mirrors `{A64Layout} `{X86Layout} (v : Z) (m : bytes) :
  byte_store m -> u64 v ->
  (∀ b f, (b, f) ∈ nzcv_mirrors ->
     load 1 (setRegisterAArch64 Register.NZCV v m).2 (off f) = bf_get b v ∧
     ∀ x, rf_read (H := a64_regfile) Register.NZCV m = Some x ->
       bf_get b x = load 1 m (off f) mod 2) ∧
  (∀ b f, (b, f) ∈ rflags_mirrors ->
     load 1 (setRegisterX86 Register.RFLAGS v m).2 (off f) = bf_get b v ∧
     ∀ x, rf_read (H := x86_regfile) Register.RFLAGS m = Some x ->
       bf_get b x = load 1 m (off f) mod 2).
Proof.
  intros Hm Hv. split; intros b f Hin; split.
  - unfold setRegisterAArch64. by apply (set_mirror _ _ _ _ a64_table_ok).
  - intros x Hx. apply (read_mirror _ _ _ _ a64_table_ok m b f x); [|done|exact Hx]. apply (bool_decide_unpack _). by vm_compute.
  - unfold setRegisterX86. by apply (set_mirror _ _ _ _ x86_table_ok).
  - intros x Hx. apply (read_mirror _ _ _ _ x86_table_ok m b f x); [|done|exact Hx]. apply (bool_decide_unpack _). by vm_compute.
Qed.

Theorem flag_mirrors_witness :
  load 1 (setRegisterAArch64 Register.NZCV 0x60000000 ∅).2 (off (f_sr sr_c)) = 1 ∧
  load 1 (setRegisterX86 Register.RFLAGS 0x41 ∅).2 (off (f_aflag fl_sf)) = 0.
Proof.
  destruct (flag_mirrors 0x60000000 ∅ byte_store_empty ltac:(split; lia)) as [H _].
  destruct (flag_mirrors 0x41 ∅ byte_store_empty ltac:(split; lia)) as [_ H'].
  destruct (H NZCV_c (f_sr sr_c)) as [-> _]; [repeat (apply list_elem_of_here || apply list_elem_of_further)|].
  destruct (H' rflags_sf (f_aflag fl_sf)) as [-> _]; [repeat (apply list_elem_of_here || apply list_elem_of_further)|].
  split; reflexivity.
Defined.

(** With a runtime attached and memory for the stack, [initContext]
    succeeds and leaves PC at the entry and SP at the top of the stack, every
    other register unchanged, and [pcptr] at the word that holds PC; a second
    call keeps the stack. Without memory it fails. [freeContext] returns the
    all-zero context, and both tell the debugger when it is enabled. *)
Theorem initContext_spec `{A64Layout} `{X86Layout} (stack_size entry : Z) (alloc : Z -> Z)
    (cpu : CPUState) (rt : runtime_t) :
  byte_store (state cpu) -> u64 entry -> runtime cpu = Some rt ->
  let R := regfile_of (rt_arch rt) in
  let stk := if stack cpu =? 0 then alloc stack_size else stack cpu in
  let size := if stack cpu =? 0 then stack_size else stacksize cpu in
  (stk = 0 -> ∃ cpu', initContext stack_size alloc entry cpu = Ret (false, cpu', []) ∧
     state cpu' = state cpu) ∧
  (stk <> 0 -> ∃ cpu', initContext stack_size alloc entry cpu =
       Ret (true, cpu', if rt_debug rt then [thread_this] else []) ∧
     stack cpu' = stk ∧ stacksize cpu' = size ∧
     rf_read Register.PC (state cpu') = Some entry ∧
     rf_read Register.SP (state cpu') = Some (wrap64 (stk + size)) ∧
     (∀ reg, independent reg = true -> reg <> Register.PC -> reg <> Register.SP ->
        rf_read reg (state cpu') = rf_read reg (state cpu)) ∧
     (∃ p, pcptr cpu' = Some p ∧ load 8 (state cpu') p = entry) ∧
     (∀ e, ∃ cpu2 calls, initContext stack_size alloc e cpu' = Ret (true, cpu2, calls) ∧
        stack cpu2 = stk ∧ stacksize cpu2 = size) ∧
     freeContext cpu' = (CPUState_new, if rt_debug rt then [thread_null] else [])).
Proof.
  intros Hm He Hrt R stk size. unfold initContext. fold R stk size. rewrite Hrt.
  replace (if stack cpu =? 0 then (alloc stack_size, stack_size) else (stack cpu, stacksize cpu))
    with (stk, size) by (unfold stk, size; by destruct (stack cpu =? 0)).
  split; intros Hstk.
  - rewrite Hstk. simpl. by eexists.
  - rewrite (proj2 (Z.eqb_neq stk 0)) by done. fold R.
    destruct (pc_sp_independent (rt_arch rt)) as [Hpc Hsp].
    destruct (init_writes (R := R) entry (wrap64 (stk + size)) (state cpu) Hpc Hsp Hm He)
      as (p & m'' & Hg & Hl & Hb & H1 & H2 & H3); [apply wrap_fits; lia|].
    rewrite Hg. eexists. cbn [runtime state stack stacksize pcptr].
    split_and!; [done|done|done|done|done|done|by eexists| |].
    + intros e. cbn [runtime state stack stacksize].
      rewrite !(proj2 (Z.eqb_neq stk 0)) by done.
      match goal with |- context [let '(_, _) := ?x in _] => destruct x as [q m3] end.
      eexists _, _. split; [reflexivity|]. by split.
    + unfold freeContext. cbn [runtime]. done.
Qed.

Theorem initContext_spec_witness :
  ∃ cpu', initContext 0x1000 (fun _ => 0x7000) 0x4000 (mkCPU None (Some (Runtime ARM64 true)) ∅ 0 0 0 0 0)
      = Ret (true, cpu', [thread_this]) ∧
    rf_read (H := a64_regfile) Register.SP (state cpu') = Some 0x8000.
Proof.
  destruct (initContext_spec 0x1000 0x4000 (fun _ => 0x7000)
    (mkCPU None (Some (Runtime ARM64 true)) ∅ 0 0 0 0 0) (Runtime ARM64 true)
    byte_store_empty ltac:(split; lia) eq_refl) as [_ H].
  destruct (H ltac:(discriminate)) as (cpu' & H1 & _ & _ & _ & H2 & _).
  exists cpu'. split; [exact H1|exact H2].
Defined.
