(* ===== verification/AArch64.v ===== *)
(** src/AArch64.cpp: where a register, named by its enumerator or by a
    string, lives inside remill's aarch64 [State]. *)
From Stdlib Require Import ZArith Lia List String Ascii.
From stdpp Require Import base list gmap pretty.
From S2P Require Import Prelude Registers StateMem CPUState.
#[local] Open Scope string_scope.
#[local] Open Scope Z_scope.

(** * Strings, as [std::string_view] and [std::from_chars] treat them *)

(** [sv.starts_with(prefix)] and [sv.ends_with(c)]. *)
Definition starts_with (prefix s : string) : bool := String.prefix prefix s.

Fixpoint last_char (s : string) : option ascii :=
  match s with
  | "" => None
  | String c "" => Some c
  | String _ s' => last_char s'
  end.
Definition ends_with (c : ascii) (s : string) : bool :=
  match last_char s with Some d => Ascii.eqb c d | None => false end.

(** [sv.data() + n .. sv.data() + sv.size()]. *)
Fixpoint drop_chars (n : nat) (s : string) : string :=
  match n, s with
  | S n', String _ s' => drop_chars n' s'
  | _, _ => s
  end.

(** [sv.remove_suffix(1)]. *)
Fixpoint remove_last (s : string) : string :=
  match s with
  | "" => ""
  | String _ "" => ""
  | String c s' => String c (remove_last s')
  end.

Definition digit (c : ascii) : option Z :=
  let n := Z.of_nat (nat_of_ascii c) in
  if (48 <=? n) && (n <=? 57) then Some (n - 48) else None.

(** The longest prefix of decimal digits, as a number. *)
Fixpoint digits_value (s : string) (acc : Z) : Z :=
  match s with
  | "" => acc
  | String c s' => match digit c with Some d => digits_value s' (10 * acc + d) | None => acc end
  end.

(** [std::from_chars(first, last, num)] on an [int num], in base 10: [None]
    when [res.ec] is an error. An optional minus sign, then at least one
    digit; what follows the digits is ignored; the value must fit. *)
Definition from_chars (s : string) : option Z :=
  let '(neg, s') := match s with String "-" s' => (true, s') | _ => (false, s) end in
  match s' with
  | "" => None
  | String c _ =>
      match digit c with
      | None => None
      | Some _ =>
          let v := if (neg : bool) then - digits_value s' 0 else digits_value s' 0 in
          if (- 2 ^ 31 <=? v) && (v <? 2 ^ 31) then Some v else None
      end
  end.

(** A register number parsed after [n] characters and found in a range. *)
Definition reg_num (n : nat) (lo hi : Z) (s : string) : option Z :=
  match from_chars (drop_chars n s) with
  | Some num => if (lo <=? num) && (num <=? hi) then Some num else None
  | None => None
  end.

(** A chain of [if (cond) return off;], the first that applies. *)
Fixpoint first_return (l : list (option Z)) : exec Z :=
  match l with
  | [] => Abort
  | Some z :: _ => Ret z
  | None :: l' => first_return l'
  end.

(** [if (reg == name) return off;], [if (reg == a || reg == b) return off;]. *)
Definition if_name (reg name : string) (o : Z) : option Z :=
  if String.eqb reg name then Some o else None.
Definition if_any (reg : string) (names : list string) (o : Z) : option Z :=
  if existsb (String.eqb reg) names then Some o else None.

Module aarch64.
Section AArch64.
Context `{A64Layout}.

Definition offset_reg (reg : Z) : exec Z :=
  if (Register.X0 <=? reg) && (reg <=? Register.X31) then
    Ret (off (gpr_x 0) + 0x10 * (reg - Register.X0))
  else if (Register.Q0 <=? reg) && (reg <=? Register.Q31) then
    Ret (off (simd_v 0) + 0x10 * (reg - Register.Q0))
  else Abort.

Definition offset_reg_sv (reg : string) : exec Z :=
  first_return
    [(if starts_with "X" reg then (fun num => off (gpr_x 0) + 0x10 * num) <$> reg_num 1 0 30 reg else None);
     (if starts_with "W" reg then (fun num => off (gpr_x 0) + 0x10 * num) <$> reg_num 1 0 30 reg else None);
     (if starts_with "Q" reg || starts_with "V" reg then
        (fun num => off (simd_v num)) <$> reg_num 1 0 31 reg else None);
     (if starts_with "D" reg || starts_with "S" reg || starts_with "H" reg || starts_with "B" reg then
        (fun num => off (simd_v num)) <$> reg_num 1 0 31 reg else None);
     if_any reg ["SP"; "WSP"] (off gpr_sp);
     if_name reg "PC" (off gpr_pc);
     if_any reg ["XZR"; "WZR"] (off state_0);
     if_name reg "BRANCH_TAKEN" (off (gpr_ 0));
     if_name reg "NEXT_PC" (off (gpr_ 1));
     if_name reg "RETURN_PC" (off (gpr_ 2));
     if_name reg "IGNORE_WRITE_TO_WZR" (off (gpr_ 3));
     if_name reg "IGNORE_WRITE_TO_XZR" (off (gpr_ 4));
     if_name reg "SUPPRESS_WRITEBACK" (off (gpr_ 5));
     if_name reg "MONITOR" (off (gpr_ 6));
     if_name reg "TPIDR_EL0" (off (f_sr sr_tpidr_el0));
     if_name reg "TPIDRRO_EL0" (off (f_sr sr_tpidrro_el0));
     if_name reg "NZCV" (off f_nzcv);
     if_name reg "FPCR" (off f_fpcr);
     if_name reg "FPSR" (off f_fpsr);
     if_name reg "N" (off (f_sr sr_n));
     if_name reg "Z" (off (f_sr sr_z));
     if_name reg "C" (off (f_sr sr_c));
     if_name reg "V" (off (f_sr sr_v));
     if_name reg "IXC" (off (f_sr sr_ixc));
     if_name reg "OFC" (off (f_sr sr_ofc));
     if_name reg "UFC" (off (f_sr sr_ufc));
     if_name reg "IDC" (off (f_sr sr_idc));
     if_name reg "IOC" (off (f_sr sr_ioc));
     if_name reg "DZC" (off (f_sr sr_dzc));
     if_name reg "NG" (off (f_sleigh sleigh_NG));
     if_name reg "ZR" (off (f_sleigh sleigh_ZR));
     if_name reg "CY" (off (f_sleigh sleigh_CY));
     if_name reg "OV" (off (f_sleigh sleigh_OV));
     if_name reg "SHIFT_CARRY" (off (f_sleigh sleigh_shift_carry))].
End AArch64.
End aarch64.

(** * Lemmas *)

Lemma first_return_elem l o : first_return l = Ret o -> Some o ∈ l.
Proof.
  induction l as [|[z|] l IH]; simpl; [done|intros [= ->]; apply list_elem_of_here|].
  intros H. apply list_elem_of_further. auto.
Qed.

Lemma reg_num_range n lo hi s z : reg_num n lo hi s = Some z -> lo <= z <= hi.
Proof.
  unfold reg_num. destruct (from_chars _); [|done].
  destruct ((lo <=? z0) && (z0 <=? hi)) eqn:E; [|done]. intros [= ->]. bsplit. lia.
Qed.

(** The names of numbered registers, for the finite case analyses. *)
Definition numbered (prefix : string) (n : Z) : string := prefix ++ pretty n.

Lemma forall_range (P : Z -> Prop) lo (k : nat) :
  Forall P (seqZ lo (Z.of_nat k)) -> ∀ n, lo <= n < lo + Z.of_nat k -> P n.
Proof. rewrite Forall_forall. intros Hf n Hn. apply Hf, elem_of_seqZ. lia. Qed.

Ltac each_number k :=
  let n := fresh "n" in let Hn := fresh in
  intros n Hn; pattern n; apply (forall_range _ 0 k); [|lia]; clear n Hn;
  let l := eval vm_compute in (seqZ 0 (Z.of_nat k)) in
  change (seqZ 0 (Z.of_nat k)) with l;
  repeat (apply Forall_cons; split; [by vm_compute|]); by constructor.

Section Names.
Context `{A64Layout}.
Import aarch64.

Lemma names_x p : p ∈ ["X"; "W"] -> ∀ n, 0 <= n < 31 ->
  offset_reg_sv (numbered p n) = offset_reg (Register.X0 + n).
Proof. intros Hp. repeat (apply elem_of_cons in Hp as [->|Hp]; [each_number 31%nat|]). by apply elem_of_nil in Hp. Qed.

Lemma names_v p : p ∈ ["Q"; "V"; "D"; "S"; "H"; "B"] -> ∀ n, 0 <= n < 32 ->
  offset_reg_sv (numbered p n) = Ret (off (simd_v n)).
Proof. intros Hp. repeat (apply elem_of_cons in Hp as [->|Hp]; [each_number 32%nat|]). by apply elem_of_nil in Hp. Qed.

Lemma offset_reg_x n : 0 <= n <= 30 -> offset_reg (Register.X0 + n) = Ret (off (gpr_x n)).
Proof.
  intros Hn. unfold offset_reg.
  rewrite (proj2 (Z.leb_le _ _)) by lia.
  rewrite (proj2 (Z.leb_le (Register.X0 + n) _)) by (change Register.X31 with (Register.X0 + 31); lia).
  simpl. rewrite (a64_x_stride n) by done. do 2 f_equal. lia.
Qed.

Lemma offset_reg_q n : 0 <= n <= 31 -> offset_reg (Register.Q0 + n) = Ret (off (simd_v n)).
Proof.
  intros Hn. unfold offset_reg.
  assert (Register.X31 < Register.Q0 + n) by (assert (Register.X31 < Register.Q0) by done; lia).
  rewrite (proj2 (Z.leb_gt (Register.Q0 + n) Register.X31)) by done. rewrite andb_false_r.
  rewrite (proj2 (Z.leb_le _ _)) by lia.
  rewrite (proj2 (Z.leb_le (Register.Q0 + n) _)) by (change Register.Q31 with (Register.Q0 + 31); lia).
  simpl. rewrite (a64_v_stride n) by done. do 2 f_equal. lia.
Qed.

(** The address of a register, through its field. *)
Definition a64_addr (o : Z) : Prop := ∃ f, a64_ok f = true ∧ o = off f.

Lemma addr_some f o : a64_ok f = true -> Some o = Some (off f) -> a64_addr o.
Proof. intros Hf [= ->]. by exists f. Qed.

Lemma if_name_addr reg name f o : a64_ok f = true -> Some o = if_name reg name (off f) -> a64_addr o.
Proof. unfold if_name. destruct (String.eqb _ _); [apply addr_some|done]. Qed.

Lemma if_any_addr reg names f o : a64_ok f = true -> Some o = if_any reg names (off f) -> a64_addr o.
Proof. unfold if_any. destruct (existsb _ _); [apply addr_some|done]. Qed.

Lemma num_addr (b : bool) (n : nat) lo hi s g o :
  (∀ z, lo <= z <= hi -> a64_addr (g z)) ->
  Some o = (if b then g <$> reg_num n lo hi s else None) -> a64_addr o.
Proof.
  intros Hg. destruct b; [|done]. destruct (reg_num n lo hi s) as [z|] eqn:E; [|done].
  intros [= ->]. apply Hg. by apply reg_num_range in E.
Qed.

Lemma offset_reg_sv_addr reg o : offset_reg_sv reg = Ret o -> a64_addr o.
Proof.
  intros Ho. apply first_return_elem in Ho. revert Ho.
  repeat (intros Ho; apply elem_of_cons in Ho as [Ho|Ho];
    [first [by eapply if_name_addr; [|exact Ho]|by eapply if_any_addr; [|exact Ho]|idtac]|revert Ho]).
  5: by intros ?%elem_of_nil.
  1,2: eapply num_addr; [|exact Ho]; intros z Hz; exists (gpr_x z); rewrite (a64_x_stride z) by done;
    split; [|done]; simpl; bsplit; apply andb_true_iff; split; apply Z.leb_le; lia.
  all: eapply num_addr; [|exact Ho]; intros z Hz; exists (simd_v z);
    split; [|done]; simpl; apply andb_true_iff; split; apply Z.leb_le; lia.
Qed.
End Names.

(** * Properties *)

(** A register resolved by name lies where the register of the same
    number does: X<n> and its 32-bit alias W<n> at [offset_reg] of X0 + n,
    every vector name at [offset_reg] of Q0 + n, SP at X31's slot; and whatever
    name resolves at all resolves to the start of a field of the state. *)
Theorem aarch64_names_resolve `{A64Layout} :
  (∀ p n, p ∈ ["X"; "W"] -> 0 <= n <= 30 ->
     aarch64.offset_reg_sv (numbered p n) = aarch64.offset_reg (Register.X0 + n)) ∧
  (∀ p n, p ∈ ["Q"; "V"; "D"; "S"; "H"; "B"] -> 0 <= n <= 31 ->
     aarch64.offset_reg_sv (numbered p n) = aarch64.offset_reg (Register.Q0 + n)) ∧
  aarch64.offset_reg_sv "SP" = aarch64.offset_reg Register.SP ∧
  (∀ reg o, aarch64.offset_reg_sv reg = Ret o -> ∃ f, a64_ok f = true ∧ o = off f).
Proof.
  split_and!.
  - intros p n Hp Hn. apply names_x; [done|lia].
  - intros p n Hp Hn. rewrite offset_reg_q by done. apply names_v; [done|lia].
  - transitivity (Ret (off gpr_sp)); [by vm_compute|]. rewrite a64_sp_stride. by vm_compute.
  - exact offset_reg_sv_addr.
Qed.

Theorem aarch64_names_resolve_witness :
  @aarch64.offset_reg_sv a64_sample "W7" = @aarch64.offset_reg a64_sample (Register.X0 + 7) ∧
  ∃ f, a64_ok f = true ∧ a64_sample_off (f_sr sr_ioc) = a64_sample_off f.
Proof.
  destruct (@aarch64_names_resolve a64_sample) as (H1 & _ & _ & H4).
  split; [apply (H1 "W" 7); [apply list_elem_of_further, list_elem_of_here|lia]|].
  apply (H4 "IOC"). reflexivity.
Defined.
