(* ===== verification/X86.v ===== *)
(** src/X86.cpp: where a register, named by its enumerator or by a string,
    lives inside remill's x86 [State]. *)
From Stdlib Require Import ZArith Lia List String Ascii.
From stdpp Require Import base list gmap pretty.
From S2P Require Import Prelude Registers StateMem CPUState AArch64.
#[local] Open Scope string_scope.
#[local] Open Scope Z_scope.

Module x86.
Section X86.
Context `{X86Layout}.

Definition offset_reg_cases : list (Z * Z) :=
  [(Register.RIP, off (gpr_g g_rip)); (Register.RAX, off (gpr_g g_rax));
   (Register.RBP, off (gpr_g g_rbp)); (Register.RBX, off (gpr_g g_rbx));
   (Register.RCX, off (gpr_g g_rcx)); (Register.RDI, off (gpr_g g_rdi));
   (Register.RDX, off (gpr_g g_rdx)); (Register.RSI, off (gpr_g g_rsi));
   (Register.RSP, off (gpr_g g_rsp)); (Register.R8, off (gpr_r 8));
   (Register.R9, off (gpr_r 9)); (Register.R10, off (gpr_r 10));
   (Register.R11, off (gpr_r 11)); (Register.R12, off (gpr_r 12));
   (Register.R13, off (gpr_r 13)); (Register.R14, off (gpr_r 14));
   (Register.R15, off (gpr_r 15))].

Definition offset_reg (reg : Z) : exec Z :=
  match switch reg offset_reg_cases with
  | Some o => Ret o
  | None =>
      if (Register.ST0 <=? reg) && (reg <=? Register.ST7) then
        Ret (off (st_elems 0) + 0x10 * (reg - Register.ST0))
      else if (Register.MM0 <=? reg) && (reg <=? Register.MM7) then
        Ret (off (mmx_elems 0) + 0x10 * (reg - Register.MM0))
      else if (Register.XMM0 <=? reg) && (reg <=? Register.XMM31) then
        Ret (off (x86_vec 0) + 0x40 * (reg - Register.XMM0))
      else Abort
  end.

(** The table of the sub-register names; a high byte is the second byte of
    its little-endian register. *)
Definition gpr_map : list (string * (x86_gpr * Z)) :=
  [("RAX", (g_rax, 0)); ("EAX", (g_rax, 0)); ("AX", (g_rax, 0)); ("AL", (g_rax, 0)); ("AH", (g_rax, 1));
   ("RBX", (g_rbx, 0)); ("EBX", (g_rbx, 0)); ("BX", (g_rbx, 0)); ("BL", (g_rbx, 0)); ("BH", (g_rbx, 1));
   ("RCX", (g_rcx, 0)); ("ECX", (g_rcx, 0)); ("CX", (g_rcx, 0)); ("CL", (g_rcx, 0)); ("CH", (g_rcx, 1));
   ("RDX", (g_rdx, 0)); ("EDX", (g_rdx, 0)); ("DX", (g_rdx, 0)); ("DL", (g_rdx, 0)); ("DH", (g_rdx, 1));
   ("RSI", (g_rsi, 0)); ("ESI", (g_rsi, 0)); ("SI", (g_rsi, 0)); ("SIL", (g_rsi, 0));
   ("RDI", (g_rdi, 0)); ("EDI", (g_rdi, 0)); ("DI", (g_rdi, 0)); ("DIL", (g_rdi, 0));
   ("RSP", (g_rsp, 0)); ("ESP", (g_rsp, 0)); ("SP", (g_rsp, 0)); ("SPL", (g_rsp, 0));
   ("RBP", (g_rbp, 0)); ("EBP", (g_rbp, 0)); ("BP", (g_rbp, 0)); ("BPL", (g_rbp, 0));
   ("RIP", (g_rip, 0)); ("EIP", (g_rip, 0)); ("IP", (g_rip, 0)); ("PC", (g_rip, 0))].

Fixpoint find_gpr (reg : string) (l : list (string * (x86_gpr * Z))) : option Z :=
  match l with
  | [] => None
  | (name, (g, d)) :: l' => if String.eqb reg name then Some (off (gpr_g g) + d) else find_gpr reg l'
  end.

(** R8 - R15: the number between the R and an optional D, W or B. *)
Definition numbered_gpr (reg : string) : option Z :=
  if starts_with "R" reg then
    let num_sv := drop_chars 1 reg in
    let num_sv :=
      if ends_with "D" num_sv || ends_with "W" num_sv || ends_with "B" num_sv
      then remove_last num_sv else num_sv in
    (fun num => off (gpr_r 8) + 0x10 * (num - 8)) <$> reg_num 0 8 15 num_sv
  else None.

Definition offset_reg_sv (reg : string) : exec Z :=
  first_return
    [find_gpr reg gpr_map;
     numbered_gpr reg;
     (if starts_with "ZMM" reg || starts_with "YMM" reg || starts_with "XMM" reg then
        (fun num => off (x86_vec num)) <$> reg_num 3 0 31 reg else None);
     (if starts_with "K" reg then (fun num => off (k_elems num)) <$> reg_num 1 0 7 reg else None);
     (if starts_with "MM" reg then (fun num => off (mmx_elems num)) <$> reg_num 2 0 7 reg else None);
     (if starts_with "ST" reg then (fun num => off (st_elems num)) <$> reg_num 2 0 7 reg else None);
     if_name reg "CF" (off (f_aflag fl_cf));
     if_name reg "PF" (off (f_aflag fl_pf));
     if_name reg "AF" (off (f_aflag fl_af));
     if_name reg "ZF" (off (f_aflag fl_zf));
     if_name reg "SF" (off (f_aflag fl_sf));
     if_name reg "DF" (off (f_aflag fl_df));
     if_name reg "OF" (off (f_aflag fl_of));
     if_any reg ["RFLAGS"; "EFLAGS"; "FLAGS"] (off f_rflag);
     if_name reg "SS" (off (f_seg seg_ss));
     if_name reg "ES" (off (f_seg seg_es));
     if_name reg "GS" (off (f_seg seg_gs));
     if_name reg "FS" (off (f_seg seg_fs));
     if_name reg "DS" (off (f_seg seg_ds));
     if_name reg "CS" (off (f_seg seg_cs));
     if_name reg "SS_BASE" (off (f_addr seg_ss));
     if_name reg "ES_BASE" (off (f_addr seg_es));
     if_any reg ["GS_BASE"; "GSBASE"] (off (f_addr seg_gs));
     if_any reg ["FS_BASE"; "FSBASE"] (off (f_addr seg_fs));
     if_name reg "DS_BASE" (off (f_addr seg_ds));
     if_name reg "CS_BASE" (off (f_addr seg_cs));
     if_name reg "FPU_C0" (off (f_sw sw_c0));
     if_name reg "FPU_C1" (off (f_sw sw_c1));
     if_name reg "FPU_C2" (off (f_sw sw_c2));
     if_name reg "FPU_C3" (off (f_sw sw_c3));
     if_name reg "FPU_PE" (off (f_sw sw_pe));
     if_name reg "FPU_UE" (off (f_sw sw_ue));
     if_name reg "FPU_OE" (off (f_sw sw_oe));
     if_name reg "FPU_ZE" (off (f_sw sw_ze));
     if_name reg "FPU_DE" (off (f_sw sw_de));
     if_name reg "FPU_IE" (off (f_sw sw_ie));
     if_name reg "FPU_SF" (off (f_sw sw_sf));
     if_name reg "BRANCH_TAKEN" (off (gpr_n 0));
     if_name reg "NEXT_PC" (off (gpr_n 1));
     if_name reg "RETURN_PC" (off (gpr_n 2));
     if_name reg "SUPPRESS_WRITEBACK" (off (gpr_n 3));
     if_name reg "MONITOR" (off (gpr_n 4))].
End X86.
End x86.

Section Names.
Context `{X86Layout}.
Import x86.

Lemma names_vec p : p ∈ ["XMM"; "YMM"; "ZMM"] -> ∀ n, 0 <= n < 32 ->
  offset_reg_sv (numbered p n) = Ret (off (x86_vec n)).
Proof. intros Hp. repeat (apply elem_of_cons in Hp as [->|Hp]; [each_number 32%nat|]). by apply elem_of_nil in Hp. Qed.

Lemma names_mm : ∀ n, 0 <= n < 8 -> offset_reg_sv (numbered "MM" n) = Ret (off (mmx_elems n)).
Proof. each_number 8%nat. Qed.

Lemma names_st : ∀ n, 0 <= n < 8 -> offset_reg_sv (numbered "ST" n) = Ret (off (st_elems n)).
Proof. each_number 8%nat. Qed.

Lemma names_r suffix : suffix ∈ [""; "D"; "W"; "B"] -> ∀ n, 0 <= n < 8 ->
  offset_reg_sv (numbered "R" (8 + n) ++ suffix) = Ret (off (gpr_r 8) + 0x10 * n).
Proof. intros Hp. repeat (apply elem_of_cons in Hp as [->|Hp]; [each_number 8%nat|]). by apply elem_of_nil in Hp. Qed.

(** A resolved address: a field, or the second byte of a general register. *)
Definition x86_addr (o : Z) : Prop :=
  (∃ f, x86_ok f = true ∧ o = off f) \/ ∃ g, o = off (gpr_g g) + 1.

Lemma x86_addr_some f o : x86_ok f = true -> Some o = Some (off f) -> x86_addr o.
Proof. intros Hf [= ->]. left. by exists f. Qed.

Lemma x86_if_name_addr reg name f o : x86_ok f = true -> Some o = if_name reg name (off f) -> x86_addr o.
Proof. unfold if_name. destruct (String.eqb _ _); [apply x86_addr_some|done]. Qed.

Lemma x86_if_any_addr reg names f o : x86_ok f = true -> Some o = if_any reg names (off f) -> x86_addr o.
Proof. unfold if_any. destruct (existsb _ _); [apply x86_addr_some|done]. Qed.

Lemma x86_num_addr (b : bool) (n : nat) lo hi s f o :
  (∀ z, lo <= z <= hi -> x86_ok (f z) = true) ->
  Some o = (if b then (fun z => off (f z)) <$> reg_num n lo hi s else None) -> x86_addr o.
Proof.
  intros Hg. destruct b; [|done]. destruct (reg_num n lo hi s) as [z|] eqn:E; [|done].
  intros [= ->]. left. exists (f z). split; [|done]. apply Hg. by apply reg_num_range in E.
Qed.

Lemma find_gpr_addr reg o : Some o = find_gpr reg gpr_map -> x86_addr o.
Proof.
  assert (Forall (fun c => c.2.2 = 0 \/ c.2.2 = 1) gpr_map) as Hm
    by (apply (bool_decide_unpack _); by vm_compute).
  induction Hm as [|[name [g d]] l Hd Hm IH]; [done|]. cbn [find_gpr].
  destruct (String.eqb reg name); [|done]. intros [= ->]. simpl in Hd.
  destruct Hd as [->| ->]; [|by right; exists g]. left. exists (gpr_g g). split; [done|lia].
Qed.

Lemma numbered_gpr_addr reg o : Some o = numbered_gpr reg -> x86_addr o.
Proof.
  unfold numbered_gpr. destruct (starts_with "R" reg); [|done].
  destruct (reg_num _ _ _ _) as [z|] eqn:E; [|done]. intros [= ->]. apply reg_num_range in E.
  left. exists (gpr_r z). rewrite (x86_r_stride z) by done. split; [|done].
  simpl. apply andb_true_iff. split; apply Z.leb_le; lia.
Qed.

Lemma offset_reg_sv_x86_addr reg o : offset_reg_sv reg = Ret o -> x86_addr o.
Proof.
  intros Ho. apply first_return_elem in Ho. revert Ho.
  repeat (intros Ho; apply elem_of_cons in Ho as [Ho|Ho];
    [first [by eapply x86_if_name_addr; [|exact Ho]|by eapply x86_if_any_addr; [|exact Ho]|idtac]|revert Ho]).
  7: by intros ?%elem_of_nil.
  - by eapply find_gpr_addr.
  - by eapply numbered_gpr_addr.
  - eapply (x86_num_addr _ 3 0 31 reg x86_vec); [|exact Ho].
    intros z Hz. simpl. apply andb_true_iff. split; apply Z.leb_le; lia.
  - eapply (x86_num_addr _ 1 0 7 reg k_elems); [|exact Ho].
    intros z Hz. simpl. apply andb_true_iff. split; apply Z.leb_le; lia.
  - eapply (x86_num_addr _ 2 0 7 reg mmx_elems); [|exact Ho].
    intros z Hz. simpl. apply andb_true_iff. split; apply Z.leb_le; lia.
  - eapply (x86_num_addr _ 2 0 7 reg st_elems); [|exact Ho].
    intros z Hz. simpl. apply andb_true_iff. split; apply Z.leb_le; lia.
Qed.
End Names.

(** * The offsets are the addresses of [getRegister] *)

Lemma switch_x : ∀ n, 0 <= n < 31 -> switch (Register.X0 + n) aarch64_cases = Some (gpr_x n).
Proof. each_number 31%nat. Qed.

Lemma switch_st : ∀ n, 0 <= n < 8 -> switch (Register.ST0 + n) x86_cases = Some (st_elems n).
Proof. each_number 8%nat. Qed.

Lemma switch_mm : ∀ n, 0 <= n < 8 -> switch (Register.MM0 + n) x86_cases = Some (mmx_elems n).
Proof. each_number 8%nat. Qed.

Lemma ptr_a64 `{A64Layout} reg m f : switch reg aarch64_cases = Some f ->
  (getRegisterAArch64 reg m).1 = Some (off f).
Proof. intros Hs. unfold getRegisterAArch64, table_get. by rewrite Hs. Qed.

Lemma ptr_x86 `{X86Layout} reg m f : switch reg x86_cases = Some f ->
  (getRegisterX86 reg m).1 = Some (off f).
Proof. intros Hs. unfold getRegisterX86, table_get. by rewrite Hs. Qed.

Lemma x86_switch_ptr `{X86Layout} reg m o :
  switch reg x86.offset_reg_cases = Some o -> (getRegisterX86 reg m).1 = Some o.
Proof.
  intros Hs. apply switch_Some in Hs. revert Hs. unfold x86.offset_reg_cases.
  repeat (intros Hs; apply elem_of_cons in Hs as [[= -> ->]|Hs]; [by apply ptr_x86|revert Hs]).
  by intros ?%elem_of_nil.
Qed.

(** Splits a conjunction of range tests. *)
Ltac range_case H :=
  match goal with
  | |- context [if (?a <=? ?r) && (?r <=? ?b) then _ else _] =>
      destruct ((a <=? r) && (r <=? b)) eqn:H
  end.

Section Ranges.
Context `{A64Layout} `{X86Layout}.

Lemma a64_offset_ptr reg m o :
  aarch64.offset_reg reg = Ret o -> (getRegisterAArch64 reg m).1 = Some o.
Proof.
  unfold aarch64.offset_reg. range_case E.
  - intros [= <-]. bsplit. destruct (decide (reg = Register.X31)) as [->|Hne].
    + rewrite (ptr_a64 _ m gpr_sp) by done. rewrite a64_sp_stride. by vm_compute.
    + change Register.X31 with (Register.X0 + 31) in *.
      replace reg with (Register.X0 + (reg - Register.X0)) at 1 by lia.
      rewrite (ptr_a64 _ m (gpr_x (reg - Register.X0))) by (apply switch_x; lia).
      by rewrite a64_x_stride by lia.
  - range_case E2; [|done]. intros [= <-]. bsplit.
    rewrite (ptr_a64 reg m (simd_v (reg - Register.Q0))) by (apply switch_q; lia).
    change Register.Q31 with (Register.Q0 + 31) in *. by rewrite a64_v_stride by lia.
Qed.

Lemma x86_offset_ptr reg m o :
  x86.offset_reg reg = Ret o -> (getRegisterX86 reg m).1 = Some o.
Proof.
  unfold x86.offset_reg. destruct (switch reg x86.offset_reg_cases) eqn:E0.
  { intros [= <-]. by apply x86_switch_ptr. }
  range_case E; [|range_case E1; [|range_case E2; [|done]]]; intros [= <-]; bsplit.
  - change Register.ST7 with (Register.ST0 + 7) in *.
    replace reg with (Register.ST0 + (reg - Register.ST0)) at 1 by lia.
    rewrite (ptr_x86 _ m (st_elems (reg - Register.ST0))) by (apply switch_st; lia).
    by rewrite x86_st_stride by lia.
  - change Register.MM7 with (Register.MM0 + 7) in *.
    replace reg with (Register.MM0 + (reg - Register.MM0)) at 1 by lia.
    rewrite (ptr_x86 _ m (mmx_elems (reg - Register.MM0))) by (apply switch_mm; lia).
    by rewrite x86_mmx_stride by lia.
  - rewrite (ptr_x86 reg m (x86_vec (reg - Register.XMM0))) by (apply switch_xmm; lia).
    change Register.XMM31 with (Register.XMM0 + 31) in *. by rewrite x86_vec_stride by lia.
Qed.
End Ranges.

(** * Properties *)

(** C40: [offset_reg] of a register is the offset [getRegister] points to on
    that architecture, and [offset_reg] aborts exactly outside X0..X31 and
    Q0..Q31 on AArch64, and outside RIP, the general registers, ST0..ST7,
    MM0..MM7 and XMM0..XMM31 on x86_64. *)
Theorem offset_reg_is_getRegister `{A64Layout} `{X86Layout} (reg : Z) (m : bytes) :
  (match aarch64.offset_reg reg with
   | Ret o => (getRegisterAArch64 reg m).1 = Some o
   | _ => ~ (Register.X0 <= reg <= Register.X31) ∧ ~ (Register.Q0 <= reg <= Register.Q31)
   end) ∧
  match x86.offset_reg reg with
  | Ret o => (getRegisterX86 reg m).1 = Some o
  | _ => (reg ∉ [Register.RIP; Register.RAX; Register.RBP; Register.RBX; Register.RCX;
                 Register.RDI; Register.RDX; Register.RSI; Register.RSP]) ∧
      ~ (Register.R8 <= reg <= Register.R15) ∧ ~ (Register.ST0 <= reg <= Register.ST7) ∧
      ~ (Register.MM0 <= reg <= Register.MM7) ∧ ~ (Register.XMM0 <= reg <= Register.XMM31)
  end.
Proof.
  assert (Hr : ∀ a b r, (a <=? r) && (r <=? b) = false -> ~ (a <= r <= b)).
  { intros a b r Hf [H1 H2]. apply andb_false_iff in Hf as [?|?]; bsplit; lia. }
  split.
  - destruct (aarch64.offset_reg reg) eqn:E; [by apply a64_offset_ptr|..];
      unfold aarch64.offset_reg in E; revert E; range_case E1; try done; range_case E2; try done;
      intros _; split; by apply Hr.
  - destruct (x86.offset_reg reg) eqn:E; [by apply x86_offset_ptr|..];
      unfold x86.offset_reg in E; destruct (switch reg _) eqn:E0; try done;
      revert E; range_case E1; try done; range_case E2; try done; range_case E3; try done;
      intros _. apply switch_None in E0.
    split_and!; [|intros Hrr; apply E0|by apply Hr..].
    + intros Hin. apply E0. revert Hin. clear.
      repeat (intros Hin; apply elem_of_cons in Hin as [->|Hin];
        [repeat (apply list_elem_of_here || apply list_elem_of_further)|revert Hin]).
      by intros ?%elem_of_nil.
    + assert (reg ∈ seqZ Register.R8 8) as Hin.
      { apply elem_of_seqZ. change Register.R15 with (Register.R8 + 7) in Hrr. lia. }
      revert Hin. clear. let l := eval vm_compute in (seqZ Register.R8 8) in
        change (seqZ Register.R8 8) with l.
      repeat (intros Hin; apply elem_of_cons in Hin as [->|Hin];
        [repeat (apply list_elem_of_here || apply list_elem_of_further)|revert Hin]).
      by intros ?%elem_of_nil.
Qed.

(** An x86_64 register resolved by name lies where the register it is a
    part of does: R8..R15 with or without a size suffix, the vector names of
    any width, MMX and x87 names by their number, every name of the table of
    sub-registers at its register, the high bytes one byte further; whatever
    resolves at all is a field of the state or such a high byte. *)
Theorem x86_names_resolve `{X86Layout} :
  (∀ suffix n, suffix ∈ [""; "D"; "W"; "B"] -> 0 <= n <= 7 ->
     x86.offset_reg_sv (numbered "R" (8 + n) ++ suffix) = x86.offset_reg (Register.R8 + n)) ∧
  (∀ p n, p ∈ ["XMM"; "YMM"; "ZMM"] -> 0 <= n <= 31 ->
     x86.offset_reg_sv (numbered p n) = x86.offset_reg (Register.XMM0 + n)) ∧
  (∀ n, 0 <= n <= 7 ->
     x86.offset_reg_sv (numbered "MM" n) = x86.offset_reg (Register.MM0 + n) ∧
     x86.offset_reg_sv (numbered "ST" n) = x86.offset_reg (Register.ST0 + n)) ∧
  (∀ name g d, (name, (g, d)) ∈ x86.gpr_map -> x86.offset_reg_sv name = Ret (off (gpr_g g) + d)) ∧
  (∀ reg o, x86.offset_reg_sv reg = Ret o ->
     (∃ f, x86_ok f = true ∧ o = off f) \/ ∃ g, o = off (gpr_g g) + 1).
Proof.
  split_and!.
  - intros s n Hs Hn. rewrite names_r by (done || lia). revert n Hn.
    assert (∀ n, 0 <= n < 8 -> x86.offset_reg (Register.R8 + n) = Ret (off (gpr_r (8 + n)))) as Ho
      by each_number 8%nat.
    intros n Hn. rewrite Ho by lia. rewrite (x86_r_stride (8 + n)) by lia. do 2 f_equal. lia.
  - intros p n Hp Hn. rewrite names_vec by (done || lia). symmetry.
    rewrite (x86_vec_stride n) by lia. revert n Hn.
    assert (∀ n, 0 <= n < 32 -> x86.offset_reg (Register.XMM0 + n) = Ret (off (x86_vec 0) + 0x40 * n)) as Ho
      by each_number 32%nat.
    intros n Hn. apply Ho. lia.
  - intros n Hn. rewrite names_mm, names_st by lia.
    rewrite (x86_mmx_stride n), (x86_st_stride n) by lia. revert n Hn.
    assert (∀ n, 0 <= n < 8 -> x86.offset_reg (Register.MM0 + n) = Ret (off (mmx_elems 0) + 0x10 * n) ∧
        x86.offset_reg (Register.ST0 + n) = Ret (off (st_elems 0) + 0x10 * n)) as Ho by each_number 8%nat.
    intros n Hn. destruct (Ho n) as [-> ->]; [lia|done].
  - unfold x86.gpr_map. intros name g d. 
    repeat (intros Hin; apply elem_of_cons in Hin as [[= -> -> ->]|Hin]; [by vm_compute|revert Hin]).
    by intros ?%elem_of_nil.
  - exact offset_reg_sv_x86_addr.
Qed.

Theorem x86_names_resolve_witness :
  @x86.offset_reg_sv x86_sample "R12B" = @x86.offset_reg x86_sample (Register.R8 + 4) ∧
  @x86.offset_reg_sv x86_sample "AH" = Ret (x86_sample_off (gpr_g g_rax) + 1).
Proof.
  destruct (@x86_names_resolve x86_sample) as (H1 & _ & _ & H4 & _). split.
  - apply (H1 "B" 4); [repeat (apply list_elem_of_here || apply list_elem_of_further)|lia].
  - apply (H4 "AH" g_rax 1). repeat (apply list_elem_of_here || apply list_elem_of_further).
Defined.
