(* ===== verification/Regoffs.v ===== *)
(** The register-offset table of src/OpcodeEngine.cpp: the names loaded for
    each architecture and the lookup the operand code goes through. *)
From Stdlib Require Import ZArith Lia List String Ascii.
From stdpp Require Import base list gmap strings pretty.
From S2P Require Import Prelude Registers StateMem CPUState AArch64 X86.
#[local] Open Scope string_scope.
#[local] Open Scope Z_scope.

(** [std::map<std::string, size_t>]. *)
Abbreviation regoffs_t := (gmap string Z).

(** [regoffs[name] = offset_reg(name);] for a list of names, in order. *)
Fixpoint load_names (offset : string -> exec Z) (names : list string) (regoffs : regoffs_t)
  : exec regoffs_t :=
  match names with
  | [] => Ret regoffs
  | name :: names' => o ← offset name; load_names offset names' (<[name := o]> regoffs)
  end.

(** [for (int i = lo; i < lo + n; ++i) { names of i }]. *)
Definition for_names (lo n : Z) (f : Z -> list string) : list string := mjoin (f <$> seqZ lo n).

Definition aarch64_reg_names : list string :=
  for_names 0 31 (fun i => [numbered "X" i; numbered "W" i]) ++
  ["SP"; "WSP"; "PC"] ++
  for_names 0 32 (fun i => [numbered "V" i; numbered "Q" i; numbered "D" i;
                            numbered "S" i; numbered "H" i; numbered "B" i]) ++
  ["XZR"; "WZR"; "BRANCH_TAKEN"; "NEXT_PC"; "RETURN_PC"; "IGNORE_WRITE_TO_WZR";
   "IGNORE_WRITE_TO_XZR"; "SUPPRESS_WRITEBACK"; "MONITOR"; "TPIDR_EL0"; "TPIDRRO_EL0";
   "NZCV"; "FPCR"; "FPSR"; "N"; "Z"; "C"; "V"; "IXC"; "OFC"; "UFC"; "IDC"; "IOC"; "DZC";
   "NG"; "ZR"; "CY"; "OV"; "SHIFT_CARRY"].

Definition x64_gpr_names : list string :=
  ["RAX"; "EAX"; "AX"; "AL"; "AH"; "RBX"; "EBX"; "BX"; "BL"; "BH";
   "RCX"; "ECX"; "CX"; "CL"; "CH"; "RDX"; "EDX"; "DX"; "DL"; "DH";
   "RSI"; "ESI"; "SI"; "SIL"; "RDI"; "EDI"; "DI"; "DIL"; "RSP"; "ESP";
   "SP"; "SPL"; "RBP"; "EBP"; "BP"; "BPL"; "RIP"; "EIP"; "IP"; "PC"].

Definition x64_misc_names : list string :=
  ["CF"; "PF"; "AF"; "ZF"; "SF"; "DF"; "OF"; "RFLAGS"; "EFLAGS"; "FLAGS"; "SS"; "ES"; "GS";
   "FS"; "DS"; "CS"; "SS_BASE"; "ES_BASE"; "GS_BASE"; "GSBASE"; "FS_BASE"; "FSBASE";
   "DS_BASE"; "CS_BASE"; "FPU_C0"; "FPU_C1"; "FPU_C2"; "FPU_C3"; "FPU_PE"; "FPU_UE";
   "FPU_OE"; "FPU_ZE"; "FPU_DE"; "FPU_IE"; "FPU_SF"].

Definition x64_reg_names : list string :=
  x64_gpr_names ++
  for_names 8 8 (fun i => [numbered "R" i; numbered "R" i ++ "D"; numbered "R" i ++ "W";
                           numbered "R" i ++ "B"]) ++
  for_names 0 32 (fun i => [numbered "ZMM" i; numbered "YMM" i; numbered "XMM" i]) ++
  for_names 0 8 (fun i => [numbered "K" i]) ++
  for_names 0 8 (fun i => [numbered "MM" i; numbered "ST" i]) ++
  x64_misc_names ++
  ["BRANCH_TAKEN"; "NEXT_PC"; "RETURN_PC"; "SUPPRESS_WRITEBACK"; "MONITOR"].

Section Regoffs.
Context `{A64Layout} `{X86Layout}.

Definition load_regoffs_aarch64 (regoffs : regoffs_t) : exec regoffs_t :=
  load_names aarch64.offset_reg_sv aarch64_reg_names regoffs.
Definition load_regoffs_x64 (regoffs : regoffs_t) : exec regoffs_t :=
  load_names x86.offset_reg_sv x64_reg_names regoffs.

(** [OpcodeHandler::init] fills the empty table of the running architecture. *)
Definition load_regoffs (arch : arch_t) (regoffs : regoffs_t) : exec regoffs_t :=
  if decide (regoffs = ∅) then
    match arch with ARM64 => load_regoffs_aarch64 regoffs | X64 => load_regoffs_x64 regoffs end
  else Ret regoffs.
End Regoffs.

(** [GetOffset(const std::string &)] aborts on a name that is not loaded. *)
Definition GetOffset (regoffs : regoffs_t) (reg : string) : exec Z :=
  of_option Abort (regoffs !! reg).

(** * Lemmas *)

Definition is_ret {A} (e : exec A) : bool := match e with Ret _ => true | _ => false end.

Lemma load_names_spec offset names : ∀ m,
  forallb (fun n => is_ret (offset n)) names = true ->
  ∃ m', load_names offset names m = Ret m' ∧
    ∀ n, m' !! n = if decide (n ∈ names)
                   then match offset n with Ret o => Some o | _ => None end else m !! n.
Proof.
  induction names as [|x names IH]; intros m Hall; cbn [load_names].
  { exists m. split; [done|]. intros n. by rewrite decide_False by apply not_elem_of_nil. }
  simpl in Hall. apply andb_true_iff in Hall as [Hx Hall].
  destruct (offset x) as [o| |] eqn:E; try done. simpl.
  destruct (IH (<[x:=o]> m) Hall) as (m' & H1 & H2). exists m'. split; [done|].
  intros n. rewrite H2. destruct (decide (n ∈ names)) as [Hin|Hin].
  - by rewrite decide_True by (by apply list_elem_of_further).
  - destruct (decide (x = n)) as [->|Hne].
    + rewrite lookup_insert_eq, decide_True by (apply list_elem_of_here). by rewrite E.
    + rewrite lookup_insert_ne by done. rewrite decide_False; [done|].
      rewrite not_elem_of_cons. by split; [apply not_eq_sym|].
Qed.

Lemma aarch64_names_ret `{A64Layout} :
  forallb (fun n => is_ret (aarch64.offset_reg_sv n)) aarch64_reg_names = true.
Proof. by vm_compute. Qed.

Lemma x64_names_ret `{X86Layout} :
  forallb (fun n => is_ret (x86.offset_reg_sv n)) x64_reg_names = true.
Proof. by vm_compute. Qed.

Definition reg_names (arch : arch_t) : list string :=
  match arch with ARM64 => aarch64_reg_names | X64 => x64_reg_names end.
Definition offset_reg_of `{A64Layout} `{X86Layout} (arch : arch_t) : string -> exec Z :=
  match arch with ARM64 => aarch64.offset_reg_sv | X64 => x86.offset_reg_sv end.

(** * Properties *)

(** Loading the offset table never aborts on either architecture; the
    table then holds exactly the listed names, each at the offset its name
    resolves to, so that [GetOffset] agrees with [offset_reg] on them and
    aborts on every other name; a loaded table is not loaded again. *)
Theorem load_regoffs_total `{A64Layout} `{X86Layout} (arch : arch_t) :
  ∃ regoffs, load_regoffs arch ∅ = Ret regoffs ∧
    (∀ name, name ∈ reg_names arch ->
       ∃ o, GetOffset regoffs name = Ret o ∧ offset_reg_of arch name = Ret o) ∧
    (∀ name, name ∉ reg_names arch -> GetOffset regoffs name = Abort) ∧
    load_regoffs arch regoffs = Ret regoffs.
Proof.
  assert (forallb (fun n => is_ret (offset_reg_of arch n)) (reg_names arch) = true) as Hall.
  { destruct arch; [apply aarch64_names_ret|apply x64_names_ret]. }
  destruct (load_names_spec (offset_reg_of arch) (reg_names arch) ∅ Hall) as (m & Hl & Hm).
  rewrite forallb_forall in Hall.
  exists m. split_and!.
  - rewrite <- Hl. unfold load_regoffs. by destruct arch.
  - intros n Hn. specialize (Hall n (proj1 (list_elem_of_In _ _) Hn)).
    unfold GetOffset. rewrite Hm, decide_True by done.
    destruct (offset_reg_of arch n) as [o| |]; [|done..]. by exists o.
  - intros n Hn. unfold GetOffset. rewrite Hm, decide_False by done. by rewrite lookup_empty.
  - unfold load_regoffs. rewrite decide_False; [done|]. intros ->.
    assert ("SP" ∈ reg_names arch) as Hin
      by (destruct arch; apply (bool_decide_unpack _); by vm_compute).
    specialize (Hm "SP"). rewrite lookup_empty, decide_True in Hm by done.
    specialize (Hall _ (proj1 (list_elem_of_In _ _) Hin)).
    destruct (offset_reg_of arch "SP"); done.
Qed.
