(* ===== verification/Operands.v ===== *)
(** The raw operand values of src/OpcodeEngine.cpp: how the arguments of a
    semantic function are computed from a remill operand and the bytes of the
    CPU state. remill's operand and expression types appear with the fields
    the code reads; the values of its enumerators and of LLVM's opcodes are
    the parameter [Codes]. *)
From Stdlib Require Import ZArith Lia List String Ascii.
From stdpp Require Import base list gmap strings.
From S2P Require Import Prelude Registers StateMem CPUState AArch64 Regoffs.
#[local] Open Scope Z_scope.

(** * The enumerators of remill and LLVM *)

Class Codes := {
  kTypeInvalid : Z; kTypeRegister : Z; kTypeShiftRegister : Z; kTypeImmediate : Z;
  kTypeAddress : Z; kTypeExpression : Z; kTypeRegisterExpression : Z;
  kTypeImmediateExpression : Z; kTypeAddressExpression : Z;
  kExtendInvalid : Z; kExtendUnsigned : Z; kExtendSigned : Z;
  kShiftInvalid : Z; kShiftLeftWithZeroes : Z; kShiftLeftWithOnes : Z;
  kShiftUnsignedRight : Z; kShiftSignedRight : Z; kShiftLeftAround : Z; kShiftRightAround : Z;
  Add : Z; Sub : Z; Mul : Z; Shl : Z; LShr : Z; AShr : Z; ZExt : Z; SExt : Z; Trunc : Z;
  And : Z; Or : Z; URem : Z; Xor : Z;
  (** different enumerators of one enumeration differ *)
  type_codes : NoDup [kTypeInvalid; kTypeRegister; kTypeShiftRegister; kTypeImmediate;
    kTypeAddress; kTypeExpression; kTypeRegisterExpression; kTypeImmediateExpression;
    kTypeAddressExpression];
  opcodes : NoDup [Add; Sub; Mul; Shl; LShr; AShr; ZExt; SExt; Trunc; And; Or; URem; Xor];
  shift_codes : NoDup [kShiftInvalid; kShiftLeftWithZeroes; kShiftLeftWithOnes;
    kShiftUnsignedRight; kShiftSignedRight; kShiftLeftAround; kShiftRightAround];
  (** the static assertions: the type codes fit in a byte *)
  type_codes_u8 : Forall u8 [kTypeInvalid; kTypeRegister; kTypeShiftRegister; kTypeImmediate;
    kTypeAddress; kTypeExpression; kTypeRegisterExpression; kTypeImmediateExpression;
    kTypeAddressExpression];
  (** what the casts of the metadata to [uint8_t] rely on *)
  shift_codes_u8 : Forall u8 [kShiftInvalid; kShiftLeftWithZeroes; kShiftLeftWithOnes;
    kShiftUnsignedRight; kShiftSignedRight; kShiftLeftAround; kShiftRightAround];
  extend_codes_u8 : Forall u8 [kExtendInvalid; kExtendUnsigned; kExtendSigned]
}.

(** * Operands *)

(** [RemillRegister]: the name, the size in bits, the offset in the state. *)
Record RemillRegister := mkReg { name : string; size : Z; offset : Z }.

Record ShiftRegister := mkShift {
  sr_reg : RemillRegister;
  sr_shift_size : Z; sr_extract_size : Z;
  sr_shift_first : bool; sr_can_shift_op_size : bool;
  sr_shift_op : Z; sr_extend_op : Z
}.

Record Immediate := mkImm { val : Z; is_signed : bool }.

Record Address := mkAddr {
  segment_base_reg : RemillRegister; base_reg : RemillRegister; index_reg : RemillRegister;
  scale : Z; displacement : Z; address_size : Z; addr_kind : Z
}.

(** A pointer to a [remill::OperandExpression]: [type] is the width in bits of
    the LLVM type when there is one, a constant is its bit width and its
    unsigned value when it is a [ConstantInt]. *)
Inductive OperandExpression :=
| NullExpr
| LLVMOpExpr (llvm_opcode : Z) (op1 op2 : OperandExpression) (type : option Z)
| RegisterExpr (reg : option (string * Z))
| ConstantExpr (ci : option (Z * Z))
| StringExpr (s : string).

Record RemillOperand := mkOperand {
  op_type : Z; op_action : Z; op_size : Z;
  op_reg : RemillRegister; op_shift_reg : ShiftRegister; op_imm : Immediate;
  op_addr : Address; op_expr : OperandExpression
}.

(** * Bit helpers *)

Definition MaskToBits (val bits : Z) : Z :=
  if bits =? 0 then 0
  else if bits >=? 64 then val
  else Z.land val (2 ^ bits - 1).

Definition SignExtend (val bits : Z) : Z :=
  if (bits =? 0) || (bits >=? 64) then val
  else
    let val := MaskToBits val bits in
    let sign_bit := 2 ^ (bits - 1) in
    wrap64 (Z.lxor val sign_bit - sign_bit).

(** [x >> n] on [int64_t], for [x] given by its 64-bit pattern. *)
Definition sar64 (x n : Z) : exec Z :=
  if (0 <=? n) && (n <? 64) then Ret (wrap64 (Z.shiftr (to_signed 64 x) n)) else Undef.

(** [sizeof(uintptr_t) * 8]. *)
Definition word_size : Z := 64.

(** * Registers *)

Section Raw.
Context `{Codes}.
(** The address the [State] lies at; register bytes are read from [m] by
    their offset. *)
Variable state_ptr : Z.
Variable m : bytes.
Variable regoffs : regoffs_t.

Definition LoadRegAddressRaw (reg : RemillRegister) : Z := wrap64 (state_ptr + offset reg).

Definition LoadRegValueRaw (reg : RemillRegister) : Z :=
  let num_bytes := (size reg + 7) / 8 in
  if num_bytes >? 8 then wrap64 (state_ptr + offset reg)
  else load (Z.to_nat num_bytes) m (offset reg).

Definition LoadWordRegValOrZeroRaw (reg : RemillRegister) (word_size_bits : Z) : Z :=
  if String.eqb (name reg) "" then 0
  else MaskToBits (LoadRegValueRaw reg) word_size_bits.

(** * Operand values *)

(** The shift, on a register already extracted and extended; [op_bits] is the
    operand size as [unsigned], [shift_size] an unsigned 64-bit count. *)
Definition ShiftRaw (shift_op reg shift_size op_size : Z) : exec Z :=
  let op_bits := wrap32 op_size in
  if shift_op =? kShiftInvalid then Ret reg
  else if shift_op =? kShiftLeftWithZeroes then
    x ← shl64 reg shift_size; Ret (MaskToBits x op_bits)
  else if shift_op =? kShiftLeftWithOnes then
    ones ← shl64 (wrap64 (Z.lnot 0)) shift_size;
    let mask_val := wrap64 (Z.lnot ones) in
    x ← shl64 reg shift_size; Ret (MaskToBits (Z.lor x mask_val) op_bits)
  else if shift_op =? kShiftUnsignedRight then
    x ← shr64 reg shift_size; Ret (MaskToBits x op_bits)
  else if shift_op =? kShiftSignedRight then
    x ← sar64 (SignExtend reg op_bits) shift_size; Ret (MaskToBits x op_bits)
  else if shift_op =? kShiftLeftAround then
    let shr_amount := Z.land (wrap64 (wrap64 (Z.lnot shift_size) + 1)) (wrap64 (op_size - 1)) in
    val1 ← shr64 reg shr_amount; val2 ← shl64 reg shift_size;
    Ret (MaskToBits (Z.lor val1 val2) op_bits)
  else if shift_op =? kShiftRightAround then
    let shl_amount := Z.land (wrap64 (wrap64 (Z.lnot shift_size) + 1)) (wrap64 (op_size - 1)) in
    val1 ← shr64 reg shift_size; val2 ← shl64 reg shl_amount;
    Ret (MaskToBits (Z.lor val1 val2) op_bits)
  else Ret reg.

Definition LiftShiftRegisterOperandRaw (op : RemillOperand) : exec Z :=
  let sr := op_shift_reg op in
  let arch_reg := sr_reg sr in
  let reg := LoadRegValueRaw arch_reg in
  let reg_size := size arch_reg in
  '(reg, curr_size) ←
    (if negb (kExtendInvalid =? sr_extend_op sr) then
       let extract_size := wrap32 (sr_extract_size sr) in
       let '(reg, curr_size) :=
         if reg_size >? extract_size then (MaskToBits reg extract_size, extract_size)
         else (reg, reg_size) in
       if op_size op >? sr_extract_size sr then
         if sr_extend_op sr =? kExtendSigned then
           Ret (SignExtend reg extract_size, wrap32 (op_size op))
         else if sr_extend_op sr =? kExtendUnsigned then Ret (reg, wrap32 (op_size op))
         else Abort
       else Ret (reg, curr_size)
     else Ret (reg, reg_size));
  let reg := if curr_size <? op_size op then MaskToBits reg curr_size else reg in
  reg ← ShiftRaw (sr_shift_op sr) reg (sr_shift_size sr) (op_size op);
  Ret (if word_size >? op_size op then MaskToBits reg (wrap32 (op_size op)) else reg).

Definition LiftRegisterOperandRaw (op : RemillOperand) (ptr : bool) : Z :=
  if ptr then LoadRegAddressRaw (op_reg op) else LoadRegValueRaw (op_reg op).

Definition LiftImmediateOperandRaw (arch_op : RemillOperand) : Z :=
  let bits := wrap32 (op_size arch_op) in
  if is_signed (op_imm arch_op) then SignExtend (val (op_imm arch_op)) bits
  else MaskToBits (val (op_imm arch_op)) bits.

(** The signed displacement added to an address; negating the least [int64_t]
    is undefined. *)
Definition AddDisplacement (addr displacement : Z) : exec Z :=
  if displacement =? 0 then Ret addr
  else if 0 <? displacement then Ret (MaskToBits (wrap64 (addr + wrap64 displacement)) word_size)
  else if displacement =? - 2 ^ 63 then Undef
  else Ret (MaskToBits (wrap64 (addr - wrap64 (- displacement))) word_size).

Definition LiftAddressOperandRaw (op : RemillOperand) : exec Z :=
  let arch_addr := op_addr op in
  let addr := LoadWordRegValOrZeroRaw (base_reg arch_addr) word_size in
  let index := LoadWordRegValOrZeroRaw (index_reg arch_addr) word_size in
  let scale := wrap64 (scale arch_addr) in
  let segment := LoadWordRegValOrZeroRaw (segment_base_reg arch_addr) word_size in
  let addr := if negb (index =? 0)
              then MaskToBits (wrap64 (addr + wrap64 (index * scale))) word_size else addr in
  addr ← AddDisplacement addr (displacement arch_addr);
  let addr := if negb (segment =? 0) then MaskToBits (wrap64 (addr + segment)) word_size else addr in
  Ret (if address_size arch_addr <? word_size
       then MaskToBits addr (wrap32 (address_size arch_addr)) else addr).

(** The arithmetic of an expression node; [width] is the width of the node's
    type, asked for by the conversions only. *)
Definition EvalOpcode (opcode lhs rhs : Z) (width : exec Z) : exec Z :=
  if opcode =? Add then Ret (wrap64 (lhs + rhs))
  else if opcode =? Sub then Ret (wrap64 (lhs - rhs))
  else if opcode =? Mul then Ret (wrap64 (lhs * rhs))
  else if opcode =? Shl then shl64 lhs rhs
  else if opcode =? LShr then shr64 lhs rhs
  else if opcode =? AShr then sar64 lhs (to_signed 64 rhs)
  else if opcode =? ZExt then w ← width; Ret (MaskToBits lhs w)
  else if opcode =? SExt then w ← width; Ret (SignExtend lhs w)
  else if opcode =? Trunc then w ← width; Ret (MaskToBits lhs w)
  else if opcode =? And then Ret (Z.land lhs rhs)
  else if opcode =? Or then Ret (Z.lor lhs rhs)
  else if opcode =? URem then Ret (if rhs =? 0 then 0 else lhs mod rhs)
  else if opcode =? Xor then Ret (Z.lxor lhs rhs)
  else Abort.

(** [std::get_if] of a null pointer holds nothing, and the chain of tests
    then ends in [abort()]. The width of a null type, the dereference of a
    null register and [at(0)] of an empty string are undefined. *)
Fixpoint LiftExpressionOperandRecRaw (op : OperandExpression) : exec Z :=
  match op with
  | NullExpr => Abort
  | LLVMOpExpr llvm_opcode op1 op2 type =>
      lhs ← LiftExpressionOperandRecRaw op1;
      rhs ← (match op2 with NullExpr => Ret 0 | _ => LiftExpressionOperandRecRaw op2 end);
      EvalOpcode llvm_opcode lhs rhs (of_option Undef type)
  | RegisterExpr None => Undef
  | RegisterExpr (Some (nm, sz)) =>
      o ← GetOffset regoffs nm; Ret (LoadRegValueRaw (mkReg nm sz o))
  | ConstantExpr None => Abort
  | ConstantExpr (Some (_, v)) => Ret v
  | StringExpr s =>
      match s with
      | EmptyString => Undef
      | String c _ =>
          o ← GetOffset regoffs s;
          Ret (LoadRegValueRaw (mkReg s (if Ascii.eqb c "w"%char then 32 else 64) o))
      end
  end.

Definition LiftExpressionOperandRaw (op : RemillOperand) : exec Z :=
  LiftExpressionOperandRecRaw (op_expr op).

(** One argument of the loop of [interpRemill]. *)
Definition LiftOperand (op : RemillOperand) (pointer : bool) : exec Z :=
  if op_type op =? kTypeRegister then Ret (LiftRegisterOperandRaw op pointer)
  else if op_type op =? kTypeShiftRegister then LiftShiftRegisterOperandRaw op
  else if op_type op =? kTypeImmediate then Ret (LiftImmediateOperandRaw op)
  else if op_type op =? kTypeAddress then LiftAddressOperandRaw op
  else if (op_type op =? kTypeExpression) || (op_type op =? kTypeRegisterExpression) ||
          (op_type op =? kTypeImmediateExpression) || (op_type op =? kTypeAddressExpression)
  then LiftExpressionOperandRaw op
  else Abort.
End Raw.

(** * Lemmas *)

Lemma MaskToBits_mod v bits : 0 <= bits < 64 -> MaskToBits v bits = v mod 2 ^ bits.
Proof.
  intros Hb. unfold MaskToBits. destruct (Z.eqb_spec bits 0) as [->|]; [by rewrite Z.mod_1_r|].
  destruct (Z.geb_spec bits 64); [lia|]. apply land_mask. lia.
Qed.

Lemma MaskToBits_id v bits : 64 <= bits -> MaskToBits v bits = v.
Proof.
  intros Hb. unfold MaskToBits. rewrite (proj2 (Z.eqb_neq bits 0)) by lia.
  by destruct (Z.geb_spec bits 64); [|lia].
Qed.

Lemma MaskToBits_fits v bits : 0 <= bits -> u64 v -> fits (Z.min 64 bits) (MaskToBits v bits).
Proof.
  intros Hb Hv. destruct (decide (bits < 64)).
  - rewrite MaskToBits_mod, Z.min_r by lia. apply wrap_fits. lia.
  - by rewrite MaskToBits_id, Z.min_l by lia.
Qed.

Lemma MaskToBits_u64 v bits : 0 <= bits -> u64 v -> u64 (MaskToBits v bits).
Proof. intros. eapply fits_mono; [|by apply MaskToBits_fits]. lia. Qed.

(** Masking to [n <= 64] bits what fits in 64 is reducing modulo [2 ^ n]. *)
Lemma MaskToBits_wrap v bits : 0 <= bits <= 64 -> u64 v -> MaskToBits v bits = v mod 2 ^ bits.
Proof.
  intros Hb Hv. destruct (decide (bits = 64)) as [->|].
  - rewrite MaskToBits_id by lia. symmetry. by apply Z.mod_small.
  - apply MaskToBits_mod. lia.
Qed.

Lemma MaskToBits_wrap64 v bits : 0 <= bits <= 64 -> MaskToBits (wrap64 v) bits = v mod 2 ^ bits.
Proof.
  intros Hb. rewrite MaskToBits_wrap by (done || (apply wrap_fits; lia)). unfold wrap.
  apply Z.bits_inj'. intros i Hi. destruct (decide (i < bits)).
  - by rewrite !Z.mod_pow2_bits_low by lia.
  - by rewrite !Z.mod_pow2_bits_high by lia.
Qed.

Lemma to_signed_range w z : 1 <= w -> - 2 ^ (w - 1) <= to_signed w z < 2 ^ (w - 1).
Proof.
  intros Hw. unfold to_signed. pose proof (Z.mod_pos_bound z (2 ^ w) ltac:(apply pow2_pos; lia)).
  assert (2 ^ w = 2 * 2 ^ (w - 1)) by (rewrite <- Z.pow_succ_r by lia; f_equal; lia).
  destruct (Z.ltb_spec (z mod 2 ^ w) (2 ^ (w - 1))); lia.
Qed.

Lemma to_signed_mod w z : 0 <= w -> to_signed w z mod 2 ^ w = z mod 2 ^ w.
Proof.
  intros Hw. unfold to_signed. pose proof (pow2_pos w Hw).
  destruct (Z.ltb_spec (z mod 2 ^ w) (2 ^ (w - 1))); [by apply Zmod_mod|].
  replace (z mod 2 ^ w - 2 ^ w) with (z mod 2 ^ w + (-1) * 2 ^ w) by lia.
  rewrite Z.mod_add by lia. by apply Zmod_mod.
Qed.

Lemma land_pow2_high v n : 0 <= n -> fits n v -> Z.land v (2 ^ n) = 0.
Proof.
  intros Hn Hv. apply Z.bits_inj'. intros i Hi.
  rewrite Z.land_spec, Z.bits_0, Z.pow2_bits_eqb by lia.
  destruct (Z.eqb_spec n i) as [<-|]; [|by rewrite andb_false_r].
  rewrite (testbit_fits n v n); [done|exact Hv|lia].
Qed.

Lemma lxor_sign_bit v n : 0 <= n -> 0 <= v < 2 ^ (n + 1) ->
  Z.lxor v (2 ^ n) = if v <? 2 ^ n then v + 2 ^ n else v - 2 ^ n.
Proof.
  intros Hn Hv. pose proof (pow2_pos n Hn).
  assert (2 ^ (n + 1) = 2 * 2 ^ n) by (rewrite <- Z.pow_succ_r by lia; f_equal; lia).
  destruct (Z.ltb_spec v (2 ^ n)) as [Hlt|Hge].
  - symmetry. apply Z.add_nocarry_lxor. apply land_pow2_high; unfold fits; lia.
  - assert (v = Z.lxor (v - 2 ^ n) (2 ^ n)) as Hx.
    { rewrite <- Z.add_nocarry_lxor; [lia|]. apply land_pow2_high; unfold fits; lia. }
    rewrite Hx at 1. rewrite Z.lxor_assoc, Z.lxor_nilpotent. by apply Z.lxor_0_r.
Qed.

(** Sign extension keeps the signed value. *)
Lemma SignExtend_signed v bits : 1 <= bits <= 64 -> u64 v ->
  SignExtend v bits = wrap64 (to_signed bits v).
Proof.
  intros Hb Hv. unfold SignExtend. rewrite (proj2 (Z.eqb_neq bits 0)) by lia. cbn [orb].
  destruct (Z.geb_spec bits 64).
  { replace bits with 64 by lia. unfold wrap. rewrite to_signed_mod by lia.
    symmetry. by apply Z.mod_small. }
  rewrite MaskToBits_mod by lia.
  pose proof (Z.mod_pos_bound v (2 ^ bits) ltac:(apply pow2_pos; lia)) as Hr.
  rewrite lxor_sign_bit by (try lia; replace (bits - 1 + 1) with bits by lia; lia).
  unfold to_signed.
  assert (2 ^ bits = 2 * 2 ^ (bits - 1)) by (rewrite <- Z.pow_succ_r by lia; f_equal; lia).
  destruct (Z.ltb_spec (v mod 2 ^ bits) (2 ^ (bits - 1))); f_equal; lia.
Qed.

Lemma SignExtend_u64 v bits : 0 <= bits -> u64 v -> u64 (SignExtend v bits).
Proof.
  intros Hb Hv. unfold SignExtend. destruct ((bits =? 0) || (bits >=? 64)); [done|].
  apply wrap_fits. lia.
Qed.

Lemma LoadRegValueRaw_u64 sp m reg : byte_store m -> 0 <= size reg -> u64 (LoadRegValueRaw sp m reg).
Proof.
  intros Hm Hs. unfold LoadRegValueRaw.
  pose proof (Z.div_pos (size reg + 7) 8 ltac:(lia) ltac:(lia)) as Hd.
  destruct (Z.gtb_spec ((size reg + 7) / 8) 8) as [Hgt|Hle]; [apply wrap_fits; lia|].
  eapply fits_mono; [|by apply load_fits]. lia.
Qed.

Lemma LoadWordRegValOrZeroRaw_u64 sp m reg : byte_store m -> 0 <= size reg ->
  u64 (LoadWordRegValOrZeroRaw sp m reg word_size).
Proof.
  intros. unfold LoadWordRegValOrZeroRaw. case_match; [split; lia|].
  rewrite MaskToBits_id by (unfold word_size; lia). by apply LoadRegValueRaw_u64.
Qed.

Lemma AddDisplacement_wrap a d : u64 a -> - 2 ^ 63 < d ->
  AddDisplacement a d = Ret (wrap64 (a + d)).
Proof.
  intros Ha Hd. unfold AddDisplacement.
  destruct (Z.eqb_spec d 0) as [->|]; [rewrite Z.add_0_r; by rewrite wrap_small|].
  destruct (Z.ltb_spec 0 d).
  - rewrite MaskToBits_id by (unfold word_size; lia). by rewrite wrap_add_r.
  - rewrite (proj2 (Z.eqb_neq d _)) by lia. rewrite MaskToBits_id by (unfold word_size; lia).
    rewrite wrap_sub_r. do 2 f_equal. lia.
Qed.

(** The rotation count in the other direction. *)
Lemma rotate_count s k : 0 <= k <= 6 -> 0 <= s ->
  Z.land (wrap64 (wrap64 (Z.lnot s) + 1)) (wrap64 (2 ^ k - 1)) = (- s) mod 2 ^ k.
Proof.
  intros Hk Hs. pose proof (Z.pow_lt_mono_r 2 k 64 ltac:(lia) ltac:(lia) ltac:(lia)).
  rewrite (wrap_small 64 (2 ^ k - 1)) by (unfold fits; lia).
  rewrite land_mask, wrap_add_l by lia. replace (Z.lnot s + 1) with (- s) by (unfold Z.lnot; lia).
  unfold wrap. apply Z.bits_inj'. intros i Hi. destruct (decide (i < k)).
  - by rewrite !Z.mod_pow2_bits_low by lia.
  - by rewrite !Z.mod_pow2_bits_high by lia.
Qed.

(** Two shifted copies make a rotation: the bit [i] of the result is the bit
    [i - s] of the operand, cyclically. *)
Lemma rotate_bits reg n s t v1 v2 i :
  0 < n <= 64 -> fits n reg -> 0 <= s < n -> t = (- s) mod n ->
  shr64 reg t = Ret v1 -> shl64 reg s = Ret v2 -> 0 <= i < n ->
  Z.testbit (Z.lor v1 v2) i = Z.testbit reg ((i - s) mod n).
Proof.
  intros Hn Hr Hs -> H1 H2 Hi. unfold shr64, shl64 in *.
  destruct (_ <? 64); [|done]. destruct (s <? 64); [|done]. simplify_eq.
  pose proof (Z.mod_pos_bound (- s) n ltac:(lia)).
  rewrite Z.lor_spec, Z.shiftr_spec by lia. unfold wrap.
  rewrite Z.mod_pow2_bits_low, Z.shiftl_spec by lia.
  destruct (decide (s = 0)) as [->|].
  - rewrite Z.mod_0_l by lia. rewrite Z.add_0_r, Z.sub_0_r, Z.mod_small by lia. apply orb_diag.
  - assert ((- s) mod n = n - s) as ->
      by (rewrite <- (Z.mod_add _ 1) by lia; rewrite Z.mod_small; lia).
    destruct (decide (i < s)).
    + rewrite (Z.testbit_neg_r _ (i - s)) by lia. rewrite orb_false_r.
      rewrite <- (Z.mod_add (i - s) 1) by lia. rewrite Z.mod_small by lia. f_equal. lia.
    + rewrite (testbit_fits n reg (i + (n - s))) by (done || lia).
      rewrite Z.mod_small by lia. done.
Qed.

Lemma sar64_div v n s : 1 <= n <= 64 -> 0 <= s < 64 -> u64 v ->
  sar64 (SignExtend v n) s = Ret (wrap64 (to_signed n v / 2 ^ s)).
Proof.
  intros Hn Hs Hv. unfold sar64. rewrite SignExtend_signed by done.
  rewrite (proj2 (Z.leb_le 0 s)), (proj2 (Z.ltb_lt s 64)) by lia. cbn [andb]. do 2 f_equal.
  rewrite Z.shiftr_div_pow2 by lia. f_equal.
  pose proof (to_signed_range n v ltac:(lia)) as Hr.
  pose proof (Z.pow_le_mono_r 2 (n - 1) 63 ltac:(lia) ltac:(lia)).
  generalize dependent (to_signed n v). intros x Hr. unfold to_signed, wrap.
  change (2 ^ (64 - 1)) with (2 ^ 63). rewrite Zmod_mod.
  destruct (decide (0 <= x)).
  - rewrite Z.mod_small by lia. by rewrite (proj2 (Z.ltb_lt _ _)) by lia.
  - rewrite <- (Z.mod_add x 1) by lia. rewrite Z.mod_small by lia.
    rewrite (proj2 (Z.ltb_ge _ _)) by lia. lia.
Qed.

Lemma ones_mask s : 0 <= s < 64 ->
  wrap64 (Z.lnot (wrap64 (Z.shiftl (wrap64 (Z.lnot 0)) s))) = 2 ^ s - 1.
Proof.
  intros Hs. rewrite Z.sub_1_r, <- Z.ones_equiv. apply Z.bits_inj'. intros i Hi.
  change (wrap64 (Z.lnot 0)) with (Z.ones 64). unfold wrap.
  rewrite (Z.testbit_ones s) by lia. rewrite (proj2 (Z.leb_le 0 i)) by lia. cbn [andb].
  destruct (decide (i < 64)).
  - rewrite Z.mod_pow2_bits_low, Z.lnot_spec, Z.mod_pow2_bits_low, Z.shiftl_spec by lia.
    destruct (Z.ltb_spec i s); [by rewrite Z.testbit_neg_r by lia|].
    rewrite Z.testbit_ones by lia. rewrite (proj2 (Z.leb_le 0 (i - s))) by lia.
    by rewrite (proj2 (Z.ltb_lt (i - s) 64)) by lia.
  - rewrite Z.mod_pow2_bits_high by lia. symmetry. apply Z.ltb_ge. lia.
Qed.

(** Shifting left and filling with ones. *)
Lemma shift_ones reg s n : 0 <= s -> 0 <= n <= 64 ->
  MaskToBits (Z.lor (wrap64 (Z.shiftl reg s)) (2 ^ s - 1)) n = (reg * 2 ^ s + (2 ^ s - 1)) mod 2 ^ n
  \/ 64 <= s.
Proof.
  intros Hs Hn. destruct (decide (s < 64)); [left|right; lia].
  assert (Z.land (Z.shiftl reg s) (2 ^ s - 1) = 0) as Hd.
  { rewrite land_mask, Z.shiftl_mul_pow2 by lia. apply Z.mod_mul. pose proof (pow2_pos s). lia. }
  rewrite <- Z.shiftl_mul_pow2 by lia. rewrite Z.add_nocarry_lxor by done.
  rewrite Z.lxor_lor by done.
  rewrite <- MaskToBits_wrap64 by lia. f_equal.
  apply Z.bits_inj'. intros i Hi. unfold wrap. rewrite Z.lor_spec.
  destruct (decide (i < 64)).
  - by rewrite !Z.mod_pow2_bits_low, Z.lor_spec by lia.
  - rewrite !Z.mod_pow2_bits_high by lia. rewrite Z.sub_1_r, <- Z.ones_equiv.
    rewrite Z.testbit_ones by lia. rewrite (proj2 (Z.ltb_ge i s)) by lia. by rewrite andb_false_r.
Qed.

(** Decides the tests of a chain of [if (code == k)] with distinct codes. *)
Ltac code_case :=
  match goal with
  | |- context [?a =? ?a] => rewrite (Z.eqb_refl a)
  | Hn : ?a <> ?b |- context [?a =? ?b] => rewrite (proj2 (Z.eqb_neq a b) Hn)
  | Hn : ?b <> ?a |- context [?a =? ?b] => rewrite (proj2 (Z.eqb_neq a b) (not_eq_sym Hn))
  end.

Ltac distinct_codes H :=
  rewrite ?NoDup_cons, ?not_elem_of_cons in H; destruct_and? H.

(** The branch each shift code takes. *)
Lemma ShiftRaw_branches `{Codes} reg s n :
  let t := Z.land (wrap64 (wrap64 (Z.lnot s) + 1)) (wrap64 (n - 1)) in
  ShiftRaw kShiftInvalid reg s n = Ret reg ∧
  ShiftRaw kShiftLeftWithZeroes reg s n =
    (x ← shl64 reg s; Ret (MaskToBits x (wrap32 n))) ∧
  ShiftRaw kShiftLeftWithOnes reg s n =
    (ones ← shl64 (wrap64 (Z.lnot 0)) s; x ← shl64 reg s;
     Ret (MaskToBits (Z.lor x (wrap64 (Z.lnot ones))) (wrap32 n))) ∧
  ShiftRaw kShiftUnsignedRight reg s n =
    (x ← shr64 reg s; Ret (MaskToBits x (wrap32 n))) ∧
  ShiftRaw kShiftSignedRight reg s n =
    (x ← sar64 (SignExtend reg (wrap32 n)) s; Ret (MaskToBits x (wrap32 n))) ∧
  ShiftRaw kShiftLeftAround reg s n =
    (x ← shr64 reg t; y ← shl64 reg s; Ret (MaskToBits (Z.lor x y) (wrap32 n))) ∧
  ShiftRaw kShiftRightAround reg s n =
    (x ← shr64 reg s; y ← shl64 reg t; Ret (MaskToBits (Z.lor x y) (wrap32 n))).
Proof.
  intros t. pose proof shift_codes as Hc. distinct_codes Hc. unfold ShiftRaw.
  split_and!; repeat code_case; reflexivity.
Qed.

#[export] Hint Resolve MaskToBits_u64 SignExtend_u64 LoadRegValueRaw_u64 : bits.

(** * Properties *)

(** The effective address of a memory operand is the sum of its base,
    its scaled index, its displacement and its segment base, modulo the
    address size (or the 64-bit word when that is smaller); absent registers
    count as 0 and the tests that skip a zero index, displacement or segment
    do not change the value. *)
Theorem LiftAddressOperandRaw_effective (state_ptr : Z) (m : bytes) (op : RemillOperand) :
  let a := op_addr op in
  let word r := LoadWordRegValOrZeroRaw state_ptr m r word_size in
  byte_store m -> 0 <= size (base_reg a) -> 0 <= size (index_reg a) ->
  0 <= size (segment_base_reg a) -> fits 32 (address_size a) -> - 2 ^ 63 < displacement a ->
  LiftAddressOperandRaw state_ptr m op =
    Ret ((word (base_reg a) + word (index_reg a) * scale a + displacement a
          + word (segment_base_reg a)) mod 2 ^ Z.min word_size (address_size a)).
Proof.
  intros a word Hm Hb Hi Hs Ha Hd. unfold LiftAddressOperandRaw. fold a.
  fold (word (base_reg a)) (word (index_reg a)) (word (segment_base_reg a)).
  assert (∀ r, 0 <= size r -> u64 (word r)) as Hw
    by (intros; by apply LoadWordRegValOrZeroRaw_u64).
  set (b := word (base_reg a)). set (i := word (index_reg a)).
  set (s := word (segment_base_reg a)).
  assert (u64 b) as Hub by (by apply Hw). assert (u64 s) as Hus by (by apply Hw).
  assert ((if negb (i =? 0) then MaskToBits (wrap64 (b + wrap64 (i * wrap64 (scale a)))) word_size
           else b) = wrap64 (b + i * scale a)) as ->.
  { destruct (Z.eqb_spec i 0) as [->|]; simpl.
    - rewrite Z.mul_0_l, Z.add_0_r. by rewrite wrap_small.
    - rewrite MaskToBits_id by (unfold word_size; lia). by rewrite wrap_add_r, <- wrap_add_r,
        wrap_mul_r, wrap_add_r. }
  rewrite AddDisplacement_wrap by (done || (apply wrap_fits; lia)).
  cbn [mbind exec_bind]. rewrite (wrap_add_l 64 (b + i * scale a)).
  set (x := b + i * scale a + displacement a).
  assert ((if negb (s =? 0) then MaskToBits (wrap64 (wrap64 x + s)) word_size else wrap64 x)
    = wrap64 (x + s)) as ->.
  { destruct (Z.eqb_spec s 0) as [->|]; simpl; [by rewrite Z.add_0_r|].
    rewrite MaskToBits_id by (unfold word_size; lia). by rewrite wrap_add_l. }
  f_equal. unfold word_size, fits in *. destruct (Z.ltb_spec (address_size a) 64).
  - rewrite (wrap_small 32) by done. rewrite Z.min_r by lia. apply MaskToBits_wrap64. lia.
  - by rewrite Z.min_l by lia.
Qed.

Theorem LiftAddressOperandRaw_witness :
  let x n := mkReg "X1" 64 n in
  let op := mkOperand 4 0 64 (x 0) (mkShift (x 0) 0 0 false false 0 0) (mkImm 0 false)
              (mkAddr (mkReg "" 0 0) (x 8) (x 16) 4 (-8) 64 0) NullExpr in
  let m := store 8 (store 8 ∅ 8 0x1000) 16 3 in
  LiftAddressOperandRaw 0x7000 m op = Ret 0x1004.
Proof.
  intros x op m. unfold m.
  rewrite (LiftAddressOperandRaw_effective 0x7000 (store 8 (store 8 ∅ 8 0x1000) 16 3) op).
  - reflexivity.
  - auto with aether.
  - simpl. lia.
  - simpl. lia.
  - simpl. lia.
  - split; simpl; lia.
  - simpl. lia.
Defined.

(** ** The six shifts, one by one *)

Section Shifts.
Context `{Codes}.
Variables k n reg s : Z.
Hypothesis size : n = 2 ^ k.
Hypothesis size_ok : 8 <= n <= 64.
Hypothesis exponent : 3 <= k <= 6.
Hypothesis value : fits n reg.
Hypothesis count : 0 <= s.

Lemma shift_size : wrap32 n = n.
Proof. apply wrap_small. unfold fits. lia. Qed.

Lemma shift_plain : s < n ->
  ShiftRaw kShiftInvalid reg s n = Ret reg ∧
  ShiftRaw kShiftLeftWithZeroes reg s n = Ret ((reg * 2 ^ s) mod 2 ^ n) ∧
  ShiftRaw kShiftLeftWithOnes reg s n = Ret ((reg * 2 ^ s + (2 ^ s - 1)) mod 2 ^ n) ∧
  ShiftRaw kShiftUnsignedRight reg s n = Ret (reg / 2 ^ s) ∧
  ShiftRaw kShiftSignedRight reg s n = Ret ((to_signed n reg / 2 ^ s) mod 2 ^ n).
Proof.
  intros Hs. pose proof shift_size as Hw. assert (u64 reg) as Hu by (by apply (fits_mono n); [lia|]).
  destruct (ShiftRaw_branches reg s n) as (B1 & B2 & B3 & B4 & B5 & _).
  rewrite Hw in *. rewrite B1, B2, B3, B4, B5. unfold shl64, shr64. rewrite (proj2 (Z.ltb_lt s 64)) by lia.
  split_and!; cbn [mbind exec_bind].
  - done.
  - rewrite Z.shiftl_mul_pow2 by lia. f_equal. apply MaskToBits_wrap64. lia.
  - rewrite ones_mask by lia. f_equal. destruct (shift_ones reg s n) as [->|]; [lia..|done|lia].
  - rewrite MaskToBits_wrap, Z.shiftr_div_pow2 by (try lia; by apply shiftr_fits).
    f_equal. apply Z.mod_small. rewrite <- Z.shiftr_div_pow2 by lia. by apply shiftr_fits.
  - rewrite sar64_div by (lia || done). cbn [mbind exec_bind]. f_equal. apply MaskToBits_wrap64. lia.
Qed.

Lemma rotate_mask x y : fits n x -> MaskToBits (Z.lor x (wrap64 y)) n = wrap n (Z.lor x (wrap64 y)).
Proof.
  intros Hx. apply MaskToBits_wrap; [lia|]. apply lor_fits; [lia| |apply wrap_fits; lia].
  apply (fits_mono n); [lia|done].
Qed.

Lemma rotate_left : s < n -> ∃ r, ShiftRaw kShiftLeftAround reg s n = Ret r ∧ fits n r ∧
  ∀ i, 0 <= i < n -> Z.testbit r i = Z.testbit reg ((i - s) mod n).
Proof.
  intros Hs. destruct (ShiftRaw_branches reg s n) as (_ & _ & _ & _ & _ & B & _). rewrite shift_size in B. rewrite B.
  rewrite size, rotate_count, <- size by lia. pose proof (Z.mod_pos_bound (- s) n ltac:(lia)).
  unfold shl64, shr64. rewrite !(proj2 (Z.ltb_lt _ 64)) by lia. cbn [mbind exec_bind].
  eexists. split; [done|]. rewrite rotate_mask by (by apply shiftr_fits; [lia|]).
  split; [apply wrap_fits; lia|]. intros i Hi. unfold wrap at 1. rewrite Z.mod_pow2_bits_low by lia.
  eapply (rotate_bits reg n s); try done; try lia; unfold shr64, shl64; by rewrite (proj2 (Z.ltb_lt _ 64)) by lia.
Qed.

Lemma rotate_right : s < n -> ∃ r, ShiftRaw kShiftRightAround reg s n = Ret r ∧ fits n r ∧
  ∀ i, 0 <= i < n -> Z.testbit r i = Z.testbit reg ((i + s) mod n).
Proof.
  intros Hs. destruct (ShiftRaw_branches reg s n) as (_ & _ & _ & _ & _ & _ & B). rewrite shift_size in B. rewrite B.
  rewrite size, rotate_count, <- size by lia. pose proof (Z.mod_pos_bound (- s) n ltac:(lia)).
  unfold shl64, shr64. rewrite !(proj2 (Z.ltb_lt _ 64)) by lia. cbn [mbind exec_bind].
  eexists. split; [done|]. rewrite rotate_mask by (by apply shiftr_fits; [lia|]).
  split; [apply wrap_fits; lia|]. intros i Hi. unfold wrap at 1. rewrite Z.mod_pow2_bits_low by lia.
  assert ((i - (- s) mod n) mod n = (i + s) mod n) as <- by (rewrite Zminus_mod_idemp_r; f_equal; lia).
  apply (rotate_bits reg n ((- s) mod n) s); [lia|done|lia| | | |done].
  - rewrite <- (Z.sub_0_l ((- s) mod n)), Zminus_mod_idemp_r, Z.mod_small by lia. lia.
  - unfold shr64. by rewrite (proj2 (Z.ltb_lt s 64)) by lia.
  - unfold shl64. by rewrite (proj2 (Z.ltb_lt _ 64)) by lia.
Qed.

Lemma shift_too_far code : 64 <= s -> code ∈ [kShiftLeftWithZeroes; kShiftLeftWithOnes; kShiftUnsignedRight;
  kShiftSignedRight; kShiftLeftAround; kShiftRightAround] -> ShiftRaw code reg s n = Undef.
Proof.
  intros Hs Hin. destruct (ShiftRaw_branches reg s n) as (_ & B2 & B3 & B4 & B5 & B6 & B7). rewrite shift_size in *.
  pose proof (Z.mod_pos_bound (- s) n ltac:(lia)).
  assert (∀ x, shl64 x s = Undef) as Hl by (intros; unfold shl64; by rewrite (proj2 (Z.ltb_ge s 64))).
  assert (∀ x, shr64 x s = Undef) as Hrr by (intros; unfold shr64; by rewrite (proj2 (Z.ltb_ge s 64))).
  assert (∀ x, sar64 x s = Undef) as Ha
    by (intros; unfold sar64; by rewrite (proj2 (Z.ltb_ge s 64)), andb_false_r).
  rewrite size, rotate_count, <- size in B6, B7 by lia.
  assert (∀ x, shr64 x ((- s) mod n) = Ret (Z.shiftr x ((- s) mod n))) as Hra
    by (intros; unfold shr64; by rewrite (proj2 (Z.ltb_lt _ 64)) by lia).
  repeat (apply elem_of_cons in Hin as [->|Hin];
    [rewrite ?B2, ?B3, ?B4, ?B5, ?B6, ?B7, ?Hra, ?Hl, ?Hrr, ?Ha; reflexivity|]).
  by apply elem_of_nil in Hin.
Qed.
End Shifts.

(** C38: the six shifts of a shifted-register operand, on an operand size of
    8 to 64 bits and a count below it, compute what their names say: the
    shifted value modulo the size, ones shifted in, the unsigned and the
    signed quotient by the power of two, and the bits rotated cyclically; a
    count of 64 or more is undefined for all of them. *)
Theorem ShiftRaw_semantics `{Codes} (k reg s : Z) :
  let n := 2 ^ k in
  3 <= k <= 6 -> fits n reg -> 0 <= s ->
  (s < n ->
     ShiftRaw kShiftInvalid reg s n = Ret reg ∧
     ShiftRaw kShiftLeftWithZeroes reg s n = Ret ((reg * 2 ^ s) mod 2 ^ n) ∧
     ShiftRaw kShiftLeftWithOnes reg s n = Ret ((reg * 2 ^ s + (2 ^ s - 1)) mod 2 ^ n) ∧
     ShiftRaw kShiftUnsignedRight reg s n = Ret (reg / 2 ^ s) ∧
     ShiftRaw kShiftSignedRight reg s n = Ret ((to_signed n reg / 2 ^ s) mod 2 ^ n) ∧
     (∃ r, ShiftRaw kShiftLeftAround reg s n = Ret r ∧ fits n r ∧
        ∀ i, 0 <= i < n -> Z.testbit r i = Z.testbit reg ((i - s) mod n)) ∧
     (∃ r, ShiftRaw kShiftRightAround reg s n = Ret r ∧ fits n r ∧
        ∀ i, 0 <= i < n -> Z.testbit r i = Z.testbit reg ((i + s) mod n))) ∧
  (64 <= s -> ∀ code, code ∈ [kShiftLeftWithZeroes; kShiftLeftWithOnes; kShiftUnsignedRight;
     kShiftSignedRight; kShiftLeftAround; kShiftRightAround] -> ShiftRaw code reg s n = Undef).
Proof.
  intros n Hk Hr Hs0. assert (8 <= n <= 64) as Hn.
  { unfold n. pose proof (Z.pow_le_mono_r 2 3 k). pose proof (Z.pow_le_mono_r 2 k 6). lia. }
  split; [|intros Hs code; by apply (shift_too_far k)]. intros Hs.
  destruct (shift_plain k n reg s) as (P1 & P2 & P3 & P4 & P5); [done..|].
  split_and!; [done..|by apply (rotate_left k)|by apply (rotate_right k)].
Qed.

(** A concrete numbering, for evaluation. *)
Definition sample_codes : Codes.
Proof.
  refine {|
    kTypeInvalid := 0; kTypeRegister := 1; kTypeShiftRegister := 2; kTypeImmediate := 3;
    kTypeAddress := 4; kTypeExpression := 5; kTypeRegisterExpression := 6;
    kTypeImmediateExpression := 7; kTypeAddressExpression := 8;
    kExtendInvalid := 0; kExtendUnsigned := 1; kExtendSigned := 2;
    kShiftInvalid := 0; kShiftLeftWithZeroes := 1; kShiftLeftWithOnes := 2;
    kShiftUnsignedRight := 3; kShiftSignedRight := 4; kShiftLeftAround := 5;
    kShiftRightAround := 6;
    Add := 13; Sub := 15; Mul := 17; Shl := 25; LShr := 26; AShr := 27; ZExt := 39; SExt := 40;
    Trunc := 38; And := 28; Or := 29; URem := 22; Xor := 30
  |}; apply (bool_decide_unpack _); by vm_compute.
Defined.

Theorem ShiftRaw_semantics_witness :
  @ShiftRaw sample_codes 4 0x80000001 4 32 = Ret 0xF8000000 ∧
  @ShiftRaw sample_codes 4 0x80000001 64 32 = Undef.
Proof.
  split.
  - refine (eq_trans (proj1 (proj2 (proj2 (proj2 (proj2 (proj1
      (@ShiftRaw_semantics sample_codes 5 0x80000001 4 _ _ _) _)))))) _).
    + lia.
    + split; vm_compute; congruence.
    + lia.
    + reflexivity.
    + by vm_compute.
  - apply (@ShiftRaw_semantics sample_codes 5 0x80000001 64).
    + lia.
    + split; vm_compute; congruence.
    + lia.
    + lia.
    + do 3 apply list_elem_of_further. apply list_elem_of_here.
Defined.
