(* ===== verification/IMetaData.v ===== *)
(** src/IMetaData.h: the pre-encoded metadata file. The records of its
    sections with their little-endian byte layouts (the sizes the static
    assertions of src/IMetaData.cpp fix), and the addressing of the sections
    from the header. *)
From Stdlib Require Import ZArith Lia List.
From stdpp Require Import base list gmap.
From S2P Require Import Prelude.
#[local] Open Scope Z_scope.

(** * Constants *)

(** The multi-character literal 'MVEA'. *)
Definition kMagic : Z := 0x4D564541.
Definition kVersion : Z := 1.
Definition kFlag_HasWX : Z := Z.shiftl 1 0.
Definition kFlag_ARM64 : Z := Z.shiftl 1 1.
Definition kFlag_X64 : Z := Z.shiftl 1 2.

(** [Expression::Kind]; [kInvalid] is 0, the kind of a fresh expression. *)
Definition kInvalid : Z := 0.
Definition kOperation : Z := 1.
Definition kRegister : Z := 2.
Definition kConstant : Z := 3.
Definition no_child : Z := 2 ^ 32 - 1.

(** * Records *)

(** A union holds one of its members; reading another one is not modelled
    here but through the bytes below. *)
Inductive Payload :=
| POperation (lhs rhs : Z)
| PRegister (offset size : Z)
| PConstant (low high : Z).

Record Expression := mkExpr {
  ex_payload : Payload; ex_kind : Z; ex_opcode : Z; ex_width : Z; ex_reserved : Z
}.

Record MRegister := mkMReg { mr_offset : Z; mr_size : Z }.

Record MShiftRegister := mkMShift {
  ms_reg : MRegister; ms_shift_size : Z; ms_extract_size : Z; ms_shift_first : Z;
  ms_can_shift_op_size : Z; ms_shift_op : Z; ms_extend_op : Z
}.

Record MImmediate := mkMImm { mi_value : Z; mi_is_signed : Z }.

(** [regs[0]] is the segment base, [regs[1]] the base, [regs[2]] the index;
    scale and displacement are [int64_t]. *)
Record MAddress := mkMAddr {
  ma_reg0 : MRegister; ma_reg1 : MRegister; ma_reg2 : MRegister;
  ma_scale : Z; ma_displacement : Z; ma_address_size : Z; ma_kind : Z
}.

Inductive Value :=
| VReg (r : MRegister)
| VShift (s : MShiftRegister)
| VImm (i : MImmediate)
| VAddr (a : MAddress)
| VExpr (e : Expression).

Record Operand := mkMOperand { mo_size : Z; mo_type : Z; mo_action : Z; mo_value : Value }.

Record OperandInfo := mkOpInfo { oi_index : Z; oi_pointer : Z }.

(** The fixed part of a handler: [impl], the two 4-bit fields, [oprnum]. *)
Record MHandler := mkMHandler { h_impl : Z; h_type : Z; h_oplen : Z; h_oprnum : Z }.

Record InsnMeta := mkInsn { rva : Z; handler : Z }.

Record IMetaData := mkIMetaData {
  magic : Z; version : Z; md_size : Z; flags : Z;
  off_instruction : Z; num_instruction : Z;
  off_operands : Z; num_operands : Z;
  off_expressions : Z; num_expressions : Z;
  off_handlers : Z; num_handlers : Z
}.

#[export] Instance Payload_eq_dec : EqDecision Payload.
Proof. solve_decision. Defined.
#[export] Instance Expression_eq_dec : EqDecision Expression.
Proof. solve_decision. Defined.
#[export] Instance InsnMeta_eq_dec : EqDecision InsnMeta.
Proof. solve_decision. Defined.
#[export] Instance MHandler_eq_dec : EqDecision MHandler.
Proof. solve_decision. Defined.
#[export] Instance IMetaData_eq_dec : EqDecision IMetaData.
Proof. solve_decision. Defined.

(** [converted = {}], [metadata = {}]. *)
Definition Expression_zero : Expression := mkExpr (POperation 0 0) 0 0 0 0.
Definition MRegister_zero : MRegister := mkMReg 0 0.
Definition MAddress_zero : MAddress := mkMAddr MRegister_zero MRegister_zero MRegister_zero 0 0 0 0.

(** * Byte layouts *)

(** The members of a struct in memory order, padding included, each with its
    width in bytes. *)
Definition enc (fields : list (nat * Z)) : list Z :=
  mjoin ((fun f => le_bytes f.1 f.2) <$> fields).
Definition width (fields : list (nat * Z)) : nat := sum_list fields.*1.

Definition pad (n : nat) : nat * Z := (n, 0).

Definition Payload_fields (p : Payload) : list (nat * Z) :=
  match p with
  | POperation lhs rhs => [(4%nat, lhs); (4%nat, rhs)]
  | PRegister o s => [(2%nat, o); (2%nat, s); pad 4]
  | PConstant lo hi => [(4%nat, lo); (4%nat, hi)]
  end.

Definition Expression_fields (e : Expression) : list (nat * Z) :=
  Payload_fields (ex_payload e) ++
  [(1%nat, ex_kind e); (1%nat, ex_opcode e); (1%nat, ex_width e); (1%nat, ex_reserved e)].

Definition MRegister_fields (r : MRegister) : list (nat * Z) :=
  [(2%nat, mr_offset r); (2%nat, mr_size r)].

Definition MShift_fields (s : MShiftRegister) : list (nat * Z) :=
  MRegister_fields (ms_reg s) ++
  [(1%nat, ms_shift_size s); (1%nat, ms_extract_size s); (1%nat, ms_shift_first s);
   (1%nat, ms_can_shift_op_size s); (1%nat, ms_shift_op s); (1%nat, ms_extend_op s)].

Definition MImm_fields (i : MImmediate) : list (nat * Z) :=
  [(8%nat, mi_value i); (1%nat, mi_is_signed i); pad 7].

(** Twelve bytes of registers, four of padding, then the 8-byte members. *)
Definition MAddr_fields (a : MAddress) : list (nat * Z) :=
  MRegister_fields (ma_reg0 a) ++ MRegister_fields (ma_reg1 a) ++ MRegister_fields (ma_reg2 a) ++
  [pad 4; (8%nat, ma_scale a); (8%nat, ma_displacement a);
   (1%nat, ma_address_size a); (1%nat, ma_kind a); pad 6].

(** The union takes 40 bytes, whichever member it holds. *)
Definition Value_fields (v : Value) : list (nat * Z) :=
  match v with
  | VReg r => MRegister_fields r ++ [pad 36]
  | VShift s => MShift_fields s ++ [pad 30]
  | VImm i => MImm_fields i ++ [pad 24]
  | VAddr a => MAddr_fields a
  | VExpr e => Expression_fields e ++ [pad 28]
  end.

(** Four bytes, four of padding before the 8-aligned union. *)
Definition Operand_fields (o : Operand) : list (nat * Z) :=
  [(2%nat, mo_size o); (1%nat, mo_type o); (1%nat, mo_action o); pad 4] ++ Value_fields (mo_value o).

(** [index : 15], [pointer : 1]. *)
Definition OperandInfo_fields (i : OperandInfo) : list (nat * Z) :=
  [(2%nat, Z.lor (Z.land (oi_index i) 0x7fff) (Z.shiftl (Z.land (oi_pointer i) 1) 15))].

(** [type : 4] in the low bits, [oplen : 4] above. *)
Definition MHandler_fields (h : MHandler) : list (nat * Z) :=
  [(2%nat, h_impl h);
   (1%nat, Z.lor (Z.land (h_type h) 0xf) (Z.shiftl (Z.land (h_oplen h) 0xf) 4));
   (1%nat, h_oprnum h)].

Definition InsnMeta_fields (i : InsnMeta) : list (nat * Z) := [(4%nat, rva i); (4%nat, handler i)].

Definition IMetaData_fields (h : IMetaData) : list (nat * Z) :=
  (fun v => (4%nat, v)) <$>
  [magic h; version h; md_size h; flags h; off_instruction h; num_instruction h;
   off_operands h; num_operands h; off_expressions h; num_expressions h;
   off_handlers h; num_handlers h].

(** * Reading the records of a mapped file

    [f] is the file as a byte store, addresses are offsets in it. *)

Section File.
Variable f : bytes.

Definition read_header : IMetaData :=
  mkIMetaData (load 4 f 0) (load 4 f 4) (load 4 f 8) (load 4 f 12) (load 4 f 16) (load 4 f 20)
    (load 4 f 24) (load 4 f 28) (load 4 f 32) (load 4 f 36) (load 4 f 40) (load 4 f 44).

Definition read_insn (a : Z) : InsnMeta := mkInsn (load 4 f a) (load 4 f (a + 4)).

Definition read_handler (a : Z) : MHandler :=
  mkMHandler (load 2 f a) (Z.land (load 1 f (a + 2)) 0xf) (Z.shiftr (load 1 f (a + 2)) 4)
    (load 1 f (a + 3)).

Definition read_operand_info (a : Z) : OperandInfo :=
  mkOpInfo (Z.land (load 2 f a) 0x7fff) (Z.shiftr (load 2 f a) 15).

Definition read_expression (a : Z) : Expression :=
  let kind := load 1 f (a + 8) in
  let payload :=
    if kind =? kRegister then PRegister (load 2 f a) (load 2 f (a + 2))
    else if kind =? kConstant then PConstant (load 4 f a) (load 4 f (a + 4))
    else POperation (load 4 f a) (load 4 f (a + 4)) in
  mkExpr payload kind (load 1 f (a + 9)) (load 1 f (a + 10)) (load 1 f (a + 11)).

Definition read_mregister (a : Z) : MRegister := mkMReg (load 2 f a) (load 2 f (a + 2)).

Definition read_mshift (a : Z) : MShiftRegister :=
  mkMShift (read_mregister a) (load 1 f (a + 4)) (load 1 f (a + 5)) (load 1 f (a + 6))
    (load 1 f (a + 7)) (load 1 f (a + 8)) (load 1 f (a + 9)).

Definition read_mimm (a : Z) : MImmediate := mkMImm (load 8 f a) (load 1 f (a + 8)).

Definition read_maddr (a : Z) : MAddress :=
  mkMAddr (read_mregister a) (read_mregister (a + 4)) (read_mregister (a + 8))
    (to_signed 64 (load 8 f (a + 16))) (to_signed 64 (load 8 f (a + 24)))
    (load 1 f (a + 32)) (load 1 f (a + 33)).

(** [insns()], [handler(insn)], [operands()], [expressions()]: the addresses
    of the sections and of a handler. *)
Definition md_insns (h : IMetaData) : Z := off_instruction h.
Definition md_handler (h : IMetaData) (insn : InsnMeta) : Z := off_handlers h + handler insn.
Definition md_operands (h : IMetaData) : Z := off_operands h.
Definition md_expressions (h : IMetaData) : Z := off_expressions h.

(** [Handler::opcode], [operand()], [handler()]: what follows the 4 fixed
    bytes. *)
Definition Handler_opcode (a : Z) : Z := a + 4.
Definition Handler_operand (a : Z) : Z := a + 4 + h_oplen (read_handler a).
Definition Handler_handler (a : Z) : Z := Handler_operand a + 2 * h_oprnum (read_handler a).
End File.

(** [operator<=>] of [InsnMeta]. *)
Definition InsnMeta_key (i : InsnMeta) : Z := rva i.

(** * Lemmas *)

Lemma enc_cons w v fs : enc ((w, v) :: fs) = le_bytes w v ++ enc fs.
Proof. done. Qed.

Lemma enc_length fs : length (enc fs) = width fs.
Proof.
  induction fs as [|[w v] fs IH]; [done|]. rewrite enc_cons, length_app, le_bytes_length, IH. done.
Qed.

Lemma enc_u8 fs : Forall u8 (enc fs).
Proof.
  induction fs as [|[w v] fs IH]; [constructor|]. rewrite enc_cons. apply Forall_app.
  split; [apply le_bytes_u8|done].
Qed.

(** What is stored in the middle of a list of bytes reads back. *)
Lemma load_bytes_mid m a l1 l2 l3 :
  load_bytes (store_bytes m a (l1 ++ l2 ++ l3)) (a + Z.of_nat (length l1)) (length l2) = l2.
Proof.
  apply list_eq. intros i. destruct (decide (i < length l2)%nat) as [Hi|Hi].
  - rewrite load_bytes_lookup, get8_store_bytes by done.
    rewrite decide_True by (rewrite !length_app; lia).
    replace (Z.to_nat _) with (length l1 + i)%nat by lia.
    rewrite lookup_app_r by lia. replace (length l1 + i - length l1)%nat with i by lia.
    rewrite lookup_app_l by done. by destruct (lookup_lt_is_Some_2 l2 i Hi) as [x ->].
  - rewrite (proj2 (lookup_ge_None l2 i)) by lia. apply lookup_ge_None.
    rewrite load_bytes_length. lia.
Qed.

(** A member of a struct stored anywhere in a file. *)
Lemma load_enc m a l1 l3 fs (i w : nat) v p :
  fs !! i = Some (w, v) -> p = a + Z.of_nat (length l1) + Z.of_nat (width (take i fs)) ->
  load w (store_bytes m a (l1 ++ enc fs ++ l3)) p = v mod 2 ^ (8 * Z.of_nat w).
Proof.
  intros Hi ->. rewrite <- (take_drop_middle fs i (w, v) Hi) at 1.
  assert (enc (take i fs ++ (w, v) :: drop (S i) fs) =
    enc (take i fs) ++ le_bytes w v ++ enc (drop (S i) fs)) as ->.
  { unfold enc. rewrite fmap_app, join_app. done. }
  set (e1 := enc (take i fs)). set (e2 := enc (drop (S i) fs)).
  replace (l1 ++ (e1 ++ le_bytes w v ++ e2) ++ l3) with ((l1 ++ e1) ++ le_bytes w v ++ (e2 ++ l3))
    by (by rewrite !app_assoc).
  replace (a + Z.of_nat (length l1) + Z.of_nat (width (take i fs)))
    with (a + Z.of_nat (length (l1 ++ e1)))
    by (rewrite length_app; unfold e1; rewrite enc_length; lia).
  pose proof (load_bytes_mid m a (l1 ++ e1) (le_bytes w v) (e2 ++ l3)) as Hl.
  rewrite le_bytes_length in Hl. unfold load. rewrite Hl. apply le_value_bytes.
Qed.

Lemma load_enc_fits m a l1 l3 fs (i w : nat) v p :
  fs !! i = Some (w, v) -> p = a + Z.of_nat (length l1) + Z.of_nat (width (take i fs)) ->
  fits (8 * Z.of_nat w) v ->
  load w (store_bytes m a (l1 ++ enc fs ++ l3)) p = v.
Proof. intros Hi Hp Hv. rewrite (load_enc m a l1 l3 fs i w v p Hi Hp). by apply Z.mod_small. Qed.

(** Reads the [i]-th member of a struct of fields that fit, at a position. *)
Ltac read_at i p :=
  erewrite (load_enc_fits _ _ _ _ _ i _ _ p); [|reflexivity|cbn; lia|assumption].
(** Reads the next member the goal asks for. *)
Ltac read_field i :=
  erewrite (load_enc_fits _ _ _ _ _ i); [|reflexivity|cbn; lia|assumption].

(** ** Which records a file can hold *)

Definition Payload_ok (p : Payload) : Prop :=
  match p with
  | POperation lhs rhs => u32 lhs ∧ u32 rhs
  | PRegister o s => u16 o ∧ u16 s
  | PConstant lo hi => u32 lo ∧ u32 hi
  end.

(** The member held is the one the kind announces. *)
Definition kind_of (p : Payload) : Z :=
  match p with POperation _ _ => kOperation | PRegister _ _ => kRegister | PConstant _ _ => kConstant end.

Definition Expression_ok (e : Expression) : Prop :=
  Payload_ok (ex_payload e) ∧ ex_kind e = kind_of (ex_payload e) ∧
  u8 (ex_opcode e) ∧ u8 (ex_width e) ∧ u8 (ex_reserved e).

Definition MRegister_ok (r : MRegister) : Prop := u16 (mr_offset r) ∧ u16 (mr_size r).

Definition MShift_ok (s : MShiftRegister) : Prop :=
  MRegister_ok (ms_reg s) ∧ u8 (ms_shift_size s) ∧ u8 (ms_extract_size s) ∧
  u8 (ms_shift_first s) ∧ u8 (ms_can_shift_op_size s) ∧ u8 (ms_shift_op s) ∧ u8 (ms_extend_op s).

Definition MImm_ok (i : MImmediate) : Prop := u64 (mi_value i) ∧ u8 (mi_is_signed i).

Definition i64 (z : Z) : Prop := - 2 ^ 63 <= z < 2 ^ 63.

Definition MAddr_ok (a : MAddress) : Prop :=
  MRegister_ok (ma_reg0 a) ∧ MRegister_ok (ma_reg1 a) ∧ MRegister_ok (ma_reg2 a) ∧
  i64 (ma_scale a) ∧ i64 (ma_displacement a) ∧ u8 (ma_address_size a) ∧ u8 (ma_kind a).

Definition InsnMeta_ok (i : InsnMeta) : Prop := u32 (rva i) ∧ u32 (handler i).
Definition OperandInfo_ok (i : OperandInfo) : Prop := fits 15 (oi_index i) ∧ fits 1 (oi_pointer i).
Definition MHandler_ok (h : MHandler) : Prop :=
  u16 (h_impl h) ∧ fits 4 (h_type h) ∧ fits 4 (h_oplen h) ∧ u8 (h_oprnum h).
Definition IMetaData_ok (h : IMetaData) : Prop :=
  Forall u32 [magic h; version h; md_size h; flags h; off_instruction h; num_instruction h;
    off_operands h; num_operands h; off_expressions h; num_expressions h;
    off_handlers h; num_handlers h].

Lemma to_signed_u64 z : i64 z -> to_signed 64 (z mod 2 ^ 64) = z.
Proof.
  unfold to_signed, i64. intros Hz. rewrite Zmod_mod. change (2 ^ (64 - 1)) with (2 ^ 63).
  destruct (decide (0 <= z)).
  - rewrite Z.mod_small by lia. by rewrite (proj2 (Z.ltb_lt _ _)) by lia.
  - rewrite <- (Z.mod_add z 1) by lia. rewrite Z.mod_small by lia.
    rewrite (proj2 (Z.ltb_ge _ _)) by lia. lia.
Qed.

(** Packing two bit fields in one number. *)
Lemma pack_low x y n : 0 <= n -> Z.land (Z.lor (Z.land x (2 ^ n - 1)) (Z.shiftl y n)) (2 ^ n - 1) = x mod 2 ^ n.
Proof.
  intros Hn. rewrite !land_mask by done. apply Z.bits_inj'. intros i Hi.
  destruct (decide (i < n)).
  - rewrite !Z.mod_pow2_bits_low, Z.lor_spec, Z.mod_pow2_bits_low by lia.
    rewrite Z.shiftl_spec, (Z.testbit_neg_r _ (i - n)) by lia. by rewrite orb_false_r.
  - by rewrite !Z.mod_pow2_bits_high by lia.
Qed.

Lemma pack_high x y n : 0 <= n -> Z.shiftr (Z.lor (Z.land x (2 ^ n - 1)) (Z.shiftl y n)) n = y.
Proof.
  intros Hn. rewrite land_mask by done. apply Z.bits_inj'. intros i Hi.
  rewrite Z.shiftr_spec, Z.lor_spec, Z.mod_pow2_bits_high, Z.shiftl_spec by lia.
  cbn [orb]. f_equal. lia.
Qed.

Lemma pack_fits x y n k : 0 <= n -> 0 <= k -> fits k y ->
  fits (n + k) (Z.lor (Z.land x (2 ^ n - 1)) (Z.shiftl y n)).
Proof.
  intros Hn Hk Hy. apply lor_fits; [lia| |].
  - rewrite land_mask by done. apply (fits_mono n); [lia|]. apply wrap_fits. lia.
  - rewrite Z.shiftl_mul_pow2 by lia. unfold fits in *. rewrite Z.pow_add_r by lia.
    pose proof (pow2_pos n). nia.
Qed.

Section Placed.
(** A struct stored at [a], between other bytes of the file. *)
Variables (m : bytes) (a0 : Z) (l1 l3 : list Z).
Abbreviation file fs := (store_bytes m a0 (l1 ++ enc fs ++ l3)).
Abbreviation a := (a0 + Z.of_nat (length l1)).

Lemma read_insn_placed i : InsnMeta_ok i -> read_insn (file (InsnMeta_fields i)) a = i.
Proof.
  destruct i as [r h]. intros [Hr Hh]. unfold read_insn, InsnMeta_fields; cbn [rva handler] in *.
  read_field 0%nat. read_field 1%nat. done.
Qed.

Lemma read_operand_info_placed i : OperandInfo_ok i ->
  read_operand_info (file (OperandInfo_fields i)) a = i.
Proof.
  destruct i as [x p]. intros [Hx Hp]. unfold read_operand_info, OperandInfo_fields.
  cbn [oi_index oi_pointer] in *.
  change (Z.land p 1) with (Z.land p (2 ^ 1 - 1)).
  rewrite (land_mask p 1), (Z.mod_small p) by (done || lia).
  assert (u16 (Z.lor (Z.land x 0x7fff) (Z.shiftl p 15))) by (apply (pack_fits x p 15 1); done || lia).
  read_field 0%nat. change 0x7fff with (2 ^ 15 - 1).
  rewrite (pack_low x p 15), (pack_high x p 15) by lia.
  by rewrite Z.mod_small.
Qed.

Lemma read_handler_placed h : MHandler_ok h -> read_handler (file (MHandler_fields h)) a = h.
Proof.
  destruct h as [i t l o]. intros (Hi & Ht & Hl & Ho). unfold read_handler, MHandler_fields.
  cbn [h_impl h_type h_oplen h_oprnum] in *.
  change (Z.land l 0xf) with (Z.land l (2 ^ 4 - 1)).
  rewrite (land_mask l 4), (Z.mod_small l) by (done || lia).
  assert (u8 (Z.lor (Z.land t 0xf) (Z.shiftl l 4))) by (apply (pack_fits t l 4 4); done || lia).
  read_field 0%nat. read_field 1%nat. read_field 2%nat.
  change 0xf with (2 ^ 4 - 1).
  rewrite (pack_low t l 4), (pack_high t l 4) by lia. by rewrite Z.mod_small.
Qed.

Lemma read_header_placed h : l1 = [] -> a0 = 0 -> IMetaData_ok h ->
  read_header (file (IMetaData_fields h)) = h.
Proof.
  intros -> -> Hok. unfold read_header, IMetaData_fields. destruct h. unfold IMetaData_ok in Hok.
  cbn [magic version md_size flags off_instruction num_instruction off_operands num_operands
    off_expressions num_expressions off_handlers num_handlers fmap list_fmap] in *.
  repeat (apply Forall_cons in Hok as [? Hok]).
  read_field 0%nat. read_field 1%nat. read_field 2%nat. read_field 3%nat. read_field 4%nat.
  read_field 5%nat. read_field 6%nat. read_field 7%nat. read_field 8%nat. read_field 9%nat.
  read_field 10%nat. read_field 11%nat. done.
Qed.

Lemma read_expression_placed e : Expression_ok e ->
  read_expression (file (Expression_fields e)) a = e.
Proof.
  destruct e as [p k o w r]. unfold Expression_ok, Expression_fields, read_expression.
  cbn [ex_payload ex_kind ex_opcode ex_width ex_reserved].
  intros (Hp & -> & Ho & Hw & Hr).
  assert (u8 (kind_of p)) by (by destruct p).
  destruct p as [lhs rhs|o' s|lo hi]; destruct Hp as [Hp1 Hp2]; cbn [Payload_fields app].
  - read_at 2%nat constr:(a + 8). read_at 3%nat constr:(a + 9). read_at 4%nat constr:(a + 10). read_at 5%nat constr:(a + 11).
    change (if kind_of (POperation lhs rhs) =? kRegister then _ else ?x) with x.
    change (if kind_of (POperation lhs rhs) =? kConstant then _ else ?x) with x.
    read_at 0%nat constr:(a). by read_at 1%nat constr:(a + 4).
  - read_at 3%nat constr:(a + 8). read_at 4%nat constr:(a + 9). read_at 5%nat constr:(a + 10). read_at 6%nat constr:(a + 11).
    change (if kind_of (PRegister o' s) =? kRegister then ?x else _) with x.
    read_at 0%nat constr:(a). by read_at 1%nat constr:(a + 2).
  - read_at 2%nat constr:(a + 8). read_at 3%nat constr:(a + 9). read_at 4%nat constr:(a + 10). read_at 5%nat constr:(a + 11).
    change (if kind_of (PConstant lo hi) =? kRegister then _ else ?x) with x.
    change (if kind_of (PConstant lo hi) =? kConstant then ?x else _) with x.
    read_at 0%nat constr:(a). by read_at 1%nat constr:(a + 4).
Qed.

Lemma read_mregister_placed r fs k (j : nat) : MRegister_ok r ->
  fs !! j = Some (2%nat, mr_offset r) -> fs !! S j = Some (2%nat, mr_size r) ->
  k = a + Z.of_nat (width (take j fs)) -> read_mregister (file fs) k = r.
Proof.
  destruct r as [o s]. intros [Ho Hs] H1 H2 ->. cbn [mr_offset mr_size] in *.
  unfold read_mregister. rewrite (load_enc_fits m a0 l1 l3 fs j 2 o) by (done || lia).
  rewrite (load_enc_fits m a0 l1 l3 fs (S j) 2 s); [done|done| |done].
  rewrite (take_S_r _ _ _ H1). unfold width. rewrite fmap_app, sum_list_with_app. cbn. lia.
Qed.

(** The members of an operand's union, 8 bytes into the operand. *)
Lemma read_vreg_placed o r : mo_value o = VReg r -> MRegister_ok r ->
  read_mregister (file (Operand_fields o)) (a + 8) = r.
Proof.
  intros Hv Hr. unfold Operand_fields. rewrite Hv.
  apply (read_mregister_placed _ _ _ 4); [done|done|done|cbn; lia].
Qed.

Lemma read_vshift_placed o s : mo_value o = VShift s -> MShift_ok s ->
  read_mshift (file (Operand_fields o)) (a + 8) = s.
Proof.
  intros Hv (Hr & H1 & H2 & H3 & H4 & H5 & H6). unfold Operand_fields. rewrite Hv.
  unfold read_mshift. rewrite (read_mregister_placed (ms_reg s) _ _ 4) by (done || cbn; lia).
  read_field 6%nat. read_field 7%nat. read_field 8%nat. read_field 9%nat. read_field 10%nat.
  read_field 11%nat. by destruct s.
Qed.

Lemma read_vimm_placed o i : mo_value o = VImm i -> MImm_ok i ->
  read_mimm (file (Operand_fields o)) (a + 8) = i.
Proof.
  intros Hv (H1 & H2). unfold Operand_fields. rewrite Hv.
  unfold read_mimm. read_field 4%nat. read_field 5%nat. by destruct i.
Qed.

Lemma read_vaddr_placed o ad : mo_value o = VAddr ad -> MAddr_ok ad ->
  read_maddr (file (Operand_fields o)) (a + 8) = ad.
Proof.
  intros Hv (H0 & H1 & H2 & H3 & H4 & H5 & H6). unfold Operand_fields. rewrite Hv.
  unfold read_maddr. rewrite (read_mregister_placed (ma_reg0 ad) _ _ 4) by (done || cbn; lia).
  rewrite (read_mregister_placed (ma_reg1 ad) _ _ 6) by (done || cbn; lia).
  rewrite (read_mregister_placed (ma_reg2 ad) _ _ 8) by (done || cbn; lia).
  rewrite (load_enc m a0 l1 l3 _ 11 8 (ma_scale ad)) by (done || cbn; lia).
  rewrite (load_enc m a0 l1 l3 _ 12 8 (ma_displacement ad)) by (done || cbn; lia).
  change (8 * Z.of_nat 8) with 64. rewrite !to_signed_u64 by done.
  read_field 13%nat. read_field 14%nat. by destruct ad.
Qed.
End Placed.

(** The union's expression sits at the start of the operand's value. *)
Lemma read_vexpr_placed m a0 l1 l3 o e : mo_value o = VExpr e -> Expression_ok e ->
  read_expression (store_bytes m a0 (l1 ++ enc (Operand_fields o) ++ l3))
    (a0 + Z.of_nat (length l1) + 8) = e.
Proof.
  intros Hv He. unfold Operand_fields. rewrite Hv.
  pose proof (read_expression_placed m a0
    (l1 ++ enc [(2%nat, mo_size o); (1%nat, mo_type o); (1%nat, mo_action o); pad 4])
    (enc [pad 28] ++ l3) e He) as Hr.
  rewrite <- Hr at 2. f_equal; [|rewrite length_app, enc_length; cbn; lia].
  f_equal. unfold Value_fields, enc. rewrite !fmap_app, !join_app. by rewrite <- !app_assoc.
Qed.
