(* ===== verification/MetaOperands.v ===== *)
(** The operand evaluation of src/InterpMetaData.cpp: the same values as
    Operands.v, computed from the records of a metadata file. [MaskToBits] and
    [SignExtend] are the ones of Operands.v, whose code it repeats. *)
From Stdlib Require Import ZArith Lia List.
From stdpp Require Import base list gmap.
From S2P Require Import Prelude Operands IMetaData.
#[local] Open Scope Z_scope.

Module Meta.
Section Meta.
Context `{Codes}.
Variable state_ptr : Z.
Variable m : bytes.

Definition LoadRegValueRaw (reg : MRegister) : Z :=
  let num_bytes := (mr_size reg + 7) / 8 in
  if num_bytes >? 8 then wrap64 (state_ptr + mr_offset reg)
  else load (Z.to_nat num_bytes) m (mr_offset reg).

Definition LoadWordRegValOrZeroRaw (reg : MRegister) (word_size_bits : Z) : Z :=
  if mr_size reg =? 0 then 0 else MaskToBits (LoadRegValueRaw reg) word_size_bits.

Definition LiftShiftRegisterOperandRaw (op_size : Z) (shift : MShiftRegister) : exec Z :=
  let reg := LoadRegValueRaw (ms_reg shift) in
  let curr_size := mr_size (ms_reg shift) in
  let shift_size := ms_shift_size shift in
  '(reg, curr_size) ←
    (if negb (kExtendInvalid =? ms_extend_op shift) then
       let extract_size := ms_extract_size shift in
       let '(reg, curr_size) :=
         if mr_size (ms_reg shift) >? extract_size then (MaskToBits reg extract_size, extract_size)
         else (reg, curr_size) in
       if op_size >? ms_extract_size shift then
         if ms_extend_op shift =? kExtendSigned then Ret (SignExtend reg extract_size, op_size)
         else if ms_extend_op shift =? kExtendUnsigned then Ret (reg, op_size)
         else Abort
       else Ret (reg, curr_size)
     else Ret (reg, curr_size));
  let reg := if curr_size <? op_size then MaskToBits reg curr_size else reg in
  reg ←
    (let op_bits := op_size in
     if ms_shift_op shift =? kShiftInvalid then Ret reg
     else if ms_shift_op shift =? kShiftLeftWithZeroes then
       x ← shl64 reg shift_size; Ret (MaskToBits x op_bits)
     else if ms_shift_op shift =? kShiftLeftWithOnes then
       ones ← shl64 (wrap64 (Z.lnot 0)) shift_size;
       let mask_val := wrap64 (Z.lnot ones) in
       x ← shl64 reg shift_size; Ret (MaskToBits (Z.lor x mask_val) op_bits)
     else if ms_shift_op shift =? kShiftUnsignedRight then
       x ← shr64 reg shift_size; Ret (MaskToBits x op_bits)
     else if ms_shift_op shift =? kShiftSignedRight then
       x ← sar64 (SignExtend reg op_bits) shift_size; Ret (MaskToBits x op_bits)
     else if ms_shift_op shift =? kShiftLeftAround then
       let shr_amount :=
         Z.land (wrap64 (wrap64 (Z.lnot shift_size) + 1)) (wrap64 (op_size - 1)) in
       val1 ← shr64 reg shr_amount; val2 ← shl64 reg shift_size;
       Ret (MaskToBits (Z.lor val1 val2) op_bits)
     else if ms_shift_op shift =? kShiftRightAround then
       let shl_amount :=
         Z.land (wrap64 (wrap64 (Z.lnot shift_size) + 1)) (wrap64 (op_size - 1)) in
       val1 ← shr64 reg shift_size; val2 ← shl64 reg shl_amount;
       Ret (MaskToBits (Z.lor val1 val2) op_bits)
     else Ret reg);
  Ret (if word_size >? op_size then MaskToBits reg op_size else reg).

Definition LiftAddressOperandRaw (address : MAddress) : exec Z :=
  let segment := LoadWordRegValOrZeroRaw (ma_reg0 address) word_size in
  let value := LoadWordRegValOrZeroRaw (ma_reg1 address) word_size in
  let index := LoadWordRegValOrZeroRaw (ma_reg2 address) word_size in
  let scale := wrap64 (ma_scale address) in
  let value := if negb (index =? 0)
               then MaskToBits (wrap64 (value + wrap64 (index * scale))) word_size else value in
  value ←
    (if negb (ma_displacement address =? 0) then
       if 0 <? ma_displacement address then
         Ret (MaskToBits (wrap64 (value + wrap64 (ma_displacement address))) word_size)
       else if ma_displacement address =? - 2 ^ 63 then Undef
       else Ret (MaskToBits (wrap64 (value - wrap64 (- ma_displacement address))) word_size)
     else Ret value);
  let value := if negb (segment =? 0) then MaskToBits (wrap64 (value + segment)) word_size else value in
  Ret (if ma_address_size address <? word_size
       then MaskToBits value (ma_address_size address) else value).

(** The expression array; an index outside it reads unknown memory. *)
Variable expressions : Z -> option Expression.

(** Recursion follows the child indices of the file; a cycle would exhaust the
    stack, which the fuel stands for. *)
Fixpoint LiftExpressionOperandRecRaw (fuel : nat) (e : Expression) : exec Z :=
  match fuel with
  | O => Undef
  | S fuel' =>
      match ex_payload e with
      | POperation lhs rhs =>
          if ex_kind e =? kOperation then
            le ← of_option Undef (expressions lhs);
            lhs ← LiftExpressionOperandRecRaw fuel' le;
            rhs ← (if rhs =? no_child then Ret 0
                   else re ← of_option Undef (expressions rhs);
                        LiftExpressionOperandRecRaw fuel' re);
            let opcode := ex_opcode e in
            if opcode =? Add then Ret (wrap64 (lhs + rhs))
            else if opcode =? Sub then Ret (wrap64 (lhs - rhs))
            else if opcode =? Mul then Ret (wrap64 (lhs * rhs))
            else if opcode =? Shl then shl64 lhs rhs
            else if opcode =? LShr then shr64 lhs rhs
            else if opcode =? AShr then sar64 lhs (to_signed 64 rhs)
            else if (opcode =? ZExt) || (opcode =? Trunc) then Ret (MaskToBits lhs (ex_width e))
            else if opcode =? SExt then Ret (SignExtend lhs (ex_width e))
            else if opcode =? And then Ret (Z.land lhs rhs)
            else if opcode =? Or then Ret (Z.lor lhs rhs)
            else if opcode =? URem then Ret (if rhs =? 0 then 0 else lhs mod rhs)
            else if opcode =? Xor then Ret (Z.lxor lhs rhs)
            else Abort
          else Abort
      | PRegister o s =>
          if ex_kind e =? kRegister then Ret (LoadRegValueRaw (mkMReg o s)) else Abort
      | PConstant lo hi =>
          if ex_kind e =? kConstant then Ret (Z.lor (Z.shiftl hi 32) lo) else Abort
      end
  end.

(** Reading a union member other than the one stored is not modelled. *)
Definition LiftOperandRaw (fuel : nat) (operand : Operand) (info : OperandInfo) : exec Z :=
  let type := mo_type operand in
  if type =? kTypeRegister then
    match mo_value operand with
    | VReg r => Ret (if negb (oi_pointer info =? 0) then wrap64 (state_ptr + mr_offset r)
                     else LoadRegValueRaw r)
    | _ => Undef
    end
  else if type =? kTypeShiftRegister then
    match mo_value operand with
    | VShift s => LiftShiftRegisterOperandRaw (mo_size operand) s
    | _ => Undef
    end
  else if type =? kTypeImmediate then
    match mo_value operand with
    | VImm i => let bits := mo_size operand in
                Ret (if negb (mi_is_signed i =? 0) then SignExtend (mi_value i) bits
                     else MaskToBits (mi_value i) bits)
    | _ => Undef
    end
  else if type =? kTypeAddress then
    match mo_value operand with VAddr a => LiftAddressOperandRaw a | _ => Undef end
  else if (type =? kTypeExpression) || (type =? kTypeRegisterExpression) ||
          (type =? kTypeImmediateExpression) || (type =? kTypeAddressExpression) then
    match mo_value operand with VExpr e => LiftExpressionOperandRecRaw fuel e | _ => Undef end
  else Abort.

(** An operand of the file: the union member its type selects. *)
Definition read_operand (f : bytes) (a : Z) : Operand :=
  let type := load 1 f (a + 2) in
  let value :=
    if type =? kTypeShiftRegister then VShift (read_mshift f (a + 8))
    else if type =? kTypeImmediate then VImm (read_mimm f (a + 8))
    else if type =? kTypeAddress then VAddr (read_maddr f (a + 8))
    else if (type =? kTypeExpression) || (type =? kTypeRegisterExpression) ||
            (type =? kTypeImmediateExpression) || (type =? kTypeAddressExpression)
    then VExpr (read_expression f (a + 8))
    else VReg (read_mregister f (a + 8)) in
  mkMOperand (load 2 f a) type (load 1 f (a + 3)) value.

(** Operands whose union holds the member of their type, within range. *)
Definition Operand_ok (o : Operand) : Prop :=
  u16 (mo_size o) ∧ u8 (mo_type o) ∧ u8 (mo_action o) ∧
  match mo_value o with
  | VReg r => MRegister_ok r ∧ (mo_type o = kTypeInvalid \/ mo_type o = kTypeRegister)
  | VShift s => MShift_ok s ∧ mo_type o = kTypeShiftRegister
  | VImm i => MImm_ok i ∧ mo_type o = kTypeImmediate
  | VAddr a => MAddr_ok a ∧ mo_type o = kTypeAddress
  | VExpr e => Expression_ok e ∧ (mo_type o ∈ [kTypeExpression; kTypeRegisterExpression;
      kTypeImmediateExpression; kTypeAddressExpression])
  end.
End Meta.
End Meta.

Section Read.
Context `{Codes}.
Import Meta.

Lemma read_operand_placed m a0 l1 l3 o : Operand_ok o ->
  read_operand (store_bytes m a0 (l1 ++ enc (Operand_fields o) ++ l3)) (a0 + Z.of_nat (length l1)) = o.
Proof.
  destruct o as [s t ac v]. unfold Operand_ok. cbn [mo_size mo_type mo_action mo_value].
  intros (Hs & Ht & Ha & Hv). unfold read_operand.
  read_at 1%nat constr:(a0 + Z.of_nat (length l1) + 2).
  read_at 0%nat constr:(a0 + Z.of_nat (length l1)).
  read_at 2%nat constr:(a0 + Z.of_nat (length l1) + 3).
  cbn [mo_type mo_size mo_action]. f_equal. pose proof type_codes as Hc. distinct_codes Hc.
  destruct v as [r|sh|i|ad|e]; destruct Hv as [Hv Hty].
  - destruct Hty as [->| ->]; repeat code_case; cbn [orb];
      f_equal; by apply (read_vreg_placed _ _ _ _ (mkMOperand s _ ac (VReg r))).
  - subst t. repeat code_case. f_equal. by apply (read_vshift_placed _ _ _ _ (mkMOperand s _ ac (VShift sh))).
  - subst t. repeat code_case. f_equal. by apply (read_vimm_placed _ _ _ _ (mkMOperand s _ ac (VImm i))).
  - subst t. repeat code_case. f_equal. by apply (read_vaddr_placed _ _ _ _ (mkMOperand s _ ac (VAddr ad))).
  - repeat (apply elem_of_cons in Hty as [->|Hty]; [repeat code_case; cbn [orb]; f_equal;
      by apply (read_vexpr_placed _ _ _ _ (mkMOperand s _ ac (VExpr e)))|]).
    by apply elem_of_nil in Hty.
Qed.
End Read.

(** * Properties *)

(** C13: every record of the metadata format reads back from the bytes it is
    written as, wherever in the file it lies: the header, the instruction
    entries, the handler words with their packed nibbles, the operand
    references with their packed pointer bit, the expression nodes, and the
    operands whose union holds the member their type announces; the sizes are
    those the static assertions state. *)
Theorem metadata_roundtrip `{Codes} (m : bytes) (a0 : Z) (l1 l3 : list Z) :
  let a := a0 + Z.of_nat (length l1) in
  let file fs := store_bytes m a0 (l1 ++ enc fs ++ l3) in
  (∀ h, l1 = [] -> a0 = 0 -> IMetaData_ok h ->
     read_header (file (IMetaData_fields h)) = h ∧ length (enc (IMetaData_fields h)) = 48%nat) ∧
  (∀ i, InsnMeta_ok i ->
     read_insn (file (InsnMeta_fields i)) a = i ∧ length (enc (InsnMeta_fields i)) = 8%nat) ∧
  (∀ h, MHandler_ok h ->
     read_handler (file (MHandler_fields h)) a = h ∧ length (enc (MHandler_fields h)) = 4%nat) ∧
  (∀ i, OperandInfo_ok i ->
     read_operand_info (file (OperandInfo_fields i)) a = i ∧
     length (enc (OperandInfo_fields i)) = 2%nat) ∧
  (∀ e, Expression_ok e ->
     read_expression (file (Expression_fields e)) a = e ∧
     length (enc (Expression_fields e)) = 12%nat) ∧
  (∀ o, Meta.Operand_ok o ->
     Meta.read_operand (file (Operand_fields o)) a = o ∧ length (enc (Operand_fields o)) = 48%nat).
Proof.
  intros a file. split_and!.
  - intros h -> -> Hh. split; [by apply read_header_placed|by rewrite enc_length].
  - intros i Hi. split; [by apply read_insn_placed|by rewrite enc_length].
  - intros h Hh. split; [by apply read_handler_placed|by rewrite enc_length].
  - intros i Hi. split; [by apply read_operand_info_placed|by rewrite enc_length].
  - intros e He. split; [by apply read_expression_placed|].
    rewrite enc_length. destruct e as [[| |] ? ? ? ?]; done.
  - intros o Ho. split; [by apply read_operand_placed|].
    rewrite enc_length. destruct o as [? ? ? [| | | |[[| |] ? ? ? ?]]]; done.
Qed.

Theorem metadata_roundtrip_witness :
  read_handler (store_bytes ∅ 100 ([7; 7] ++ enc (MHandler_fields (mkMHandler 513 2 4 3)) ++ [9])) 102
    = mkMHandler 513 2 4 3 ∧
  length (enc (MHandler_fields (mkMHandler 513 2 4 3))) = 4%nat.
Proof.
  apply (@metadata_roundtrip sample_codes ∅ 100 [7; 7] [9]).
  split_and!; split; simpl; lia.
Defined.
