(* ===== verification/Convert.v ===== *)
(** [ConvertExpression], [ConvertOperand] and [convertOperands] of
    src/OpcodeEngine.cpp: remill operands turned into metadata records, and
    the theorem that evaluating the record gives the operand's value. *)
From Stdlib Require Import ZArith Lia List String Ascii.
From stdpp Require Import base list gmap strings.
From S2P Require Import Prelude Registers StateMem CPUState AArch64 Regoffs Operands IMetaData MetaOperands.
#[local] Open Scope Z_scope.

(** The messages left in [error]. *)
Inductive conv_error :=
| null_expression | opcode_too_large | too_many_nodes | width_too_large
| null_register | unknown_register (name : string) | register_too_large (name : string)
| unsupported_constant | empty_name | offset_too_large (name : string)
| field_too_large (field : string) | unknown_type.

(** What the conversion returns, with the node list it has grown on both
    outcomes. *)
Definition conv (A : Type) : Type := list Expression * (conv_error + A).

Definition conv_bind {A B} (e : conv A) (f : list Expression -> A -> conv B) : conv B :=
  match e with
  | (nodes, inl err) => (nodes, inl err)
  | (nodes, inr a) => f nodes a
  end.

Section Convert.
Context `{Codes}.
Variable regoffs : regoffs_t.

(** The lambda [append_child], on a child already converted. *)
Definition push_child (nodes : list Expression) (child : Expression) : conv Z :=
  if Z.of_nat (length nodes) >=? no_child then (nodes, inl too_many_nodes)
  else (nodes ++ [child], inr (Z.of_nat (length nodes))).

Fixpoint ConvertExpression (expression : OperandExpression) (nodes : list Expression)
  : conv Expression :=
  match expression with
  | NullExpr => (nodes, inl null_expression)
  | LLVMOpExpr llvm_opcode op1 op2 type =>
      if llvm_opcode >? 255 then (nodes, inl opcode_too_large)
      else
        conv_bind (conv_bind (ConvertExpression op1 nodes) push_child) (fun nodes lhs =>
        conv_bind (match op2 with
                   | NullExpr => (nodes, inr no_child)
                   | _ => conv_bind (ConvertExpression op2 nodes) push_child
                   end) (fun nodes rhs =>
        match type with
        | None => (nodes, inr (mkExpr (POperation lhs rhs) kOperation llvm_opcode 0 0))
        | Some width =>
            if width >? 255 then (nodes, inl width_too_large)
            else (nodes, inr (mkExpr (POperation lhs rhs) kOperation llvm_opcode width 0))
        end))
  | RegisterExpr None => (nodes, inl null_register)
  | RegisterExpr (Some (name, size)) =>
      match regoffs !! name with
      | None => (nodes, inl (unknown_register name))
      | Some o =>
          if (o >? 65535) || (size >? 65535) then (nodes, inl (register_too_large name))
          else (nodes, inr (mkExpr (PRegister o size) kRegister 0 0 0))
      end
  | ConstantExpr None => (nodes, inl unsupported_constant)
  | ConstantExpr (Some (bit_width, value)) =>
      if bit_width >? 64 then (nodes, inl unsupported_constant)
      else (nodes, inr (mkExpr (PConstant (wrap32 value) (wrap32 (Z.shiftr value 32)))
                               kConstant 0 (wrap8 bit_width) 0))
  | StringExpr name =>
      match name with
      | EmptyString => (nodes, inl empty_name)
      | String c _ =>
          match regoffs !! name with
          | None => (nodes, inl (unknown_register name))
          | Some o =>
              if o >? 65535 then (nodes, inl (offset_too_large name))
              else (nodes, inr (mkExpr (PRegister o (if Ascii.eqb c "w"%char then 32 else 64))
                                       kRegister 0 0 0))
          end
      end
  end.

Definition convert_register (reg : RemillRegister) (nodes : list Expression) : conv MRegister :=
  if (offset reg >? 65535) || (size reg >? 65535) then (nodes, inl (register_too_large (name reg)))
  else (nodes, inr (mkMReg (offset reg) (size reg))).

(** [if (!reg.name.empty()) if (!convert_register(reg, ..)) return false;],
    over a zeroed register. *)
Definition convert_named (reg : RemillRegister) (nodes : list Expression) : conv MRegister :=
  if String.eqb (name reg) "" then (nodes, inr MRegister_zero) else convert_register reg nodes.

Definition b2z (b : bool) : Z := if b then 1 else 0.

Definition ConvertValue (operand : RemillOperand) (nodes : list Expression) : conv Value :=
  let type := op_type operand in
  if type =? kTypeInvalid then (nodes, inr (VReg MRegister_zero))
  else if type =? kTypeRegister then
    conv_bind (convert_register (op_reg operand) nodes) (fun nodes r => (nodes, inr (VReg r)))
  else if type =? kTypeShiftRegister then
    let sr := op_shift_reg operand in
    if sr_shift_size sr >? 255 then (nodes, inl (field_too_large "shift size"))
    else if sr_extract_size sr >? 255 then (nodes, inl (field_too_large "extract size"))
    else conv_bind (convert_register (sr_reg sr) nodes) (fun nodes r =>
      (nodes, inr (VShift (mkMShift r (sr_shift_size sr) (sr_extract_size sr)
         (b2z (sr_shift_first sr)) (b2z (sr_can_shift_op_size sr))
         (wrap8 (sr_shift_op sr)) (wrap8 (sr_extend_op sr))))))
  else if type =? kTypeImmediate then
    (nodes, inr (VImm (mkMImm (val (op_imm operand)) (b2z (is_signed (op_imm operand))))))
  else if type =? kTypeAddress then
    let ad := op_addr operand in
    if address_size ad >? 255 then (nodes, inl (field_too_large "address size"))
    else
      conv_bind (convert_named (segment_base_reg ad) nodes) (fun nodes r0 =>
      conv_bind (convert_named (base_reg ad) nodes) (fun nodes r1 =>
      conv_bind (convert_named (index_reg ad) nodes) (fun nodes r2 =>
      (nodes, inr (VAddr (mkMAddr r0 r1 r2 (scale ad) (displacement ad) (address_size ad)
                            (wrap8 (addr_kind ad))))))))
  else if (type =? kTypeExpression) || (type =? kTypeRegisterExpression) ||
          (type =? kTypeImmediateExpression) || (type =? kTypeAddressExpression) then
    conv_bind (ConvertExpression (op_expr operand) nodes) (fun nodes e => (nodes, inr (VExpr e)))
  else (nodes, inl unknown_type).

Definition ConvertOperand (operand : RemillOperand) (nodes : list Expression) : conv Operand :=
  conv_bind (ConvertValue operand nodes) (fun nodes v =>
    (nodes, inr (mkMOperand (wrap16 (op_size operand)) (wrap8 (op_type operand))
                   (wrap8 (op_action operand)) v))).

(** The loop of [convertOperands], from cleared lists; [false] on the first
    operand that does not convert. *)
Fixpoint convert_loop (operands : list RemillOperand) (metadata : list Operand)
    (nodes : list Expression) : bool * list Operand * list Expression :=
  match operands with
  | [] => (true, metadata, nodes)
  | op :: ops =>
      match ConvertOperand op nodes with
      | (nodes, inl _) => (false, metadata, nodes)
      | (nodes, inr md) => convert_loop ops (metadata ++ [md]) nodes
      end
  end.
Definition convertOperands (operands : list RemillOperand) : bool * list Operand * list Expression :=
  convert_loop operands [] [].

(** * What remill operands the code is given *)

(** Register sizes and offsets, LLVM opcodes and widths are unsigned; a
    constant holds a value of its width. *)
Fixpoint expr_ok (e : OperandExpression) : Prop :=
  match e with
  | LLVMOpExpr opcode op1 op2 type =>
      0 <= opcode ∧ expr_ok op1 ∧ expr_ok op2 ∧ (∀ w, type = Some w -> 0 <= w)
  | RegisterExpr (Some (_, size)) => 0 <= size
  | ConstantExpr (Some (w, v)) => 0 <= w ∧ (w <= 64 -> u64 v)
  | _ => True
  end.

Definition reg_ok (r : RemillRegister) : Prop := 0 <= offset r ∧ 0 <= size r.

Definition operand_ok (op : RemillOperand) : Prop :=
  u16 (op_size op) ∧ u8 (op_type op) ∧ u8 (op_action op) ∧ reg_ok (op_reg op) ∧
  reg_ok (sr_reg (op_shift_reg op)) ∧ 0 <= sr_shift_size (op_shift_reg op) ∧
  0 <= sr_extract_size (op_shift_reg op) ∧ u8 (sr_shift_op (op_shift_reg op)) ∧
  u8 (sr_extend_op (op_shift_reg op)) ∧ u64 (val (op_imm op)) ∧
  reg_ok (segment_base_reg (op_addr op)) ∧ reg_ok (base_reg (op_addr op)) ∧
  reg_ok (index_reg (op_addr op)) ∧ i64 (scale (op_addr op)) ∧ i64 (displacement (op_addr op)) ∧
  0 <= address_size (op_addr op) ∧ expr_ok (op_expr op).

Definition regoffs_ok : Prop := ∀ n o, regoffs !! n = Some o -> 0 <= o.

(** A node list where every node is well formed and refers to earlier nodes. *)
Definition below (n : Z) (e : Expression) : Prop :=
  match ex_payload e with
  | POperation lhs rhs => 0 <= lhs < n ∧ (rhs = no_child \/ 0 <= rhs < n)
  | _ => True
  end.
Definition nodes_ok (nodes : list Expression) : Prop :=
  Z.of_nat (length nodes) <= no_child ∧
  ∀ (i : nat) e, nodes !! i = Some e -> Expression_ok e ∧ below (Z.of_nat i) e.
End Convert.

(** The node array as the evaluation indexes it. *)
Definition nodes_rd (all : list Expression) (i : Z) : option Expression :=
  if i <? 0 then None else all !! Z.to_nat i.

(** * Lemmas *)

Lemma nodes_rd_at all (i : nat) e : all !! i = Some e -> nodes_rd all (Z.of_nat i) = Some e.
Proof. intros Hi. unfold nodes_rd. rewrite (proj2 (Z.ltb_ge _ _)) by lia. by rewrite Nat2Z.id. Qed.

Lemma push_child_inv nodes child nodes' i : push_child nodes child = (nodes', inr i) ->
  nodes' = nodes ++ [child] ∧ i = Z.of_nat (length nodes) ∧ Z.of_nat (length nodes) < no_child.
Proof.
  unfold push_child. destruct (Z.geb_spec (Z.of_nat (length nodes)) no_child); [done|].
  by intros [= <- <-].
Qed.

Lemma conv_bind_inv {A B} (e : conv A) (f : list Expression -> A -> conv B) nodes' b :
  conv_bind e f = (nodes', inr b) -> ∃ nodes a, e = (nodes, inr a) ∧ f nodes a = (nodes', inr b).
Proof. destruct e as [nodes [err|a]]; simpl; [done|]. eauto. Qed.

Ltac conv_inv H n a :=
  apply conv_bind_inv in H as (n & a & ? & H).

Lemma nodes_ok_push nodes c :
  nodes_ok nodes -> Z.of_nat (length nodes) < no_child -> Expression_ok c ->
  below (Z.of_nat (length nodes)) c -> nodes_ok (nodes ++ [c]).
Proof.
  intros [Hl Hn] Hlt Hc Hb. split; [rewrite length_app; simpl; lia|].
  intros i e Hi. apply lookup_app_Some in Hi as [Hi|[Hle Hi]]; [by apply Hn|].
  destruct (i - length nodes)%nat as [|k] eqn:E; [|done]. simpl in Hi. simplify_eq.
  by replace i with (length nodes) by lia.
Qed.

Lemma below_mono n n' e : n <= n' -> below n e -> below n' e.
Proof. unfold below. destruct (ex_payload e); [|done..]. lia. Qed.

(** The members of a node just built are in range. *)
Ltac expr_fields :=
  unfold Expression_ok, Payload_ok, kind_of, fits;
  cbn [ex_payload ex_kind ex_opcode ex_width ex_reserved]; split_and!; lia || done.

Section Correct.
Context `{Codes}.
Variables (regoffs : regoffs_t) (state_ptr : Z) (m : bytes).
Hypothesis Hregoffs : regoffs_ok regoffs.

Abbreviation lift := (LiftExpressionOperandRecRaw state_ptr m regoffs).
Abbreviation mlift all := (Meta.LiftExpressionOperandRecRaw state_ptr m (nodes_rd all)).

(** What a conversion of [e] leaves: the old nodes and new ones, a node in
    range, and the value of [e] wherever the nodes are a prefix of. *)
Definition converted (e : OperandExpression) (nodes nodes' : list Expression) (c : Expression) : Prop :=
  (∃ extra, nodes' = nodes ++ extra) ∧ nodes_ok nodes' ∧ Expression_ok c ∧
  below (Z.of_nat (length nodes')) c ∧
  ∀ all fuel, nodes' `prefix_of` all -> (length nodes' < fuel)%nat ->
    lift e <> Undef -> mlift all fuel c = lift e.

(** A child converted and pushed: its index, and its value through it. *)
Definition pushed (e : OperandExpression) (nodes nodes' : list Expression) (i : Z) : Prop :=
  (∃ extra, nodes' = nodes ++ extra) ∧ nodes_ok nodes' ∧ 0 <= i < Z.of_nat (length nodes') ∧
  i < no_child ∧
  ∀ all fuel, nodes' `prefix_of` all -> (length nodes' <= fuel)%nat ->
    lift e <> Undef -> ∃ ce, nodes_rd all i = Some ce ∧ mlift all fuel ce = lift e.

Lemma converted_pushed e nodes nodes1 c nodes' i :
  converted e nodes nodes1 c -> push_child nodes1 c = (nodes', inr i) -> pushed e nodes nodes' i.
Proof.
  intros ([extra ->] & Hok & Hc & Hb & Hv) Hp. apply push_child_inv in Hp as (-> & -> & Hlt).
  split_and!.
  - exists (extra ++ [c]). by rewrite app_assoc.
  - by apply nodes_ok_push.
  - lia.
  - rewrite !length_app. simpl. lia.
  - done.
  - intros all fuel [k ->] Hf Hu. exists c. split.
    + apply nodes_rd_at. rewrite <- app_assoc. apply list_lookup_middle. done.
    + apply Hv; [|rewrite length_app in Hf; simpl in Hf; lia|done].
      exists ([c] ++ k). by rewrite <- !app_assoc.
Qed.

(** Evaluating the opcode of a node is evaluating the opcode of the operand. *)
Lemma eval_opcode_meta opcode lhs rhs type w r :
  (type = Some w \/ (type = None ∧ w = 0)) ->
  EvalOpcode opcode lhs rhs (of_option Undef type) = r -> r <> Undef ->
  (if opcode =? Add then Ret (wrap64 (lhs + rhs))
   else if opcode =? Sub then Ret (wrap64 (lhs - rhs))
   else if opcode =? Mul then Ret (wrap64 (lhs * rhs))
   else if opcode =? Shl then shl64 lhs rhs
   else if opcode =? LShr then shr64 lhs rhs
   else if opcode =? AShr then sar64 lhs (to_signed 64 rhs)
   else if (opcode =? ZExt) || (opcode =? Trunc) then Ret (MaskToBits lhs w)
   else if opcode =? SExt then Ret (SignExtend lhs w)
   else if opcode =? And then Ret (Z.land lhs rhs)
   else if opcode =? Or then Ret (Z.lor lhs rhs)
   else if opcode =? URem then Ret (if rhs =? 0 then 0 else lhs mod rhs)
   else if opcode =? Xor then Ret (Z.lxor lhs rhs)
   else Abort) = r.
Proof.
  intros Ht <- Hu. unfold EvalOpcode in *. pose proof opcodes as Hc. distinct_codes Hc.
  assert (SExt <> Trunc) as Hst by done.
  repeat match goal with
  | |- context [opcode =? ?k] => destruct (Z.eqb_spec opcode k); cbn [orb]; try done
  end; try congruence;
  (destruct Ht as [->|[-> ->]]; [done|]; exfalso; by apply Hu).
Qed.

Lemma converted_leaf e nodes c r :
  nodes_ok nodes -> Expression_ok c -> below (Z.of_nat (length nodes)) c ->
  lift e = r -> (∀ all fuel, r <> Undef -> mlift all (S fuel) c = r) ->
  converted e nodes nodes c.
Proof.
  intros Hn Hc Hb Hr Hv. split_and!; [by exists []; rewrite app_nil_r|done|done|done|].
  intros all [|fuel] _ Hf Hu; [lia|]. rewrite Hr in *. by apply Hv.
Qed.

(** The rest of the conversion of an operation, its children pushed. *)
Lemma converted_operation opcode op1 op2 type nodes nodes1 nodes2 lhs rhs w :
  0 <= opcode <= 255 -> 0 <= w <= 255 -> (type = Some w \/ (type = None ∧ w = 0)) ->
  pushed op1 nodes nodes1 lhs ->
  (op2 = NullExpr ∧ nodes2 = nodes1 ∧ rhs = no_child \/
   op2 <> NullExpr ∧ pushed op2 nodes1 nodes2 rhs) ->
  converted (LLVMOpExpr opcode op1 op2 type) nodes nodes2
    (mkExpr (POperation lhs rhs) kOperation opcode w 0).
Proof.
  intros Ho Hw Ht ([ex1 ->] & Hok1 & Hl & Hlc & Hv1) Hr.
  assert (∃ ex2, nodes2 = (nodes ++ ex1) ++ ex2) as [ex2 ->].
  { destruct Hr as [(_ & -> & _)|(_ & [ex2 ->] & _)]; [exists []; by rewrite app_nil_r|by exists ex2]. }
  assert (nodes_ok ((nodes ++ ex1) ++ ex2)) as Hok2
    by (destruct Hr as [(_ & -> & _)|(_ & _ & ? & _)]; done).
  assert (rhs = no_child \/ 0 <= rhs < Z.of_nat (length ((nodes ++ ex1) ++ ex2)) ∧ rhs < no_child) as Hrr.
  { destruct Hr as [(_ & _ & ->)|(_ & _ & _ & ? & ? & _)]; [by left|by right]. }
  unfold no_child in *.
  split_and!; [exists (ex1 ++ ex2); by rewrite app_assoc|done| | |].
  - rewrite !length_app in *. expr_fields.
  - unfold below. cbn [ex_payload]. unfold no_child. rewrite !length_app in *. lia.
  - intros all [|fuel] Hp Hf Hu; [lia|]. cbn [LiftExpressionOperandRecRaw] in Hu |- *.
    cbn [Meta.LiftExpressionOperandRecRaw ex_payload ex_kind ex_opcode ex_width].
    change (kOperation =? kOperation) with true. cbn iota.
    destruct (Hv1 all fuel) as (c1 & Hc1 & He1).
    { destruct Hp as [k ->]. exists (ex2 ++ k). by rewrite <- !app_assoc. }
    { rewrite length_app in Hf. lia. }
    { intros E. apply Hu. by rewrite E. }
    rewrite Hc1. cbn [of_option mbind exec_bind]. rewrite He1.
    destruct (lift op1) as [v1| |] eqn:E1; cbn [mbind exec_bind] in *; [|done|done].
    destruct Hr as [(-> & Hn2 & ->)|(Hne & Hp2)].
    + cbn [mbind exec_bind Z.eqb] in *. change (no_child =? no_child) with true. cbn iota.
      by apply (eval_opcode_meta _ _ _ type).
    + destruct Hp2 as (_ & _ & _ & Hlt2 & Hv2).
      assert ((rhs =? no_child) = false) as -> by (apply Z.eqb_neq; unfold no_child in *; lia).
      destruct (Hv2 all fuel) as (c2 & Hc2 & He2); [done|lia| |].
      { intros E. apply Hu. by destruct op2; rewrite ?E. }
      rewrite Hc2. cbn [of_option mbind exec_bind]. rewrite He2.
      assert (∀ (A B : exec Z), (match op2 with NullExpr => A | _ => B end) = B) as Hm
        by (by destruct op2).
      rewrite Hm in Hu |- *.
      destruct (lift op2) as [v2| |] eqn:E2; cbn [mbind exec_bind] in *; [|done|done].
      by apply (eval_opcode_meta _ _ _ type).
Qed.

Lemma join_words v : u64 v -> Z.lor (Z.shiftl (wrap32 (Z.shiftr v 32)) 32) (wrap32 v) = v.
Proof.
  intros Hv. apply Z.bits_inj'. intros i Hi. unfold wrap. rewrite Z.lor_spec, Z.shiftl_spec by lia.
  destruct (decide (i < 32)).
  - rewrite (Z.testbit_neg_r _ (i - 32)) by lia. by rewrite Z.mod_pow2_bits_low by lia.
  - rewrite (Z.mod_pow2_bits_high v) by lia. rewrite orb_false_r.
    destruct (decide (i - 32 < 32)).
    + rewrite Z.mod_pow2_bits_low, Z.shiftr_spec by lia. f_equal. lia.
    + rewrite Z.mod_pow2_bits_high by lia. symmetry. apply (testbit_fits 64); [done|lia].
Qed.

Lemma ConvertExpression_spec e : expr_ok e -> ∀ nodes nodes' c,
  nodes_ok nodes -> ConvertExpression regoffs e nodes = (nodes', inr c) ->
  converted e nodes nodes' c.
Proof.
  induction e as [|opcode e1 IH1 e2 IH2 type|[[name sz]|]|[[w v]|]|s]; cbn [expr_ok ConvertExpression];
    intros Hok nodes nodes' c Hn Hc; try done.
  - destruct Hok as (Ho & Hok1 & Hok2 & Ht).
    destruct (Z.gtb_spec opcode 255) as [|Hle]; [done|].
    conv_inv Hc n2 lhs. conv_inv H0 n1 c1. rename H0 into Hp1. rename H1 into Hc1.
    pose proof (converted_pushed _ _ _ _ _ _ (IH1 Hok1 _ _ _ Hn Hc1) Hp1) as Hpl.
    conv_inv Hc n3 rhs. rename H0 into Hc2.
    assert (e2 = NullExpr ∧ n3 = n2 ∧ rhs = no_child \/ e2 <> NullExpr ∧ pushed e2 n2 n3 rhs) as Hr.
    { assert (e2 = NullExpr \/ e2 <> NullExpr) as [->|Hne] by (destruct e2; by (left + right)).
      - simplify_eq. by left.
      - right. split; [done|].
        assert (conv_bind (ConvertExpression regoffs e2 n2) push_child = (n3, inr rhs)) as Hb
          by (by destruct e2).
        conv_inv Hb n4 c2. apply (converted_pushed _ _ n4 c2); [|done].
        apply IH2; [done|apply Hpl|done]. }
    destruct type as [w|].
    + destruct (Z.gtb_spec w 255); [done|]. simplify_eq.
      specialize (Ht w eq_refl).
      apply (converted_operation _ _ _ (Some w) _ n2); [lia|lia|by left|done|done].
    + simplify_eq. apply (converted_operation _ _ _ None _ n2); [lia|lia|by right|done|done].
  - destruct (regoffs !! name) as [o|] eqn:E; [|done].
    destruct (Z.gtb_spec o 65535); [done|]. destruct (Z.gtb_spec sz 65535); [done|].
    cbn [orb] in Hc. simplify_eq. pose proof (Hregoffs _ _ E).
    apply converted_leaf with (r := Ret (LoadRegValueRaw state_ptr m (mkReg name sz o)));
      [done| |done| |done].
    + expr_fields.
    + cbn. unfold GetOffset. by rewrite E.
  - destruct Hok as [Hw Hv]. destruct (Z.gtb_spec w 64); [done|]. simplify_eq.
    apply converted_leaf with (r := Ret v); [done| |done|done|].
    + pose proof (wrap_fits 32 v). pose proof (wrap_fits 32 (Z.shiftr v 32)).
      pose proof (wrap_fits 8 w). unfold fits in *. expr_fields.
    + intros all fuel _. cbn [Meta.LiftExpressionOperandRecRaw ex_payload ex_kind].
      change (kConstant =? kConstant) with true. cbn iota. f_equal. apply join_words. auto.
  - destruct s as [|ch s]; [done|]. destruct (regoffs !! String ch s) as [o|] eqn:E; [|done].
    destruct (Z.gtb_spec o 65535); [done|]. simplify_eq. pose proof (Hregoffs _ _ E).
    set (sz := if Ascii.eqb ch "w"%char then 32 else 64).
    apply converted_leaf with (r := Ret (LoadRegValueRaw state_ptr m (mkReg (String ch s) sz o)));
      [done| |done| |done].
    + assert (u16 sz) by (unfold sz; destruct (Ascii.eqb _ _); split; lia).
      unfold fits in *. expr_fields.
    + cbn. unfold GetOffset. by rewrite E.
Qed.

(** ** Operands *)

Lemma convert_register_inv reg nodes nodes' r : reg_ok reg ->
  convert_register reg nodes = (nodes', inr r) ->
  nodes' = nodes ∧ r = mkMReg (offset reg) (size reg) ∧ MRegister_ok r.
Proof.
  intros [Ho Hs]. unfold convert_register.
  destruct (Z.gtb_spec (offset reg) 65535); [done|].
  destruct (Z.gtb_spec (size reg) 65535); [done|]. intros [= <- <-].
  split_and!; [done|done|]. split; unfold fits; cbn [mr_offset mr_size]; lia.
Qed.

Lemma convert_named_inv reg nodes nodes' r : reg_ok reg ->
  convert_named reg nodes = (nodes', inr r) ->
  nodes' = nodes ∧ MRegister_ok r ∧
  Meta.LoadWordRegValOrZeroRaw state_ptr m r word_size =
    LoadWordRegValOrZeroRaw state_ptr m reg word_size.
Proof.
  intros Hr. unfold convert_named, LoadWordRegValOrZeroRaw.
  destruct (String.eqb (name reg) "").
  - intros [= <- <-]. split_and!; [done| |done]. split; unfold fits; cbn; lia.
  - intros Hc. apply (convert_register_inv _ _ _ _ Hr) in Hc as (-> & -> & Hok).
    split_and!; [done|done|]. unfold Meta.LoadWordRegValOrZeroRaw. cbn [mr_size].
    destruct (Z.eqb_spec (size reg) 0) as [Hz|]; [|done].
    unfold LoadRegValueRaw. rewrite Hz. done.
Qed.

Lemma shift_converted op mr :
  operand_ok op -> sr_extract_size (op_shift_reg op) <= 255 ->
  mr = mkMReg (offset (sr_reg (op_shift_reg op))) (size (sr_reg (op_shift_reg op))) ->
  let sr := op_shift_reg op in
  Meta.LiftShiftRegisterOperandRaw state_ptr m (wrap16 (op_size op))
    (mkMShift mr (sr_shift_size sr) (sr_extract_size sr) (b2z (sr_shift_first sr))
       (b2z (sr_can_shift_op_size sr)) (wrap8 (sr_shift_op sr)) (wrap8 (sr_extend_op sr)))
  = LiftShiftRegisterOperandRaw state_ptr m op.
Proof.
  intros (Hs & _ & _ & _ & _ & _ & He & Hso & Heo & _) He' -> sr.
  unfold Meta.LiftShiftRegisterOperandRaw, LiftShiftRegisterOperandRaw, ShiftRaw.
  fold sr. cbn [ms_reg ms_shift_size ms_extract_size ms_shift_op ms_extend_op mr_size].
  fold sr in He, Hso, Heo, He'.
  rewrite (wrap_small 16 (op_size op)), (wrap_small 8 (sr_shift_op sr)),
    (wrap_small 8 (sr_extend_op sr)) by done.
  rewrite (wrap_small 32 (sr_extract_size sr)) by (unfold fits; lia).
  rewrite (wrap_small 32 (op_size op)) by (by apply (fits_mono 16); [lia|]).
  reflexivity.
Qed.

Lemma ConvertValue_spec op nodes nodes' v : operand_ok op -> nodes_ok nodes ->
  ConvertValue regoffs op nodes = (nodes', inr v) ->
  (∃ extra, nodes' = nodes ++ extra) ∧ nodes_ok nodes' ∧
  Meta.Operand_ok (mkMOperand (wrap16 (op_size op)) (wrap8 (op_type op)) (wrap8 (op_action op)) v) ∧
  ∀ all fuel pointer info, nodes' `prefix_of` all -> (length nodes' < fuel)%nat ->
    oi_pointer info = b2z pointer ->
    LiftOperand state_ptr m regoffs op pointer <> Undef ->
    Meta.LiftOperandRaw state_ptr m (nodes_rd all) fuel
      (mkMOperand (wrap16 (op_size op)) (wrap8 (op_type op)) (wrap8 (op_action op)) v) info
    = LiftOperand state_ptr m regoffs op pointer.
Proof.
  intros Hop Hn. pose proof Hop as (Hs & Ht & Ha & Hr & Hsr & Hss & Hes & Hso & Heo & Hv & Hr0 & Hr1
    & Hr2 & Hsc & Hd & Has & He).
  pose proof type_codes as Hc. 
  unfold ConvertValue, LiftOperand, Meta.LiftOperandRaw, Meta.Operand_ok.
  cbn [mo_type mo_value mo_size mo_action].
  rewrite (wrap_small 8 (op_type op)) by done. rewrite (wrap_small 8 (op_action op)) by done.
  assert (u16 (wrap16 (op_size op))) as Hs16 by (apply wrap_fits; lia).
  destruct (Z.eqb_spec (op_type op) kTypeInvalid) as [Et|_].
  { intros [= <- <-]. distinct_codes Hc. rewrite Et in *. repeat code_case. cbn [orb].
    split_and!; try done; [by exists []; rewrite app_nil_r|by left]. }
  destruct (Z.eqb_spec (op_type op) kTypeRegister) as [Et|_].
  { intros Hcv. conv_inv Hcv n1 r. simplify_eq.
    apply (convert_register_inv _ _ _ _ Hr) in H0 as (-> & -> & Hok).
    split_and!; try done; [by exists []; rewrite app_nil_r|by right|].
    intros all fuel pointer info _ _ -> _. by destruct pointer. }
  destruct (Z.eqb_spec (op_type op) kTypeShiftRegister) as [Et|_].
  { destruct (Z.gtb_spec (sr_shift_size (op_shift_reg op)) 255); [done|].
    destruct (Z.gtb_spec (sr_extract_size (op_shift_reg op)) 255); [done|].
    intros Hcv. conv_inv Hcv n1 r. simplify_eq.
    apply (convert_register_inv _ _ _ _ Hsr) in H2 as (-> & -> & Hok).
    split; [by exists []; rewrite app_nil_r|]. split; [done|]. split.
    - split; [done|]. split; [done|]. split; [done|]. split; [|done].
      split; [done|]. cbn [ms_shift_size ms_extract_size ms_shift_first ms_can_shift_op_size
        ms_shift_op ms_extend_op]. rewrite (wrap_small 8 (sr_shift_op _)), (wrap_small 8 (sr_extend_op _)) by done.
      split_and!; try done; unfold fits; try lia; unfold b2z; by case_match.
    - intros all fuel pointer info _ _ _ _. by apply shift_converted. }
  destruct (Z.eqb_spec (op_type op) kTypeImmediate) as [Et|_].
  { intros [= <- <-]. split_and!; try done; [by exists []; rewrite app_nil_r| |].
    - unfold b2z, fits. cbn. by case_match.
    - intros all fuel pointer info _ _ _ _. unfold LiftImmediateOperandRaw. cbn.
      rewrite (wrap_small 16 (op_size op)) by done.
      rewrite (wrap_small 32 (op_size op)) by (by apply (fits_mono 16); [lia|]).
      by destruct (is_signed (op_imm op)). }
  destruct (Z.eqb_spec (op_type op) kTypeAddress) as [Et|_].
  { destruct (Z.gtb_spec (address_size (op_addr op)) 255); [done|]. intros Hcv.
    conv_inv Hcv n1 r0. apply (convert_named_inv _ _ _ _ Hr0) in H1 as (-> & Hok0 & Hw0).
    conv_inv Hcv n2 r1. apply (convert_named_inv _ _ _ _ Hr1) in H1 as (-> & Hok1 & Hw1).
    conv_inv Hcv n3 r2. apply (convert_named_inv _ _ _ _ Hr2) in H1 as (-> & Hok2 & Hw2).
    simplify_eq. split; [by exists []; rewrite app_nil_r|]. split; [done|]. split.
    - pose proof (wrap_fits 8 (addr_kind (op_addr op)) ltac:(lia)).
      unfold MAddr_ok. cbn [ma_reg0 ma_reg1 ma_reg2 ma_scale ma_displacement ma_address_size ma_kind].
      split_and!; try done; unfold fits; lia.
    - intros all fuel pointer info _ _ _ _.
      unfold Meta.LiftAddressOperandRaw, LiftAddressOperandRaw, AddDisplacement. cbn [ma_reg0 ma_reg1
        ma_reg2 ma_scale ma_displacement ma_address_size].
      rewrite Hw0, Hw1, Hw2. rewrite (wrap_small 32 (address_size (op_addr op)))
        by (unfold fits; lia).
      by destruct (displacement (op_addr op) =? 0). }
  destruct ((op_type op =? kTypeExpression) || (op_type op =? kTypeRegisterExpression) ||
    (op_type op =? kTypeImmediateExpression) || (op_type op =? kTypeAddressExpression)) eqn:Et; [|done].
  intros Hcv. conv_inv Hcv n1 e. simplify_eq.
  destruct (ConvertExpression_spec _ He _ _ _ Hn H0) as (Hex & Hn' & Hok & Hb & Hval).
  split_and!; try done.
  - rewrite !orb_true_iff, !Z.eqb_eq in Et. rewrite !elem_of_cons. tauto.
  - intros all fuel pointer info Hp Hf _ Hu. by apply Hval.
Qed.

Lemma ConvertOperand_spec op nodes nodes' md : operand_ok op -> nodes_ok nodes ->
  ConvertOperand regoffs op nodes = (nodes', inr md) ->
  (∃ extra, nodes' = nodes ++ extra) ∧ nodes_ok nodes' ∧ Meta.Operand_ok md ∧
  ∀ all fuel pointer info, nodes' `prefix_of` all -> (length nodes' < fuel)%nat ->
    oi_pointer info = b2z pointer ->
    LiftOperand state_ptr m regoffs op pointer <> Undef ->
    Meta.LiftOperandRaw state_ptr m (nodes_rd all) fuel md info
    = LiftOperand state_ptr m regoffs op pointer.
Proof.
  intros Hop Hn Hc. conv_inv Hc n1 v. simplify_eq. by eapply ConvertValue_spec.
Qed.

Lemma convert_loop_spec ops : ∀ mds nodes mds' nodes',
  Forall operand_ok ops -> nodes_ok nodes ->
  convert_loop regoffs ops mds nodes = (true, mds', nodes') ->
  (∃ extra, nodes' = nodes ++ extra) ∧ nodes_ok nodes' ∧
  ∃ new, mds' = mds ++ new ∧ length new = length ops ∧ Forall Meta.Operand_ok new ∧
  ∀ (i : nat) op md pointer info, ops !! i = Some op -> new !! i = Some md ->
    oi_pointer info = b2z pointer ->
    LiftOperand state_ptr m regoffs op pointer <> Undef ->
    Meta.LiftOperandRaw state_ptr m (nodes_rd nodes') (S (length nodes')) md info
    = LiftOperand state_ptr m regoffs op pointer.
Proof.
  induction ops as [|op ops IH]; intros mds nodes mds' nodes' Hok Hn Hl; cbn [convert_loop] in Hl.
  { simplify_eq. split; [by exists []; rewrite app_nil_r|]. split; [done|].
    exists []. by rewrite app_nil_r. }
  apply Forall_cons in Hok as [Hop Hok].
  destruct (ConvertOperand regoffs op nodes) as [n1 [err|md]] eqn:E; [done|].
  destruct (ConvertOperand_spec _ _ _ _ Hop Hn E) as ([ex1 ->] & Hn1 & Hmd & Hval).
  destruct (IH _ _ _ _ Hok Hn1 Hl) as ([ex2 ->] & Hn2 & new & -> & Hlen & Hnew & Hvals).
  split; [exists (ex1 ++ ex2); by rewrite app_assoc|]. split; [done|].
  exists (md :: new). split_and!.
  - by rewrite <- app_assoc.
  - simpl. by rewrite Hlen.
  - by constructor.
  - intros [|i] op' md' pointer info H1 H2 H3 H4; simpl in H1, H2; simplify_eq; [|by eapply Hvals].
    apply Hval; [by exists ex2|rewrite !length_app; lia|done|done].
Qed.
End Correct.

(** * Properties *)

(** C1: pre-encoding preserves operands. When [convertOperands] accepts the
    shared operands, it yields one metadata record per operand, every record
    and every expression node fits the file format, nodes refer to earlier
    nodes only, and evaluating record number i over the produced nodes (with
    one unit of fuel more than there are nodes) gives exactly what evaluating
    operand number i gives, value or abort, for every state and for value and
    pointer arguments alike, wherever the latter is defined. *)
Theorem convertOperands_preserves `{Codes} (regoffs : regoffs_t) (ops : list RemillOperand)
    (mds : list Operand) (nodes : list Expression) :
  regoffs_ok regoffs -> Forall operand_ok ops ->
  convertOperands regoffs ops = (true, mds, nodes) ->
  length mds = length ops ∧ Forall Meta.Operand_ok mds ∧ nodes_ok nodes ∧
  ∀ (state_ptr : Z) (m : bytes) (i : nat) op md pointer info,
    ops !! i = Some op -> mds !! i = Some md -> oi_pointer info = b2z pointer ->
    LiftOperand state_ptr m regoffs op pointer <> Undef ->
    Meta.LiftOperandRaw state_ptr m (nodes_rd nodes) (S (length nodes)) md info
    = LiftOperand state_ptr m regoffs op pointer.
Proof.
  intros Hro Hok Hc.
  assert (nodes_ok []) as Hn by (by split).
  destruct (convert_loop_spec regoffs 0 ∅ Hro ops [] [] mds nodes Hok Hn Hc)
    as (_ & Hnn & new & Hnew & Hlen & Hall & _). simpl in Hnew. subst new.
  split_and!; [done|done|done|]. intros sp m.
  destruct (convert_loop_spec regoffs sp m Hro ops [] [] mds nodes Hok Hn Hc)
    as (_ & _ & new & Hnew & _ & _ & Hval). simpl in Hnew. by subst new.
Qed.

Definition sample_operand : RemillOperand :=
  let r := mkReg "X1" 64 16 in
  mkOperand 8 1 64 r (mkShift r 0 0 false false 0 0) (mkImm 0 false) (mkAddr r r r 0 0 64 0)
    (LLVMOpExpr 13 (StringExpr "X1") (ConstantExpr (Some (64, 8))) (Some 64)).

Theorem convertOperands_preserves_witness :
  let regoffs : regoffs_t := {[ "X1"%string := 16 ]} in
  let '(ok, mds, nodes) := @convertOperands sample_codes regoffs [sample_operand] in
  ok = true ∧ length nodes = 2%nat ∧
  ∀ md, mds !! 0%nat = Some md ->
    @Meta.LiftOperandRaw sample_codes 0x7000 (store 8 ∅ 16 0x1000) (nodes_rd nodes) 3 md (mkOpInfo 0 0)
      = Ret 0x1008.
Proof.
  intros regoffs. destruct (@convertOperands sample_codes regoffs [sample_operand])
    as [[ok mds] nodes] eqn:E.
  assert (ok = true ∧ length nodes = 2%nat) as [-> Hlen] by (vm_compute in E; by simplify_eq).
  split_and!; [done|done|]. intros md Hmd.
  destruct (@convertOperands_preserves sample_codes regoffs [sample_operand] mds nodes)
    as (_ & _ & _ & Hval).
  - intros n o Ho. unfold regoffs in Ho. apply lookup_singleton_Some in Ho as [_ <-]. lia.
  - constructor; [|constructor]. unfold operand_ok, reg_ok, i64, fits, sample_operand; cbn.
    split_and!; try lia; try done. intros w [= <-]. lia.
  - exact E.
  - rewrite Hlen in Hval.
    rewrite (Hval 0x7000 (store 8 ∅ 16 0x1000) 0%nat sample_operand md false (mkOpInfo 0 0)); try done.
Defined.
