(* ===== verification/OpcodeCache.v ===== *)
(** src/OpcodeEngine.h and the dispatch of src/OpcodeEngine.cpp: the handler
    sets with their one-byte caches, [prefetch] and [emulate] over opcodes of
    any length. What [init] makes of an opcode depends on remill and LLVM and
    is a parameter; the sets, the caches and the keys are the code's. *)
From Stdlib Require Import ZArith Lia List Sorting.Sorted.
From stdpp Require Import base list gmap.
From S2P Require Import Prelude Utils.
#[local] Open Scope Z_scope.

(** * Handlers *)

(** [OpcodeHandler::Type]. *)
Definition OHT_Remill : Z := 0.
Definition OHT_MCInst : Z := 1.
Definition OHT_Dynamic : Z := 2.
Definition OHT_Prebuilt : Z := 3.
Definition OHT_PrebuiltMapped : Z := 4.

(** [OpcodeHandler<T>]: the opcode as the number its bytes hold (both words
    of the 128-bit one), the arguments as index and pointer bit, the address
    of the implementation. *)
Record OpcodeHandler := mkOH {
  oh_opcode : Z; oh_oplen : Z; oh_type : Z; oh_implsize : Z;
  oh_args : list (Z * bool); oh_impl : Z
}.

#[export] Instance OpcodeHandler_eq_dec : EqDecision OpcodeHandler.
Proof. solve_decision. Defined.

(** [OpcodeHandler<T>{.opcode = opcode}]. *)
Definition tmpopc (opcode : Z) : OpcodeHandler := mkOH opcode 0 OHT_Remill 0 [] 0.

(** * [std::set<OpcodeHandler<T>>], ordered by opcode *)

Abbreviation handler_set := (list OpcodeHandler).

Fixpoint set_find (k : Z) (s : handler_set) : option OpcodeHandler :=
  match s with
  | [] => None
  | h :: s' => if oh_opcode h =? k then Some h else set_find k s'
  end.

(** [insert]: before the first greater opcode, nothing when present. *)
Fixpoint set_insert (h : OpcodeHandler) (s : handler_set) : handler_set :=
  match s with
  | [] => [h]
  | x :: s' =>
      if oh_opcode h <? oh_opcode x then h :: x :: s'
      else if oh_opcode h =? oh_opcode x then x :: s'
      else x :: set_insert h s'
  end.

(** Writing through the [const_cast] of an element; [init] keeps its opcode. *)
Definition set_update (k : Z) (h : OpcodeHandler) (s : handler_set) : handler_set :=
  (fun x => if oh_opcode x =? k then h else x) <$> s.

(** * [OpcodeHandlers<T>] *)

(** A cache slot is the element it points to, named by its opcode: elements
    of a [std::set] do not move. *)
Record OpcodeHandlers := mkOHs { handlers : handler_set; caches : gmap Z Z }.
Definition OpcodeHandlers_new : OpcodeHandlers := mkOHs [] ∅.

Section Handlers.
(** The state shared by the initialisations: operands, code pages. *)
Context {S : Type}.
(** [fib_hash8] on the width, the two [init]s: from a decoded instruction, and
    from the opcode alone, where decoding can fail and leave the handler. *)
Variable hash : Z -> exec Z.
Variable init : OpcodeHandler -> S -> option OpcodeHandler * S.

Definition prefetch1 (init_inst : OpcodeHandler -> S -> OpcodeHandler * S) (opcode : Z)
    (hs : OpcodeHandlers) (s : S) : exec (OpcodeHandlers * S) :=
  match set_find opcode (handlers hs) with
  | Some _ => Ret (hs, s)
  | None =>
      let inserted := set_insert (tmpopc opcode) (handlers hs) in
      let '(h, s') := init_inst (tmpopc opcode) s in
      id ← hash opcode;
      Ret (mkOHs (set_update opcode h inserted) (<[id := opcode]> (caches hs)), s')
  end.

(** [emulate]: the handler to interpret, [None] when it returns [false]
    without interpreting. *)
Definition emulate1 (opcode : Z) (readonly : bool) (hs : OpcodeHandlers) (s : S)
  : exec (option OpcodeHandler * OpcodeHandlers * S) :=
  id ← hash opcode;
  let hit := ptr ← caches hs !! id ≫= (fun k => set_find k (handlers hs));
             if oh_opcode ptr =? opcode then Some ptr else None in
  match hit, set_find opcode (handlers hs) with
  | Some ptr, _ => Ret (Some ptr, hs, s)
  | None, Some found => Ret (Some found, mkOHs (handlers hs) (<[id := opcode]> (caches hs)), s)
  | None, None =>
      if readonly then Ret (None, hs, s)
      else
        let inserted := set_insert (tmpopc opcode) (handlers hs) in
        match init (tmpopc opcode) s with
        | (None, s') => Ret (None, mkOHs inserted (caches hs), s')
        | (Some h, s') =>
            Ret (Some h, mkOHs (set_update opcode h inserted) (<[id := opcode]> (caches hs)), s')
        end
  end.
End Handlers.

(** * The engine: one set per opcode width *)

Record OpcodeEngine := mkEngine {
  opc1 : OpcodeHandlers; opc2 : OpcodeHandlers; opc4 : OpcodeHandlers;
  opc8 : OpcodeHandlers; opc16 : OpcodeHandlers; readonly : bool
}.

(** Which set an opcode of [n] bytes goes to: 1, 2, 3-4, 5-8, more. *)
Inductive opc_width := W1 | W2 | W4 | W8 | W16.

#[export] Instance opc_width_eq_dec : EqDecision opc_width.
Proof. solve_decision. Defined.

Definition width_of (n : nat) : opc_width :=
  match n with
  | 1%nat => W1
  | 2%nat => W2
  | 3%nat | 4%nat => W4
  | 5%nat | 6%nat | 7%nat | 8%nat => W8
  | _ => W16
  end.

(** The key copied out of the first [n] bytes into zeroed storage. *)
Definition key_of (opcode : list Z) (n : nat) : Z := le_value (take (Nat.min 16 n) opcode).

Definition hash_of (w : opc_width) (k : Z) : exec Z :=
  match w with
  | W1 => fib_hash8_u8 k
  | W2 => fib_hash8_u16 k
  | W4 => fib_hash8_u32 k
  | W8 => fib_hash8_u64 k
  | W16 => fib_hash8_u128 (U128 (k mod 2 ^ 64) (k / 2 ^ 64))
  end.

Definition opcs (e : OpcodeEngine) (w : opc_width) : OpcodeHandlers :=
  match w with W1 => opc1 e | W2 => opc2 e | W4 => opc4 e | W8 => opc8 e | W16 => opc16 e end.
Definition set_opcs (e : OpcodeEngine) (w : opc_width) (hs : OpcodeHandlers) : OpcodeEngine :=
  match w with
  | W1 => mkEngine hs (opc2 e) (opc4 e) (opc8 e) (opc16 e) (readonly e)
  | W2 => mkEngine (opc1 e) hs (opc4 e) (opc8 e) (opc16 e) (readonly e)
  | W4 => mkEngine (opc1 e) (opc2 e) hs (opc8 e) (opc16 e) (readonly e)
  | W8 => mkEngine (opc1 e) (opc2 e) (opc4 e) hs (opc16 e) (readonly e)
  | W16 => mkEngine (opc1 e) (opc2 e) (opc4 e) (opc8 e) hs (readonly e)
  end.
Definition OpcodeEngine_new (ro : bool) : OpcodeEngine :=
  mkEngine OpcodeHandlers_new OpcodeHandlers_new OpcodeHandlers_new OpcodeHandlers_new
    OpcodeHandlers_new ro.

Section Engine.
Context {S : Type}.
(** remill's decoder: the length of the instruction at the front of the bytes,
    0 when there is none; the disassembler's length, 0 on failure. *)
Variable decode_length : list Z -> nat.
Variable disassemble : list Z -> nat.
Variable init_inst : list Z -> OpcodeHandler -> S -> OpcodeHandler * S.
Variable init : opc_width -> OpcodeHandler -> S -> option OpcodeHandler * S.
Variable arm64 : bool.

(** The length [prefetch] gives an instruction: an undecodable one counts 4
    bytes on arm64 and 1 elsewhere. The decoder is shown 4 or 16 bytes. *)
Definition insn_length (ptr : list Z) : nat :=
  match decode_length (take (if arm64 then 4 else 16) ptr) with
  | O => if arm64 then 4%nat else 1%nat
  | n => n
  end.

(** The loop over [[ptr, endptr)]; [opcodes] is what follows [ptr] in memory,
    [n] how many bytes are left before [endptr]. *)
Fixpoint prefetch_loop (fuel : nat) (ptr : list Z) (n : Z) (e : OpcodeEngine) (s : S) (count : Z)
  : exec (Z * OpcodeEngine * S) :=
  match fuel with
  | O => Ret (count, e, s)
  | Datatypes.S fuel' =>
      if n <=? 0 then Ret (count, e, s)
      else
        let len := insn_length ptr in
        let w := width_of len in
        '(hs, s') ← prefetch1 (hash_of w) (init_inst (take len ptr)) (key_of ptr len) (opcs e w) s;
        prefetch_loop fuel' (drop len ptr) (n - Z.of_nat len) (set_opcs e w hs) s' (count + 1)
  end.

(** [opcodes] may be followed by other bytes, which the decoder sees. *)
Definition prefetch (opcodes rest : list Z) (e : OpcodeEngine) (s : S) : exec (Z * OpcodeEngine * S) :=
  prefetch_loop (length opcodes) (opcodes ++ rest) (Z.of_nat (length opcodes)) e s 0.

(** The size [emulate(span)] settles on; [None] is [return false]. *)
Definition emulate_size (opcode : list Z) : option nat :=
  let opsz := length opcode in
  if arm64 then if (opsz <? 4)%nat then None else Some 4%nat
  else if (16 <=? opsz)%nat then
    match disassemble opcode with O => None | n => Some n end
  else Some opsz.

(** Opcodes longer than 16 bytes overflow the 16-byte key. *)
Definition emulate (opcode : list Z) (e : OpcodeEngine) (s : S)
  : exec (option OpcodeHandler * OpcodeEngine * S) :=
  match emulate_size opcode with
  | None => Ret (None, e, s)
  | Some opsz =>
      if (16 <? opsz)%nat then Undef
      else
        let w := width_of opsz in
        '(r, hs, s') ← emulate1 (hash_of w) (init w) (key_of opcode opsz) (readonly e) (opcs e w) s;
        Ret (r, set_opcs e w hs, s')
  end.
End Engine.

(** * Lemmas on the ordered set *)

Definition oh_lt (x y : OpcodeHandler) : Prop := oh_opcode x < oh_opcode y.
Definition set_sorted (s : handler_set) : Prop := StronglySorted oh_lt s.

Lemma set_find_opcode k s h : set_find k s = Some h -> oh_opcode h = k.
Proof.
  induction s as [|x s IH]; simpl; [done|]. destruct (Z.eqb_spec (oh_opcode x) k); [|done].
  by intros [= <-].
Qed.

Lemma set_find_elem k s h : set_find k s = Some h -> h ∈ s.
Proof.
  induction s as [|x s IH]; simpl; [done|]. destruct (oh_opcode x =? k).
  - intros [= <-]. apply list_elem_of_here.
  - intros. apply list_elem_of_further. auto.
Qed.

Lemma set_find_insert_eq h s : set_find (oh_opcode h) s = None ->
  set_find (oh_opcode h) (set_insert h s) = Some h.
Proof.
  induction s as [|x s IH]; cbn [set_find set_insert]; intros Hn.
  - by rewrite Z.eqb_refl.
  - destruct (Z.eqb_spec (oh_opcode x) (oh_opcode h)); [done|].
    destruct (oh_opcode h <? oh_opcode x); cbn [set_find]; [by rewrite Z.eqb_refl|].
    rewrite (proj2 (Z.eqb_neq (oh_opcode h) (oh_opcode x))) by done. cbn [set_find].
    rewrite (proj2 (Z.eqb_neq (oh_opcode x) (oh_opcode h))) by done. auto.
Qed.

Lemma set_find_insert_ne k h s : k <> oh_opcode h -> set_find k (set_insert h s) = set_find k s.
Proof.
  intros Hk. assert ((oh_opcode h =? k) = false) as Hf by (apply Z.eqb_neq; done).
  induction s as [|x s IH]; cbn [set_find set_insert]; [by rewrite Hf|].
  destruct (oh_opcode h <? oh_opcode x); cbn [set_find]; [by rewrite Hf|].
  destruct (oh_opcode h =? oh_opcode x); cbn [set_find]; [done|]. by rewrite IH.
Qed.

Lemma set_find_update_eq k h s : oh_opcode h = k -> is_Some (set_find k s) ->
  set_find k (set_update k h s) = Some h.
Proof.
  intros Hk. unfold set_update. induction s as [|x s IH]; cbn [set_find fmap list_fmap]; intros [y Hy]; [done|].
  destruct (Z.eqb_spec (oh_opcode x) k).
  - by rewrite Hk, Z.eqb_refl.
  - rewrite (proj2 (Z.eqb_neq _ _)) by done. apply IH. by exists y.
Qed.

Lemma set_find_update_ne k k' h s : oh_opcode h = k' -> k <> k' ->
  set_find k (set_update k' h s) = set_find k s.
Proof.
  intros Hh Hk. unfold set_update. induction s as [|x s IH]; cbn [set_find fmap list_fmap]; [done|].
  destruct (Z.eqb_spec (oh_opcode x) k') as [->|].
  - rewrite Hh. rewrite (proj2 (Z.eqb_neq k' k)) by auto. done.
  - by rewrite IH.
Qed.

Lemma set_insert_elem h s x : x ∈ set_insert h s -> x = h \/ x ∈ s.
Proof.
  induction s as [|y s IH]; cbn [set_insert].
  - rewrite list_elem_of_singleton. auto.
  - destruct (oh_opcode h <? oh_opcode y); [rewrite elem_of_cons; tauto|].
    destruct (oh_opcode h =? oh_opcode y); [tauto|]. rewrite !elem_of_cons. tauto.
Qed.

Lemma set_insert_sorted h s : set_sorted s -> set_sorted (set_insert h s).
Proof.
  unfold set_sorted. induction 1 as [|x s Hs IH Hx]; cbn [set_insert]; [repeat constructor|].
  destruct (Z.ltb_spec (oh_opcode h) (oh_opcode x)).
  - constructor; [by constructor|]. constructor; [done|].
    eapply Forall_impl; [exact Hx|]. unfold oh_lt. lia.
  - destruct (Z.eqb_spec (oh_opcode h) (oh_opcode x)); [by constructor|].
    constructor; [done|]. apply Forall_forall. intros y Hy.
    apply set_insert_elem in Hy as [->|Hy]; [unfold oh_lt; lia|].
    rewrite Forall_forall in Hx. auto.
Qed.

Lemma set_update_sorted k h s : oh_opcode h = k -> set_sorted s -> set_sorted (set_update k h s).
Proof.
  intros Hh. unfold set_sorted, set_update.
  assert (∀ x, oh_opcode (if oh_opcode x =? k then h else x) = oh_opcode x) as Ho
    by (intros x; destruct (Z.eqb_spec (oh_opcode x) k); congruence).
  induction 1 as [|x s Hs IH Hx]; cbn [fmap list_fmap]; [constructor|].
  constructor; [done|]. apply Forall_fmap. eapply Forall_impl; [exact Hx|].
  intros y Hy. unfold oh_lt in *. cbn. by rewrite !Ho.
Qed.

(** * The caches *)

Section Coherence.
Context {S : Type}.
Variable hash : Z -> exec Z.
Variable init : OpcodeHandler -> S -> option OpcodeHandler * S.
Variable init_inst : OpcodeHandler -> S -> OpcodeHandler * S.
(** [init] never writes the opcode. *)
Hypothesis init_opcode : ∀ h s h' s', init h s = (Some h', s') -> oh_opcode h' = oh_opcode h.
Hypothesis init_inst_opcode : ∀ h s, oh_opcode (init_inst h s).1 = oh_opcode h.

(** The set is ordered and every slot points to an element of its hash. *)
Definition hs_ok (hs : OpcodeHandlers) : Prop :=
  set_sorted (handlers hs) ∧
  ∀ id k, caches hs !! id = Some k -> is_Some (set_find k (handlers hs)) ∧ hash k = Ret id.

Lemma hs_ok_new : hs_ok OpcodeHandlers_new.
Proof. split; [constructor|]. intros id k Hk. cbn in Hk. by rewrite lookup_empty in Hk. Qed.

(** A new element, initialised and cached. *)
Definition created (opcode : Z) (h : OpcodeHandler) (id : Z) (hs : OpcodeHandlers) : OpcodeHandlers :=
  mkOHs (set_update opcode h (set_insert (tmpopc opcode) (handlers hs))) (<[id := opcode]> (caches hs)).

Lemma created_find opcode h hs k : set_find opcode (handlers hs) = None -> oh_opcode h = opcode ->
  set_find k (set_update opcode h (set_insert (tmpopc opcode) (handlers hs))) =
  if decide (k = opcode) then Some h else set_find k (handlers hs).
Proof.
  intros Hn Hh. case_decide as Hk.
  - subst k. apply set_find_update_eq; [done|]. eexists.
    apply (set_find_insert_eq (tmpopc opcode) _ Hn).
  - rewrite set_find_update_ne by done. by apply set_find_insert_ne.
Qed.

Lemma created_ok opcode h id hs : hs_ok hs -> set_find opcode (handlers hs) = None ->
  oh_opcode h = opcode -> hash opcode = Ret id -> hs_ok (created opcode h id hs).
Proof.
  intros [Hs Hc] Hn Hh Hid. split; cbn [handlers caches created].
  - apply set_update_sorted; [done|]. by apply set_insert_sorted.
  - intros id' k Hk. rewrite created_find by done. apply lookup_insert_Some in Hk as [[<- <-]|[Hne Hk]].
    + by rewrite decide_True.
    + destruct (Hc _ _ Hk) as [Hf Hhk]. split; [|done]. case_decide; [done|done].
Qed.

Lemma inserted_ok opcode hs : hs_ok hs -> set_find opcode (handlers hs) = None ->
  hs_ok (mkOHs (set_insert (tmpopc opcode) (handlers hs)) (caches hs)).
Proof.
  intros [Hs Hc] Hn. split; cbn [handlers caches]; [by apply set_insert_sorted|].
  intros id k Hk. destruct (Hc _ _ Hk) as [[x Hf] Hh]. split; [|done]. exists x.
  rewrite set_find_insert_ne; [done|]. cbn. intros ->. congruence.
Qed.

Lemma cached_ok opcode id hs : hs_ok hs -> is_Some (set_find opcode (handlers hs)) ->
  hash opcode = Ret id -> hs_ok (mkOHs (handlers hs) (<[id := opcode]> (caches hs))).
Proof.
  intros [Hs Hc] Hf Hid. split; [done|]. cbn [handlers caches].
  intros id' k Hk. apply lookup_insert_Some in Hk as [[<- <-]|[Hne Hk]]; [done|auto].
Qed.

Lemma prefetch1_spec opcode id hs s : hs_ok hs -> hash opcode = Ret id ->
  ∃ hs' s', prefetch1 hash init_inst opcode hs s = Ret (hs', s') ∧ hs_ok hs' ∧
    is_Some (set_find opcode (handlers hs')) ∧
    ∀ k h, set_find k (handlers hs) = Some h -> set_find k (handlers hs') = Some h.
Proof.
  intros Hok Hid. unfold prefetch1. destruct (set_find opcode (handlers hs)) as [h|] eqn:E.
  { exists hs, s. split_and!; [done|done|by exists h|done]. }
  pose proof (init_inst_opcode (tmpopc opcode) s) as Ho.
  destruct (init_inst (tmpopc opcode) s) as [h s']. cbn in Ho. rewrite Hid. cbn [mbind exec_bind].
  exists (created opcode h id hs), s'. split_and!; [done|by apply created_ok|..].
  - cbn [handlers created]. rewrite created_find by done. rewrite decide_True by done. by exists h.
  - intros k x Hk. cbn [handlers created]. rewrite created_find by done.
    case_decide; [congruence|done].
Qed.

(** What [emulate] does, without the cache. *)
Lemma emulate1_spec opcode id ro hs s : hs_ok hs -> hash opcode = Ret id ->
  ∃ r hs' s', emulate1 hash init opcode ro hs s = Ret (r, hs', s') ∧ hs_ok hs' ∧
    match set_find opcode (handlers hs) with
    | Some h => r = Some h ∧ handlers hs' = handlers hs ∧ s' = s
    | None =>
        if ro then r = None ∧ hs' = hs ∧ s' = s
        else s' = (init (tmpopc opcode) s).2 ∧ r = (init (tmpopc opcode) s).1 ∧
             ∀ k, set_find k (handlers hs') =
               if decide (k = opcode) then Some (default (tmpopc opcode) r)
               else set_find k (handlers hs)
    end.
Proof.
  intros Hok Hid. pose proof Hok as [Hs Hc]. unfold emulate1. rewrite Hid. cbn [mbind exec_bind].
  destruct (set_find opcode (handlers hs)) as [h|] eqn:E.
  - destruct (_ ≫= _) as [ptr|] eqn:Ehit.
    + apply bind_Some in Ehit as (p & Hp & Hpo). apply bind_Some in Hp as (k & Hk & Hf).
      destruct (Z.eqb_spec (oh_opcode p) opcode) as [Ho|]; [|done]. simplify_eq.
      rewrite (set_find_opcode _ _ _ Hf) in E. rewrite Hf in E. simplify_eq.
      by eexists _, _, _.
    + eexists _, _, _. split; [done|]. split; [|done]. apply cached_ok; [done|by exists h|done].
  - assert ((ptr ← caches hs !! id ≫= (fun k => set_find k (handlers hs));
             if oh_opcode ptr =? opcode then Some ptr else None) = None) as ->.
    { destruct (_ ≫= _) as [ptr|] eqn:Ehit; [|done]. exfalso.
      apply bind_Some in Ehit as (p & Hp & Hpo). apply bind_Some in Hp as (k & Hk & Hf).
      destruct (Z.eqb_spec (oh_opcode p) opcode) as [Ho|]; [|done].
      rewrite (set_find_opcode _ _ _ Hf) in Ho. subst. congruence. }
    destruct ro; [by eexists _, _, _|].
    destruct (init (tmpopc opcode) s) as [[h|] s'] eqn:Ei.
    + eexists _, (created opcode h id hs), _. split; [done|].
      assert (oh_opcode h = opcode) by (by rewrite (init_opcode _ _ _ _ Ei)).
      split; [by apply created_ok|]. split_and!; [done|done|].
      intros k. by apply created_find.
    + eexists _, _, _. split; [done|]. split; [by apply inserted_ok|]. split_and!; [done|done|].
      intros k. cbn [handlers default]. case_decide; [subst; apply (set_find_insert_eq (tmpopc opcode) _ E)|].
      by apply set_find_insert_ne.
Qed.
End Coherence.

(** * Properties *)

(** C29: the one-byte cache in front of a handler set is invisible. From a
    coherent state (slots point to elements of their own hash), whatever the
    collisions, [emulate] runs the handler the set holds for the opcode and
    changes no handler; without one it returns false and changes nothing when
    read-only, and otherwise adds exactly the handler [init] makes; the state
    stays coherent, and so it does after [prefetch], after which the opcode
    has a handler that read-only emulation runs. *)
Theorem emulate_cache_transparent {S} (hash : Z -> exec Z)
    (init : OpcodeHandler -> S -> option OpcodeHandler * S)
    (init_inst : OpcodeHandler -> S -> OpcodeHandler * S)
    (opcode id : Z) (ro : bool) (hs : OpcodeHandlers) (s : S) :
  (∀ h s h' s', init h s = (Some h', s') -> oh_opcode h' = oh_opcode h) ->
  (∀ h s, oh_opcode (init_inst h s).1 = oh_opcode h) ->
  hs_ok hash hs -> hash opcode = Ret id ->
  (∃ r hs' s', emulate1 hash init opcode ro hs s = Ret (r, hs', s') ∧ hs_ok hash hs' ∧
     match set_find opcode (handlers hs) with
     | Some h => r = Some h ∧ handlers hs' = handlers hs ∧ s' = s
     | None =>
         if ro then r = None ∧ hs' = hs ∧ s' = s
         else s' = (init (tmpopc opcode) s).2 ∧ r = (init (tmpopc opcode) s).1 ∧
              ∀ k, set_find k (handlers hs') =
                if decide (k = opcode) then Some (default (tmpopc opcode) r)
                else set_find k (handlers hs)
     end) ∧
  (∃ hs' s' h hs'', prefetch1 hash init_inst opcode hs s = Ret (hs', s') ∧ hs_ok hash hs' ∧
     emulate1 hash init opcode true hs' s' = Ret (Some h, hs'', s') ∧ oh_opcode h = opcode).
Proof.
  intros Hi Hii Hok Hid. split; [by apply (emulate1_spec hash init Hi opcode id)|].
  destruct (prefetch1_spec hash init_inst Hii opcode id hs s Hok Hid)
    as (hs' & s' & Hp & Hok' & [h Hh] & _).
  destruct (emulate1_spec hash init Hi opcode id true hs' s' Hok' Hid) as (r & hs'' & s'' & He & _ & Hr).
  rewrite Hh in Hr. destruct Hr as (-> & _ & ->).
  exists hs', s', h, hs''. split_and!; [done|done|done|]. by eapply set_find_opcode.
Qed.

Theorem emulate_cache_transparent_witness :
  ∃ hs' s' h hs'', prefetch1 (S := nat) (hash_of W4) (fun h s => (mkOH (oh_opcode h) 4 0 0 [] 7, S s))
      0xd503201f OpcodeHandlers_new 0%nat = Ret (hs', s') ∧ hs_ok (hash_of W4) hs' ∧
    emulate1 (hash_of W4) (fun h s => (None, s)) 0xd503201f true hs' s' = Ret (Some h, hs'', s') ∧
    oh_opcode h = 0xd503201f.
Proof.
  apply (emulate_cache_transparent (hash_of W4) (fun h s => (None, s))
    (fun h s => (mkOH (oh_opcode h) 4 0 0 [] 7, S s)) 0xd503201f 114 true OpcodeHandlers_new 0%nat).
  - done.
  - done.
  - apply hs_ok_new.
  - reflexivity.
Defined.

(** An opcode [init] refuses leaves a zeroed handler behind: the first
    emulation returns false, the second one finds that handler, of type
    [OHT_Remill] with a null implementation, and runs it. *)
Theorem emulate_after_failed_init {S} (hash : Z -> exec Z)
    (init : OpcodeHandler -> S -> option OpcodeHandler * S) (opcode id : Z)
    (hs : OpcodeHandlers) (s s' : S) :
  hs_ok hash hs -> hash opcode = Ret id -> set_find opcode (handlers hs) = None ->
  init (tmpopc opcode) s = (None, s') ->
  ∃ hs' hs'', emulate1 hash init opcode false hs s = Ret (None, hs', s') ∧
    emulate1 hash init opcode false hs' s' = Ret (Some (tmpopc opcode), hs'', s').
Proof.
  intros Hok Hid Hn Hi.
  set (init0 := fun (h : OpcodeHandler) (_ : S) => (@None OpcodeHandler, s')).
  assert (emulate1 hash init opcode false hs s = emulate1 hash init0 opcode false hs s) as ->
    by (unfold emulate1, init0; by rewrite Hi).
  destruct (emulate1_spec hash init0 ltac:(done) opcode id false hs s Hok Hid)
    as (r & hs' & s1 & -> & Hok' & Hr).
  rewrite Hn in Hr. destruct Hr as (-> & -> & Hf). specialize (Hf opcode).
  rewrite decide_True in Hf by done. cbn in Hf. exists hs'.
  assert (∀ ro init1, emulate1 hash init opcode ro hs' s' = emulate1 hash init1 opcode ro hs' s') as Hany.
  { intros ro init1. unfold emulate1. rewrite Hid, Hf. done. }
  rewrite (Hany false init0).
  destruct (emulate1_spec hash init0 ltac:(done) opcode id false hs' s' Hok' Hid)
    as (r2 & hs2 & s2 & -> & _ & Hr2).
  rewrite Hf in Hr2. destruct Hr2 as (-> & _ & ->). by exists hs2.
Qed.

Theorem emulate_after_failed_init_witness :
  ∃ hs' hs'', emulate1 (S := unit) (hash_of W4) (fun _ s => (None, s)) 0 false OpcodeHandlers_new tt
      = Ret (None, hs', tt) ∧
    emulate1 (S := unit) (hash_of W4) (fun _ s => (None, s)) 0 false hs' tt = Ret (Some (tmpopc 0), hs'', tt).
Proof.
  apply (emulate_after_failed_init (S := unit) (hash_of W4) (fun _ s => (None, s)) 0 0 OpcodeHandlers_new tt tt).
  - apply hs_ok_new.
  - reflexivity.
  - reflexivity.
  - reflexivity.
Defined.
