(* ===== verification/Emulate.v ===== *)
(** Emulating one opcode: [OpcodeHandler::interpret] of src/OpcodeEngine.cpp and
    [BinaryEngine::emulate] of src/AetherVM.cpp, which asks the engine's own
    handlers, shared by all threads and read-only, and then those of the
    thread. *)
From Stdlib Require Import ZArith Lia List.
From stdpp Require Import base list gmap.
From S2P Require Import Prelude Utils OpcodeCache.
#[local] Open Scope Z_scope.

Section Emulate.
(** Everything the emulation may change but the handler sets. *)
Context {S : Type}.

(** The ways to run a handler, the debugger's hook when debugging with a watch
    dog, and the architecture. *)
Record runners := mkRunners {
  watched : bool; run_hook : S -> S;
  (* whether it ran: not with more operands than it has calls for *)
  interpRemill : OpcodeHandler -> S -> exec (bool * S);
  interpMCInst : OpcodeHandler -> S -> exec S;
  execDynamic : OpcodeHandler -> S -> exec S; execPrebuilt : OpcodeHandler -> S -> exec S;
  execPrebuiltMapped : OpcodeHandler -> S -> exec S
}.

Variable run : runners.
Variable arm64 : bool.

Definition interpret (h : OpcodeHandler) (s : S) : exec (bool * S) :=
  let s := if watched run then run_hook run s else s in
  let done := fun s' => Ret (true, s') in
  if oh_type h =? OHT_Remill then interpRemill run h s
  else if oh_type h =? OHT_MCInst then if arm64 then interpMCInst run h s ≫= done else Abort
  else if oh_type h =? OHT_Dynamic then execDynamic run h s ≫= done
  else if oh_type h =? OHT_Prebuilt then execPrebuilt run h s ≫= done
  else if oh_type h =? OHT_PrebuiltMapped then execPrebuiltMapped run h s ≫= done
  else Ret (false, s).

(** The disassembler's length; how a thread makes a handler. *)
Variable disassemble : list Z -> nat.
Variable init : opc_width -> OpcodeHandler -> S -> option OpcodeHandler * S.

(** [OpcodeEngine::emulate], the handler that is found interpreted. *)
Definition engine_emulate (opcode : list Z) (e : OpcodeEngine) (s : S) : exec (bool * OpcodeEngine * S) :=
  '(found, e, s) ← emulate disassemble init arm64 opcode e s;
  match found with
  | Some h => '(b, s) ← interpret h s; Ret (b, e, s)
  | None => Ret (false, e, s)
  end.

(** The two handler sets a thread emulates with. *)
Record engines := mkEngines { opcodeEmu : OpcodeEngine; EMU : OpcodeEngine }.

(** [machine]: whether the engine was made for a machine. [code]: where the
    opcode is in the file when the binary set by [setOpcodeBinary] has code at
    its address. *)
Definition BinaryEngine_emulate (machine : bool) (code : option (list Z)) (opcode : list Z) (e : engines) (s : S)
    : exec (bool * engines * S) :=
  if negb machine then Ret (false, e, s)
  else
    let opcode := default opcode ((fun buf => take (length opcode) buf) <$> code) in
    '(b, shared, s) ← engine_emulate opcode (opcodeEmu e) s;
    if b : bool then Ret (true, mkEngines shared (EMU e), s)
    else
      '(b, own, s) ← engine_emulate opcode (EMU e) s;
      Ret (b, mkEngines shared own, s).
End Emulate.
Arguments runners : clear implicits.

(** Of the known types only remill's can say that it has not run. *)
Lemma interpret_ran {S} (run : runners S) arm64 h s b s' : 0 < oh_type h <= 4 -> interpret run arm64 h s = Ret (b, s') -> b = true.
Proof.
  intros Ht. unfold interpret, OHT_Remill, OHT_MCInst, OHT_Dynamic, OHT_Prebuilt, OHT_PrebuiltMapped.
  assert (∀ e : exec S, e ≫= (fun s' => Ret (true, s')) = Ret (b, s') -> b = true) as Hd.
  { intros [a| |]; cbn; [by intros [= <- _]|done..]. }
  repeat (zcase; [first [lia|destruct arm64; first [apply Hd|done]]|]). lia.
Qed.

(** * Which handler runs *)

Section Which.
Context {S : Type}.
Variable run : runners S.
Variable arm64 : bool.
Variable disassemble : list Z -> nat.
Variable init : opc_width -> OpcodeHandler -> S -> option OpcodeHandler * S.
Hypothesis init_opcode : ∀ w h s h' s', init w h s = (Some h', s') -> oh_opcode h' = oh_opcode h.

Variables (opcode : list Z) (size : nat) (id : Z).
Hypothesis size_known : emulate_size disassemble arm64 opcode = Some size.
Hypothesis size_fits : (size <= 16)%nat.
Abbreviation w := (width_of size).
Abbreviation key := (key_of opcode size).
Hypothesis hashed : hash_of w key = Ret id.

(** The set of the opcode is ordered and its cache coherent. *)
Definition engine_ok (e : OpcodeEngine) : Prop := hs_ok (hash_of w) (opcs e w).
Definition find_in (e : OpcodeEngine) : option OpcodeHandler := set_find key (handlers (opcs e w)).

(** The reference, without caches: the thread's handler of the opcode, or the
    one it makes; before that the shared one, which settles it by saying that it
    ran. *)
Definition own_run (e : engines) (s : S) : exec (bool * S) :=
  match find_in (EMU e) with
  | Some h => interpret run arm64 h s
  | None => match init w (tmpopc key) s with (Some h, s) => interpret run arm64 h s | (None, s) => Ret (false, s) end
  end.
Definition reference (e : engines) (s : S) : exec (bool * S) :=
  match find_in (opcodeEmu e) with
  | Some h => '(b, s) ← interpret run arm64 h s; if b : bool then Ret (true, s) else own_run e s
  | None => own_run e s
  end.

(** [e'] has the handlers of [e], and [new] for the opcode if it had none. *)
Definition extended (new : option OpcodeHandler) (e e' : OpcodeEngine) : Prop :=
  readonly e' = readonly e ∧ engine_ok e' ∧ (∀ w', w' <> w -> opcs e' w' = opcs e w') ∧
  ∀ k, set_find k (handlers (opcs e' w)) =
    match set_find k (handlers (opcs e w)) with
    | Some h => Some h
    | None => if decide (k = key) then new else None
    end.

Lemma opcs_set e hs w' : opcs (set_opcs e w hs) w' = if decide (w' = w) then hs else opcs e w'.
Proof. destruct w, w'; reflexivity. Qed.
Lemma readonly_set e hs : readonly (set_opcs e w hs) = readonly e.
Proof. by destruct w. Qed.

(** One set of handlers: what it finds or makes, and what becomes of it. *)
Lemma emulate_spec e s : engine_ok e -> ∃ e',
  emulate disassemble init arm64 opcode e s =
    Ret (match find_in e with
         | Some h => (Some h, e', s)
         | None => if readonly e then (None, e', s) else ((init w (tmpopc key) s).1, e', (init w (tmpopc key) s).2)
         end) ∧
  extended (if readonly e then None else Some (default (tmpopc key) (init w (tmpopc key) s).1)) e e'.
Proof.
  intros Hok. unfold emulate. rewrite size_known, (proj2 (Nat.ltb_ge _ _)) by done.
  destruct (emulate1_spec (hash_of w) (init w) (init_opcode w) key id (readonly e) (opcs e w) s Hok hashed)
    as (r & hs' & s' & -> & Hok' & Hr). cbn [mbind exec_bind]. exists (set_opcs e w hs').
  assert (∀ new, (∀ k, set_find k (handlers hs') = match set_find k (handlers (opcs e w)) with
      Some h => Some h | None => if decide (k = key) then new else None end) -> extended new e (set_opcs e w hs')) as Hext.
  { intros new Hnew. unfold extended, engine_ok. rewrite readonly_set, !opcs_set, decide_True by done.
    split_and!; [done..|intros w' Hw; by rewrite opcs_set, decide_False|done]. }
  unfold find_in. destruct (set_find key (handlers (opcs e w))) as [h|] eqn:Ef.
  - destruct Hr as (-> & Hh & ->). split; [done|]. apply Hext. intros k. rewrite Hh.
    destruct (set_find k _) eqn:Ek; [done|]. case_decide; [congruence|done].
  - destruct (readonly e).
    + destruct Hr as (-> & -> & ->). split; [done|]. apply Hext. intros k.
      destruct (set_find k _) eqn:Ek; [done|]. by case_decide.
    + destruct Hr as (-> & -> & Hf). split; [done|]. apply Hext. intros k. rewrite Hf.
      case_decide as Hk; [subst k; by rewrite Ef|by destruct (set_find k _)].
Qed.

Lemma engine_emulate_found e s h : engine_ok e -> find_in e = Some h -> ∃ e',
  engine_emulate run arm64 disassemble init opcode e s =
    ('(b, s) ← interpret run arm64 h s; Ret (b, e', s)) ∧ extended None e e'.
Proof.
  intros Hok Hf. destruct (emulate_spec e s Hok) as (e' & He & Hx). unfold engine_emulate. rewrite He, Hf.
  exists e'. split; [done|]. destruct Hx as (H1 & H2 & H3 & H4). split_and!; [done..|]. intros k. rewrite H4.
  destruct (set_find k (handlers (opcs e w))) eqn:Ek; [done|]. case_decide; [|done]. unfold find_in in Hf. congruence.
Qed.

Lemma engine_emulate_none e s : engine_ok e -> find_in e = None -> readonly e = true -> ∃ e',
  engine_emulate run arm64 disassemble init opcode e s = Ret (false, e', s) ∧ extended None e e'.
Proof.
  intros Hok Hf Hro. destruct (emulate_spec e s Hok) as (e' & He & Hx). unfold engine_emulate.
  rewrite Hro in *. rewrite He, Hf. by exists e'.
Qed.

Lemma engine_emulate_new e s : engine_ok e -> find_in e = None -> readonly e = false -> ∃ e',
  engine_emulate run arm64 disassemble init opcode e s =
    (match init w (tmpopc key) s with
     | (Some h, s) => '(b, s) ← interpret run arm64 h s; Ret (b, e', s)
     | (None, s) => Ret (false, e', s)
     end) ∧ extended (Some (default (tmpopc key) (init w (tmpopc key) s).1)) e e'.
Proof.
  intros Hok Hf Hro. destruct (emulate_spec e s Hok) as (e' & He & Hx). unfold engine_emulate.
  rewrite Hro in *. rewrite He, Hf. exists e'. split; [|done]. by destruct (init w (tmpopc key) s) as [[h|] s1].
Qed.

(** An outcome of the engines against one of the reference. *)
Definition agrees (r : exec (bool * engines * S)) (ref : exec (bool * S)) (good : engines -> Prop) : Prop :=
  match r with
  | Ret (b, e', s') => ref = Ret (b, s') ∧ good e'
  | Abort => ref = Abort
  | Undef => ref = Undef
  end.

Lemma own_agrees shared e s : engine_ok (EMU e) -> readonly (EMU e) = false ->
  agrees ('(b, own, s) ← engine_emulate run arm64 disassemble init opcode (EMU e) s; Ret (b, mkEngines shared own, s))
    (own_run e s) (fun e' => opcodeEmu e' = shared ∧ ∃ new, extended new (EMU e) (EMU e')).
Proof.
  intros Hok Hrw. unfold own_run. destruct (find_in (EMU e)) as [h|] eqn:Eo.
  - destruct (engine_emulate_found (EMU e) s h Hok Eo) as (e2 & -> & Hy).
    destruct (interpret run arm64 h s) as [[b s1]| |]; [|done..]. split; [done|]. split; [done|by eexists].
  - destruct (engine_emulate_new (EMU e) s Hok Eo Hrw) as (e2 & -> & Hy).
    destruct (init _ _ s) as [[h|] s1]; [|split; [done|]; split; [done|by eexists]].
    destruct (interpret run arm64 h s1) as [[b s2]| |]; [|done..]. split; [done|]. split; [done|by eexists].
Qed.
End Which.

(** * Properties *)

(** C16: emulating an opcode runs the engine's shared handler of it if it was
    prefetched; without one, or when that one says that it did not run (as only
    a handler of remill's can, [interpret_ran]), the thread's own or the one the
    thread makes for it; and the call says whether the last of them ran. The
    shared handlers stay as they are, and the thread's get at most the one of
    this opcode, whatever the caches in front of them hold. *)
Theorem emulate_runs_chosen {S} (run : runners S) arm64 disassemble init asked code opcode size id e s :
  (∀ w h s h' s', init w h s = (Some h', s') -> oh_opcode h' = oh_opcode h) ->
  default asked ((fun buf => take (length asked) buf) <$> code) = opcode ->
  emulate_size disassemble arm64 opcode = Some size -> (size <= 16)%nat ->
  hash_of (width_of size) (key_of opcode size) = Ret id ->
  readonly (opcodeEmu e) = true -> readonly (EMU e) = false ->
  engine_ok size (opcodeEmu e) -> engine_ok size (EMU e) ->
  agrees (BinaryEngine_emulate run arm64 disassemble init true code asked e s)
    (reference run arm64 init opcode size e s)
    (fun e' => extended opcode size None (opcodeEmu e) (opcodeEmu e') ∧
               ∃ new, extended opcode size new (EMU e) (EMU e')).
Proof.
  intros Hi Hcode Hsize Hfit Hid Hro Hrw Hok Hok'. unfold BinaryEngine_emulate, reference. rewrite Hcode. cbn [negb].
  assert (extended opcode size None (EMU e) (EMU e)) as Hrefl.
  { split_and!; try done. intros k. destruct (set_find k _); [done|]. by case_decide. }
  assert (∀ e1 s1, extended opcode size None (opcodeEmu e) e1 ->
    agrees ('(b, own, s) ← engine_emulate run arm64 disassemble init opcode (EMU e) s1; Ret (b, mkEngines e1 own, s))
      (own_run run arm64 init opcode size e s1)
      (fun e' => extended opcode size None (opcodeEmu e) (opcodeEmu e') ∧ ∃ new, extended opcode size new (EMU e) (EMU e'))) as Hown.
  { intros e1 s1 Hx. pose proof (own_agrees run arm64 disassemble init Hi opcode size id Hsize Hfit Hid e1 e s1 Hok' Hrw) as Ha.
    unfold agrees in *. destruct (engine_emulate _ _ _ _ _ _ s1) as [[[b own] s2]| |]; [|done..]. cbn [mbind exec_bind] in *.
    destruct Ha as (-> & Hsh & Hn). by rewrite Hsh. }
  destruct (find_in opcode size (opcodeEmu e)) as [h|] eqn:Ef.
  - destruct (engine_emulate_found run arm64 disassemble init Hi opcode size id Hsize Hfit Hid _ s h Hok Ef) as (e1 & -> & Hx).
    destruct (interpret run arm64 h s) as [[[] s1]| |]; [|by apply Hown|done..].
    split; [done|]. split; [done|by exists None].
  - destruct (engine_emulate_none run arm64 disassemble init Hi opcode size id Hsize Hfit Hid _ s Hok Ef Hro) as (e1 & -> & Hx).
    by apply Hown.
Qed.

(** A world that counts; a remill handler adds its length. *)
Definition sample_runners : runners Z :=
  let stop := fun _ _ => Abort in mkRunners false id (fun h s => Ret (negb (oh_oplen h =? 0), s + oh_oplen h)) stop stop stop stop.
Definition sample_init (_ : opc_width) (h : OpcodeHandler) (s : Z) : option OpcodeHandler * Z :=
  (Some (mkOH (oh_opcode h) 4 OHT_Remill 0 [] 7), s + 100).
Definition sample_engines : engines := mkEngines (OpcodeEngine_new true) (OpcodeEngine_new false).
Definition nop : list Z := [0x1f; 0x20; 0x03; 0xd5].

(** The engine has a handler that does not run; the thread makes one that does. *)
Definition sample_shared : OpcodeEngine :=
  let key := key_of nop 4 in
  set_opcs (OpcodeEngine_new true) W4 (created key (mkOH key 0 OHT_Remill 0 [] 9) 114 OpcodeHandlers_new).

Theorem emulate_runs_chosen_witness : ∃ e',
  BinaryEngine_emulate sample_runners true (fun _ => 0%nat) sample_init true None nop
    (mkEngines sample_shared (EMU sample_engines)) 0 = Ret (true, e', 104) ∧
  extended nop 4 None sample_shared (opcodeEmu e') ∧
  ∃ new, extended nop 4 new (EMU sample_engines) (EMU e').
Proof.
  assert (∀ w h s h' s', sample_init w h s = (Some h', s') -> oh_opcode h' = oh_opcode h) as Hi by by intros w h s h' s' [= <- <-].
  assert (engine_ok 4 sample_shared) as Hok by (apply created_ok; [apply hs_ok_new|done..]).
  pose proof (emulate_runs_chosen sample_runners true (fun _ => 0%nat) sample_init nop None nop 4 114
    (mkEngines sample_shared (EMU sample_engines)) 0 Hi eq_refl eq_refl ltac:(lia) eq_refl eq_refl eq_refl Hok (hs_ok_new _)) as H.
  destruct (BinaryEngine_emulate _ _ _ _ _ _ _ _ 0) as [[[b e'] s']| |] eqn:E; [|by vm_compute in E..].
  destruct H as (Href & Hgood). vm_compute in Href. injection Href as <- <-. by exists e'.
Defined.
