(* ===== verification/Handler.v ===== *)
(** src/Handler.{h,cpp}: the tables of semantic functions, sorted by the hash
    of their names, and the lookup of [OpcodeHandler::initRemill]. *)
From Stdlib Require Import ZArith Lia List String Sorting.Sorted.
From stdpp Require Import base list strings sorting.
From S2P Require Import Prelude Utils.
#[local] Open Scope Z_scope.

Record HandlerRaw := mkRaw { raw_name : string; raw_handler : Z }.
Record Handler := mkHandler { hash : Z; impl : Z }.

(** [std::sort] with [operator<]: an ordered permutation; the order of equal
    elements is the library's. *)
Class StdSort := {
  sort : list Handler -> list Handler;
  sort_perm : ∀ l, sort l ≡ₚ l;
  sort_sorted : ∀ l, Sorted (fun x y => hash x <= hash y) (sort l)
}.

Section Load.
Context `{StdSort}.
(** [hash_value] is [std::hash]. *)
Variable hash_value : string -> Z.

Definition load_handler (handlers : list Handler) (raw : list HandlerRaw) : list Handler :=
  if decide (length handlers = length raw) then handlers
  else sort ((fun r => mkHandler (hash_value (raw_name r)) (raw_handler r)) <$> raw).

(** [Handler::loadAArch64] and [loadX86]: the tables of the architecture and
    of the intrinsics; the other architecture's table is left alone. *)
Record tables := mkTables { t_aarch64 : list Handler; t_x86 : list Handler; t_intrinsic : list Handler }.
Definition loadAArch64 (HandlerAArch64 HandlerIntrinsic : list HandlerRaw) (t : tables) : tables :=
  mkTables (load_handler (t_aarch64 t) HandlerAArch64) (t_x86 t)
    (load_handler (t_intrinsic t) HandlerIntrinsic).
Definition loadX86 (HandlerX86 HandlerIntrinsic : list HandlerRaw) (t : tables) : tables :=
  mkTables (t_aarch64 t) (load_handler (t_x86 t) HandlerX86)
    (load_handler (t_intrinsic t) HandlerIntrinsic).

(** The lookup of [initRemill]: the implementation of a function name. *)
Definition find_impl (handlers : list Handler) (function : string) : exec (option Z) :=
  let key := mkHandler (hash_value function) 0 in
  found ← binary_search (key_ltb hash) (arr_rd handlers) (length handlers) key;
  exact ← is_exact (arr_rd handlers) (key_eqb hash) found (length handlers) key;
  if exact : bool then x ← of_option Undef (handlers !! found); Ret (Some (impl x)) else Ret None.

Lemma sort_keys l : key_sorted hash (sort l).
Proof. apply Sorted_key_sorted, sort_sorted. Qed.
End Load.

(** * Properties *)

(** Once loaded, a table has one entry per raw handler, loading it again
    keeps it, and looking a name up terminates inside the table: it yields the
    function of that name when the names' hashes are all different, and
    nothing for a name whose hash is not in the table. *)
Theorem load_handler_lookup `{StdSort} (hash_value : string -> Z) (raw : list HandlerRaw) :
  raw <> [] -> NoDup ((fun r => hash_value (raw_name r)) <$> raw) ->
  let handlers := load_handler hash_value [] raw in
  length handlers = length raw ∧
  load_handler hash_value handlers raw = handlers ∧
  (∀ r, r ∈ raw -> find_impl hash_value handlers (raw_name r) = Ret (Some (raw_handler r))) ∧
  (∀ name, (hash_value name ∉ (fun r => hash_value (raw_name r)) <$> raw) ->
     find_impl hash_value handlers name = Ret None).
Proof.
  intros Hne Hnd handlers.
  set (mk := fun r => mkHandler (hash_value (raw_name r)) (raw_handler r)).
  assert (handlers = sort (mk <$> raw)) as Hh.
  { unfold handlers, load_handler. rewrite decide_False; [done|]. by destruct raw. }
  assert (handlers ≡ₚ mk <$> raw) as Hp by (rewrite Hh; apply sort_perm).
  assert (length handlers = length raw) as Hl by (by rewrite Hp, length_fmap).
  assert (key_sorted hash handlers) as Hks by (rewrite Hh; apply sort_keys).
  assert (handlers <> []) as Hne' by (intros E; rewrite E in Hl; by destruct raw).
  assert (NoDup (hash <$> handlers)) as Hnd'.
  { rewrite Hp, <- list_fmap_compose. exact Hnd. }
  assert (∀ name, find_impl hash_value handlers name =
    (exact ← is_exact (arr_rd handlers) (key_eqb hash) (rank hash handlers (hash_value name))
       (length handlers) (mkHandler (hash_value name) 0);
     if exact : bool then x ← of_option Undef (handlers !! rank hash handlers (hash_value name)); Ret (Some (impl x))
     else Ret None)) as Hf.
  { intros name. unfold find_impl. rewrite binary_search_rank by done. done. }
  split_and!; [done|unfold load_handler; by rewrite decide_True| |].
  - intros r Hr. rewrite Hf.
    assert (mk r ∈ handlers) as Hin by (rewrite Hp; by apply list_elem_of_fmap_2).
    apply list_elem_of_lookup in Hin as [i Hi].
    assert (rank hash handlers (hash_value (raw_name r)) = i) as ->.
    { change (hash_value (raw_name r)) with (hash (mk r)). apply rank_found; [|done].
      intros a b y z Hab Ha Hb. pose proof (Hks a b y z ltac:(lia) Ha Hb).
      destruct (decide (hash y = hash z)) as [E|]; [|lia]. exfalso.
      assert (a = b); [|lia]. apply (NoDup_lookup (hash <$> handlers) a b (hash y) Hnd');
        rewrite list_lookup_fmap; [by rewrite Ha|by rewrite Hb, E]. }
    unfold is_exact, arr_rd. pose proof (lookup_lt_Some _ _ _ Hi).
    rewrite (proj2 (Nat.eqb_neq i (length handlers))) by lia. rewrite Hi. simpl.
    unfold key_eqb. simpl. by rewrite Z.eqb_refl.
  - intros name Hn. rewrite Hf. unfold is_exact, arr_rd.
    pose proof (rank_le hash handlers (hash_value name)).
    destruct (Nat.eqb_spec (rank hash handlers (hash_value name)) (length handlers)); [done|].
    destruct (lookup_lt_is_Some_2 handlers (rank hash handlers (hash_value name))) as [x Hx]; [lia|].
    rewrite Hx. simpl. unfold key_eqb. simpl. rewrite (proj2 (Z.eqb_neq _ _)); [done|].
    intros E. apply Hn. rewrite <- E.
    apply list_elem_of_lookup_2 in Hx. rewrite Hp in Hx. apply list_elem_of_fmap in Hx as (r & -> & Hr).
    apply list_elem_of_fmap. by exists r.
Qed.

#[local] Instance hash_le_dec : RelDecision (fun x y : Handler => hash x <= hash y).
Proof. intros x y. apply _. Defined.

Definition sample_sort : StdSort.
Proof.
  refine {| sort := merge_sort (fun x y => hash x <= hash y) |}.
  - intros. apply merge_sort_Permutation.
  - intros. apply Sorted_merge_sort. intros x y. lia.
Defined.

Theorem load_handler_lookup_witness :
  let raw := [mkRaw "ADD" 0x10; mkRaw "B" 0x20; mkRaw "" 0x30] in
  let hv s := 3 - Z.of_nat (String.length s) in
  @find_impl hv (@load_handler sample_sort hv [] raw) "B" = Ret (Some 0x20).
Proof.
  intros raw hv.
  destruct (@load_handler_lookup sample_sort hv raw) as (_ & _ & Hf & _).
  - done.
  - apply (bool_decide_unpack _). by vm_compute.
  - apply (Hf (mkRaw "B" 0x20)). apply list_elem_of_further, list_elem_of_here.
Defined.
