(* ===== verification/PreEncoder.v ===== *)
(** src/PreEncoder.cpp: the pre-encoder. Indexing the handlers of the five
    sets, looking an opcode up, writing the handler records and the whole
    metadata file. The binary comes from a submodule: its functions, their
    instructions and their bytes are arguments. *)
From Stdlib Require Import ZArith Lia List Sorting.Sorted.
From stdpp Require Import base list gmap.
From S2P Require Import Prelude Utils Regoffs Operands IMetaData MetaOperands Convert OpcodeCache Handler.
#[local] Open Scope Z_scope.

Definition UINT32_MAX : Z := 2 ^ 32 - 1.

(** An indexed handler: the width of its set in bytes and the element. *)
Abbreviation SHandler := (nat * OpcodeHandler)%type.
Definition sh_opcode (h : SHandler) : Z := oh_opcode h.2.

(** * Indexing the handlers: the end of [prefetch] *)

Definition load_handlers (w : nat) (hs : OpcodeHandlers) (m_handlers : list SHandler) : list SHandler :=
  m_handlers ++ (pair w <$> handlers hs).

Record index := mkIndex { m_handlers : list SHandler; m_ranges : list (Z * Z) }.

Definition index_handlers (e : OpcodeEngine) : index :=
  let size (l : list SHandler) := wrap32 (Z.of_nat (length l)) in
  let h1 := load_handlers 1 (opc1 e) [] in
  let h2 := load_handlers 2 (opc2 e) h1 in
  let h4 := load_handlers 4 (opc4 e) h2 in
  let h8 := load_handlers 8 (opc8 e) h4 in
  let h16 := load_handlers 16 (opc16 e) h8 in
  mkIndex h16 [(0, size h1); (size h1, size h2); (size h2, size h4); (size h4, size h8);
               (size h8, size h16)].

(** [std::lower_bound] over a range ordered by opcode is the number of
    opcodes below the key. *)
Definition search (ix : index) (range : nat) (key : Z) : exec Z :=
  '(start, last) ← of_option Undef (m_ranges ix !! range);
  let sub := take (Z.to_nat (last - start)) (drop (Z.to_nat start) (m_handlers ix)) in
  let it := rank sh_opcode sub key in
  match sub !! it with
  | Some h => Ret (if sh_opcode h =? key then wrap32 (start + Z.of_nat it) else UINT32_MAX)
  | None => Ret UINT32_MAX
  end.

Definition range_of (w : opc_width) : nat :=
  match w with W1 => 0 | W2 => 1 | W4 => 2 | W8 => 3 | W16 => 4 end.
Definition bytes_of (w : opc_width) : nat :=
  match w with W1 => 1 | W2 => 2 | W4 => 4 | W8 => 8 | W16 => 16 end.

Definition handlerIndex (ix : index) (opcode : list Z) : exec Z :=
  let size := length opcode in
  if (size =? 0)%nat || (16 <? size)%nat then Ret UINT32_MAX
  else search ix (range_of (width_of size)) (key_of opcode size).

(** * The binary and [analyzeInsnMeta] *)

Record FnInsn := mkFnInsn { fi_type : Z; fi_fnoff : Z; fi_oplen : Z }.
Record Function := mkFunction { fn_start : Z; fn_end : Z; fn_insns : list FnInsn }.

Section Binary.
(** The bytes of the mapped image from an address on; the image base; the tag
    of data among instructions. *)
Variable addrBuff : Z -> list Z.
Variable imageBase : Z.
Variable IDATA : Z.

(** [rva] is the 32-bit member the 64-bit sum is stored to. *)
Definition analyzeInsn (ix : index) (func : Function) (insn : FnInsn) : exec (list InsnMeta) :=
  let fnbuf := addrBuff (fn_start func) in
  let fnrva := wrap64 (fn_start func - imageBase) in
  if fi_type insn =? IDATA then Ret []
  else
    h ← handlerIndex ix (take (Z.to_nat (fi_oplen insn)) (drop (Z.to_nat (fi_fnoff insn)) fnbuf));
    Ret [mkInsn (wrap32 (fnrva + fi_fnoff insn)) h].

Definition analyzeInsnMeta (ix : index) (functions : list Function) : exec (list InsnMeta) :=
  metas ← mapE (fun func => ls ← mapE (analyzeInsn ix func) (fn_insns func); Ret (concat ls)) functions;
  Ret (concat metas).

(** The first loop of [prefetch]: every function's bytes go through the
    engine. *)
Section Prefetch.
Context {S : Type}.
Variable decode_length : list Z -> nat.
Variable init_inst : list Z -> OpcodeHandler -> S -> OpcodeHandler * S.
Variable arm64 : bool.
Fixpoint prefetch_functions (functions : list Function) (e : OpcodeEngine) (s : S)
  : exec (OpcodeEngine * S) :=
  match functions with
  | [] => Ret (e, s)
  | func :: fs =>
      let fnbuf := addrBuff (fn_start func) in
      let n := Z.to_nat (wrap64 (fn_end func - fn_start func)) in
      '(_, e, s) ← prefetch decode_length init_inst arm64 (take n fnbuf) (drop n fnbuf) e s;
      prefetch_functions fs e s
  end.
End Prefetch.
End Binary.

(** * Handler records *)

Definition align4 (n : Z) : Z := Z.land (n + 3) (Z.lnot 3).

Section Serialize.
(** The memory the generated code lies in, the table of semantic functions,
    and whether code is stored ([m_haswx] on arm64). *)
Variable host : bytes.
Variable implementations : list Handler.
Variables haswx arm64 : bool.
Let aotimpl := haswx && arm64.

Definition no_impl : Z := 2 ^ 16 - 1.

(** [std::find_if] on the implementation address. *)
Fixpoint impl_index (l : list Handler) (p : Z) : option Z :=
  match l with
  | [] => None
  | c :: l' => if impl c =? p then Some 0 else Z.succ <$> impl_index l' p
  end.

(** The [impl] member of a record, with the count of dynamic handlers. *)
Definition impl_of (h : OpcodeHandler) (dynamic_handler_index : Z) : option (Z * Z) :=
  if oh_type h =? OHT_Remill then
    i ← impl_index implementations (oh_impl h);
    if i >=? no_impl then None else Some (i, dynamic_handler_index)
  else if oh_type h =? OHT_MCInst then
    match oh_args h with
    | [(i, _)] => if i >=? no_impl then None else Some (i, dynamic_handler_index)
    | _ => None
    end
  else if oh_type h =? OHT_Dynamic then
    if aotimpl then
      if negb (oh_implsize h =? 0) && (oh_impl h =? 0) then None
      else Some (oh_implsize h, dynamic_handler_index)
    else if dynamic_handler_index >=? no_impl then None
    else Some (dynamic_handler_index, wrap32 (dynamic_handler_index + 1))
  else None.

Definition operand_index_mask : Z := 0x7fff.
Definition operand_pointer_flag : Z := 0x8000.
Definition operand_word (arg : Z * bool) : Z :=
  wrap16 (Z.lor (fst arg) (if snd arg then operand_pointer_flag else 0)).

(** One record, zero-filled between its parts. *)
Definition convert (source_oplen : Z) (h : OpcodeHandler) (dyn : Z) : option (list Z * Z) :=
  if (oh_oplen h >? 15) || (oh_oplen h >? source_oplen) || (Z.of_nat (length (oh_args h)) >? 255)
  then None
  else
    '(impl, dyn) ← impl_of h dyn;
    let remill := oh_type h =? OHT_Remill in
    let args := if remill then oh_args h else [] in
    let fixed := enc (MHandler_fields (mkMHandler impl (wrap8 (oh_type h)) (oh_oplen h)
                                         (wrap8 (Z.of_nat (length args))))) in
    let opcode := le_bytes (Z.to_nat (oh_oplen h)) (oh_opcode h) in
    if existsb (fun arg => fst arg >? operand_index_mask) args then None
    else
      let body := fixed ++ opcode ++ mjoin ((fun arg => le_bytes 2 (operand_word arg)) <$> args) in
      if aotimpl then
        let aotimpl_offset := align4 (Z.of_nat (length body)) in
        let code_size := if oh_type h =? OHT_Dynamic then oh_implsize h else 0 in
        let record_size := align4 (aotimpl_offset + code_size) in
        Some (body ++ replicate (Z.to_nat (aotimpl_offset - Z.of_nat (length body))) 0
                ++ load_bytes host (oh_impl h) (Z.to_nat code_size)
                ++ replicate (Z.to_nat (record_size - (aotimpl_offset + code_size))) 0, dyn)
      else Some (body, dyn).

Fixpoint serialize_loop (hs : list SHandler) (offset dyn : Z) : option (list Z * list (list Z)) :=
  match hs with
  | [] => Some ([], [])
  | (w, h) :: hs' =>
      '(record, dyn) ←
        (if existsb (Nat.eqb w) [1; 2; 4; 8; 16]%nat then convert (Z.of_nat w) h dyn else None);
      let n := Z.of_nat (length record) in
      if (offset >? UINT32_MAX) || (n >? UINT32_MAX - offset) then None
      else
        '(offs, recs) ← serialize_loop hs' (offset + n) dyn;
        Some (offset :: offs, record :: recs)
  end.

(** A failure clears both lists. *)
Definition serializeHandler (hs : list SHandler) : list Z * list (list Z) :=
  default ([], []) (serialize_loop hs 0 0).

(** * The file *)

Definition fix_handler (hoffsets : list Z) (insn : InsnMeta) : option InsnMeta :=
  if handler insn =? UINT32_MAX then Some insn
  else
    off ← (if handler insn <? 0 then None else hoffsets !! Z.to_nat (handler insn));
    Some (mkInsn (rva insn) off).

Definition header (ninsns noperands nexpressions nhandlers outsize : nat) : IMetaData :=
  let z := Z.of_nat in
  mkIMetaData kMagic kVersion (z outsize)
    (Z.lor (if haswx then kFlag_HasWX else 0) (if arm64 then kFlag_ARM64 else kFlag_X64))
    48 (z ninsns)
    (48 + z ninsns * 8) (z noperands)
    (48 + z ninsns * 8 + z noperands * 48) (z nexpressions)
    (48 + z ninsns * 8 + z noperands * 48 + z nexpressions * 12) (z nhandlers).

Definition too_many {A} (l : list A) : bool := Z.of_nat (length l) >? UINT32_MAX.

(** [serialize]: the bytes written to the file, [None] when it returns false;
    opening and writing the file can also fail. *)
Definition serialize (converted : bool * list Operand * list Expression) (hs : list SHandler)
    (m_insnmetas : list InsnMeta) : option (list Z) :=
  let '(ok, operands, expressions) := converted in
  if negb ok then None
  else
    let '(hoffsets, records) := serializeHandler hs in
    match hs, records with
    | _ :: _, [] => None
    | _, _ =>
        instructions ← mapM (fix_handler hoffsets) m_insnmetas;
        if too_many instructions || too_many operands || too_many expressions || too_many records
        then None
        else
          let sections :=
            mjoin ((fun i => enc (InsnMeta_fields i)) <$> instructions) ++
            mjoin ((fun o => enc (Operand_fields o)) <$> operands) ++
            mjoin ((fun e => enc (Expression_fields e)) <$> expressions) ++
            mjoin records in
          let outsize := (48 + length sections)%nat in
          if Z.of_nat outsize >? UINT32_MAX then None
          else
            Some (enc (IMetaData_fields (header (length instructions) (length operands)
                        (length expressions) (length records) outsize)) ++ sections)
    end.
End Serialize.

(** [encode]: prefetch, analyse, serialize. The shared operands and the
    register offsets are part of the state the initialisations thread. *)
Section Encode.
Context `{Codes} {S : Type}.
Variable operands_of : S -> list RemillOperand.
Variable regoffs_of : S -> regoffs_t.
Variable host_of : S -> bytes.
Variable addrBuff : Z -> list Z.
Variables imageBase IDATA : Z.
Variable decode_length : list Z -> nat.
Variable init_inst : list Z -> OpcodeHandler -> S -> OpcodeHandler * S.
Variable implementations : list Handler.
Variables haswx arm64 : bool.

Definition encode (functions : list Function) (s : S) : exec (option (list Z)) :=
  '(e, s) ← prefetch_functions addrBuff decode_length init_inst arm64 functions (OpcodeEngine_new true) s;
  let ix := index_handlers e in
  metas ← analyzeInsnMeta addrBuff imageBase IDATA ix functions;
  Ret (serialize (host_of s) implementations haswx arm64
         (convertOperands (regoffs_of s) (operands_of s)) (m_handlers ix) metas).
End Encode.

(** * Lemmas: the index *)

Definition engine_sorted (e : OpcodeEngine) : Prop := ∀ w, set_sorted (handlers (opcs e w)).

Lemma sorted_lookup s (a b : nat) x y : set_sorted s -> (a < b)%nat ->
  s !! a = Some x -> s !! b = Some y -> oh_opcode x < oh_opcode y.
Proof.
  intros Hs. revert a b. induction Hs as [|z s Hs IH Hz]; intros a b Hab Ha Hb; [done|].
  destruct a as [|a], b as [|b]; simpl in Ha, Hb; simplify_eq; [lia| |lia|].
  - rewrite Forall_forall in Hz. apply Hz. by eapply list_elem_of_lookup_2.
  - apply (IH a b); [lia|done..].
Qed.

(** The slice of the index that holds the set of a width. *)
Definition slice_ok (ix : index) (w : opc_width) (s : list OpcodeHandler) : Prop :=
  ∃ before after, m_handlers ix = before ++ (pair (bytes_of w) <$> s) ++ after ∧
    m_ranges ix !! range_of w =
      Some (Z.of_nat (length before), Z.of_nat (length before + length s)).

Definition slice (e : OpcodeEngine) (w : opc_width) : list SHandler :=
  pair (bytes_of w) <$> handlers (opcs e w).

Lemma index_handlers_app e : m_handlers (index_handlers e) =
  slice e W1 ++ slice e W2 ++ slice e W4 ++ slice e W8 ++ slice e W16 ++ [].
Proof.
  unfold index_handlers, load_handlers, slice. cbn [m_handlers opcs bytes_of].
  by rewrite app_nil_r, app_nil_l, <- !app_assoc.
Qed.

(** The slice after a given prefix, and its ends. *)
Ltac slice_at e Hw :=
  eexists; split;
  [rewrite index_handlers_app, <- ?app_assoc; reflexivity
  |unfold index_handlers, load_handlers; cbn [m_ranges lookup list_lookup range_of app length]; unfold slice; rewrite ?length_app, ?length_fmap; cbn [opcs]; rewrite ?length_nil;
   rewrite !Hw by lia; f_equal; f_equal; lia].

Lemma index_handlers_slices e w :
  Z.of_nat (length (m_handlers (index_handlers e))) < 2 ^ 32 ->
  slice_ok (index_handlers e) w (handlers (opcs e w)).
Proof.
  rewrite index_handlers_app. unfold slice. rewrite !length_app, !length_fmap. cbn [opcs length].
  intros Hn.
  assert (∀ n : nat, (n <= length (handlers (opc1 e)) + length (handlers (opc2 e)) +
    length (handlers (opc4 e)) + length (handlers (opc8 e)) + length (handlers (opc16 e)))%nat ->
    wrap32 (Z.of_nat n) = Z.of_nat n) as Hw
    by (intros n Hle; apply wrap_small; simpl in Hn; unfold fits; lia).
  unfold slice_ok. destruct w.
  - exists []. slice_at e Hw.
  - exists (slice e W1). slice_at e Hw.
  - exists (slice e W1 ++ slice e W2). slice_at e Hw.
  - exists (slice e W1 ++ slice e W2 ++ slice e W4). slice_at e Hw.
  - exists (slice e W1 ++ slice e W2 ++ slice e W4 ++ slice e W8). slice_at e Hw.
Qed.

Lemma rank_slice w s k : rank sh_opcode (pair w <$> s) k = rank oh_opcode s k.
Proof. induction s as [|x s IH]; cbn; [done|]. unfold sh_opcode at 1. cbn. by rewrite IH. Qed.

Lemma set_find_above k s : (∀ x, x ∈ s -> k < oh_opcode x) -> set_find k s = None.
Proof.
  induction s as [|x s IH]; intros Hx; [done|]. simpl.
  pose proof (Hx x ltac:(apply list_elem_of_here)).
  rewrite (proj2 (Z.eqb_neq _ _)) by lia. apply IH. intros. by apply Hx, list_elem_of_further.
Qed.

(** On an ordered set the lower bound decides membership. *)
Lemma set_find_rank k (s : list OpcodeHandler) : set_sorted s ->
  set_find k s = match s !! rank oh_opcode s k with
                 | Some h => if oh_opcode h =? k then Some h else None
                 | None => None
                 end.
Proof.
  induction 1 as [|x s Hs IH Hx]; cbn [set_find rank]; [done|].
  destruct (Z.ltb_spec (oh_opcode x) k); cbn.
  - rewrite (proj2 (Z.eqb_neq _ _)) by lia. exact IH.
  - destruct (Z.eqb_spec (oh_opcode x) k); [done|]. apply set_find_above.
    rewrite Forall_forall in Hx. intros y Hy. specialize (Hx y Hy). unfold oh_lt in Hx. lia.
Qed.

Lemma search_slice ix w (s : list OpcodeHandler) k : slice_ok ix w s -> set_sorted s ->
  Z.of_nat (length (m_handlers ix)) < 2 ^ 32 ->
  match set_find k s with
  | Some h => ∃ i : nat, search ix (range_of w) k = Ret (Z.of_nat i) ∧
                m_handlers ix !! i = Some (bytes_of w, h)
  | None => search ix (range_of w) k = Ret UINT32_MAX
  end.
Proof.
  intros (before & after & Hm & Hr) Hs Hn. rewrite (set_find_rank k s Hs).
  unfold search. rewrite Hr. cbn [of_option mbind exec_bind]. rewrite Nat2Z.inj_add.
  replace (Z.to_nat (Z.of_nat (length before) + Z.of_nat (length s) - Z.of_nat (length before)))
    with (length s) by lia.
  rewrite Nat2Z.id, Hm, drop_app_length.
  replace (take (length s) ((pair (bytes_of w) <$> s) ++ after)) with (pair (bytes_of w) <$> s)
    by (rewrite take_app_le, take_ge by (rewrite length_fmap; lia); done).
  rewrite rank_slice, list_lookup_fmap. set (r := rank oh_opcode s k).
  destruct (s !! r) as [h|] eqn:Eh; simpl; [|done]. unfold sh_opcode; simpl.
  destruct (oh_opcode h =? k); [|done]. exists (length before + r)%nat.
  pose proof (lookup_lt_Some _ _ _ Eh).
  rewrite Hm, !length_app, length_fmap in Hn. split.
  - f_equal. rewrite (wrap_small 32) by (unfold fits; lia). lia.
  - rewrite lookup_app_r by lia. replace (length before + r - length before)%nat with r by lia.
    rewrite lookup_app_l by (rewrite length_fmap; lia). by rewrite list_lookup_fmap, Eh.
Qed.

(** * What a reader of the file gets back *)

Section Stored.
Variable host : bytes.
Variable implementations : list Handler.
Variables haswx arm64 : bool.

(** A handler as the engine makes it. *)
Definition handler_wf (h : OpcodeHandler) : Prop :=
  0 <= oh_oplen h ∧ u16 (oh_implsize h) ∧ Forall (fun arg => 0 <= fst arg) (oh_args h).

(** The record at address [a] of the file [f] describes the handler [h]. *)
Definition stored (f : bytes) (a : Z) (h : OpcodeHandler) : Prop :=
  let r := read_handler f a in
  h_type r = oh_type h ∧ h_oplen r = oh_oplen h ∧
  load_bytes f (Handler_opcode a) (Z.to_nat (h_oplen r)) = le_bytes (Z.to_nat (oh_oplen h)) (oh_opcode h) ∧
  (oh_type h = OHT_Remill ->
     (∃ c, implementations !! Z.to_nat (h_impl r) = Some c ∧ impl c = oh_impl h) ∧
     h_oprnum r = Z.of_nat (length (oh_args h)) ∧
     ∀ (j : nat) arg, oh_args h !! j = Some arg ->
       read_operand_info f (Handler_operand f a + 2 * Z.of_nat j) = mkOpInfo (fst arg) (b2z (snd arg))) ∧
  (oh_type h = OHT_MCInst -> ∃ p, oh_args h = [(h_impl r, p)]) ∧
  (oh_type h = OHT_Dynamic -> haswx && arm64 = true ->
     h_impl r = oh_implsize h ∧
     load_bytes f (a + align4 (Handler_handler f a - a)) (Z.to_nat (h_impl r)) =
     load_bytes host (oh_impl h) (Z.to_nat (oh_implsize h))).

(** * Lemmas: the handler section *)

Lemma align4_eq n : align4 n = 4 * ((n + 3) / 4).
Proof.
  unfold align4. rewrite <- Z.ldiff_land. change 3 with (Z.ones 2) at 2.
  rewrite Z.ldiff_ones_r, Z.shiftl_mul_pow2, Z.shiftr_div_pow2 by lia. change (2 ^ 2) with 4. lia.
Qed.

Lemma align4_spec n : n <= align4 n < n + 4 ∧ align4 n mod 4 = 0.
Proof.
  rewrite align4_eq. rewrite (Z.mul_comm 4), Z.mod_mul by lia.
  pose proof (Z_div_mod_eq_full (n + 3) 4). pose proof (Z.mod_pos_bound (n + 3) 4). lia.
Qed.

Lemma impl_index_spec p : ∀ i, impl_index implementations p = Some i ->
  0 <= i ∧ ∃ c, implementations !! Z.to_nat i = Some c ∧ impl c = p.
Proof.
  induction implementations as [|c l IH]; cbn [impl_index]; intros i Hi; [done|].
  destruct (Z.eqb_spec (impl c) p) as [E|]; [simplify_eq; split; [lia|by exists c]|].
  destruct (impl_index l p) as [k|]; [|done]. simpl in Hi. simplify_eq.
  destruct (IH k eq_refl) as (Hk & x & Hx & Hp). split; [lia|]. exists x.
  rewrite Z2Nat.inj_succ by lia. done.
Qed.

(** What [impl_of] accepts, type by type. *)
Lemma impl_of_spec h dyn i dyn' : handler_wf h -> 0 <= dyn ->
  impl_of implementations haswx arm64 h dyn = Some (i, dyn') ->
  u16 i ∧ 0 <= dyn' ∧ fits 4 (oh_type h) ∧
  (oh_type h = OHT_Remill -> ∃ c, implementations !! Z.to_nat i = Some c ∧ impl c = oh_impl h) ∧
  (oh_type h = OHT_MCInst -> ∃ p, oh_args h = [(i, p)]) ∧
  (oh_type h = OHT_Dynamic -> haswx && arm64 = true -> i = oh_implsize h).
Proof.
  intros (_ & Hsz & Hargs) Hd. unfold impl_of, no_impl, OHT_Remill, OHT_MCInst, OHT_Dynamic, fits in *.
  destruct (Z.eqb_spec (oh_type h) 0) as [->|].
  { intros H. apply bind_Some in H as (k & Hk & H). apply impl_index_spec in Hk as (H0 & Hc).
    destruct (Z.geb_spec k (2 ^ 16 - 1)); [done|]. simplify_eq. split_and!; lia || done. }
  destruct (Z.eqb_spec (oh_type h) 1) as [->|].
  { destruct (oh_args h) as [|[k p] [|]] eqn:Ea; try done.
    apply Forall_cons in Hargs as [Hk _]. simpl in Hk.
    destruct (Z.geb_spec k (2 ^ 16 - 1)); [done|]. intros. simplify_eq.
    split_and!; try lia. intros _. by exists p. }
  destruct (Z.eqb_spec (oh_type h) 2) as [->|]; [|done].
  destruct (haswx && arm64) eqn:Ea.
  - destruct (negb _ && _); [done|]. intros. simplify_eq. split_and!; lia || done.
  - destruct (Z.geb_spec dyn (2 ^ 16 - 1)); [done|]. intros [= <- <-].
    pose proof (wrap_fits 32 (dyn + 1) ltac:(lia)) as []. split_and!; lia || done.
Qed.

Lemma operand_word_fields arg : 0 <= fst arg <= operand_index_mask ->
  le_bytes 2 (operand_word arg) = enc (OperandInfo_fields (mkOpInfo (fst arg) (b2z (snd arg)))).
Proof.
  destruct arg as [k p]. unfold operand_word, operand_index_mask, operand_pointer_flag; cbn [fst snd].
  intros Hk. unfold enc, OperandInfo_fields; cbn [oi_index oi_pointer fmap list_fmap fst snd mjoin list_join].
  rewrite app_nil_r. f_equal. change 0x7fff with (2 ^ 15 - 1). rewrite land_mask by lia.
  rewrite (Z.mod_small k) by lia. change 0x8000 with (Z.shiftl 1 15).
  assert (u16 (Z.lor k (Z.shiftl (b2z p) 15))).
  { apply lor_fits; [lia|unfold fits; lia|]. destruct p; done. }
  destruct p; cbn [b2z] in *; by apply wrap_small.
Qed.
(** The parts of a record: the packed word, the opcode, the operand words,
    and when code is stored the padding, the code and the padding. *)
Definition record_args (h : OpcodeHandler) : list (Z * bool) :=
  if oh_type h =? OHT_Remill then oh_args h else [].
Definition record_head (i : Z) (h : OpcodeHandler) : MHandler :=
  mkMHandler i (wrap8 (oh_type h)) (oh_oplen h) (wrap8 (Z.of_nat (length (record_args h)))).
Definition record_body (i : Z) (h : OpcodeHandler) : list Z :=
  enc (MHandler_fields (record_head i h)) ++
  le_bytes (Z.to_nat (oh_oplen h)) (oh_opcode h) ++
  mjoin ((fun arg => le_bytes 2 (operand_word arg)) <$> record_args h).
Definition record_code (h : OpcodeHandler) : list Z :=
  load_bytes host (oh_impl h) (Z.to_nat (if oh_type h =? OHT_Dynamic then oh_implsize h else 0)).

Lemma convert_inv w h dyn rec dyn' : handler_wf h -> 0 <= dyn ->
  convert host implementations haswx arm64 w h dyn = Some (rec, dyn') ->
  0 <= oh_oplen h <= 15 ∧ oh_oplen h <= w ∧ (length (oh_args h) <= 255)%nat ∧
  Forall (fun arg => 0 <= fst arg <= operand_index_mask) (record_args h) ∧
  ∃ i, impl_of implementations haswx arm64 h dyn = Some (i, dyn') ∧
    ∃ p1 p2, rec = record_body i h ++ p1 ++ p2 ∧
      (haswx && arm64 = true -> Z.of_nat (length rec) mod 4 = 0 ∧
         ∃ p3, p2 = record_code h ++ p3 ∧
         Z.of_nat (length (record_body i h ++ p1)) = align4 (Z.of_nat (length (record_body i h)))).
Proof.
  intros (Ho & Hsz & Hargs) Hd. unfold convert. fold (record_args h).
  destruct (_ || _) eqn:E1; [done|]. rewrite !Z.gtb_ltb in E1. bsplit.
  intros Hc. apply bind_Some in Hc as ([i d] & Hi & Hc).
  destruct (existsb _ _) eqn:E2; [done|].
  assert (Forall (fun arg => 0 <= fst arg <= operand_index_mask) (record_args h)).
  { apply Forall_forall. intros arg Ha.
    assert (arg ∈ oh_args h) as Ha' by (unfold record_args in Ha; destruct (_ =? _) in Ha; [done|by apply elem_of_nil in Ha]).
    rewrite Forall_forall in Hargs. specialize (Hargs _ Ha'). split; [done|].
    destruct (Z.gtb_spec (fst arg) operand_index_mask); [|done]. exfalso.
    rewrite (proj2 (existsb_exists _ _)) in E2; [done|]. exists arg. split; [by apply list_elem_of_In|].
    by apply Z.gtb_lt. }
  fold (record_head i h) in Hc. fold (record_body i h) in Hc.
  split_and!; try lia; [done|].
  destruct (haswx && arm64); simplify_eq; exists i.
  - split; [done|]. fold (record_code h).
    set (b := record_body i h). pose proof (align4_spec (Z.of_nat (length b))) as [Ha _].
    set (off := align4 (Z.of_nat (length b))) in *.
    set (cs := if oh_type h =? OHT_Dynamic then oh_implsize h else 0) in *.
    assert (0 <= cs) by (unfold cs; destruct (_ =? _); [apply Hsz|lia]).
    pose proof (align4_spec (off + cs)) as [Hr Hm].
    eexists _, _. split; [reflexivity|]. intros _. split; [|eexists; split; [reflexivity|]].
    + unfold record_code. fold cs. rewrite !length_app, !length_replicate, load_bytes_length.
      rewrite <- Hm. f_equal. lia.
    + rewrite length_app, length_replicate. lia.
  - split; [done|]. exists [], []. by rewrite !app_nil_r.
Qed.
(** What lies after the packed word, wherever the record is. *)
Lemma load_at m l1 l2 l3 a : a = Z.of_nat (length l1) ->
  load_bytes (store_bytes m 0 (l1 ++ l2 ++ l3)) a (length l2) = l2.
Proof. intros ->. apply (load_bytes_mid m 0). Qed.

Lemma convert_stored w h dyn rec dyn' m l1 l3 : handler_wf h -> 0 <= dyn ->
  convert host implementations haswx arm64 w h dyn = Some (rec, dyn') ->
  stored (store_bytes m 0 (l1 ++ rec ++ l3)) (Z.of_nat (length l1)) h.
Proof.
  intros Hwf Hd Hc. destruct (convert_inv _ _ _ _ _ Hwf Hd Hc)
    as (Ho & _ & Hn & Hargs & i & Hi & p1 & p2 & -> & Haot).
  destruct (impl_of_spec _ _ _ _ Hwf Hd Hi) as (Hi16 & _ & Ht & Hrem & Hmc & Hdyn).
  assert (wrap8 (oh_type h) = oh_type h) as Hty by (apply wrap_small, (fits_mono 4); [lia|done]).
  assert (length (record_args h) <= length (oh_args h))%nat as Hla
    by (unfold record_args; destruct (_ =? _); simpl; lia).
  assert (wrap8 (Z.of_nat (length (record_args h))) = Z.of_nat (length (record_args h))) as Hln
    by (apply wrap_small; unfold fits; lia).
  set (fs := MHandler_fields (record_head i h)).
  set (opc := le_bytes (Z.to_nat (oh_oplen h)) (oh_opcode h)).
  set (ops := mjoin ((fun arg => le_bytes 2 (operand_word arg)) <$> record_args h)).
  assert (length opc = Z.to_nat (oh_oplen h)) as Hlo by apply le_bytes_length.
  assert (length (enc fs) = 4%nat) as Hlf by (by rewrite enc_length).
  assert (read_handler (store_bytes m 0 (l1 ++ (record_body i h ++ p1 ++ p2) ++ l3))
    (Z.of_nat (length l1)) = record_head i h) as Hread.
  { unfold record_body. rewrite <- !app_assoc. apply (read_handler_placed m 0).
    unfold MHandler_ok, record_head; cbn. rewrite Hty, Hln. unfold fits in *. lia. }
  unfold stored, Handler_handler, Handler_operand, Handler_opcode. rewrite !Hread.
  change (h_impl (record_head i h)) with i. change (h_type (record_head i h)) with (wrap8 (oh_type h)).
  change (h_oplen (record_head i h)) with (oh_oplen h).
  change (h_oprnum (record_head i h)) with (wrap8 (Z.of_nat (length (record_args h)))).
  rewrite Hty, Hln. split_and!; [done|done| | |intros E; by apply Hmc|].
  - unfold record_body. rewrite <- !app_assoc. fold fs opc ops. rewrite app_assoc, <- Hlo.
    apply load_at. rewrite length_app. lia.
  - intros E. assert (record_args h = oh_args h) as Ha by (unfold record_args; by rewrite E).
    split; [by apply Hrem|]. split; [by rewrite Ha|]. intros j arg Hj. rewrite <- Ha in Hj.
    rewrite Forall_forall in Hargs. pose proof (Hargs _ (list_elem_of_lookup_2 _ _ _ Hj)) as Hw.
    unfold record_body. rewrite (join_split _ _ _ _ Hj). rewrite operand_word_fields by done.
    rewrite <- !app_assoc. fold fs opc. set (before := mjoin _). set (after := mjoin _).
    assert (length before = (2 * j)%nat) as Hlb.
    { unfold before. rewrite (join_length _ _ 2) by (intros; apply le_bytes_length).
      rewrite length_take. apply lookup_lt_Some in Hj. lia. }
    pose proof (read_operand_info_placed m 0 (l1 ++ enc fs ++ opc ++ before)
      (after ++ p1 ++ p2 ++ l3) (mkOpInfo (fst arg) (b2z (snd arg)))) as Hr.
    rewrite <- !app_assoc, !length_app in Hr. rewrite <- Hr at 2; [f_equal; lia|].
    split; [unfold operand_index_mask, fits in *; simpl; lia|]. by destruct (snd arg).
  - intros E Hwx. destruct (Haot Hwx) as (_ & p3 & -> & Hl). split; [by apply Hdyn|].
    pose proof (Hdyn E Hwx) as Hisz. subst i.
    replace (load_bytes host (oh_impl h) (Z.to_nat (oh_implsize h))) with (record_code h)
      by (unfold record_code; by rewrite E).
    assert (Z.to_nat (oh_implsize h) = length (record_code h)) as ->
      by (unfold record_code; rewrite load_bytes_length, E; done).
    replace (l1 ++ (record_body (oh_implsize h) h ++ p1 ++ record_code h ++ p3) ++ l3)
      with ((l1 ++ record_body (oh_implsize h) h ++ p1) ++ record_code h ++ (p3 ++ l3)) by (by rewrite <- !app_assoc).
    apply load_at. rewrite length_app, Nat2Z.inj_add, Hl. do 2 f_equal.
    unfold record_body. fold fs opc ops. rewrite !length_app, Hlf, Hlo.
    unfold ops. rewrite (join_length _ _ 2) by (intros; apply le_bytes_length). lia.
Qed.

(** The loop: record number [k] lies at its offset, in a section that ends
    within 32 bits. *)
Lemma serialize_loop_spec hs : ∀ offset dyn offs recs,
  Forall (fun h => handler_wf h.2) hs -> 0 <= offset -> 0 <= dyn ->
  serialize_loop host implementations haswx arm64 hs offset dyn = Some (offs, recs) ->
  length offs = length hs ∧ length recs = length hs ∧
  (hs <> [] -> offset + Z.of_nat (length (mjoin recs)) <= UINT32_MAX) ∧
  ∀ (k : nat) w h, hs !! k = Some (w, h) ->
    ∃ off rec dyn' dyn'', offs !! k = Some off ∧ recs !! k = Some rec ∧ 0 <= dyn' ∧
      off = offset + Z.of_nat (length (mjoin (take k recs))) ∧
      convert host implementations haswx arm64 (Z.of_nat w) h dyn' = Some (rec, dyn'').
Proof.
  induction hs as [|[w h] hs IH]; intros offset dyn offs recs Hwf Ho Hd; cbn [serialize_loop].
  { intros [= <- <-]. by split_and!. }
  apply Forall_cons in Hwf as [Hh Hwf]. intros H. apply bind_Some in H as ([rec d] & Hc & H).
  destruct (existsb _ _) in Hc; [|done].
  destruct (_ || _) eqn:E in H; [done|]. rewrite !Z.gtb_ltb in E. bsplit.
  apply bind_Some in H as ([offs' recs'] & Hl & H). simplify_eq.
  assert (0 <= d) as Hd'.
  { destruct (convert_inv _ _ _ _ _ Hh Hd Hc) as (_ & _ & _ & _ & i & Hi & _).
    by destruct (impl_of_spec _ _ _ _ Hh Hd Hi) as (_ & ? & _). }
  destruct (IH (offset + Z.of_nat (length rec)) d offs' recs' Hwf ltac:(lia) Hd' Hl)
    as (L1 & L2 & H3 & H4).
  change (mjoin (rec :: recs')) with (rec ++ mjoin recs').
  split_and!; [simpl; lia|simpl; lia| |].
  - intros _. rewrite length_app. destruct (decide (hs = [])) as [->|Hne]; [|specialize (H3 Hne); lia].
    destruct recs'; [|done]. change (length (mjoin [])) with 0%nat. lia.
  - intros [|k] w' h' Hk; simpl in Hk; simplify_eq.
    + exists offset, rec, dyn, d. split_and!; try done. simpl. lia.
    + destruct (H4 k w' h' Hk) as (off & r & d1 & d2 & Ha & Hb & Hd1 & -> & Hcc).
      eexists _, r, d1, d2. split_and!; [exact Ha|done|done| |done].
      change (mjoin (take (S k) (rec :: recs'))) with (rec ++ mjoin (take k recs')).
      rewrite length_app. lia.
Qed.
End Stored.

(** * Lemmas: the file *)

Lemma insn_enc_length i : length (enc (InsnMeta_fields i)) = 8%nat.
Proof. by rewrite enc_length. Qed.
Lemma operand_enc_length o : length (enc (Operand_fields o)) = 48%nat.
Proof. rewrite enc_length. destruct o as [? ? ? [| | | |[[| |] ? ? ? ?]]]; done. Qed.
Lemma expression_enc_length e : length (enc (Expression_fields e)) = 12%nat.
Proof. rewrite enc_length. destruct e as [[| |] ? ? ? ?]; done. Qed.
Lemma header_enc_length h : length (enc (IMetaData_fields h)) = 48%nat.
Proof. by rewrite enc_length. Qed.

(** The length of the blocks before block number [k]. *)
Lemma take_join_length {A} (g : A -> list Z) (l : list A) (k : nat) x n :
  (∀ y, length (g y) = n) -> l !! k = Some x -> length (mjoin (g <$> take k l)) = (n * k)%nat.
Proof.
  intros Hg Hk. rewrite (join_length _ _ n) by (intros; apply Hg).
  rewrite length_take. apply lookup_lt_Some in Hk. lia.
Qed.

(** The sections of a file, in order. *)
Record sections := mkSections {
  s_insns : list InsnMeta; s_operands : list Operand; s_expressions : list Expression;
  s_records : list (list Z)
}.
Definition insn_bytes (s : sections) := mjoin ((fun i => enc (InsnMeta_fields i)) <$> s_insns s).
Definition operand_bytes (s : sections) := mjoin ((fun o => enc (Operand_fields o)) <$> s_operands s).
Definition expression_bytes (s : sections) :=
  mjoin ((fun e => enc (Expression_fields e)) <$> s_expressions s).
Definition section_bytes (s : sections) : list Z :=
  insn_bytes s ++ operand_bytes s ++ expression_bytes s ++ mjoin (s_records s).
Definition section_header (haswx arm64 : bool) (s : sections) : IMetaData :=
  header haswx arm64 (length (s_insns s)) (length (s_operands s)) (length (s_expressions s))
    (length (s_records s)) (48 + length (section_bytes s)).
Definition file_bytes (haswx arm64 : bool) (s : sections) : list Z :=
  enc (IMetaData_fields (section_header haswx arm64 s)) ++ section_bytes s.

Lemma insn_bytes_length s : length (insn_bytes s) = (8 * length (s_insns s))%nat.
Proof. apply join_length. intros. apply insn_enc_length. Qed.
Lemma operand_bytes_length s : length (operand_bytes s) = (48 * length (s_operands s))%nat.
Proof. apply join_length. intros. apply operand_enc_length. Qed.
Lemma expression_bytes_length s : length (expression_bytes s) = (12 * length (s_expressions s))%nat.
Proof. apply join_length. intros. apply expression_enc_length. Qed.
Create Rewrite HintDb file_length.
#[local] Hint Rewrite insn_bytes_length operand_bytes_length expression_bytes_length
  header_enc_length : file_length.

Section File.
Variables haswx arm64 : bool.
Variable s : sections.
Let f := store_bytes ∅ 0 (file_bytes haswx arm64 s).

Lemma read_file_header : Z.of_nat (length (file_bytes haswx arm64 s)) <= UINT32_MAX ->
  Z.of_nat (length (s_records s)) <= UINT32_MAX ->
  read_header f = section_header haswx arm64 s.
Proof.
  unfold file_bytes. rewrite length_app. autorewrite with file_length. intros Hn Hr.
  assert (48 + Z.of_nat (length (section_bytes s)) <= UINT32_MAX) as Hs by lia.
  pose proof Hs as Hs'. unfold section_bytes in Hs'. rewrite !length_app in Hs'.
  autorewrite with file_length in Hs'. unfold UINT32_MAX in *.
  unfold f, file_bytes. rewrite <- (app_nil_l (enc _ ++ _)).
  apply (read_header_placed ∅ 0); [done|done|].
  unfold IMetaData_ok, section_header, header; cbn.
  repeat (apply Forall_cons; split; [unfold fits|]); try lia; [done|done| |constructor].
  destruct haswx, arm64; done.
Qed.

Lemma read_file_insn (k : nat) i : s_insns s !! k = Some i -> InsnMeta_ok i ->
  read_insn f (48 + 8 * Z.of_nat k) = i.
Proof.
  intros Hk Hi. unfold f, file_bytes, section_bytes, insn_bytes.
  rewrite (join_split _ _ _ _ Hk). set (before := mjoin (_ <$> take _ _)).
  assert (length before = (8 * k)%nat) as Hl by exact (take_join_length _ _ _ _ _ insn_enc_length Hk).
  rewrite <- !app_assoc, app_assoc.
  pose proof (read_insn_placed ∅ 0 (enc (IMetaData_fields (section_header haswx arm64 s)) ++ before)) as Hr.
  rewrite <- (Hr (mjoin ((fun i => enc (InsnMeta_fields i)) <$> drop (S k) (s_insns s)) ++
    operand_bytes s ++ expression_bytes s ++ mjoin (s_records s)) _ Hi) at 2.
  rewrite <- !app_assoc. f_equal. rewrite length_app, header_enc_length. lia.
Qed.

Lemma read_file_operand `{Codes} (k : nat) o : s_operands s !! k = Some o -> Meta.Operand_ok o ->
  Meta.read_operand f (off_operands (section_header haswx arm64 s) + 48 * Z.of_nat k) = o.
Proof.
  intros Hk Ho. unfold f, file_bytes, section_bytes, operand_bytes.
  rewrite (join_split _ _ _ _ Hk). set (before := mjoin (_ <$> take _ _)).
  assert (length before = (48 * k)%nat) as Hl by exact (take_join_length _ _ _ _ _ operand_enc_length Hk).
  pose proof (read_operand_placed ∅ 0
    (enc (IMetaData_fields (section_header haswx arm64 s)) ++ insn_bytes s ++ before)) as Hr.
  rewrite <- (Hr (mjoin ((fun o => enc (Operand_fields o)) <$> drop (S k) (s_operands s)) ++
    expression_bytes s ++ mjoin (s_records s)) _ Ho) at 2.
  rewrite <- !app_assoc. f_equal. rewrite !length_app. autorewrite with file_length.
  unfold section_header, header; cbn. lia.
Qed.

Lemma read_file_expression (k : nat) e : s_expressions s !! k = Some e -> Expression_ok e ->
  read_expression f (off_expressions (section_header haswx arm64 s) + 12 * Z.of_nat k) = e.
Proof.
  intros Hk He. unfold f, file_bytes, section_bytes, expression_bytes.
  rewrite (join_split _ _ _ _ Hk). set (before := mjoin (_ <$> take _ _)).
  assert (length before = (12 * k)%nat) as Hl by exact (take_join_length _ _ _ _ _ expression_enc_length Hk).
  pose proof (read_expression_placed ∅ 0
    (enc (IMetaData_fields (section_header haswx arm64 s)) ++ insn_bytes s ++ operand_bytes s ++ before)) as Hr.
  rewrite <- (Hr (mjoin ((fun e => enc (Expression_fields e)) <$> drop (S k) (s_expressions s)) ++
    mjoin (s_records s)) _ He) at 2.
  rewrite <- !app_assoc. f_equal. rewrite !length_app. autorewrite with file_length.
  unfold section_header, header; cbn. lia.
Qed.

(** A handler record, as the bytes before it, itself and what follows. *)
Lemma file_record (k : nat) r : s_records s !! k = Some r -> ∃ l1 l3,
  file_bytes haswx arm64 s = l1 ++ r ++ l3 ∧
  Z.of_nat (length l1) = off_handlers (section_header haswx arm64 s) +
                         Z.of_nat (length (mjoin (take k (s_records s)))).
Proof.
  intros Hk. unfold file_bytes, section_bytes.
  assert (mjoin (s_records s) = mjoin (take k (s_records s)) ++ r ++ mjoin (drop (S k) (s_records s))) as ->.
  { pose proof (join_split id _ _ _ Hk) as Hj. by rewrite !list_fmap_id in Hj. }
  exists (enc (IMetaData_fields (section_header haswx arm64 s)) ++ insn_bytes s ++ operand_bytes s ++
          expression_bytes s ++ mjoin (take k (s_records s))), (mjoin (drop (S k) (s_records s))).
  split; [by rewrite <- !app_assoc|]. rewrite !length_app. autorewrite with file_length.
  unfold section_header, header; cbn. lia.
Qed.
End File.

Section SerializeSpec.
Variable host : bytes.
Variable implementations : list Handler.
Variables haswx arm64 : bool.

(** An instruction entry of the file, for one of the list. *)
Definition fixed_insn (hoffsets : list Z) (insn insn' : InsnMeta) : Prop :=
  rva insn' = rva insn ∧
  if handler insn =? UINT32_MAX then handler insn' = UINT32_MAX
  else 0 <= handler insn ∧ hoffsets !! Z.to_nat (handler insn) = Some (handler insn').

Lemma fix_handler_spec hoffsets insn insn' : fix_handler hoffsets insn = Some insn' ->
  fixed_insn hoffsets insn insn'.
Proof.
  unfold fix_handler, fixed_insn. destruct (Z.eqb_spec (handler insn) UINT32_MAX).
  { by intros [= <-]. }
  destruct (Z.ltb_spec (handler insn) 0); [done|]. intros Hf. apply bind_Some in Hf as (off & Ho & Hf).
  simplify_eq. done.
Qed.

(** What [serialize] returns when it succeeds. *)
Lemma serialize_inv operands expressions hs insns file :
  serialize host implementations haswx arm64 (true, operands, expressions) hs insns = Some file ->
  ∃ hoffsets insns' recs,
    serialize_loop host implementations haswx arm64 hs 0 0 = Some (hoffsets, recs) ∧
    Forall2 (fixed_insn hoffsets) insns insns' ∧
    file = file_bytes haswx arm64 (mkSections insns' operands expressions recs) ∧
    Z.of_nat (length file) <= UINT32_MAX ∧ Z.of_nat (length recs) <= UINT32_MAX.
Proof.
  unfold serialize, serializeHandler. cbn [negb].
  destruct (serialize_loop _ _ _ _ hs 0 0) as [[hoffsets recs]|] eqn:El; cbn [default].
  2:{ destruct hs; [done|discriminate]. }
  intros Hf. exists hoffsets.
  assert (∃ insns', mapM (fix_handler hoffsets) insns = Some insns' ∧
    too_many recs = false ∧
    file = file_bytes haswx arm64 (mkSections insns' operands expressions recs) ∧
    (Z.of_nat (length file) >? UINT32_MAX) = false) as (insns' & Hm & Hr & -> & Hn).
  { destruct hs, recs; try discriminate;
      (apply bind_Some in Hf as (insns' & Hm & Hf); exists insns'; split; [done|];
       destruct (too_many insns' || too_many operands || too_many expressions || too_many _) eqn:Et; [done|];
       apply orb_false_iff in Et as [_ Et]; split; [done|];
       destruct (_ >? UINT32_MAX) eqn:Eo in Hf; [done|];
       apply (inj Some) in Hf as <-; split; [done|];
       rewrite length_app, header_enc_length; exact Eo). }
  exists insns', recs. split; [done|]. split.
  - apply mapM_Some_1 in Hm. eapply Forall2_impl; [exact Hm|]. apply fix_handler_spec.
  - unfold too_many in Hr. rewrite Z.gtb_ltb in *. bsplit. done.
Qed.

Lemma join_mod4 (l : list (list Z)) :
  (∀ r, r ∈ l -> Z.of_nat (length r) mod 4 = 0) -> Z.of_nat (length (mjoin l)) mod 4 = 0.
Proof.
  induction l as [|r l IH]; intros Hl; [done|].
  change (mjoin (r :: l)) with (r ++ mjoin l). rewrite length_app, Nat2Z.inj_add, Z.add_mod by lia.
  rewrite (Hl r) by apply list_elem_of_here.
  rewrite IH by (intros; by apply Hl, list_elem_of_further). done.
Qed.

(** A record of the loop, with its place. *)
Lemma loop_record hs hoffsets recs (k : nat) off : Forall (fun h => handler_wf h.2) hs ->
  serialize_loop host implementations haswx arm64 hs 0 0 = Some (hoffsets, recs) ->
  hoffsets !! k = Some off ->
  ∃ w h rec, hs !! k = Some (w, h) ∧ recs !! k = Some rec ∧ u32 off ∧
    off = Z.of_nat (length (mjoin (take k recs))) ∧ (haswx && arm64 = true -> off mod 4 = 0) ∧
    ∀ m l1 l3, stored host implementations haswx arm64 (store_bytes m 0 (l1 ++ rec ++ l3))
                 (Z.of_nat (length l1)) h.
Proof.
  intros Hwf Hl Ho.
  destruct (serialize_loop_spec _ _ _ _ hs 0 0 _ _ Hwf ltac:(lia) ltac:(lia) Hl) as (Hn1 & Hn2 & Hmax & Hk).
  pose proof (lookup_lt_Some _ _ _ Ho) as Hlt.
  destruct (lookup_lt_is_Some_2 hs k) as [[w h] Hh]; [lia|].
  destruct (Hk k w h Hh) as (off' & rec & d & d' & Ho' & Hr & Hd & Hoff & Hc). simplify_eq.
  exists w, h, rec. split_and!; [done|done| |lia| |].
  - specialize (Hmax ltac:(by destruct hs)). rewrite <- (take_drop k recs), join_app, length_app in Hmax.
    unfold UINT32_MAX, fits in *. lia.
  - intros Hwx. rewrite Z.add_0_l. apply join_mod4. intros r Hin.
    apply list_elem_of_lookup in Hin as [j Hj]. apply lookup_take_Some in Hj as [Hj _].
    pose proof (lookup_lt_Some _ _ _ Hj).
    destruct (lookup_lt_is_Some_2 hs j) as [[w2 h2] Hh2]; [lia|].
    destruct (Hk j w2 h2 Hh2) as (? & r2 & d2 & d2' & _ & Hr2 & Hd2 & _ & Hc2). simplify_eq.
    rewrite Forall_forall in Hwf. pose proof (Hwf _ (list_elem_of_lookup_2 _ _ _ Hh2)) as Hw2.
    destruct (convert_inv _ _ _ _ _ _ _ _ _ Hw2 Hd2 Hc2) as (_ & _ & _ & _ & i & _ & p1 & p2 & _ & Ha).
    by apply Ha.
  - intros m l1 l3. rewrite Forall_forall in Hwf.
    by apply (convert_stored _ _ _ _ _ _ _ _ _ _ _ _ (Hwf _ (list_elem_of_lookup_2 _ _ _ Hh)) Hd Hc).
Qed.
End SerializeSpec.

(** What the file says, read back. *)
Definition file_describes `{Codes} (host : bytes) (implementations : list Handler)
    (haswx arm64 : bool) (mds : list Operand) (nodes : list Expression) (hs : list SHandler)
    (insns : list InsnMeta) (file : list Z) : Prop :=
  let f := store_bytes ∅ 0 file in
  let hdr := read_header f in
  (magic hdr = kMagic ∧ version hdr = kVersion ∧ md_size hdr = Z.of_nat (length file) ∧
   flags hdr = Z.lor (if haswx then kFlag_HasWX else 0) (if arm64 then kFlag_ARM64 else kFlag_X64) ∧
   num_instruction hdr = Z.of_nat (length insns) ∧ num_operands hdr = Z.of_nat (length mds) ∧
   num_expressions hdr = Z.of_nat (length nodes) ∧ num_handlers hdr = Z.of_nat (length hs)) ∧
  (∀ (k : nat) insn, insns !! k = Some insn ->
     let insn' := read_insn f (md_insns hdr + 8 * Z.of_nat k) in
     rva insn' = rva insn ∧
     if handler insn =? UINT32_MAX then handler insn' = UINT32_MAX
     else ∃ w h, hs !! Z.to_nat (handler insn) = Some (w, h) ∧
            stored host implementations haswx arm64 f (md_handler hdr insn') h ∧
            (haswx && arm64 = true -> handler insn' mod 4 = 0)) ∧
  (∀ (k : nat) o, mds !! k = Some o ->
     Meta.read_operand f (md_operands hdr + 48 * Z.of_nat k) = o) ∧
  (∀ (k : nat) e, nodes !! k = Some e ->
     read_expression f (md_expressions hdr + 12 * Z.of_nat k) = e).

Lemma serialize_describes `{Codes} (host : bytes) (implementations : list Handler)
    (haswx arm64 : bool) (mds : list Operand) (nodes : list Expression) (hs : list SHandler)
    (insns : list InsnMeta) (file : list Z) :
  Forall (fun h => handler_wf h.2) hs -> Forall InsnMeta_ok insns ->
  Forall Meta.Operand_ok mds -> Forall Expression_ok nodes ->
  serialize host implementations haswx arm64 (true, mds, nodes) hs insns = Some file ->
  file_describes host implementations haswx arm64 mds nodes hs insns file.
Proof.
  intros Hwf Hins Hmds Hnodes Hs. unfold file_describes. set (f := store_bytes _ _ _). set (hdr := read_header f).
  destruct (serialize_inv _ _ _ _ _ _ _ _ _ Hs) as (hoffsets & insns' & recs & Hl & Hfix & -> & Hn & Hnr).
  set (s := mkSections insns' mds nodes recs) in *.
  assert (hdr = section_header haswx arm64 s) as Hh by (by apply read_file_header).
  destruct (serialize_loop_spec _ _ _ _ hs 0 0 _ _ Hwf ltac:(lia) ltac:(lia) Hl) as (_ & Hn2 & _ & _).
  rewrite Hh. unfold md_insns, md_operands, md_expressions, md_handler. split_and!; try done.
  - simpl. by rewrite (Forall2_length _ _ _ Hfix).
  - simpl. by rewrite Hn2.
  - intros k insn Hk. destruct (Forall2_lookup_l _ _ _ _ _ Hfix Hk) as (i' & Hk' & Hr & Hi').
    rewrite Forall_forall in Hins. pose proof (Hins _ (list_elem_of_lookup_2 _ _ _ Hk)) as [Hrva Hhd].
    destruct (Z.eqb_spec (handler insn) UINT32_MAX) as [Einv|Einv].
    + assert (InsnMeta_ok i') as Hok by (split; [by rewrite Hr|by rewrite Hi']).
      change (read_insn f _) with (read_insn f (48 + 8 * Z.of_nat k)).
      assert (read_insn f (48 + 8 * Z.of_nat k) = i') as -> by exact (read_file_insn haswx arm64 s k i' Hk' Hok).
      done.
    + destruct Hi' as [H0 Hoff].
      destruct (loop_record _ _ _ _ _ _ _ _ _ Hwf Hl Hoff) as (w & h & rec & Hhs & Hrec & Hu & Heq & Hal & Hst).
      assert (InsnMeta_ok i') as Hok by (split; [by rewrite Hr|done]).
      change (read_insn f _) with (read_insn f (48 + 8 * Z.of_nat k)).
      assert (read_insn f (48 + 8 * Z.of_nat k) = i') as -> by exact (read_file_insn haswx arm64 s k i' Hk' Hok).
      split; [done|]. exists w, h.
      split_and!; [done| |done].
      destruct (file_record haswx arm64 s _ _ Hrec) as (l1 & l3 & Hfile & Hlen).
      unfold f. rewrite Hfile, Heq. cbn [s_records s] in Hlen. rewrite <- Hlen. apply Hst.
  - intros k o Hk. apply (read_file_operand haswx arm64 s k o Hk).
    rewrite Forall_forall in Hmds. apply Hmds. by eapply list_elem_of_lookup_2.
  - intros k e Hk. apply (read_file_expression haswx arm64 s k e Hk).
    rewrite Forall_forall in Hnodes. apply Hnodes. by eapply list_elem_of_lookup_2.
Qed.

(** * Properties *)

(** C19: looking an opcode up in the index. Once the sets are indexed, in the
    order of their widths, an opcode of 1 to 16 bytes finds exactly the
    handler its set holds for its key, by its position in the index, and
    UINT32_MAX when there is none; an empty or longer opcode is never found. *)
Theorem handlerIndex_spec (e : OpcodeEngine) (opcode : list Z) :
  engine_sorted e -> Z.of_nat (length (m_handlers (index_handlers e))) < UINT32_MAX ->
  let ix := index_handlers e in
  let n := length opcode in
  let w := width_of n in
  if (1 <=? n)%nat && (n <=? 16)%nat then
    match set_find (key_of opcode n) (handlers (opcs e w)) with
    | Some h => ∃ i : nat, handlerIndex ix opcode = Ret (Z.of_nat i) ∧ Z.of_nat i <> UINT32_MAX ∧
                  m_handlers ix !! i = Some (bytes_of w, h) ∧ oh_opcode h = key_of opcode n
    | None => handlerIndex ix opcode = Ret UINT32_MAX
    end
  else handlerIndex ix opcode = Ret UINT32_MAX.
Proof.
  intros Hs Hn ix n w. unfold handlerIndex. fold n w.
  destruct (Nat.leb_spec 1 n) as [H1|H1], (Nat.leb_spec n 16) as [H2|H2]; cbn [andb].
  - rewrite (proj2 (Nat.eqb_neq n 0)), (proj2 (Nat.ltb_ge 16 n)) by lia. cbn [orb].
    assert (slice_ok ix w (handlers (opcs e w))) as Hsl
      by (apply index_handlers_slices; unfold UINT32_MAX in Hn; lia).
    pose proof (search_slice ix w _ (key_of opcode n) Hsl (Hs w)
      ltac:(unfold UINT32_MAX in Hn; unfold ix; lia)) as Hf.
    destruct (set_find _ _) as [h|] eqn:E; [|done]. destruct Hf as (i & Hi & Hl). exists i.
    pose proof (lookup_lt_Some _ _ _ Hl). split_and!; [done|unfold ix in *; lia|done|].
    by eapply set_find_opcode.
  - rewrite (proj2 (Nat.ltb_lt 16 n)) by lia. by rewrite orb_true_r.
  - assert (n = 0%nat) as -> by lia. done.
  - lia.
Qed.

Definition sample_engine : OpcodeEngine :=
  mkEngine OpcodeHandlers_new OpcodeHandlers_new
    (mkOHs [mkOH 0x1f2003d5 4 0 0 [(0, true); (1, false)] 0x20; mkOH 0xd503201f 4 2 8 [] 0x40] ∅)
    OpcodeHandlers_new OpcodeHandlers_new true.

Lemma sample_engine_sorted : engine_sorted sample_engine.
Proof.
  intros w. destruct w; try constructor; [repeat constructor|]. constructor; [|constructor]. done.
Qed.

Theorem handlerIndex_spec_witness :
  ∃ i : nat, handlerIndex (index_handlers sample_engine) [0x1f; 0x20; 0x03; 0xd5] = Ret (Z.of_nat i) ∧
    Z.of_nat i <> UINT32_MAX ∧
    m_handlers (index_handlers sample_engine) !! i = Some (4%nat, mkOH 0xd503201f 4 2 8 [] 0x40) ∧
    oh_opcode (mkOH 0xd503201f 4 2 8 [] 0x40) = key_of [0x1f; 0x20; 0x03; 0xd5] 4.
Proof. apply (handlerIndex_spec sample_engine [0x1f; 0x20; 0x03; 0xd5] sample_engine_sorted). done. Defined.

(** C7: a metadata file reads back as what was encoded. When [serialize]
    writes a file, its header has the magic, the version, the length of the
    file, the flags and the counts; every instruction entry has the address it
    was given and points to a record that describes its handler (type, opcode
    bytes, the operands and the implementation of a semantic function, the
    generated code when code is stored), or has no handler in both; operands
    and expression nodes are the converted ones; and when code is stored every
    record starts on a multiple of 4 bytes of the section. *)
Theorem serialize_roundtrip `{Codes} (host : bytes) (implementations : list Handler)
    (haswx arm64 : bool) (mds : list Operand) (nodes : list Expression) (hs : list SHandler)
    (insns : list InsnMeta) (file : list Z) :
  Forall (fun h => handler_wf h.2) hs -> Forall InsnMeta_ok insns ->
  Forall Meta.Operand_ok mds -> Forall Expression_ok nodes ->
  serialize host implementations haswx arm64 (true, mds, nodes) hs insns = Some file ->
  let f := store_bytes ∅ 0 file in
  let hdr := read_header f in
  (magic hdr = kMagic ∧ version hdr = kVersion ∧ md_size hdr = Z.of_nat (length file) ∧
   flags hdr = Z.lor (if haswx then kFlag_HasWX else 0) (if arm64 then kFlag_ARM64 else kFlag_X64) ∧
   num_instruction hdr = Z.of_nat (length insns) ∧ num_operands hdr = Z.of_nat (length mds) ∧
   num_expressions hdr = Z.of_nat (length nodes) ∧ num_handlers hdr = Z.of_nat (length hs)) ∧
  (∀ (k : nat) insn, insns !! k = Some insn ->
     let insn' := read_insn f (md_insns hdr + 8 * Z.of_nat k) in
     rva insn' = rva insn ∧
     if handler insn =? UINT32_MAX then handler insn' = UINT32_MAX
     else ∃ w h, hs !! Z.to_nat (handler insn) = Some (w, h) ∧
            stored host implementations haswx arm64 f (md_handler hdr insn') h ∧
            (haswx && arm64 = true -> handler insn' mod 4 = 0)) ∧
  (∀ (k : nat) o, mds !! k = Some o ->
     Meta.read_operand f (md_operands hdr + 48 * Z.of_nat k) = o) ∧
  (∀ (k : nat) e, nodes !! k = Some e ->
     read_expression f (md_expressions hdr + 12 * Z.of_nat k) = e).
Proof. exact (serialize_describes host implementations haswx arm64 mds nodes hs insns file). Qed.

Theorem serialize_roundtrip_witness :
  let hs := m_handlers (index_handlers sample_engine) in
  let host := store_bytes ∅ 0x40 [1; 2; 3; 4; 5; 6; 7; 8] in
  ∃ file, serialize host [mkHandler 5 0x10; mkHandler 9 0x20] true true (true, [], []) hs
            [mkInsn 0 1; mkInsn 4 0; mkInsn 8 UINT32_MAX] = Some file ∧
    let f := store_bytes ∅ 0 file in
    let insn' := read_insn f 48 in
    rva insn' = 0 ∧ ∃ w h, hs !! 1%nat = Some (w, h) ∧
      stored host [mkHandler 5 0x10; mkHandler 9 0x20] true true f (md_handler (read_header f) insn') h ∧
      (true && true = true -> handler insn' mod 4 = 0).
Proof.
  intros hs host. eexists. split; [vm_compute; reflexivity|]. intros f insn'.
  destruct (@serialize_roundtrip sample_codes host [mkHandler 5 0x10; mkHandler 9 0x20] true true [] [] hs
    [mkInsn 0 1; mkInsn 4 0; mkInsn 8 UINT32_MAX] _
    ltac:(repeat constructor; cbn; lia) ltac:(repeat constructor; cbn; unfold UINT32_MAX; lia)
    ltac:(constructor) ltac:(constructor) ltac:(vm_compute; reflexivity)) as (_ & Hins & _).
  exact (Hins 0%nat (mkInsn 0 1) eq_refl).
Defined.
