(* ===== verification/SharedOperands.v ===== *)
(** The operands shared by all handlers (src/OpcodeEngine.cpp): the 128-bit
    identity of an operand, the table that shares operands of one identity,
    and [OpcodeHandler::initRemill], which fills a handler's arguments. *)
From Stdlib Require Import ZArith Lia List String Ascii.
From stdpp Require Import base list gmap strings.
From S2P Require Import Prelude Utils Regoffs Operands OpcodeCache Handler.
#[local] Open Scope Z_scope.

(** [offset] of a register, when its name has one. *)
Definition SetOffset (regoffs : regoffs_t) (force : bool) (reg : RemillRegister) : exec RemillRegister :=
  if negb force && (String.length (name reg) =? 0)%nat then Ret reg
  else o ← GetOffset regoffs (name reg); Ret (mkReg (name reg) (size reg) o).

Section Shared.
Context `{Codes}.
(** remill's write action; [hash_value]; the bytes of the structs it hashes,
    from [shift_size] to [extend_op] and from [scale] to [kind]; the address
    an expression lies at. *)
Variable kActionWrite : Z.
Variable hash_value : string -> Z.
Variable shift_bytes : ShiftRegister -> string.
Variable addr_bytes : Address -> string.
Variable expr_address : OperandExpression -> Z.
Variable regoffs : regoffs_t.

(** * [RemillOperand::ID] *)

(** [memcpy(&id, name.data(), min(8, name.size()))] into zeroed storage. *)
Definition name_word (s : string) : Z :=
  le_value ((fun c => Z.of_nat (nat_of_ascii c)) <$> take 8 (list_ascii_of_string s)).

Definition ID (op : RemillOperand) (pointer : bool) : exec (Z * Z) :=
  '(low, high) ←
    (if op_type op =? kTypeInvalid then Ret (0, 0)
     else if op_type op =? kTypeRegister then
       Ret (Z.lor (name_word (name (op_reg op))) (Z.shiftl (Z.b2z pointer) 31), 0)
     else if op_type op =? kTypeShiftRegister then
       Ret (Z.lor (name_word (name (sr_reg (op_shift_reg op))))
              (wrap64 (Z.shiftl (wrap64 (hash_value (shift_bytes (op_shift_reg op)))) 24)), 0)
     else if op_type op =? kTypeImmediate then
       Ret (val (op_imm op), Z.b2z (is_signed (op_imm op)))
     else if op_type op =? kTypeAddress then
       let addr := op_addr op in
       Ret (wrap64 (hash_value (name (segment_base_reg addr) ++ name (base_reg addr) ++
                                name (index_reg addr))),
            wrap64 (Z.shiftl (wrap32 (hash_value (addr_bytes addr))) 28))
     else if (op_type op =? kTypeExpression) || (op_type op =? kTypeRegisterExpression) ||
             (op_type op =? kTypeImmediateExpression) || (op_type op =? kTypeAddressExpression) then
       Ret (expr_address (op_expr op), 0)
     else Abort);
  Ret (low, Z.lor high (Z.lor (wrap64 (Z.shiftl (op_type op) 60))
                              (Z.shiftl (Z.b2z (op_action op =? kActionWrite)) 63))).

(** [RemillOperand::initOffsets]. *)
Definition initOffsets (op : RemillOperand) : exec RemillOperand :=
  let set reg sr addr :=
    mkOperand (op_type op) (op_action op) (op_size op) reg sr (op_imm op) addr (op_expr op) in
  let sr := op_shift_reg op in
  let addr := op_addr op in
  if op_type op =? kTypeRegister then
    r ← SetOffset regoffs true (op_reg op); Ret (set r sr addr)
  else if op_type op =? kTypeShiftRegister then
    r ← SetOffset regoffs true (sr_reg sr);
    Ret (set (op_reg op)
           (mkShift r (sr_shift_size sr) (sr_extract_size sr) (sr_shift_first sr)
              (sr_can_shift_op_size sr) (sr_shift_op sr) (sr_extend_op sr)) addr)
  else if op_type op =? kTypeAddress then
    s ← SetOffset regoffs false (segment_base_reg addr);
    b ← SetOffset regoffs false (base_reg addr);
    i ← SetOffset regoffs false (index_reg addr);
    Ret (set (op_reg op) sr
           (mkAddr s b i (scale addr) (displacement addr) (address_size addr) (addr_kind addr)))
  else Ret op.

(** * The shared operands *)

(** [operands] and [operandmap]; the reference is [OperandInfo]. *)
Record shared := mkShared { operands : list RemillOperand; operandmap : gmap (Z * Z) (Z * bool) }.
Definition shared_new : shared := mkShared [] ∅.

(** The body of the loop of [initRemill]: the reference of an operand, a new
    one when its identity is new. [index] is a member of 31 bits. *)
Definition share (op : RemillOperand) (pointer : bool) (st : shared) : exec (shared * (Z * bool)) :=
  id ← ID op pointer;
  match operandmap st !! id with
  | Some found => Ret (st, found)
  | None =>
      op' ← initOffsets op;
      let ops := (operands st ++ [op'])%list in
      let info := (wrap 31 (Z.of_nat (length ops) - 1), pointer) in
      Ret (mkShared ops (<[id := info]> (operandmap st)), info)
  end.

(** Every operand comes with whether the semantic function takes it as a
    pointer. *)
Fixpoint init_args (ops : list (RemillOperand * bool)) (st : shared) : exec (shared * list (Z * bool)) :=
  match ops with
  | [] => Ret (st, [])
  | (op, pointer) :: ops' =>
      '(st, info) ← share op pointer st;
      '(st, args) ← init_args ops' st;
      Ret (st, info :: args)
  end.

(** A decoded instruction: the semantic function, its length, its operands. *)
Record RemillInst := mkInst {
  function : string; inst_bytes : Z; inst_operands : list (RemillOperand * bool)
}.

(** [None]: there is no semantic function, the instruction is handled as an
    invalid one, by [initDynamic]. *)
Definition initRemill (handlers : list Handler) (inst : RemillInst) (h : OpcodeHandler)
    (st : shared) : exec (option OpcodeHandler * shared) :=
  impl ← find_impl hash_value handlers (function inst);
  match impl with
  | None => Ret (None, st)
  | Some impl =>
      '(st, args) ← init_args (inst_operands inst) st;
      Ret (Some (mkOH (oh_opcode h) (wrap8 (inst_bytes inst)) OHT_Remill (oh_implsize h)
                   (oh_args h ++ args)%list impl), st)
  end.

(** * Lemmas *)

(** Every reference of the table is the place of an operand of its identity. *)
Definition info_ok (ops : list RemillOperand) (id : Z * Z) (info : Z * bool) : Prop :=
  0 <= info.1 ∧ ∃ op op', ID op info.2 = Ret id ∧ initOffsets op = Ret op' ∧
    ops !! Z.to_nat info.1 = Some op'.

Definition shared_ok (st : shared) : Prop :=
  ∀ id info, operandmap st !! id = Some info -> info_ok (operands st) id info.

Lemma shared_ok_new : shared_ok shared_new.
Proof. intros id info Hi. cbn in Hi. by rewrite lookup_empty in Hi. Qed.

Lemma info_ok_app ops more id info : info_ok ops id info -> info_ok (ops ++ more)%list id info.
Proof.
  intros (H0 & op & op' & H1 & H2 & H3). split; [done|]. exists op, op'. split_and!; [done..|].
  by apply lookup_app_l_Some.
Qed.

Lemma share_spec op pointer st st' info : shared_ok st ->
  Z.of_nat (length (operands st)) < 2 ^ 31 ->
  share op pointer st = Ret (st', info) ->
  shared_ok st' ∧ operands st `prefix_of` operands st' ∧
  (length (operands st') <= length (operands st) + 1)%nat ∧
  ∃ id, ID op pointer = Ret id ∧ info_ok (operands st') id info.
Proof.
  intros Hok Hn. unfold share. destruct (ID op pointer) as [id| |] eqn:Eid; [|done..].
  cbn [mbind exec_bind]. destruct (operandmap st !! id) as [found|] eqn:Ef.
  - intros [= <- <-]. split_and!; [done|done|lia|]. exists id. auto.
  - destruct (initOffsets op) as [op'| |] eqn:Ei; [|done..]. cbn [mbind exec_bind].
    rewrite length_app. cbn [length].
    replace (Z.of_nat (length (operands st) + 1) - 1) with (Z.of_nat (length (operands st))) by lia.
    rewrite wrap_small by (unfold fits; lia). intros [= <- <-]. cbn [operands operandmap].
    assert (info_ok (operands st ++ [op'])%list id (Z.of_nat (length (operands st)), pointer)) as Hnew.
    { split; [cbn; lia|]. exists op, op'. cbn. split_and!; [done..|].
      rewrite Nat2Z.id. by apply list_lookup_middle. }
    split_and!; [|by exists [op']|rewrite length_app; cbn; lia|by exists id].
    intros id' info' Hi. cbn [operands operandmap] in *.
    apply lookup_insert_Some in Hi as [[<- <-]|[_ Hi]]; [done|]. apply info_ok_app. auto.
Qed.

Lemma init_args_spec ops : ∀ st st' args, shared_ok st ->
  Z.of_nat (length (operands st) + length ops) < 2 ^ 31 ->
  init_args ops st = Ret (st', args) ->
  shared_ok st' ∧ operands st `prefix_of` operands st' ∧ length args = length ops ∧
  ∀ (j : nat) op pointer info, ops !! j = Some (op, pointer) -> args !! j = Some info ->
    ∃ id, ID op pointer = Ret id ∧ info_ok (operands st') id info.
Proof.
  induction ops as [|[op pointer] ops IH]; intros st st' args Hok Hn Hi; cbn [init_args] in Hi.
  { simplify_eq. by split_and!. }
  destruct (share op pointer st) as [[st1 info]| |] eqn:Es; [|done..]. cbn [mbind exec_bind] in Hi.
  destruct (init_args ops st1) as [[st2 args']| |] eqn:Ea; [|done..]. cbn [mbind exec_bind] in Hi.
  simplify_eq. cbn [length] in Hn.
  destruct (share_spec _ _ _ _ _ Hok ltac:(lia) Es) as (Hok1 & Hp1 & Hl1 & id & Hid & Hinfo).
  destruct (IH _ _ _ Hok1 ltac:(lia) Ea) as (Hok2 & Hp2 & Hlen & Hargs).
  split_and!; [done|by etrans|cbn; lia|].
  intros [|j] op' p' info' H1 H2; simpl in H1, H2; simplify_eq; [|by eapply Hargs].
  exists id. split; [done|]. destruct Hp2 as [more ->]. by apply info_ok_app.
Qed.
End Shared.

(** * Properties *)

(** What [initRemill] gives a handler. Starting from a table whose
    references are right, it keeps them right, keeps every operand already
    shared where it is, and gives the handler the implementation of the
    function and one argument per operand, each referring to a shared operand
    of the same identity, with its offsets set. Where identities tell
    operands apart, the argument refers to the operand itself. *)
Theorem initRemill_args `{Codes} (kActionWrite : Z) (hash_value : string -> Z)
    (shift_bytes : ShiftRegister -> string) (addr_bytes : Address -> string)
    (expr_address : OperandExpression -> Z) (regoffs : regoffs_t) (handlers : list Handler)
    (inst : RemillInst) (h h' : OpcodeHandler) (st st' : shared) :
  let ID := ID kActionWrite hash_value shift_bytes addr_bytes expr_address in
  shared_ok kActionWrite hash_value shift_bytes addr_bytes expr_address regoffs st ->
  Z.of_nat (length (operands st) + length (inst_operands inst)) < 2 ^ 31 ->
  oh_args h = [] ->
  initRemill kActionWrite hash_value shift_bytes addr_bytes expr_address regoffs handlers inst h st
    = Ret (Some h', st') ->
  shared_ok kActionWrite hash_value shift_bytes addr_bytes expr_address regoffs st' ∧
  operands st `prefix_of` operands st' ∧
  find_impl hash_value handlers (function inst) = Ret (Some (oh_impl h')) ∧
  oh_opcode h' = oh_opcode h ∧ oh_type h' = OHT_Remill ∧ oh_oplen h' = wrap8 (inst_bytes inst) ∧
  length (oh_args h') = length (inst_operands inst) ∧
  ∀ (j : nat) op pointer info, inst_operands inst !! j = Some (op, pointer) -> oh_args h' !! j = Some info ->
    (∃ raw op', ID raw info.2 = ID op pointer ∧ initOffsets regoffs raw = Ret op' ∧
       operands st' !! Z.to_nat info.1 = Some op') ∧
    ((∀ raw p, ID raw p = ID op pointer -> raw = op ∧ p = pointer) ->
     info.2 = pointer ∧
     ∃ op', initOffsets regoffs op = Ret op' ∧ operands st' !! Z.to_nat info.1 = Some op').
Proof.
  intros ID' Hok Hn Hargs Hi. unfold initRemill in Hi.
  destruct (find_impl _ _ _) as [[impl|]| |] eqn:Ef; try done. cbn [mbind exec_bind] in Hi.
  destruct (init_args _ _ _ _ _ _ _ _) as [[st1 args]| |] eqn:Ea; [|done..].
  cbn [mbind exec_bind] in Hi. rewrite Hargs in Hi. simplify_eq.
  destruct (init_args_spec _ _ _ _ _ _ _ _ _ _ Hok Hn Ea) as (Hok' & Hp & Hl & Hr).
  split_and!; try done. intros j op pointer info Hj Hinfo.
  destruct (Hr j op pointer info Hj Hinfo) as (id & Hid & H0 & raw & op' & Hraw & Ho & Hl').
  split; [exists raw, op'; split_and!; [unfold ID'; congruence|done|done]|].
  intros Hinj. destruct (Hinj raw info.2 ltac:(unfold ID'; congruence)) as [-> <-].
  split; [done|]. by exists op'.
Qed.

Definition sample_imm (bits : Z) : RemillOperand :=
  let r := mkReg "" 0 0 in
  mkOperand 3 1 bits r (mkShift r 0 0 false false 0 0) (mkImm 0xff true) (mkAddr r r r 0 0 64 0) NullExpr.

Theorem initRemill_args_witness :
  ∃ h' st', @initRemill sample_codes 2 (fun _ => 7) (fun _ => "") (fun _ => "") (fun _ => 0) ∅
      [mkHandler 7 0x40] (mkInst "ADD" 4 [(sample_imm 8, false); (sample_imm 8, false)])
      (tmpopc 5) shared_new = Ret (Some h', st') ∧
    length (oh_args h') = 2%nat ∧ oh_type h' = OHT_Remill.
Proof.
  destruct (@initRemill sample_codes 2 (fun _ => 7) (fun _ => "") (fun _ => "") (fun _ => 0) ∅
      [mkHandler 7 0x40] (mkInst "ADD" 4 [(sample_imm 8, false); (sample_imm 8, false)])
      (tmpopc 5) shared_new) as [[[h'|] st']| |] eqn:E; try (vm_compute in E; discriminate E).
  exists h', st'. split; [done|].
  destruct (@initRemill_args sample_codes 2 (fun _ => 7) (fun _ => "") (fun _ => "") (fun _ => 0) ∅
      [mkHandler 7 0x40] (mkInst "ADD" 4 [(sample_imm 8, false); (sample_imm 8, false)])
      (tmpopc 5) h' shared_new st') as (_ & _ & _ & _ & Ht & _ & Hl & _).
  - apply shared_ok_new.
  - done.
  - done.
  - exact E.
  - split; [exact Hl|exact Ht].
Defined.

(** A signed immediate 0xff of some size, otherwise like [op]. *)
Definition signed_0xff `{Codes} (op : RemillOperand) (bits : Z) : RemillOperand :=
  mkOperand kTypeImmediate (op_action op) bits (op_reg op) (op_shift_reg op)
    (mkImm 0xff true) (op_addr op) (op_expr op).

(** The identity of an operand leaves out its size. Two signed
    immediates of the same value and different sizes share one operand, and
    evaluating the second argument extends its value from the first one's
    width: 0xff of 32 bits is read as -1. *)
Theorem shared_immediate_width `{Codes} (kActionWrite : Z) (hash_value : string -> Z)
    (shift_bytes : ShiftRegister -> string) (addr_bytes : Address -> string)
    (expr_address : OperandExpression -> Z) (regoffs : regoffs_t) (state_ptr : Z) (m : bytes)
    (op : RemillOperand) :
  ∃ st, init_args kActionWrite hash_value shift_bytes addr_bytes expr_address regoffs
          [(signed_0xff op 8, false); (signed_0xff op 32, false)] shared_new = Ret (st, [(0, false); (0, false)]) ∧
    operands st = [signed_0xff op 8] ∧
    LiftOperand state_ptr m regoffs (signed_0xff op 8) false = Ret (2 ^ 64 - 1) ∧
    LiftOperand state_ptr m regoffs (signed_0xff op 32) false = Ret 0xff.
Proof.
  pose proof type_codes as Hc. distinct_codes Hc.
  assert (∀ bits, op_type (signed_0xff op bits) = kTypeImmediate) as Ht by done.
  assert (∀ bits pointer, ID kActionWrite hash_value shift_bytes addr_bytes expr_address (signed_0xff op bits) pointer
    = ID kActionWrite hash_value shift_bytes addr_bytes expr_address (signed_0xff op 8) false) as Hid.
  { intros bits pointer. unfold ID. rewrite !Ht. repeat code_case. done. }
  assert (∃ id, ID kActionWrite hash_value shift_bytes addr_bytes expr_address (signed_0xff op 8) false = Ret id)
    as [id Hid8].
  { unfold ID. rewrite !Ht. repeat code_case. cbn. eexists. done. }
  assert (initOffsets regoffs (signed_0xff op 8) = Ret (signed_0xff op 8)) as Ho
    by (unfold initOffsets; rewrite !Ht; repeat code_case; done).
  exists (mkShared [signed_0xff op 8] {[id := (0, false)]}). split_and!.
  - cbn [init_args]. unfold share. rewrite Hid, Hid8. cbn [mbind exec_bind operandmap shared_new].
    rewrite lookup_empty, Ho. cbn [mbind exec_bind operands operandmap shared_new app].
    rewrite lookup_insert_eq. done.
  - done.
  - unfold LiftOperand. rewrite Ht. repeat code_case. done.
  - unfold LiftOperand. rewrite Ht. repeat code_case. done.
Qed.
