(* ===== verification/Interp.v ===== *)
(** The interpreters: one Remill instruction, from the engine's handler
    (src/OpcodeEngine.cpp) and from a metadata record (src/InterpMetaData.cpp),
    the lookup of instructions and modules, and the loop [vmEntry] that runs a
    pre-encoded program. Semantic functions, native code, host calls and the
    debugger's hook are parameters; assertions are the ones of a release build, compiled out. *)
From Stdlib Require Import ZArith Lia List String.
From stdpp Require Import base list gmap strings.
From S2P Require Import Prelude Utils StateMem CPUState Regoffs Operands IMetaData MetaOperands.
From S2P Require Import Convert OpcodeCache Handler PreEncoder.
#[local] Open Scope Z_scope.

(** * The program counter slots *)

(** Where the state keeps the pc and the next pc ([gpr.pc], [gpr._1] on
    aarch64; [gpr.rip], [gpr._1] on x86); [pcptr] points to the first. *)
Class PCSlots := {
  pc_off : Z; next_off : Z;
  slots_disjoint : pc_off + 8 <= next_off \/ next_off + 8 <= pc_off
}.

#[export] Instance a64_slots `{A64Layout} : PCSlots.
Proof.
  refine {| pc_off := off gpr_pc; next_off := off (gpr_ 1) |}.
  by apply (off_disjoint (size := a64_size) gpr_pc (gpr_ 1)).
Defined.

Definition x86_slots `{X86Layout} : PCSlots.
Proof.
  refine {| pc_off := off (gpr_g g_rip); next_off := off (gpr_n 1) |}.
  by apply (off_disjoint (size := x86_size) (gpr_g g_rip) (gpr_n 1)).
Defined.

Section PC.
Context `{PCSlots}.
Definition get_pc (m : bytes) : Z := load 8 m pc_off.
Definition set_pc (pc : Z) (m : bytes) : bytes := store 8 m pc_off pc.
Definition SetNextPC (oplen : Z) (m : bytes) : bytes := store 8 m next_off (get_pc m + oplen).
Definition UpdatePC (m : bytes) : bytes := set_pc (load 8 m next_off) m.
End PC.

(** * One Remill instruction *)

Section Remill.
Context `{PCSlots} `{Codes} {W : Type}.
(** The address of the state; a semantic function called with its arguments:
    what it makes of the state and of the rest of the world. *)
Variable state_ptr : Z.
Variable call : Z -> list Z -> bytes * W -> exec (bytes * W).

(** The call of [CASE_N]: 2 to 15 arguments, [dflt] otherwise; the array holds
    16 of them, a seventeenth is written past its end. *)
Definition call_params {A} (impl : Z) (params : list Z) (s : bytes * W) (dflt : exec A)
    (k : bytes * W -> exec A) : exec A :=
  let i := length params in
  if (16 <? i)%nat then Undef
  else if (15 <? i)%nat then dflt
  else s ← call impl params s; k s.

(** [OpcodeHandler::interpRemill]. *)
Definition engine_params (regoffs : regoffs_t) (operands : list RemillOperand)
    (args : list (Z * bool)) (m : bytes) : exec (list Z) :=
  mapE (fun opi =>
    op ← of_option Undef (operands !! Z.to_nat (fst opi));
    LiftOperand state_ptr m regoffs op (snd opi)) args.

Definition interpRemill (regoffs : regoffs_t) (operands : list RemillOperand) (h : OpcodeHandler)
    (s : bytes * W) : exec (bool * (bytes * W)) :=
  let m := SetNextPC (oh_oplen h) s.1 in
  ps ← engine_params regoffs operands (oh_args h) m;
  call_params (oh_impl h) ([0; state_ptr] ++ ps) (m, s.2) (Ret (false, (m, s.2)))
    (fun s => Ret (true, (UpdatePC s.1, s.2))).

(** [InterpMetaData::interpRemill], for the record at [a] of the file [f]. *)
Definition meta_params (f : bytes) (fuel : nat) (operands : Z) (expressions : Z -> option Expression)
    (a : Z) (m : bytes) : exec (list Z) :=
  mapE (fun arg =>
    let info := read_operand_info f (Handler_operand f a + 2 * arg) in
    Meta.LiftOperandRaw state_ptr m expressions fuel
      (Meta.read_operand f (operands + 48 * oi_index info)) info)
    (seqZ 0 (h_oprnum (read_handler f a))).

Definition meta_interpRemill (implementations : list Handler) (f : bytes) (fuel : nat) (operands : Z)
    (expressions : Z -> option Expression) (a : Z) (s : bytes * W) : exec (bytes * W) :=
  let r := read_handler f a in
  impl ← of_option Undef (implementations !! Z.to_nat (h_impl r));
  let m := SetNextPC (h_oplen r) s.1 in
  ps ← meta_params f fuel operands expressions a m;
  call_params (Handler.impl impl) ([0; state_ptr] ++ ps) (m, s.2) Abort
    (fun s => Ret (UpdatePC s.1, s.2)).
End Remill.

(** * Lemmas: the two interpreters agree *)

(** Where the first loop is defined, the second does the same. *)
Lemma mapE_refine {A A' B} (f : A -> exec B) (g : A' -> exec B) l l' :
  Forall2 (fun x y => f x <> Undef -> g y = f x) l l' -> mapE f l <> Undef -> mapE g l' = mapE f l.
Proof.
  induction 1 as [|x y l l' Hxy Hl IH]; cbn [mapE]; intros Hd; [done|].
  destruct (f x) as [b| |]; cbn in *; [|by rewrite Hxy|done].
  rewrite Hxy by done. cbn. rewrite IH; [done|]. intros E. by rewrite E in Hd.
Qed.

(** The expression nodes of a file, within their section. *)
Definition file_expressions (f : bytes) (hdr : IMetaData) (i : Z) : option Expression :=
  if (0 <=? i) && (i <? num_expressions hdr) then Some (read_expression f (md_expressions hdr + 12 * i))
  else None.

Section Ext.
Context `{Codes}.
Variables (state_ptr : Z) (m : bytes).
Variables ex ex' : Z -> option Expression.
Hypothesis ex_ext : ∀ i, ex i = ex' i.

Lemma LiftExpression_ext fuel : ∀ e,
  Meta.LiftExpressionOperandRecRaw state_ptr m ex fuel e =
  Meta.LiftExpressionOperandRecRaw state_ptr m ex' fuel e.
Proof.
  induction fuel as [|fuel IH]; intros e; cbn [Meta.LiftExpressionOperandRecRaw]; [done|].
  destruct (ex_payload e) as [lhs rhs| |]; [|done..]. destruct (_ =? kOperation); [|done].
  rewrite (ex_ext lhs), (ex_ext rhs). destruct (ex' lhs) as [le|]; cbn; [|done]. rewrite IH.
  destruct (Meta.LiftExpressionOperandRecRaw _ _ _ _ le); cbn; [|done..].
  destruct (rhs =? no_child); [done|].
  destruct (ex' rhs) as [re|]; cbn; [|done]. by rewrite IH.
Qed.

Lemma LiftOperandRaw_ext fuel op info :
  Meta.LiftOperandRaw state_ptr m ex fuel op info = Meta.LiftOperandRaw state_ptr m ex' fuel op info.
Proof.
  unfold Meta.LiftOperandRaw. destruct (_ =? kTypeRegister); [done|].
  destruct (_ =? kTypeShiftRegister); [done|]. destruct (_ =? kTypeImmediate); [done|].
  destruct (_ =? kTypeAddress); [done|]. destruct (_ || _); [|done].
  destruct (mo_value op); try done. apply LiftExpression_ext.
Qed.
End Ext.

Section Agree.
Context `{PCSlots} `{Codes} {W : Type}.
Variable state_ptr : Z.
Variable call : Z -> list Z -> bytes * W -> exec (bytes * W).
Variables (host : bytes) (implementations : list Handler) (haswx arm64 : bool).
Variable regoffs : regoffs_t.
Hypothesis regoffs_nonneg : regoffs_ok regoffs.

(** The operand list a record holds gives the parameters the handler's
    arguments give. *)
Lemma meta_params_agree ops mds nodes hs insns file a h m :
  Forall operand_ok ops -> convertOperands regoffs ops = (true, mds, nodes) ->
  file_describes host implementations haswx arm64 mds nodes hs insns file ->
  let f := store_bytes ∅ 0 file in
  let hdr := read_header f in
  stored host implementations haswx arm64 f a h -> oh_type h = OHT_Remill ->
  Forall (fun arg => 0 <= fst arg) (oh_args h) ->
  engine_params state_ptr regoffs ops (oh_args h) m <> Undef ->
  meta_params state_ptr f (S (length nodes)) (md_operands hdr) (file_expressions f hdr) a m =
  engine_params state_ptr regoffs ops (oh_args h) m.
Proof.
  intros Hok Hc (Hhdr & _ & Hops & Hnodes) f hdr (_ & _ & _ & Hrem & _) Ht Hargs Hd.
  fold f hdr in Hhdr, Hops, Hnodes.
  destruct (Hrem Ht) as (_ & Hn & Hinfo). unfold meta_params. rewrite Hn.
  apply mapE_refine; [|done]. apply Forall2_same_length_lookup_2.
  { rewrite length_seqZ. lia. }
  intros j [idx p] jz Hj Hjz. apply lookup_seqZ in Hjz as [-> Hlt].
  rewrite Z.add_0_l, (Hinfo j _ Hj). cbn [fst snd oi_index]. intros Hop.
  rewrite Forall_forall in Hargs. pose proof (Hargs _ (list_elem_of_lookup_2 _ _ _ Hj)) as Hi. cbn in Hi.
  destruct (ops !! Z.to_nat idx) as [op|] eqn:Eop; [|done]. cbn [of_option mbind exec_bind fst snd] in Hop |- *.
  destruct (convert_loop_spec regoffs state_ptr m regoffs_nonneg ops [] [] mds nodes Hok ltac:(by split) Hc)
    as (_ & _ & new & Hnew & Hlen & _ & Hval). cbn in Hnew. subst new.
  destruct (lookup_lt_is_Some_2 mds (Z.to_nat idx)) as [md Hmd].
  { rewrite Hlen. by eapply lookup_lt_Some. }
  assert (Meta.read_operand f (md_operands hdr + 48 * idx) = md) as ->.
  { rewrite <- (Hops _ _ Hmd). do 2 f_equal. lia. }
  rewrite (LiftOperandRaw_ext state_ptr m _ (nodes_rd nodes)); [by apply (Hval (Z.to_nat idx))|].
  intros i. unfold file_expressions, nodes_rd.
  destruct Hhdr as (_ & _ & _ & _ & _ & _ & -> & _).
  destruct (Z.ltb_spec i 0); [by rewrite (proj2 (Z.leb_gt 0 i))|].
  rewrite (proj2 (Z.leb_le 0 i)) by lia. cbn [andb].
  destruct (Z.ltb_spec i (Z.of_nat (length nodes))).
  - destruct (lookup_lt_is_Some_2 nodes (Z.to_nat i)) as [e He]; [lia|]. rewrite He.
    f_equal. rewrite <- (Hnodes _ _ He). do 2 f_equal. lia.
  - symmetry. apply lookup_ge_None. lia.
Qed.
End Agree.

(** * Modules and their instructions *)

(** [RuntimeMetaData]: the mapped file and its size, the range of addresses,
    the cache of next instructions, the opcodes of the decoded MCInsts. *)
Record Runtime := mkRuntime {
  rt_file : bytes; mdsize : Z; rtbase : Z; rtend : Z;
  nexticache : list Z; mcinsts : list (list Z)
}.

Definition metadata (rt : Runtime) : IMetaData := read_header (rt_file rt).
Definition contain (rt : Runtime) (addr : Z) : bool := (rtbase rt <=? addr) && (addr <? rtend rt).

(** [insns[i]], as long as it lies in the mapped file: past the last
    instruction come the operands. *)
Definition insn_at (rt : Runtime) (i : nat) : option InsnMeta :=
  let a := md_insns (metadata rt) + 8 * Z.of_nat i in
  if a + 8 <=? mdsize rt then Some (read_insn (rt_file rt) a) else None.

Definition num_insns (rt : Runtime) : nat := Z.to_nat (num_instruction (metadata rt)).

(** The constructor: every instruction is followed by the next one; every
    MCInst instruction appends its decoding, whose index the handler is
    expected to hold. Prebuilt handlers belong to iOS. *)
Fixpoint load_mcinsts (rt : Runtime) (n : nat) (i : nat) (acc : list (list Z)) : exec (list (list Z)) :=
  match n with
  | O => Ret acc
  | S n' =>
      insn ← of_option Undef (insn_at rt i);
      let a := md_handler (metadata rt) insn in
      let r := read_handler (rt_file rt) a in
      if h_type r =? OHT_MCInst then
        load_mcinsts rt n' (S i) (acc ++ [load_bytes (rt_file rt) (Handler_opcode a) (Z.to_nat (h_oplen r))])
      else if (h_type r =? OHT_Prebuilt) || (h_type r =? OHT_PrebuiltMapped) then Abort
      else load_mcinsts rt n' (S i) acc
  end.

Definition RuntimeMetaData_new (file : bytes) (size base end_ : Z) : exec Runtime :=
  let rt := mkRuntime file size base end_ [] [] in
  let n := num_insns rt in
  mcs ← load_mcinsts rt n 0 [];
  Ret (mkRuntime file size base end_ ((fun i => wrap32 (i + 1)) <$> seqZ 0 (Z.of_nat n)) mcs).

(** [RuntimeMetaData::find]: the entry found is read wherever it is. *)
Definition find (rt : Runtime) (addr : Z) : exec (option nat) :=
  let key := mkInsn (wrap32 (addr - rtbase rt)) 0 in
  found ← binary_search (key_ltb InsnMeta_key) (insn_at rt) (num_insns rt) key;
  x ← of_option Undef (insn_at rt found);
  Ret (if rva x =? rva key then Some found else None).

(** [InterpMetaData]: the modules, in the order of their bases. *)
Abbreviation runtimes := (list Runtime).

Class SortRuntimes := {
  sort_rt : runtimes -> runtimes;
  sort_rt_perm : ∀ l, sort_rt l ≡ₚ l;
  sort_rt_sorted : ∀ l, key_sorted rtbase (sort_rt l)
}.
Definition add `{SortRuntimes} (rts : runtimes) (rt : Runtime) : runtimes := sort_rt (rts ++ [rt]).
Definition reset (rts : runtimes) : runtimes := [].

(** The key the modules are searched with has only its base set. *)
Definition rt_key (addr : Z) : Runtime := mkRuntime ∅ 0 addr 0 [] [].

(** [InterpMetaData::find]: the module and, when asked for, the instruction. *)
Definition interp_find (rts : runtimes) (addr : Z) : exec (option (nat * option nat)) :=
  found ← binary_search (key_ltb rtbase) (arr_rd rts) (length rts) (rt_key addr);
  let rtfound := if (found =? length rts)%nat then (length rts - 1)%nat else found in
  rt ← of_option Undef (rts !! rtfound);
  if addr >? rtend rt then Ret None
  else insn ← find rt addr; Ret (Some (rtfound, insn)).

(** * The loop of [vmEntry] *)

Section VM.
Context `{PCSlots} `{Codes} {W : Type}.
Variable state_ptr : Z.
(** Semantic functions, decoded MCInsts, native code at an address of the
    file of a module, functions of the host at an address, returning the next
    pc; the debugger's hook, when the engine runs with one; the address of the
    interpreter object, which marks the last return. *)
Variable call : Z -> list Z -> bytes * W -> exec (bytes * W).
Variable interpMCInst : list Z -> bytes * W -> exec (bytes * W).
Variable execDynamic : Runtime -> Z -> bytes * W -> exec (bytes * W).
Variable CallHost : Z -> bytes * W -> exec (Z * (bytes * W)).
Variable insn_handler : option (Z -> bytes * W -> exec (bytes * W)).
Variable implementations : list Handler.
Variable this : Z.

(** The outer loop is about to test the pc and run an instruction, or the
    inner one to look for the next instruction. *)
Inductive phase := Executing | Resolving.
Record vm := mkVM {
  vm_rts : runtimes; vm_rt : nat; vm_insn : nat; vm_phase : phase; vm_state : bytes * W
}.
Definition vm_pc (v : vm) : Z := get_pc (vm_state v).1.
Inductive outcome := Running (v : vm) | Finished (s : bytes * W).

(** The switch on the type of the handler. Operand trees of a file are as deep
    as it has expression nodes, and one for the root. *)
Definition exec_handler (rt : Runtime) (insn : InsnMeta) (s : bytes * W) : exec (bytes * W) :=
  let f := rt_file rt in
  let hdr := metadata rt in
  let a := md_handler hdr insn in
  let r := read_handler f a in
  if h_type r =? OHT_Remill then
    meta_interpRemill state_ptr call implementations f (S (Z.to_nat (num_expressions hdr)))
      (md_operands hdr) (file_expressions f hdr) a s
  else if h_type r =? OHT_MCInst then
    inst ← of_option Undef (mcinsts rt !! Z.to_nat (h_impl r)); interpMCInst inst s
  else if h_type r =? OHT_Dynamic then execDynamic rt (Handler_handler f a) s
  else Abort.

(** Where the search of the next instruction ends. *)
Inductive next := Found (rts : runtimes) (rt insn : nat) | Elsewhere.

(** The first branch of the inner loop: the pc is in the current module. The
    cache is read at the instruction executed, and written at the one found,
    with its own index. *)
Definition next_insn (rts : runtimes) (k : nat) (rt : Runtime) (insn : nat) (pc : Z) : exec next :=
  seq ← of_option Undef (insn_at rt (insn + 1));
  if wrap64 (rtbase rt + rva seq) =? pc then Ret (Found rts k (insn + 1))
  else
    c ← of_option Undef (nexticache rt !! insn);
    cached ← of_option Undef (insn_at rt (Z.to_nat c));
    if wrap64 (rtbase rt + rva cached) =? pc then Ret (Found rts k (Z.to_nat c))
    else
      found ← find rt pc;
      i ← of_option Undef found;
      if (i <? length (nexticache rt))%nat then
        let rt' := mkRuntime (rt_file rt) (mdsize rt) (rtbase rt) (rtend rt)
                     (<[i := wrap32 (Z.of_nat i)]> (nexticache rt)) (mcinsts rt) in
        Ret (Found (<[k := rt']> rts) k i)
      else Undef.

(** One turn of the inner loop. *)
Definition dispatch (rts : runtimes) (k insn : nat) (pc : Z) : exec next :=
  rt ← of_option Undef (rts !! k);
  first ← of_option Undef (head rts);
  lst ← of_option Undef (last rts);
  if contain rt pc then next_insn rts k rt insn pc
  else if (rtbase first <=? pc) && (pc <? rtend lst) then
    found ← interp_find rts pc;
    '(k', i) ← of_option Undef found;
    i ← of_option Undef i;
    Ret (Found rts k' i)
  else Ret Elsewhere.

Definition vm_step (v : vm) : exec outcome :=
  match vm_phase v with
  | Executing =>
      if vm_pc v =? this then Ret (Finished (vm_state v))
      else
        rt ← of_option Undef (vm_rts v !! vm_rt v);
        insn ← of_option Undef (insn_at rt (vm_insn v));
        s ← (match insn_handler with Some f => f (vm_pc v) (vm_state v) | None => Ret (vm_state v) end);
        s ← exec_handler rt insn s;
        Ret (Running (mkVM (vm_rts v) (vm_rt v) (vm_insn v) Resolving s))
  | Resolving =>
      let pc := vm_pc v in
      n ← dispatch (vm_rts v) (vm_rt v) (vm_insn v) pc;
      match n with
      | Found rts k i => Ret (Running (mkVM rts k i Executing (vm_state v)))
      | Elsewhere =>
          if pc =? this then Ret (Finished (vm_state v))
          else
            '(pc', s) ← CallHost pc (vm_state v);
            Ret (Running (mkVM (vm_rts v) (vm_rt v) (vm_insn v) Resolving (set_pc pc' s.1, s.2)))
      end
  end.

(** [vmEntry] from a module and an instruction: [n] steps, as the program may
    run for ever. *)
Fixpoint vm_run (n : nat) (v : vm) : exec outcome :=
  match n with
  | O => Ret (Running v)
  | S n' =>
      o ← vm_step v;
      match o with Running v' => vm_run n' v' | Finished s => Ret (Finished s) end
  end.
Definition vmEntry (rts : runtimes) (k insn : nat) (s : bytes * W) (n : nat) : exec outcome :=
  vm_run n (mkVM rts k insn Executing s).

(** The states a run goes through. *)
Inductive reaches (v : vm) : vm -> Prop :=
| reaches_refl : reaches v v
| reaches_step v1 v2 : reaches v v1 -> vm_step v1 = Ret (Running v2) -> reaches v v2.

(** [InterpMetaData::main]: [argc] and [argv] in the first two argument
    registers, the entry in the pc, and this object's address as the return
    address: in [LR], or pushed on the stack. *)
Variable regs : RegFile.
Variables (arg0 arg1 result_reg : Z).
Variable set_return : Z -> bytes * W -> bytes * W.
Definition main_start (entry argc argv : Z) (s : bytes * W) : bytes * W :=
  let m := (rf_set arg0 argc s.1).2 in
  let m := (rf_set arg1 argv m).2 in
  set_return this (set_pc entry m, s.2).

(** The result of the program, the low half of its register, once it has
    finished; [-1] before anything runs when the entry is in no module. *)
Definition main (rts : runtimes) (entry argc argv : Z) (s : bytes * W) (n : nat)
  : exec (Z + vm) :=
  found ← interp_find rts entry;
  match found with
  | None | Some (_, None) => Ret (inl (-1))
  | Some (k, Some i) =>
      o ← vmEntry rts k i (main_start entry argc argv s) n;
      match o with
      | Finished s' => r ← of_option Undef (rf_read result_reg s'.1); Ret (inl (to_signed 32 r))
      | Running v => Ret (inr v)
      end
  end.
End VM.

(** * Lemmas: lookups *)

(** The instructions of a module, sorted by address, where the file has them. *)
Definition rt_ok (rt : Runtime) (insns : list InsnMeta) : Prop :=
  num_insns rt = length insns ∧ insns <> [] ∧
  (∀ (i j : nat) x y, (i < j)%nat -> insns !! i = Some x -> insns !! j = Some y -> rva x < rva y) ∧
  ∀ (i : nat) x, insns !! i = Some x -> insn_at rt i = Some x.

Lemma find_rank rt insns addr : rt_ok rt insns ->
  let key := wrap32 (addr - rtbase rt) in
  let p := rank InsnMeta_key insns key in
  find rt addr = (x ← of_option Undef (insn_at rt p); Ret (if rva x =? key then Some p else None)).
Proof.
  intros (Hn & Hne & Hs & Hat) key p. unfold find. rewrite Hn.
  rewrite (binary_search_split _ _ (length insns) _ p).
  - done.
  - destruct insns; [done|cbn; lia].
  - pose proof (rank_split InsnMeta_key insns (mkInsn key 0)) as [Hle Hall].
    { apply strict_sorted. exact Hs. }
    split; [exact Hle|]. intros i Hi. destruct (Hall i Hi) as (x & Hx & Hlt). exists x.
    split; [by apply Hat|exact Hlt].
Qed.

Lemma find_found rt insns addr (i : nat) x : rt_ok rt insns -> insns !! i = Some x ->
  rva x = wrap32 (addr - rtbase rt) -> find rt addr = Ret (Some i).
Proof.
  intros Hok Hi Hx. rewrite (find_rank rt insns addr Hok). cbv zeta. rewrite <- Hx.
  assert (rank InsnMeta_key insns (rva x) = i) as ->.
  { apply rank_found; [|done]. apply Hok. }
  rewrite (proj2 (proj2 (proj2 Hok)) i x Hi). cbn. by rewrite Z.eqb_refl.
Qed.

Lemma find_Some rt addr i : find rt addr = Ret (Some i) ->
  ∃ x, insn_at rt i = Some x ∧ rva x = wrap32 (addr - rtbase rt).
Proof.
  unfold find. intros Hf. bind_inv Hf. rename a into p.
  destruct (insn_at rt p) as [x|] eqn:Ex; [|discriminate]. cbn in Hf.
  destruct (Z.eqb_spec (rva x) (wrap32 (addr - rtbase rt))); simplify_eq. by exists x.
Qed.

Lemma insn_at_u32 rt i x : byte_store (rt_file rt) -> insn_at rt i = Some x -> u32 (rva x).
Proof.
  unfold insn_at. intros Hb. destruct (_ <=? _); [|done]. intros [= <-]. cbn. by apply (load_fits 4).
Qed.

Lemma wrap_address base v pc : u32 v -> u64 pc -> wrap64 (base + v) = pc -> wrap32 (pc - base) = v.
Proof.
  unfold fits, wrap. intros Hv Hpc <-.
  rewrite <- (Z.mod_small v (2 ^ 32)) at 2 by done.
  rewrite <- Zminus_mod_idemp_l, Z.mod_mod_divide by (by exists (2 ^ 32)).
  rewrite Zminus_mod_idemp_l. f_equal. lia.
Qed.

Lemma address_of base v pc : base <= pc < base + 2 ^ 32 -> u64 pc -> v = wrap32 (pc - base) ->
  wrap64 (base + v) = pc.
Proof.
  intros Hb Hpc ->. rewrite (wrap_small 32) by (unfold fits; lia).
  replace (base + (pc - base)) with pc by lia. by apply wrap_small.
Qed.

(** * Lemmas: the loop *)

(** The cache of a module holds, for every instruction, the one after it or
    itself. *)
Definition cache_ok (rt : Runtime) : Prop :=
  ∀ (i : nat) c, nexticache rt !! i = Some c ->
    c = wrap32 (Z.of_nat i + 1) \/ c = wrap32 (Z.of_nat i).

(** The same module, up to its cache. *)
Definition same_module (rt rt' : Runtime) : Prop :=
  rt_file rt = rt_file rt' ∧ mdsize rt = mdsize rt' ∧ rtbase rt = rtbase rt' ∧
  rtend rt = rtend rt' ∧ mcinsts rt = mcinsts rt' ∧ length (nexticache rt) = length (nexticache rt').

#[export] Instance same_module_equiv : Equivalence same_module.
Proof.
  split.
  - intros rt. by repeat split.
  - intros rt rt' (? & ? & ? & ? & ? & ?). by repeat split.
  - intros r1 r2 r3 (? & ? & ? & ? & ? & ?) (? & ? & ? & ? & ? & ?). repeat split; congruence.
Qed.

Lemma insn_at_same rt rt' i : same_module rt rt' -> insn_at rt i = insn_at rt' i.
Proof. intros (Hf & Hs & _). unfold insn_at, metadata. by rewrite Hf, Hs. Qed.

Definition same_modules : relation runtimes := Forall2 same_module.
#[export] Instance same_modules_equiv : Equivalence same_modules.
Proof. unfold same_modules. split; apply _. Qed.

Lemma same_modules_insert rts (k : nat) rt rt' : rts !! k = Some rt -> same_module rt rt' ->
  same_modules rts (<[k := rt']> rts).
Proof.
  intros Hk Hs. unfold same_modules. apply Forall2_same_length_lookup_2; [by rewrite length_insert|].
  intros i x y Hx Hy. destruct (decide (i = k)) as [->|Hne].
  - rewrite list_lookup_insert_eq in Hy by (by eapply lookup_lt_Some). by simplify_eq.
  - rewrite list_lookup_insert_ne in Hy by done. by simplify_eq.
Qed.

Lemma cache_ok_insert rt i : cache_ok rt ->
  cache_ok (mkRuntime (rt_file rt) (mdsize rt) (rtbase rt) (rtend rt)
              (<[i := wrap32 (Z.of_nat i)]> (nexticache rt)) (mcinsts rt)).
Proof.
  intros Hc j c Hj. cbn in Hj. destruct (decide (j = i)) as [->|Hne].
  - destruct (decide (i < length (nexticache rt))%nat) as [Hi|Hi].
    + rewrite list_lookup_insert_eq in Hj by done. simplify_eq. by right.
    + rewrite list_insert_ge in Hj by lia. by apply Hc.
  - rewrite list_lookup_insert_ne in Hj by done. by apply Hc.
Qed.

(** An instruction of a module that has the low 32 bits of the pc. *)
Definition insn_for (rts : runtimes) (k i : nat) (pc : Z) : Prop :=
  ∃ rt x, rts !! k = Some rt ∧ insn_at rt i = Some x ∧ rva x = wrap32 (pc - rtbase rt).

Definition rts_ok (rts : runtimes) : Prop :=
  Forall (fun rt => byte_store (rt_file rt) ∧ cache_ok rt) rts.

Lemma rts_ok_lookup rts (k : nat) rt : rts_ok rts -> rts !! k = Some rt ->
  byte_store (rt_file rt) ∧ cache_ok rt.
Proof. unfold rts_ok. rewrite Forall_lookup. eauto. Qed.

Lemma next_insn_spec rts k rt insn pc rts' k' i : rts_ok rts -> rts !! k = Some rt -> u64 pc ->
  next_insn rts k rt insn pc = Ret (Found rts' k' i) ->
  rts_ok rts' ∧ same_modules rts rts' ∧ k' = k ∧ insn_for rts' k i pc.
Proof.
  intros Hok Hk Hpc. destruct (rts_ok_lookup _ _ _ Hok Hk) as [Hb Hc]. unfold next_insn.
  destruct (insn_at rt (insn + 1)) as [seq|] eqn:Eseq; [|done]. cbn [of_option mbind exec_bind].
  destruct (Z.eqb_spec (wrap64 (rtbase rt + rva seq)) pc) as [Es|_].
  { intros [= <- <- <-]. split_and!; [done|done|done|]. exists rt, seq. split_and!; [done..|].
    symmetry. apply wrap_address; [by eapply insn_at_u32|done|done]. }
  destruct (nexticache rt !! insn) as [c|]; [|done]. cbn [of_option mbind exec_bind].
  destruct (insn_at rt (Z.to_nat c)) as [cached|] eqn:Ec; [|done]. cbn [of_option mbind exec_bind].
  destruct (Z.eqb_spec (wrap64 (rtbase rt + rva cached)) pc) as [Es|_].
  { intros [= <- <- <-]. split_and!; [done|done|done|]. exists rt, cached. split_and!; [done..|].
    symmetry. apply wrap_address; [by eapply insn_at_u32|done|done]. }
  destruct (find rt pc) as [[j|]| |] eqn:Ef; try done. cbn [of_option mbind exec_bind].
  destruct (_ <? _)%nat; [|done]. intros [= <- <- <-]. set (rt' := mkRuntime _ _ _ _ _ _).
  assert (same_module rt rt') as Hsame by (repeat split; cbn; by rewrite length_insert).
  destruct (find_Some _ _ _ Ef) as (x & Hx & Hrva). split_and!.
  - unfold rts_ok. apply Forall_insert; [done|]. split; [done|]. by apply cache_ok_insert.
  - by eapply same_modules_insert.
  - done.
  - exists rt', x. split_and!; [apply list_lookup_insert_eq; by eapply lookup_lt_Some| |done].
    by rewrite <- (insn_at_same rt rt').
Qed.

Lemma dispatch_spec rts k insn pc rts' k' i : rts_ok rts -> u64 pc ->
  dispatch rts k insn pc = Ret (Found rts' k' i) ->
  rts_ok rts' ∧ same_modules rts rts' ∧ insn_for rts' k' i pc.
Proof.
  intros Hok Hpc. unfold dispatch. destruct (rts !! k) as [rt|] eqn:Hk; [|done].
  destruct (head rts) as [first|]; [|done]. destruct (last rts) as [lst|]; [|done].
  cbn [of_option mbind exec_bind]. destruct (contain rt pc).
  { intros Hn. destruct (next_insn_spec _ _ _ _ _ _ _ _ Hok Hk Hpc Hn) as (? & ? & -> & ?). done. }
  destruct (_ && _); [|done].
  destruct (interp_find rts pc) as [[[k2 [i2|]]|]| |] eqn:Ef; try done. cbn [of_option mbind exec_bind].
  intros [= <- <- <-]. split_and!; [done|done|]. unfold interp_find in Ef. bind_inv Ef.
  set (q := if (a =? length rts)%nat then _ else a) in Ef.
  destruct (rts !! q) as [rt2|] eqn:E2; [|done]. cbn [of_option mbind exec_bind] in Ef.
  destruct (_ >? _); [done|].
  destruct (find rt2 pc) as [o| |] eqn:Ef2; try done. cbn [mbind exec_bind] in Ef. simplify_eq.
  destruct (find_Some _ _ _ Ef2) as (x & Hx & Hr). by exists rt2, x.
Qed.

Section Reach.
Context `{PCSlots} `{Codes} {W : Type}.
Variable state_ptr : Z.
Variable call : Z -> list Z -> bytes * W -> exec (bytes * W).
Variable interpMCInst : list Z -> bytes * W -> exec (bytes * W).
Variable execDynamic : Runtime -> Z -> bytes * W -> exec (bytes * W).
Variable CallHost : Z -> bytes * W -> exec (Z * (bytes * W)).
Variable insn_handler : option (Z -> bytes * W -> exec (bytes * W)).
Variable implementations : list Handler.
Variable this : Z.
Abbreviation step := (vm_step state_ptr call interpMCInst execDynamic CallHost insn_handler implementations this).
(** The state keeps holding bytes. *)
Hypothesis call_bytes : ∀ impl ps s s', byte_store s.1 -> call impl ps s = Ret s' -> byte_store s'.1.
Hypothesis mcinst_bytes : ∀ i s s', byte_store s.1 -> interpMCInst i s = Ret s' -> byte_store s'.1.
Hypothesis dynamic_bytes : ∀ rt a s s', byte_store s.1 -> execDynamic rt a s = Ret s' -> byte_store s'.1.
Hypothesis host_bytes : ∀ pc s pc' s', byte_store s.1 -> CallHost pc s = Ret (pc', s') -> byte_store s'.1.
Hypothesis hook_bytes : ∀ f pc s s', insn_handler = Some f -> byte_store s.1 -> f pc s = Ret s' -> byte_store s'.1.

Lemma call_params_bytes {A} impl ps s (dflt : exec A) (k : bytes * W -> exec A) r :
  call_params call impl ps s dflt k = Ret r -> dflt <> Ret r -> byte_store s.1 ->
  ∃ s', byte_store s'.1 ∧ k s' = Ret r.
Proof.
  unfold call_params. destruct (_ <? _)%nat; [done|]. destruct (_ <? _)%nat; [done|].
  intros Hc _ Hb. destruct (call impl ps s) as [s'| |] eqn:E; try done. exists s'.
  split; [by eapply call_bytes|done].
Qed.

Lemma exec_handler_bytes rt insn s s' : byte_store s.1 ->
  exec_handler state_ptr call interpMCInst execDynamic implementations rt insn s = Ret s' ->
  byte_store s'.1.
Proof.
  intros Hb. unfold exec_handler. set (r := read_handler _ _).
  destruct (_ =? OHT_Remill).
  { unfold meta_interpRemill. intros He. bind_inv He. bind_inv He.
    apply call_params_bytes in He as (s1 & Hs1 & [= <-]); [|done|by apply byte_store_store].
    by apply byte_store_store. }
  destruct (_ =? OHT_MCInst).
  { intros He. bind_inv He. by eapply mcinst_bytes. }
  destruct (_ =? OHT_Dynamic); [|done]. by apply dynamic_bytes.
Qed.

(** What holds in every state of a run. *)
Definition vm_inv (rts0 : runtimes) (v : vm (W := W)) : Prop :=
  rts_ok (vm_rts v) ∧ same_modules rts0 (vm_rts v) ∧ byte_store (vm_state v).1 ∧
  (vm_phase v = Executing -> insn_for (vm_rts v) (vm_rt v) (vm_insn v) (vm_pc v)).

Lemma vm_step_inv rts0 v v' : vm_inv rts0 v -> step v = Ret (Running v') -> vm_inv rts0 v'.
Proof.
  intros (Hok & Hsame & Hb & Hi). unfold vm_step. destruct (vm_phase v).
  - destruct (_ =? this); [done|]. destruct (vm_rts v !! vm_rt v) as [rt|]; [|done]. cbn [of_option mbind exec_bind].
    destruct (insn_at rt (vm_insn v)) as [insn|]; [|done]. cbn [of_option mbind exec_bind].
    intros He. bind_inv He. bind_inv He. injection He as <-. split_and!; [done|done| |done].
    eapply exec_handler_bytes; [|eassumption]. destruct insn_handler as [f|]; [by eapply hook_bytes|by simplify_eq].
  - destruct (dispatch _ _ _ _) as [[rts k i|]| |] eqn:E; try done; cbn [mbind exec_bind].
    + intros [= <-].
      destruct (dispatch_spec _ _ _ _ _ _ _ Hok ltac:(by apply (load_fits 8)) E) as (H1 & H2 & H3).
      split_and!; [done|by etrans|done|done].
    + destruct (_ =? this); [done|].
      destruct (CallHost _ _) as [[pc' s]| |] eqn:Ec; try done. cbn [mbind exec_bind]. intros [= <-].
      split_and!; [done|done|by apply byte_store_store, (host_bytes _ _ _ _ Hb Ec)|done].
Qed.

Lemma reaches_inv rts0 v v' : vm_inv rts0 v ->
  reaches state_ptr call interpMCInst execDynamic CallHost insn_handler implementations this v v' -> vm_inv rts0 v'.
Proof. intros Hi. induction 1; [done|]. by eapply vm_step_inv. Qed.
End Reach.

(** * Properties *)

Lemma call_params_agree {W A B} call impl ps (s : bytes * W) (d1 : exec A) (d2 : exec B)
    (k1 : bytes * W -> A) (k2 : bytes * W -> B) (j : exec A -> exec B) :
  j d1 = d2 -> j Undef = Undef -> j Abort = Abort -> (∀ s, j (Ret (k1 s)) = Ret (k2 s)) ->
  call_params call impl ps s d2 (fun s => Ret (k2 s)) =
  j (call_params call impl ps s d1 (fun s => Ret (k1 s))).
Proof.
  intros Hd Hu Ha Hr. unfold call_params. destruct (_ <? _)%nat; [done|]. destruct (_ <? _)%nat; [done|].
  destruct (call impl ps s); cbn; [by rewrite Hr|done|done].
Qed.

(** What the metadata interpreter makes of the engine's outcome: it aborts
    where the engine returns false. *)
Definition as_meta {A} (e : exec (bool * A)) : exec A :=
  match e with
  | Ret (true, s) => Ret s
  | Ret (false, _) => Abort
  | Abort => Abort
  | Undef => Undef
  end.

(** C2: a pre-encoded program computes what the engine computes. When the
    operands convert and the file is written, executing any instruction entry
    of the file whose handler is a semantic function does to the state and
    the world exactly what [interpRemill] of that handler does, with the same
    semantic function and the same arguments, wherever the latter is defined;
    where the engine returns false for too many arguments it aborts. *)
Theorem interpreters_agree `{PCSlots} `{Codes} {W : Type} (state_ptr : Z)
    (call : Z -> list Z -> bytes * W -> exec (bytes * W)) interpMCInst execDynamic
    (host : bytes) (implementations : list Handler) (haswx arm64 : bool) (regoffs : regoffs_t)
    (ops : list RemillOperand) (mds : list Operand) (nodes : list Expression) (hs : list SHandler)
    (insns : list InsnMeta) (file : list Z) (k : nat) (insn : InsnMeta) (rt : Runtime) :
  regoffs_ok regoffs -> Forall operand_ok ops -> convertOperands regoffs ops = (true, mds, nodes) ->
  Forall (fun h => handler_wf h.2) hs -> Forall InsnMeta_ok insns ->
  serialize host implementations haswx arm64 (true, mds, nodes) hs insns = Some file ->
  rt_file rt = store_bytes ∅ 0 file ->
  insns !! k = Some insn -> handler insn <> UINT32_MAX ->
  ∃ w h, hs !! Z.to_nat (handler insn) = Some (w, h) ∧
    (oh_type h = OHT_Remill -> ∀ s : bytes * W,
       interpRemill state_ptr call regoffs ops h s <> Undef ->
       exec_handler state_ptr call interpMCInst execDynamic implementations rt
         (read_insn (rt_file rt) (md_insns (metadata rt) + 8 * Z.of_nat k)) s
       = as_meta (interpRemill state_ptr call regoffs ops h s)).
Proof.
  intros Hro Hops Hconv Hwf Hins Hser Hfile Hk Hne.
  destruct (convert_loop_spec regoffs state_ptr ∅ Hro ops [] [] mds nodes Hops ltac:(by split) Hconv)
    as (_ & Hnodes & new & Hnew & Hlen & Hmds & _). cbn in Hnew. subst new.
  assert (Forall Expression_ok nodes) as Hex.
  { apply Forall_forall. intros e He. apply list_elem_of_lookup in He as [i Hi]. by eapply Hnodes. }
  pose proof (serialize_describes host implementations haswx arm64 mds nodes hs insns file
    Hwf Hins Hmds Hex Hser) as Hdesc.
  pose proof Hdesc as (Hhdr & Hins' & _). unfold metadata. rewrite Hfile.
  destruct (Hins' k insn Hk) as [_ Hh]. rewrite (proj2 (Z.eqb_neq _ _) Hne) in Hh.
  destruct Hh as (w & h & Hhs & Hst & _). exists w, h. split; [done|]. intros Ht s Hd.
  set (f := store_bytes ∅ 0 file) in *. set (hdr := read_header f) in *.
  set (insn' := read_insn f _) in *. set (a := md_handler hdr insn') in *.
  unfold exec_handler, metadata. rewrite Hfile. fold f hdr a.
  rewrite (proj1 Hst), Ht. cbn [Z.eqb OHT_Remill].
  destruct Hhdr as (_ & _ & _ & _ & _ & _ & Hnum & _). fold f hdr in Hnum. rewrite Hnum, Nat2Z.id.
  pose proof Hst as (_ & Hol & _ & Hrem & _). destruct (Hrem Ht) as ((c & Hc & Himpl) & _ & _).
  unfold meta_interpRemill. rewrite Hc. cbn [of_option mbind exec_bind]. rewrite Hol, Himpl.
  unfold interpRemill in *. set (m := SetNextPC (oh_oplen h) s.1) in *.
  assert (engine_params state_ptr regoffs ops (oh_args h) m <> Undef) as Hp
    by (intros E; by rewrite E in Hd).
  assert (handler_wf h) as (_ & _ & Hargs).
  { rewrite Forall_forall in Hwf. apply (Hwf (w, h)). by eapply list_elem_of_lookup_2. }
  pose proof (meta_params_agree state_ptr host implementations haswx arm64 regoffs Hro ops mds nodes
    hs insns file a h m Hops Hconv Hdesc Hst Ht Hargs Hp) as Hag.
  cbv zeta in Hag. fold f in Hag. fold hdr in Hag. rewrite Hag.
  destruct (engine_params _ _ _ _ _) as [ps| |]; [|done..]. cbn [mbind exec_bind].
  by apply call_params_agree.
Qed.

(** A program of one instruction with one expression operand, whose semantic
    function stores its argument at the start of the state. *)
Definition sample_handler : OpcodeHandler := mkOH 0x91002020 4 0 0 [(0, false)] 0x10.
Definition sample_call (impl : Z) (ps : list Z) (s : bytes * unit) : exec (bytes * unit) :=
  Ret (store 8 s.1 0 (default 0 (ps !! 2%nat)), s.2).
Definition sample_regoffs : regoffs_t := {[ "X1"%string := 16 ]}.

Theorem interpreters_agree_witness :
  let slots := @a64_slots a64_sample in
  let s := (store 8 ∅ 16 0x1000, tt) in
  ∃ file, @serialize ∅ [mkHandler 5 0x10] true true (@convertOperands sample_codes sample_regoffs [sample_operand])
            [(4%nat, sample_handler)] [mkInsn 0x40 0] = Some file ∧
    let rt := mkRuntime (store_bytes ∅ 0 file) (Z.of_nat (length file)) 0x1000 0x2000 [1] [] in
    ∃ w h, [(4%nat, sample_handler)] !! 0%nat = Some (w, h) ∧
      (oh_type h = OHT_Remill ->
       @exec_handler slots sample_codes unit 0x7000 sample_call (fun _ _ => Abort) (fun _ _ _ => Abort)
         [mkHandler 5 0x10] rt (read_insn (rt_file rt) (md_insns (metadata rt) + 8 * Z.of_nat 0)) s
       = as_meta (@interpRemill slots sample_codes unit 0x7000 sample_call sample_regoffs
                    [sample_operand] h s)).
Proof.
  intros slots s.
  destruct (@convertOperands sample_codes sample_regoffs [sample_operand]) as [[ok mds] nodes] eqn:E.
  assert (ok = true) as -> by (vm_compute in E; by simplify_eq).
  destruct (serialize ∅ [mkHandler 5 0x10] true true (true, mds, nodes) [(4%nat, sample_handler)] [mkInsn 0x40 0])
    as [file|] eqn:Ef; [|vm_compute in E; simplify_eq; vm_compute in Ef; discriminate Ef].
  exists file. split; [done|]. intros rt.
  destruct (@interpreters_agree slots sample_codes unit 0x7000 sample_call (fun _ _ => Abort)
    (fun _ _ _ => Abort) ∅ [mkHandler 5 0x10] true true sample_regoffs [sample_operand] mds nodes
    [(4%nat, sample_handler)] [mkInsn 0x40 0] file 0%nat (mkInsn 0x40 0) rt) as (w & h & Hl & Ha).
  - intros n o Ho. unfold sample_regoffs in Ho. apply lookup_singleton_Some in Ho as [_ <-]. lia.
  - constructor; [|constructor]. unfold operand_ok, reg_ok, i64, fits, sample_operand; cbn.
    split_and!; try lia; try done. intros w [= <-]. lia.
  - exact E.
  - repeat constructor; cbn; lia.
  - repeat constructor; cbn; lia.
  - exact Ef.
  - done.
  - done.
  - unfold UINT32_MAX. cbn. lia.
  - exists w, h. split; [exact Hl|]. intros Ht. apply (Ha Ht s).
    change (Some (4%nat, sample_handler) = Some (w, h)) in Hl.
    assert (h = sample_handler) as -> by congruence. intros Hu.
    assert (match @interpRemill slots sample_codes unit 0x7000 sample_call sample_regoffs
              [sample_operand] sample_handler s with Undef => true | _ => false end = false) as Hd
      by (vm_compute; reflexivity).
    rewrite Hu in Hd. discriminate Hd.
Defined.

(** C15: an invariant of every run of [vmEntry]. From modules whose caches are
    fresh, in every state reached: the modules are the same up to their
    caches; every cache slot holds the index after its own or its own, so that
    a branch to anywhere else searches again each time it is taken; and
    whenever an instruction is about to run, before the debugger's hook if
    there is one (whatever the hook does to the state), it is an entry of its module with
    the low 32 bits of the pc's offset as its address, the pc itself when it
    lies in the module and the module is no longer than 4 GiB. *)
Theorem vm_invariant `{PCSlots} `{Codes} {W : Type} (state_ptr : Z)
    (call : Z -> list Z -> bytes * W -> exec (bytes * W)) interpMCInst execDynamic CallHost insn_handler
    (implementations : list Handler) (this : Z) (v0 v : vm) :
  (∀ impl ps s s', byte_store s.1 -> call impl ps s = Ret s' -> byte_store s'.1) ->
  (∀ i s s', byte_store s.1 -> interpMCInst i s = Ret s' -> byte_store s'.1) ->
  (∀ rt a s s', byte_store s.1 -> execDynamic rt a s = Ret s' -> byte_store s'.1) ->
  (∀ pc s pc' s', byte_store s.1 -> CallHost pc s = Ret (pc', s') -> byte_store s'.1) ->
  (∀ f pc s s', insn_handler = Some f -> byte_store s.1 -> f pc s = Ret s' -> byte_store s'.1) ->
  vm_inv (vm_rts v0) v0 ->
  reaches state_ptr call interpMCInst execDynamic CallHost insn_handler implementations this v0 v ->
  same_modules (vm_rts v0) (vm_rts v) ∧
  (∀ (k i : nat) rt c, vm_rts v !! k = Some rt -> nexticache rt !! i = Some c ->
     c = wrap32 (Z.of_nat i + 1) \/ c = wrap32 (Z.of_nat i)) ∧
  (vm_phase v = Executing ->
   ∃ rt x, vm_rts v !! vm_rt v = Some rt ∧ insn_at rt (vm_insn v) = Some x ∧
     rva x = wrap32 (vm_pc v - rtbase rt) ∧
     (contain rt (vm_pc v) = true -> rtend rt <= rtbase rt + 2 ^ 32 ->
      wrap64 (rtbase rt + rva x) = vm_pc v)).
Proof.
  intros H1 H2 H3 H4 H5 Hinv Hr.
  pose proof (reaches_inv state_ptr call interpMCInst execDynamic CallHost insn_handler implementations this
    H1 H2 H3 H4 H5 _ _ _ Hinv Hr) as (Hok & Hsame & Hb & Hi).
  split_and!; [done| |].
  - intros k i rt c Hk Hc. by apply (proj2 (rts_ok_lookup _ _ _ Hok Hk)).
  - intros He. destruct (Hi He) as (rt & x & Hk & Hx & Hrva). exists rt, x. split_and!; [done..|].
    intros Hcon Hsize. unfold contain in Hcon. bsplit. apply address_of; [lia| |done].
    by apply (load_fits 8).
Qed.

(** A module of two no-ops run as native code. *)
Definition sample_file : list Z :=
  default [] (serialize ∅ [] false true (true, [], []) [(4%nat, mkOH 0xd503201f 4 2 0 [] 0)]
                [mkInsn 0 0; mkInsn 4 0]).
Definition sample_rt : Runtime :=
  mkRuntime (store_bytes ∅ 0 sample_file) (Z.of_nat (length sample_file)) 0x1000 0x2000 [1; 2] [].
Definition sample_dynamic `{PCSlots} (rt : Runtime) (a : Z) (s : bytes * unit) : exec (bytes * unit) :=
  Ret (set_pc (get_pc s.1 + 4) s.1, s.2).
Definition sample_step `{PCSlots} : vm (W := unit) -> exec (outcome (W := unit)) :=
  @vm_step _ sample_codes unit 0x7000 (fun _ _ _ => Abort) (fun _ _ => Abort) sample_dynamic
    (fun _ _ => Abort) (Some (fun _ s => Ret s)) [] 0xdead.
Definition step_or {W} (step : vm (W := W) -> exec (outcome (W := W))) (v : vm (W := W)) : vm :=
  match step v with Ret (Running v') => v' | _ => v end.
Definition steps {W} (step : vm (W := W) -> exec (outcome (W := W))) (v : vm (W := W)) : bool :=
  match step v with Ret (Running _) => true | _ => false end.

Lemma steps_to {W} (step : vm (W := W) -> exec (outcome (W := W))) v : steps step v = true ->
  step v = Ret (Running (step_or step v)).
Proof. unfold steps, step_or. destruct (step v) as [[v'|s]| |]; done. Qed.

Theorem vm_invariant_witness :
  let slots := @a64_slots a64_sample in
  let v0 := mkVM [sample_rt] 0%nat 0%nat Executing (@set_pc slots 0x1000 ∅, tt) in
  let v2 := step_or (@sample_step slots) (step_or (@sample_step slots) v0) in
  @vm_pc slots unit v2 = 0x1004 ∧ vm_insn v2 = 1%nat ∧ same_modules [sample_rt] (vm_rts v2).
Proof.
  intros slots v0 v2. split_and!; [by vm_compute|by vm_compute|].
  destruct (@vm_invariant slots sample_codes unit 0x7000 (fun _ _ _ => Abort) (fun _ _ => Abort)
    sample_dynamic (fun _ _ => Abort) (Some (fun _ s => Ret s)) [] 0xdead v0 v2) as (Hs & _); [done|done| |done| | | |exact Hs].
  - intros rt a s s' Hb [= <-]. by apply byte_store_store.
  - intros f pc s s' [= <-] Hb [= <-]. done.
  - split_and!.
    + apply Forall_singleton. split; [apply byte_store_bytes; [apply byte_store_empty|]|].
      * apply (bool_decide_unpack _). by vm_compute.
      * intros i c Hi. destruct i as [|[|i]]; cbn in Hi; simplify_eq; by left.
    + done.
    + by apply byte_store_store.
    + intros _. unfold insn_for. exists sample_rt. eexists. split; [done|]. split; vm_compute; reflexivity.
  - pose proof (steps_to (@sample_step slots) v0 ltac:(vm_compute; reflexivity)) as S1.
    pose proof (steps_to (@sample_step slots) (step_or (@sample_step slots) v0)
      ltac:(vm_compute; reflexivity)) as S2.
    fold v2 in S2. unfold sample_step at 1 in S1. unfold sample_step at 1 in S2.
    eapply reaches_step; [eapply reaches_step; [apply reaches_refl|exact S1]|exact S2].
Defined.

Lemma fresh_cache_ok file size base end_ rt : RuntimeMetaData_new file size base end_ = Ret rt ->
  cache_ok rt.
Proof.
  unfold RuntimeMetaData_new. intros Hn. bind_inv Hn. simplify_eq. intros i c Hc. left. cbn in Hc.
  rewrite list_lookup_fmap in Hc. apply fmap_Some in Hc as (j & Hj & ->).
  apply lookup_seqZ in Hj as [-> _]. done.
Qed.

(** C39: looking an address up in a module. When the instructions are sorted,
    the search ends inside the file and finds the instruction whose offset
    has the 32 bits of the address's; without one it finds nothing when some
    instruction lies beyond, and otherwise answers from what follows the last
    instruction in the file, read as if it were one more. *)
Theorem find_spec (rt : Runtime) (insns : list InsnMeta) (addr : Z) :
  rt_ok rt insns ->
  let key := wrap32 (addr - rtbase rt) in
  (∀ (i : nat) x, insns !! i = Some x -> rva x = key -> find rt addr = Ret (Some i)) ∧
  ((∀ (i : nat) x, insns !! i = Some x -> rva x <> key) ->
   ((∃ (i : nat) x, insns !! i = Some x ∧ key < rva x) -> find rt addr = Ret None) ∧
   ((∀ (i : nat) x, insns !! i = Some x -> rva x < key) ->
    find rt addr = (x ← of_option Undef (insn_at rt (length insns));
                    Ret (if rva x =? key then Some (length insns) else None)))).
Proof.
  intros Hok key. split; [by intros; eapply find_found|]. intros Hne.
  pose proof (find_rank rt insns addr Hok) as Hf. cbv zeta in Hf. fold key in Hf. rewrite Hf.
  pose proof Hok as (_ & _ & Hs & Hat). pose proof (strict_sorted InsnMeta_key insns Hs) as Hks.
  pose proof (rank_le InsnMeta_key insns key) as Hle. split.
  - intros (i & x & Hi & Hx).
    assert (rank InsnMeta_key insns key <= i)%nat as Hr.
    { destruct (decide (i < rank InsnMeta_key insns key)%nat) as [Hlt|]; [|lia].
      apply (rank_lookup InsnMeta_key insns key i x Hks Hi) in Hlt. unfold InsnMeta_key in Hlt. lia. }
    destruct (lookup_lt_is_Some_2 insns (rank InsnMeta_key insns key)) as [y Hy].
    { apply lookup_lt_Some in Hi. lia. }
    rewrite (Hat _ _ Hy). cbn. by rewrite (proj2 (Z.eqb_neq _ _) (Hne _ _ Hy)).
  - intros Hall. assert (rank InsnMeta_key insns key = length insns) as ->; [|done].
    destruct (decide (rank InsnMeta_key insns key < length insns)%nat) as [Hlt|]; [|lia]. exfalso.
    destruct (lookup_lt_is_Some_2 insns _ Hlt) as [y Hy].
    pose proof (proj1 (rank_lookup InsnMeta_key insns key _ y Hks Hy) (Hall _ _ Hy)). lia.
Qed.

Theorem find_spec_witness :
  find sample_rt 0x1004 = Ret (Some 1%nat) ∧ find sample_rt 0x1002 = Ret None.
Proof.
  destruct (find_spec sample_rt [mkInsn 0 0; mkInsn 4 0] 0x1004) as [Hf _].
  { split_and!; [by vm_compute|done| |].
    - intros [|[|i]] [|[|j]] x y Hij Hx Hy; cbn in Hx, Hy; simplify_eq; lia || (cbn; lia).
    - intros [|[|i]] x Hx; cbn in Hx; simplify_eq; by vm_compute. }
  split; [by apply (Hf 1%nat (mkInsn 4 0))|by vm_compute].
Defined.

(** The search can find an instruction that does not exist. In a file
    with one instruction at offset 0, the first operand read as an entry has
    the offset 0x1010040, and an address with that offset is found. *)
Theorem find_reads_operands :
  ∃ file, @serialize ∅ [] false true (true, [mkMOperand 64 1 1 (VReg (mkMReg 8 64))], [])
            [(4%nat, mkOH 0xd503201f 4 2 0 [] 0)] [mkInsn 0 0] = Some file ∧
    let rt := mkRuntime (store_bytes ∅ 0 file) (Z.of_nat (length file)) 0x100000000 0x200000000 [1] [] in
    num_insns rt = 1%nat ∧ find rt (0x100000000 + 0x1010040) = Ret (Some 1%nat).
Proof. eexists. split; [vm_compute; reflexivity|]. by vm_compute. Qed.

Lemma interp_find_rank rts addr (k : nat) rt : key_sorted rtbase rts ->
  rts !! k = Some rt ->
  (rank rtbase rts addr = k \/ (rank rtbase rts addr = length rts ∧ S k = length rts)) ->
  interp_find rts addr =
    if addr >? rtend rt then Ret None else insn ← find rt addr; Ret (Some (k, insn)).
Proof.
  intros Hs Hk Hr. unfold interp_find.
  assert (rts <> []) as Hne by (by intros ->). pose proof (lookup_lt_Some _ _ _ Hk).
  rewrite (binary_search_rank rtbase rts (rt_key addr) Hne Hs). cbn [mbind exec_bind rtbase rt_key].
  assert ((if (rank rtbase rts addr =? length rts)%nat then (length rts - 1)%nat
           else rank rtbase rts addr) = k) as ->.
  { destruct (Nat.eqb_spec (rank rtbase rts addr) (length rts)); lia. }
  by rewrite Hk.
Qed.

(** Which module an address is looked up in. With modules sorted by their
    bases: the address of a base finds its module, an address above every
    base finds the last module, but an address strictly between the bases of
    two neighbours, inside the first of them, is looked up in the second;
    outside what is found an address counts as inside up to and including the
    end. *)
Theorem interp_find_modules (rts : runtimes) (addr : Z) (k : nat) (rt : Runtime) :
  (∀ (i j : nat) x y, (i < j)%nat -> rts !! i = Some x -> rts !! j = Some y -> rtbase x < rtbase y) ->
  rts !! k = Some rt ->
  let lookup := if addr >? rtend rt then Ret None else insn ← find rt addr; Ret (Some (k, insn)) in
  (addr = rtbase rt -> interp_find rts addr = lookup) ∧
  (S k = length rts -> rtbase rt < addr -> interp_find rts addr = lookup) ∧
  (∀ j prev, k = S j -> rts !! j = Some prev -> rtbase prev < addr < rtbase rt ->
   interp_find rts addr = lookup).
Proof.
  intros Hs Hk lookup. pose proof (strict_sorted rtbase rts Hs) as Hks.
  pose proof (rank_le rtbase rts addr) as Hle. pose proof (lookup_lt_Some _ _ _ Hk). split_and!.
  - intros ->. apply interp_find_rank; [done|done|]. left. by apply rank_found.
  - intros Hl Ha. apply interp_find_rank; [done|done|]. right. split; [|done].
    pose proof (proj1 (rank_lookup rtbase rts addr k rt Hks Hk) Ha). lia.
  - intros j prev -> Hj [H1 H2]. apply interp_find_rank; [done|done|]. left.
    pose proof (proj1 (rank_lookup rtbase rts addr j prev Hks Hj) H1).
    assert (~ (S j < rank rtbase rts addr)%nat); [|lia].
    intros Hlt. apply (rank_lookup rtbase rts addr (S j) rt Hks Hk) in Hlt. lia.
Qed.

Theorem interp_find_modules_witness :
  let rt2 := mkRuntime (rt_file sample_rt) (mdsize sample_rt) 0x3000 0x4000 [1; 2] [] in
  interp_find [sample_rt; rt2] 0x1004 =
    (insn ← find rt2 0x1004; Ret (Some (1%nat, insn))) ∧
  interp_find [sample_rt; rt2] 0x1004 = Ret (Some (1%nat, None)).
Proof.
  intros rt2. destruct (interp_find_modules [sample_rt; rt2] 0x1004 1 rt2) as (_ & _ & Hf).
  - intros [|[|i]] [|[|j]] x y Hij Hx Hy; cbn in Hx, Hy; simplify_eq; lia || (cbn; lia).
  - done.
  - split; [|by vm_compute]. apply (Hf 0%nat sample_rt); [done|done|cbn; lia].
Defined.

(** The MCInsts a module decodes when it is loaded are not the ones its
    records number. The engine numbers distinct opcodes; the constructor adds
    one per instruction: with the opcodes A, A, C the record of C has number
    1, where the list has A. *)
Theorem mcinst_number_mismatch :
  let A := 0xa9bf7bfd in
  let C := 0xfc1f0fe8 in
  let hs := [(4%nat, mkOH A 4 1 0 [(0, false)] 0); (4%nat, mkOH C 4 1 0 [(1, false)] 0)] in
  ∃ file rt, serialize ∅ [] false true (true, [], []) hs [mkInsn 0 0; mkInsn 4 0; mkInsn 8 1] = Some file ∧
    RuntimeMetaData_new (store_bytes ∅ 0 file) (Z.of_nat (length file)) 0x1000 0x2000 = Ret rt ∧
    h_impl (read_handler (rt_file rt) (md_handler (metadata rt) (read_insn (rt_file rt) 64))) = 1 ∧
    mcinsts rt = [le_bytes 4 A; le_bytes 4 A; le_bytes 4 C].
Proof.
  intros A C hs.
  destruct (serialize ∅ [] false true (true, [], []) hs [mkInsn 0 0; mkInsn 4 0; mkInsn 8 1])
    as [file|] eqn:E; [|vm_compute in E; discriminate E].
  exists file. unfold RuntimeMetaData_new. eexists. split; [done|].
  assert (file = default [] (Some file)) as Hf by done. rewrite <- E in Hf.
  assert (load_mcinsts (mkRuntime (store_bytes ∅ 0 file) (Z.of_nat (length file)) 0x1000 0x2000 [] [])
    (num_insns (mkRuntime (store_bytes ∅ 0 file) (Z.of_nat (length file)) 0x1000 0x2000 [] [])) 0 []
    = Ret [le_bytes 4 A; le_bytes 4 A; le_bytes 4 C]) as -> by (rewrite Hf; by vm_compute).
  split; [reflexivity|]. split; [|done]. rewrite Hf. by vm_compute.
Qed.

(** The number of operands of a semantic function. Up to 13 the function
    is called once, with the memory, the state and the operands, and the pc is
    what it left as next pc; a 14th is refused without a call; from the 15th
    on the parameter array of 16 is overrun, though a record can have 255. *)
Theorem interpRemill_arguments `{PCSlots} `{Codes} {W : Type} (state_ptr : Z)
    (call : Z -> list Z -> bytes * W -> exec (bytes * W)) (regoffs : regoffs_t)
    (ops : list RemillOperand) (h : OpcodeHandler) (s : bytes * W) (ps : list Z) :
  let m := SetNextPC (oh_oplen h) s.1 in
  let n := length (oh_args h) in
  engine_params state_ptr regoffs ops (oh_args h) m = Ret ps ->
  length ps = n ∧ get_pc m = get_pc s.1 ∧
  load 8 m next_off = wrap64 (get_pc s.1 + oh_oplen h) ∧
  interpRemill state_ptr call regoffs ops h s =
    if (n <=? 13)%nat then
      s' ← call (oh_impl h) (0 :: state_ptr :: ps) (m, s.2);
      Ret (true, (set_pc (load 8 s'.1 next_off) s'.1, s'.2))
    else if (n =? 14)%nat then Ret (false, (m, s.2))
    else Undef.
Proof.
  intros m n Hps. assert (length ps = n) as Hl by (by eapply mapE_length).
  pose proof slots_disjoint as Hdis. split_and!; [done| | |].
  - unfold m, SetNextPC, get_pc. apply load_store_disjoint. lia.
  - unfold m, SetNextPC. apply load_store.
  - unfold interpRemill. fold m. rewrite Hps. cbn [mbind exec_bind]. unfold call_params.
    assert (length ([0; state_ptr] ++ ps) = (2 + n)%nat) as -> by (cbn; lia).
    destruct (Nat.leb_spec n 13); [|destruct (Nat.eqb_spec n 14)].
    + rewrite (proj2 (Nat.ltb_ge _ _)), (proj2 (Nat.ltb_ge _ _)) by lia. done.
    + rewrite (proj2 (Nat.ltb_ge _ _)), (proj2 (Nat.ltb_lt _ _)) by lia. done.
    + by rewrite (proj2 (Nat.ltb_lt _ _)) by lia.
Qed.

Theorem interpRemill_arguments_witness :
  let slots := @a64_slots a64_sample in
  let s := (@set_pc slots 0x1000 (store 8 ∅ 16 0x1000), tt) in
  let m := @SetNextPC slots 4 s.1 in
  @load 8 m (@next_off slots) = 0x1004 ∧
  @interpRemill slots sample_codes unit 0x7000 sample_call sample_regoffs [sample_operand] sample_handler s =
    (s' ← sample_call 0x10 [0; 0x7000; 0x1008] (m, tt);
     Ret (true, (@set_pc slots (load 8 s'.1 (@next_off slots)) s'.1, s'.2))).
Proof.
  intros slots s m.
  destruct (@interpRemill_arguments slots sample_codes unit 0x7000 sample_call sample_regoffs
    [sample_operand] sample_handler s [0x1008]) as (_ & _ & Hn & Hi).
  - by vm_compute.
  - split; [|exact Hi]. etransitivity; [exact Hn|by vm_compute].
Defined.
