(* ===== verification/Modules.v ===== *)
(** The modules of the chained interpreter as objects: the vector [runtimes]
    of src/InterpMetaData.cpp, whose elements own a mapping of a file, and
    [BinaryEngine::runMain] of src/AetherVM.cpp, which fills it. Interp takes
    the modules as values; here their copies and destructors count, since
    [RuntimeMetaData] has a destructor and so is copied where a vector moves
    its elements. The file system and the loader are parameters. *)
From Stdlib Require Import ZArith Lia List String.
From stdpp Require Import base list gmap strings sorting.
From S2P Require Import Prelude Utils StateMem CPUState Regoffs Operands IMetaData MetaOperands.
From S2P Require Import Convert OpcodeCache Handler PreEncoder Interp.
#[local] Open Scope Z_scope.

(** * Objects *)

(** A module: the path it came from, the address its file is mapped at, and
    what Interp knows of it. *)
Record RuntimeMetaData := mkModule { path : string; data : Z; rt : Runtime }.

(** [mapped]: the addresses at which the process has a file mapped. *)
Record InterpMetaData := mkInterp { runtimes : list RuntimeMetaData; capacity : nat; mapped : gset Z }.
Definition InterpMetaData_new : InterpMetaData := mkInterp [] 0 ∅.

(** The destructor unmaps the file, of every copy. *)
Definition destroy (o : RuntimeMetaData) (m : gset Z) : gset Z :=
  if String.eqb (path o) "" then m else m ∖ {[data o]}.
Definition destroy_all (l : list RuntimeMetaData) (m : gset Z) : gset Z := foldr destroy m l.

(** [std::sort] copies elements into temporaries, which it destroys; it does
    not touch a range of fewer than two. *)
Class SortModules := {
  sort_modules : list RuntimeMetaData -> list RuntimeMetaData;
  sort_temps : list RuntimeMetaData -> list RuntimeMetaData;
  sort_modules_perm : ∀ l, sort_modules l ≡ₚ l;
  sort_modules_sorted : ∀ l, key_sorted rtbase (rt <$> sort_modules l);
  sort_temps_short : ∀ l, (length l <= 1)%nat -> sort_temps l = []
}.

Section Loading.
Context `{SortModules}.
(** The capacity a full vector of a size grows to. *)
Variable grow : nat -> nat.
(** The file of a module's metadata, whether it exists, and where it is
    mapped, with its bytes and size. *)
Variable aevm_path : string -> string.
Variable exists_file : string -> bool.
Variable map_file_readonly : gset Z -> string -> option (Z * bytes * Z).

(** [emplace_back]: a full vector copies its elements to a larger block and
    destroys the old ones. *)
Definition emplace_back (o : RuntimeMetaData) (s : InterpMetaData) : InterpMetaData :=
  if (length (runtimes s) <? capacity s)%nat then mkInterp (runtimes s ++ [o]) (capacity s) (mapped s)
  else mkInterp (runtimes s ++ [o]) (grow (length (runtimes s))) (destroy_all (runtimes s) (mapped s)).

Definition sort_runtimes (s : InterpMetaData) : InterpMetaData :=
  mkInterp (sort_modules (runtimes s)) (capacity s) (destroy_all (sort_temps (runtimes s)) (mapped s)).

(** [RuntimeMetaData::RuntimeMetaData]; a file that cannot be mapped has its
    header read at null. *)
Definition make_module (p aevmpath : string) (base end_ : Z) (m : gset Z) : exec (RuntimeMetaData * gset Z) :=
  match map_file_readonly m aevmpath with
  | None => Undef
  | Some (a, file, size) => r ← RuntimeMetaData_new file size base end_; Ret (mkModule p a r, m ∪ {[a]})
  end.

(** [InterpMetaData::add]; the text is the error, empty when there is none. *)
Definition add (p : string) (base end_ : Z) (s : InterpMetaData) : exec (string * InterpMetaData) :=
  let aevm := aevm_path p in
  if negb (exists_file aevm) then Ret ((aevm ++ " does not exist")%string, s)
  else
    '(o, m) ← make_module p aevm base end_ (mapped s);
    Ret (EmptyString, sort_runtimes (emplace_back o (mkInterp (runtimes s) (capacity s) m))).

Definition reset (s : InterpMetaData) : InterpMetaData :=
  mkInterp [] (capacity s) (destroy_all (runtimes s) (mapped s)).

(** [InterpMetaData::find]: as [Interp.interp_find], but the instructions of
    the module are read through its mapping. *)
Definition find (s : InterpMetaData) (addr : Z) : exec (option (nat * option nat)) :=
  let rts := rt <$> runtimes s in
  found ← binary_search (key_ltb rtbase) (arr_rd rts) (length rts) (rt_key addr);
  let rtfound := if (found =? length rts)%nat then (length rts - 1)%nat else found in
  o ← of_option Undef (runtimes s !! rtfound);
  if addr >? rtend (rt o) then Ret None
  else if bool_decide (data o ∈ mapped s) then insn ← Interp.find (rt o) addr; Ret (Some (rtfound, insn))
  else Undef.

(** * [runMain] *)

(** What the loader of a file format brings into memory: path and range of
    each module, and the address of the main function, 0 when it fails. *)
Variable modules : list (string * Z * Z).
Variable mainva : Z.
(** What [InterpMetaData::main] runs from the instruction it has found. *)
Variable run : list Runtime -> nat -> nat -> exec Z.

Fixpoint add_all (l : list (string * Z * Z)) (s : InterpMetaData) : exec InterpMetaData :=
  match l with
  | [] => Ret s
  | (p, base, end_) :: l' => '(_, s) ← add p base end_ s; add_all l' s
  end.

Definition main (entry : Z) (s : InterpMetaData) : exec Z :=
  found ← find s entry;
  match found with
  | Some (k, Some i) => run (rt <$> runtimes s) k i
  | _ => Ret (-1)
  end.

Definition runMain (s : InterpMetaData) : exec (Z * InterpMetaData) :=
  s ← add_all modules s;
  if mainva =? 0 then Ret (-1, s)
  else result ← main mainva s; Ret (result, reset s).
End Loading.

(** * Lemmas *)

Definition readable (s : InterpMetaData) (o : RuntimeMetaData) : Prop := data o ∈ mapped s.

Lemma destroy_subseteq o m : destroy o m ⊆ m.
Proof. unfold destroy. destruct (String.eqb _ _); set_solver. Qed.
Lemma destroy_all_subseteq l m : destroy_all l m ⊆ m.
Proof. induction l as [|o l IH]; [done|]. cbn. etransitivity; [apply destroy_subseteq|exact IH]. Qed.
Lemma destroy_all_gone l m o : o ∈ l -> path o <> ""%string -> data o ∉ destroy_all l m.
Proof.
  intros Ho Hp. induction l as [|o' l IH]; [by apply elem_of_nil in Ho|]. cbn. apply elem_of_cons in Ho as [<-|Ho].
  - unfold destroy. apply String.eqb_neq in Hp. rewrite Hp. set_solver.
  - intros Hin%destroy_subseteq. by apply IH.
Qed.

Lemma find_readable s addr : (∀ o, o ∈ runtimes s -> readable s o) -> find s addr = interp_find (rt <$> runtimes s) addr.
Proof.
  intros Hr. unfold find, interp_find. destruct (binary_search _ _ _ _) as [found| |]; [|done..]. cbn [mbind exec_bind].
  set (k := if (found =? length (rt <$> runtimes s))%nat then _ else _). rewrite list_lookup_fmap.
  destruct (runtimes s !! k) as [o|] eqn:Ho; [|done]. cbn. rewrite bool_decide_true; [done|].
  apply Hr. by apply list_elem_of_lookup_2 in Ho.
Qed.

Lemma add_inv `{SortModules} grow aevm_path exists_file map_file p base end_ s e s' :
  add grow aevm_path exists_file map_file p base end_ s = Ret (e, s') -> exists_file (aevm_path p) = true ->
  ∃ a file size r, map_file (mapped s) (aevm_path p) = Some (a, file, size) ∧ RuntimeMetaData_new file size base end_ = Ret r ∧
    e = ""%string ∧ s' = sort_runtimes (emplace_back grow (mkModule p a r) (mkInterp (runtimes s) (capacity s) (mapped s ∪ {[a]}))).
Proof.
  unfold add, make_module. intros Ha He. rewrite He in Ha. cbn [negb] in Ha.
  destruct (map_file _ _) as [[[a file] size]|]; [|done]. bind_inv Ha. bind_inv E. simplify_eq. by eexists _, _, _, _.
Qed.

Lemma runtimes_sorted `{SortModules} grow o s :
  runtimes (sort_runtimes (emplace_back grow o s)) = sort_modules (runtimes s ++ [o]).
Proof. unfold sort_runtimes, emplace_back. by destruct (_ <? _)%nat. Qed.

(** * Properties *)

(** C17: what happens to the modules when one is added. They are those there
    were and the new one, sorted by their bases; a first module can be read. But
    when the vector is full its elements are copied and the old ones destroyed,
    which unmaps their files: of the modules that could be read before, none can
    after. *)
Theorem modules_lifetime `{SortModules} grow aevm_path exists_file map_file_readonly p base end_ s e s' :
  add grow aevm_path exists_file map_file_readonly p base end_ s = Ret (e, s') -> exists_file (aevm_path p) = true ->
  (∀ m q a file size, map_file_readonly m q = Some (a, file, size) -> a ∉ m) ->
  (∃ o, path o = p ∧ rtbase (rt o) = base ∧ rtend (rt o) = end_ ∧ runtimes s' ≡ₚ runtimes s ++ [o] ∧
     key_sorted rtbase (rt <$> runtimes s') ∧ (runtimes s = [] -> readable s' o)) ∧
  (capacity s = length (runtimes s) -> ∀ o, o ∈ runtimes s -> path o <> ""%string -> readable s o -> o ∈ runtimes s' ∧ ~ readable s' o).
Proof.
  intros Ha He Hfresh. destruct (add_inv _ _ _ _ _ _ _ _ _ _ Ha He) as (a & file & size & r & Hm & Hr & -> & ->).
  set (o := mkModule p a r). set (s1 := mkInterp (runtimes s) (capacity s) (mapped s ∪ {[a]})).
  assert (rtbase r = base ∧ rtend r = end_) as [Hb Hend].
  { unfold RuntimeMetaData_new in Hr. bind_inv Hr. by simplify_eq. }
  rewrite runtimes_sorted. assert (sort_modules (runtimes s1 ++ [o]) ≡ₚ runtimes s ++ [o]) as Hp by apply sort_modules_perm. split.
  - exists o. split_and!; [done..|apply sort_modules_sorted|]. intros Hnil. unfold readable, sort_runtimes, emplace_back.
    cbn [runtimes capacity mapped s1]. rewrite Hnil. destruct (_ <? _)%nat; cbn [runtimes mapped app];
      rewrite sort_temps_short by (cbn; lia); cbn; set_solver.
  - intros Hcap o' Ho Hpath Hread. split; [rewrite Hp; set_solver|]. unfold readable, sort_runtimes, emplace_back.
    cbn [runtimes capacity mapped s1]. rewrite Hcap, Nat.ltb_irrefl. cbn [mapped runtimes].
    intros Hin%destroy_all_subseteq. by apply (destroy_all_gone (runtimes s) (mapped s ∪ {[a]}) o').
Qed.

#[local] Instance base_le_dec : RelDecision (fun x y : RuntimeMetaData => rtbase (rt x) <= rtbase (rt y)).
Proof. intros x y. apply _. Defined.
(** A sort that needs no temporaries. *)
Definition in_place_sort : SortModules.
Proof.
  refine {| sort_modules := merge_sort (fun x y => rtbase (rt x) <= rtbase (rt y)); sort_temps := fun _ => [] |}; [|intros l|done].
  - intros. apply merge_sort_Permutation.
  - apply key_sorted_fmap, Sorted_key_sorted. apply Sorted_merge_sort. intros x y. lia.
Defined.

(** The same file for two modules, mapped at one of two places. *)
Definition sample_map (m : gset Z) (q : string) : option (Z * bytes * Z) :=
  if bool_decide (0x10000 ∈ m) then if bool_decide (0x20000 ∈ m) then None else Some (0x20000, rt_file sample_rt, mdsize sample_rt)
  else Some (0x10000, rt_file sample_rt, mdsize sample_rt).
Definition sample_add := add (H := in_place_sort) (fun n => 2 * n + 1)%nat id (fun _ => true) sample_map.
Definition get_state {A} (d : A) (e : exec (string * A)) : A := match e with Ret (_, s) => s | _ => d end.
Definition one_module : InterpMetaData := get_state InterpMetaData_new (sample_add "main" 0x1000 0x2000 InterpMetaData_new).
Definition two_modules : InterpMetaData := get_state InterpMetaData_new (sample_add "lib" 0x3000 0x4000 one_module).

Lemma sample_map_fresh m q a file size : sample_map m q = Some (a, file, size) -> a ∉ m.
Proof. unfold sample_map. repeat case_bool_decide; intros; by simplify_eq. Qed.

Theorem modules_lifetime_witness :
  find one_module 0x1000 = Ret (Some (0%nat, Some 0%nat)) ∧ find two_modules 0x1000 = Undef ∧
  ∃ o, o ∈ runtimes two_modules ∧ path o = "main"%string ∧ ~ readable two_modules o.
Proof.
  split; [by vm_compute|]. split; [by vm_compute|].
  assert (sample_add "lib" 0x3000 0x4000 one_module = Ret (EmptyString, two_modules)) as Ha by (vm_compute; reflexivity).
  destruct (modules_lifetime (H := in_place_sort) (fun n => 2 * n + 1)%nat id (fun _ => true) sample_map "lib" 0x3000 0x4000 one_module
    EmptyString two_modules Ha eq_refl sample_map_fresh) as [_ Hgone].
  specialize (Hgone ltac:(vm_compute; reflexivity)).
  destruct (runtimes one_module) as [|o l] eqn:E; [vm_compute in E; discriminate E|].
  exists o. assert (path o = "main"%string) as Hp.
  { assert (path <$> runtimes one_module = ["main"%string]) as Hl by (vm_compute; reflexivity). rewrite E in Hl. by injection Hl. }
  destruct (Hgone o) as [Hin Hr]; [apply list_elem_of_here|by rewrite Hp| |by split_and!].
  assert (forallb (fun o => bool_decide (data o ∈ mapped one_module)) (runtimes one_module) = true) as Hl by (vm_compute; reflexivity).
  rewrite E in Hl. apply andb_true_iff in Hl as [Hl _]. by apply bool_decide_eq_true in Hl.
Defined.

(** A program of one module: [runMain] is the run of its main function, found as
    Interp finds it, or [-1], and nothing stays mapped. *)
Theorem runMain_one_module `{SortModules} grow aevm_path exists_file map_file_readonly run p base end_ mainva a file size r :
  p <> EmptyString -> mainva <> 0 -> exists_file (aevm_path p) = true ->
  map_file_readonly ∅ (aevm_path p) = Some (a, file, size) -> RuntimeMetaData_new file size base end_ = Ret r ->
  runMain grow aevm_path exists_file map_file_readonly [(p, base, end_)] mainva run InterpMetaData_new =
    (result ← (found ← interp_find [r] mainva; match found with Some (k, Some i) => run [r] k i | _ => Ret (-1) end);
     Ret (result, mkInterp [] (grow 0%nat) ∅)).
Proof.
  intros Hp Hm He Hmap Hr. unfold runMain. cbn [add_all]. unfold add, make_module.
  change (mapped InterpMetaData_new) with (∅ : gset Z). rewrite He, Hmap, Hr. cbn [negb mbind exec_bind].
  set (o := mkModule p a r). set (s := sort_runtimes _).
  assert (runtimes s = [o]) as Hrun.
  { unfold s. rewrite runtimes_sorted. cbn [InterpMetaData_new runtimes app]. apply Permutation_singleton_r, sort_modules_perm. }
  assert (mapped s = {[a]} ∧ capacity s = grow 0%nat) as [Hmapped Hcap].
  { unfold s, sort_runtimes, emplace_back. cbn [InterpMetaData_new runtimes capacity mapped length Nat.ltb Nat.leb app].
    rewrite sort_temps_short by (cbn; lia). cbn. split; [set_solver|done]. }
  apply Z.eqb_neq in Hm. rewrite Hm. unfold main.
  rewrite find_readable by (rewrite Hrun; intros o' ->%list_elem_of_singleton; unfold readable; rewrite Hmapped; set_solver).
  rewrite Hrun. change (rt <$> [o]) with [r].
  destruct (interp_find [r] mainva) as [[[k [i|]]|]| |]; cbn [mbind exec_bind]; try done; [destruct (run [r] k i); try done; cbn [mbind exec_bind]|..];
    (do 2 f_equal; unfold reset; rewrite Hrun, Hcap, Hmapped; f_equal; cbn; unfold destroy; apply String.eqb_neq in Hp; cbn [path o]; rewrite Hp; set_solver).
Qed.

Theorem runMain_one_module_witness :
  runMain (H := in_place_sort) (fun n => 2 * n + 1)%nat id (fun _ => true) sample_map [("main"%string, 0x1000, 0x2000)] 0x1004
    (fun _ k i => Ret (Z.of_nat i)) InterpMetaData_new = Ret (1, mkInterp [] 1 ∅).
Proof.
  destruct (RuntimeMetaData_new (rt_file sample_rt) (mdsize sample_rt) 0x1000 0x2000) as [r| |] eqn:Hr; [|vm_compute in Hr; discriminate Hr..].
  rewrite (runMain_one_module (H := in_place_sort) (fun n => 2 * n + 1)%nat id (fun _ => true) sample_map (fun _ k i => Ret (Z.of_nat i)) "main" 0x1000 0x2000
    0x1004 0x10000 (rt_file sample_rt) (mdsize sample_rt) r ltac:(discriminate) ltac:(discriminate) eq_refl eq_refl Hr).
  assert (match RuntimeMetaData_new (rt_file sample_rt) (mdsize sample_rt) 0x1000 0x2000 with
    Ret r => match interp_find [r] 0x1004 with Ret (Some (0%nat, Some 1%nat)) => true | _ => false end | _ => false end = true) as Hf
    by (vm_compute; reflexivity).
  rewrite Hr in Hf. destruct (interp_find [r] 0x1004) as [[[[|k] [[|[|i]]|]]|]| |]; try discriminate Hf. reflexivity.
Defined.
