(* ===== verification/Memory.v ===== *)
(** Guest memory: the reservation of src/Memory.{h,cpp} and the memory
    operations of [BinaryEngine] (src/AetherVM.cpp). Committing pages and the
    access to other memory of the process belong to the system. *)
From Stdlib Require Import ZArith Lia List.
From stdpp Require Import base list gmap.
From S2P Require Import Prelude Utils.
#[local] Open Scope Z_scope.

(** * [GuestMemory] *)

Definition GUEST_SIZE : Z := 3 * 1024 * 1024 * 1024.

Record GuestMemory := mkGM { basePointer : Z; m_offset : Z }.
(** [page_alloc] returns the base of the reservation. *)
Definition GuestMemory_new (page_alloc : Z) : GuestMemory := mkGM page_alloc 0.

Definition valid (g : GuestMemory) (vmaddr size : Z) : bool :=
  let end_ := wrap64 (basePointer g + m_offset g) in
  (basePointer g <=? vmaddr) && (vmaddr <? end_) && (wrap64 (vmaddr + size) <? end_).

Definition guestAvailable (g : GuestMemory) : Z := wrap64 (basePointer g + m_offset g).

Section Commit.
(** Whether the system commits the pages of an address and a size. *)
Variable page_commit : Z -> Z -> bool.
Variable page_size : Z.

Definition commit (g : GuestMemory) (vmaddr size : Z) : bool * GuestMemory :=
  if wrap64 (m_offset g + size) >=? GUEST_SIZE then (false, g)
  else
    let offset := wrap64 (vmaddr - basePointer g) in
    if wrap64 (offset + size) >=? GUEST_SIZE then (false, g)
    else (page_commit vmaddr size, mkGM (basePointer g) (wrap64 (m_offset g + size))).

(** [BinaryEngine::mapMemory]; 0 is the failure. *)
Definition mapMemory (g : GuestMemory) (size : Z) : Z * GuestMemory :=
  let vmaddr := guestAvailable g in
  let size := align_up size page_size in
  let '(ok, g) := commit g vmaddr size in
  (if ok then vmaddr else 0, g).

(** A sequence of requests: the block each one returned and its length. *)
Fixpoint map_all (g : GuestMemory) (sizes : list Z) : list (Z * Z) * GuestMemory :=
  match sizes with
  | [] => ([], g)
  | size :: sizes' =>
      let '(p, g) := mapMemory g size in
      let '(blocks, g) := map_all g sizes' in
      ((p, align_up size page_size) :: blocks, g)
  end.
End Commit.

(** * The memory of the process *)

(** The binary whose opcodes are emulated: its image base, the address and
    size of its last section, where its addresses lie in the file buffer. *)
Record OpcodeBinary := mkOB { ob_base : Z; ob_last_addr : Z; ob_last_size : Z; ob_addrBuff : Z -> Z }.

Section Access.
(** Reading and writing memory of the process that is not the guest's. *)
Variable memory_read : bytes -> Z -> nat -> option (list Z).
Variable memory_write : bytes -> Z -> list Z -> option bytes.
Variable bin : option OpcodeBinary.
Variable g : GuestMemory.

Definition mappedAddress (addr size : Z) : Z :=
  match bin with
  | Some b =>
      if (ob_base b <=? addr) && (addr <? wrap64 (ob_last_addr b + ob_last_size b)) then ob_addrBuff b addr
      else let rtaddr := wrap64 (basePointer g + addr) in if valid g rtaddr size then rtaddr else 0
  | None => let rtaddr := wrap64 (basePointer g + addr) in if valid g rtaddr size then rtaddr else 0
  end.

(** The buffer, empty on failure. *)
Definition readMemory (m : bytes) (addr : Z) (size : nat) : list Z :=
  let rtaddr := mappedAddress addr (Z.of_nat size) in
  if negb (rtaddr =? 0) then load_bytes m rtaddr size
  else default [] (memory_read m addr size).

Definition readUInt64 (m : bytes) (addr : Z) : Z :=
  let rtaddr := mappedAddress addr 8 in
  if negb (rtaddr =? 0) then load 8 m rtaddr
  else
    match readMemory m addr 8 with
    | [] => 0
    | buff => le_value (take 8 buff)
    end.

Definition writeMemory (m : bytes) (addr : Z) (buff : list Z) : bool * bytes :=
  let rtaddr := mappedAddress addr (Z.of_nat (length buff)) in
  if negb (rtaddr =? 0) then (true, store_bytes m rtaddr buff)
  else match memory_write m addr buff with Some m' => (true, m') | None => (false, m) end.
End Access.

(** * Lemmas *)

(** The reservation lies below 2^64 and its used part in it. *)
Definition gm_ok (g : GuestMemory) : Prop :=
  0 < basePointer g ∧ basePointer g + GUEST_SIZE <= 2 ^ 64 ∧ 0 <= m_offset g < GUEST_SIZE.

Lemma guestAvailable_ok g : gm_ok g -> guestAvailable g = basePointer g + m_offset g.
Proof. intros (H1 & H2 & H3). apply wrap_small. unfold fits. lia. Qed.

Lemma commit_next page_commit g size : gm_ok g -> 0 <= size <= 2 ^ 64 - GUEST_SIZE ->
  commit page_commit g (guestAvailable g) size =
    if m_offset g + size <? GUEST_SIZE
    then (page_commit (basePointer g + m_offset g) size, mkGM (basePointer g) (m_offset g + size))
    else (false, g).
Proof.
  intros Hg Hs. rewrite guestAvailable_ok by done. destruct Hg as (H1 & H2 & H3). unfold commit.
  replace (basePointer g + m_offset g - basePointer g) with (m_offset g) by lia.
  unfold GUEST_SIZE in *. rewrite (wrap_small 64 (m_offset g)) by (unfold fits; lia).
  rewrite (wrap_small 64) by (unfold fits; lia). rewrite Z.geb_leb.
  destruct (Z.leb_spec (3 * 1024 * 1024 * 1024) (m_offset g + size));
    [by rewrite (proj2 (Z.ltb_ge _ _)) by lia|]. by rewrite (proj2 (Z.ltb_lt _ _)) by lia.
Qed.

Section Blocks.
Variable page_commit : Z -> Z -> bool.
Variable n : Z.
Hypothesis n_range : 0 <= n <= 30.
Let page_size := 2 ^ n.

(** One request, when its size does not come near 2^64. *)
Lemma mapMemory_spec g size : gm_ok g -> 0 <= size <= GUEST_SIZE ->
  let len := align_up size page_size in
  let '(p, g') := mapMemory page_commit page_size g size in
  gm_ok g' ∧ basePointer g' = basePointer g ∧ size <= len < size + page_size ∧ (page_size | len) ∧
  (m_offset g' = m_offset g ∧ p = 0 \/
   m_offset g' = m_offset g + len ∧ (p = 0 \/ p = basePointer g + m_offset g)).
Proof.
  intros Hg Hs len. assert (2 ^ n <= 2 ^ 30) by (apply Z.pow_le_mono_r; lia).
  destruct (align_up_cases size n ltac:(lia) ltac:(unfold fits, GUEST_SIZE in *; lia)) as [Ha _].
  destruct (Ha ltac:(unfold GUEST_SIZE in *; lia)) as (Hl & Hd & _).
  fold page_size in Hl, Hd, H. fold len in Hl, Hd. unfold mapMemory. fold len.
  assert (0 <= len <= 2 ^ 64 - GUEST_SIZE) as Hlen by (unfold GUEST_SIZE in *; lia).
  rewrite (commit_next _ _ _ Hg Hlen).
  destruct (Z.ltb_spec (m_offset g + len) GUEST_SIZE); cbn [basePointer m_offset].
  - split_and!; try done; try lia; [destruct Hg as (H1 & H2 & H3); unfold gm_ok; cbn; lia|].
    right. split; [done|]. rewrite guestAvailable_ok by done.
    destruct (page_commit _ _); [by right|by left].
  - split_and!; try done; try lia.
Qed.

(** Blocks of a sequence of requests lie one after the other. *)
Lemma map_all_spec sizes : ∀ g, gm_ok g -> (page_size | basePointer g + m_offset g) ->
  Forall (fun size => 0 <= size <= GUEST_SIZE) sizes ->
  let '(blocks, g') := map_all page_commit page_size g sizes in
  gm_ok g' ∧ basePointer g' = basePointer g ∧ m_offset g <= m_offset g' ∧
  Forall2 (fun b size => b.1 = 0 \/
    (size <= b.2 ∧ (page_size | b.1) ∧
     basePointer g + m_offset g <= b.1 ∧ b.1 + b.2 <= basePointer g + m_offset g')) blocks sizes ∧
  ∀ (i j : nat) b c, (i < j)%nat -> blocks !! i = Some b -> blocks !! j = Some c ->
    b.1 <> 0 -> c.1 <> 0 -> b.1 + b.2 <= c.1.
Proof.
  induction sizes as [|size sizes IH]; intros g Hg Hd Hs; cbn [map_all].
  { split_and!; try done; lia || constructor. }
  apply Forall_cons in Hs as [Hsize Hs].
  pose proof (mapMemory_spec g size Hg Hsize) as H1.
  destruct (mapMemory page_commit page_size g size) as [p g1].
  destruct H1 as (Hg1 & Hb1 & Hlen & Hdl & Hp).
  set (len := align_up size page_size) in *.
  assert (page_size | basePointer g1 + m_offset g1) as Hd1.
  { rewrite Hb1. destruct Hp as [[-> _]|[-> _]]; [done|]. rewrite Z.add_assoc. by apply Z.divide_add_r. }
  specialize (IH g1 Hg1 Hd1 Hs). destruct (map_all page_commit page_size g1 sizes) as [blocks g2].
  destruct IH as (Hg2 & Hb2 & Ho & Hall & Hdis). rewrite Hb1 in *. split_and!.
  - done.
  - done.
  - lia.
  - constructor; [cbn; destruct (decide (p = 0)); [by left|right]|].
    + destruct Hp as [[_ ?]|[Hp [?| ->]]]; [done|done|]. split_and!; [lia|done|lia|lia].
    + eapply Forall2_impl; [exact Hall|]. cbn. intros b sz [?|(? & ? & ? & ?)]; [by left|right].
      split_and!; [done|done|lia|done].
  - intros [|i] [|j] b c Hij Hi Hj Hb Hc; simpl in Hi, Hj; [lia| |lia|].
    + simplify_eq. cbn in *. destruct (Forall2_lookup_l _ _ _ _ _ Hall Hj) as (sz & _ & [?|(_ & _ & ? & _)]); [done|].
      destruct Hp as [[_ ?]|[Hp [?|?]]]; [done|done|]. lia.
    + apply (Hdis i j); [lia|done..].
Qed.
End Blocks.

(** What [writeMemory] accepts reads back, given that the system's own
    accesses do; at the address of the process it is the buffer itself. *)
Lemma writeMemory_readMemory memory_read memory_write (bin : option OpcodeBinary) (g : GuestMemory) (m m' : bytes) addr (buff : list Z) :
  (∀ m a b m', memory_write m a b = Some m' -> memory_read m' a (length b) = Some b) ->
  writeMemory memory_write bin g m addr buff = (true, m') ->
  let rt := mappedAddress bin g addr (Z.of_nat (length buff)) in
  readMemory memory_read bin g m' addr (length buff) = buff ∧ (rt <> 0 -> m' = store_bytes m rt buff).
Proof.
  intros Hrw Hw rt. unfold writeMemory in Hw. fold rt in Hw. unfold readMemory. fold rt.
  destruct (Z.eqb_spec rt 0); cbn [negb] in *.
  - destruct (memory_write m addr buff) as [m1|] eqn:E; [|done]. simplify_eq.
    rewrite (Hrw _ _ _ _ E). done.
  - simplify_eq. split; [apply load_store_bytes|done].
Qed.

(** * Properties *)

(** C30: the blocks [mapMemory] hands out. For any sequence of requests of at
    most the size of the reservation, every block that is returned starts on
    a page, has at least the requested size, lies between what was available
    before and after, and ends before every later block starts; whatever the
    system refuses to commit. *)
Theorem mapMemory_blocks (page_commit : Z -> Z -> bool) (n : Z) (g : GuestMemory) (sizes : list Z) :
  0 <= n <= 30 -> gm_ok g -> (2 ^ n | basePointer g + m_offset g) ->
  Forall (fun size => 0 <= size <= GUEST_SIZE) sizes ->
  let '(blocks, g') := map_all page_commit (2 ^ n) g sizes in
  gm_ok g' ∧
  Forall2 (fun b size => b.1 = 0 \/
    (size <= b.2 ∧ (2 ^ n | b.1) ∧
     basePointer g + m_offset g <= b.1 ∧ b.1 + b.2 <= basePointer g + m_offset g')) blocks sizes ∧
  ∀ (i j : nat) b c, (i < j)%nat -> blocks !! i = Some b -> blocks !! j = Some c ->
    b.1 <> 0 -> c.1 <> 0 -> b.1 + b.2 <= c.1.
Proof.
  intros Hn Hg Hd Hs. pose proof (map_all_spec page_commit n Hn sizes g Hg Hd Hs) as H.
  destruct (map_all _ _ _ _) as [blocks g']. destruct H as (H1 & _ & _ & H2 & H3). done.
Qed.

Definition sample_gm : GuestMemory := mkGM 0x10000 0x2000.

Theorem mapMemory_blocks_witness :
  let '(blocks, g') := map_all (fun _ _ => true) (2 ^ 12) sample_gm [1; 4097; 0] in
  gm_ok g' ∧ blocks = [(0x12000, 0x1000); (0x13000, 0x2000); (0x15000, 0)].
Proof.
  pose proof (mapMemory_blocks (fun _ _ => true) 12 sample_gm [1; 4097; 0]) as H.
  destruct (map_all (fun _ _ => true) (2 ^ 12) sample_gm [1; 4097; 0]) as [blocks g'] eqn:E.
  split.
  - apply H; [lia|unfold gm_ok, GUEST_SIZE; cbn; lia|by exists 0x12|].
    repeat constructor; unfold GUEST_SIZE; lia.
  - vm_compute in E. by simplify_eq.
Defined.

(** A request near 2^64 passes the checks of [commit] by wrapping around
    and lowers the available offset: the next request is given a block that
    was already handed out. *)
Theorem mapMemory_wraps (page_commit : Z -> Z -> bool) :
  let '(_, g) := mapMemory page_commit 0x1000 sample_gm (2 ^ 64 - 0x1000) in
  m_offset g = 0x1000 ∧
  (page_commit 0x11000 0x1000 = true -> (mapMemory page_commit 0x1000 g 0x1000).1 = 0x11000).
Proof.
  assert (mapMemory page_commit 0x1000 sample_gm (2 ^ 64 - 0x1000) =
    (if page_commit 0x12000 (2 ^ 64 - 0x1000) then 0x12000 else 0, mkGM 0x10000 0x1000)) as -> by done.
  split; [done|]. intros Hc.
  assert ((mapMemory page_commit 0x1000 (mkGM 0x10000 0x1000) 0x1000).1 =
    if page_commit 0x11000 0x1000 then 0x11000 else 0) as -> by done.
  by rewrite Hc.
Qed.

Theorem mapMemory_wraps_witness :
  (mapMemory (fun _ _ => true) 0x1000
     (mapMemory (fun _ _ => true) 0x1000 sample_gm (2 ^ 64 - 0x1000)).2 0x1000).1 = 0x11000.
Proof.
  pose proof (mapMemory_wraps (fun _ _ => true)) as H.
  destruct (mapMemory (fun _ _ => true) 0x1000 sample_gm (2 ^ 64 - 0x1000)) as [p g].
  by apply H.
Defined.

(** Which ranges are valid: those that start at the base or above and
    end strictly before the end of the committed memory. The range that ends
    exactly there, such as the whole committed memory, is not. *)
Theorem valid_spec (g : GuestMemory) (vmaddr size : Z) :
  gm_ok g -> 0 <= vmaddr -> 0 <= size -> vmaddr + size < 2 ^ 64 ->
  (valid g vmaddr size = true <->
     basePointer g <= vmaddr ∧ vmaddr + size < basePointer g + m_offset g) ∧
  valid g (basePointer g) (m_offset g) = false.
Proof.
  intros Hg H0 Hs Hw. pose proof Hg as (H1 & H2 & H3). unfold valid. cbv zeta.
  assert (wrap64 (basePointer g + m_offset g) = basePointer g + m_offset g) as He
    by (apply wrap_small; unfold fits; lia).
  rewrite !He. rewrite (wrap_small 64) by (unfold fits; lia). split.
  - rewrite !andb_true_iff, Z.leb_le, !Z.ltb_lt. lia.
  - rewrite Z.ltb_irrefl. by rewrite andb_false_r.
Qed.

Theorem valid_spec_witness :
  (valid sample_gm 0x10ff8 8 = true <-> 0x10000 <= 0x10ff8 ∧ 0x10ff8 + 8 < 0x10000 + 0x2000) ∧
  valid sample_gm 0x10000 0x2000 = false.
Proof. apply (valid_spec sample_gm 0x10ff8 8); [unfold gm_ok, GUEST_SIZE; cbn; lia|lia|lia|lia]. Defined.

(** What [writeMemory] accepts reads back: guest memory and, given that
    the system's own accesses do, any other memory of the process; eight
    bytes read back as the number they hold, and the guest's memory outside
    of the buffer is unchanged. *)
Theorem write_read_memory memory_read memory_write (bin : option OpcodeBinary) (g : GuestMemory)
    (m m' : bytes) (addr : Z) (buff : list Z) :
  (∀ m a b m', memory_write m a b = Some m' -> memory_read m' a (length b) = Some b) ->
  Forall u8 buff -> buff <> [] ->
  writeMemory memory_write bin g m addr buff = (true, m') ->
  readMemory memory_read bin g m' addr (length buff) = buff ∧
  (length buff = 8%nat -> readUInt64 memory_read bin g m' addr = le_value buff) ∧
  (mappedAddress bin g addr (Z.of_nat (length buff)) <> 0 ->
   ∀ a n, a + Z.of_nat n <= mappedAddress bin g addr (Z.of_nat (length buff)) \/
          mappedAddress bin g addr (Z.of_nat (length buff)) + Z.of_nat (length buff) <= a ->
     load_bytes m' a n = load_bytes m a n).
Proof.
  intros Hrw Hu Hne Hw. destruct (writeMemory_readMemory memory_read memory_write bin g m m' addr buff Hrw Hw) as [Hr Hm].
  set (rt := mappedAddress bin g addr (Z.of_nat (length buff))) in *.
  split_and!; [done| |].
  - intros Hl. assert (mappedAddress bin g addr 8 = rt) as Hrt by (unfold rt; by rewrite Hl).
    rewrite Hl in Hr. unfold readUInt64. rewrite Hr, Hrt.
    unfold readMemory in Hr. change (Z.of_nat 8) with 8 in Hr. rewrite Hrt in Hr.
    destruct (Z.eqb_spec rt 0); cbn [negb] in *.
    + destruct buff as [|b0 buff]; [done|].
      change (le_value (take 8 (b0 :: buff)) = le_value (b0 :: buff)). by rewrite take_ge by lia.
    + unfold load. by rewrite Hr.
  - intros Hrt a k Hak. rewrite Hm by done. by apply load_store_bytes_disjoint.
Qed.

Theorem write_read_memory_witness :
  let m' := store_bytes ∅ 0x10100 [1; 2; 3; 4; 5; 6; 7; 8] in
  readMemory (fun _ _ _ => None) None sample_gm m' 0x100 8 = [1; 2; 3; 4; 5; 6; 7; 8] ∧
  readUInt64 (fun _ _ _ => None) None sample_gm m' 0x100 = 0x0807060504030201.
Proof.
  intros m'.
  destruct (write_read_memory (fun _ _ _ => None) (fun _ _ _ => None) None sample_gm ∅ m' 0x100
    [1; 2; 3; 4; 5; 6; 7; 8]) as (Hr & Hu & _).
  - done.
  - repeat constructor; lia.
  - done.
  - reflexivity.
  - split; [exact Hr|]. rewrite (Hu eq_refl). reflexivity.
Defined.
