(* ===== verification/Orchestrator.v ===== *)
(** src/Orchestrator.{h,cpp}: the threaded code of a binary. Encoding its
    functions into basic blocks of handlers, laying the handlers out in one
    sequence, and finding the handler to go on with at an address, through a
    small cache. Pointers to handlers are positions in the sequence. *)
From Stdlib Require Import ZArith Lia List.
From stdpp Require Import base list gmap.
From S2P Require Import Prelude Utils.
#[local] Open Scope Z_scope.

(** * Handlers *)

(** [Instruction]: an address of 59 bits, the event flag, the length of the
    opcode in 4 bits. *)
Record Instruction := mkI { i_handler : Z; i_event : bool; i_oplen : Z }.

#[export] Instance Instruction_eq_dec : EqDecision Instruction.
Proof. solve_decision. Defined.

Definition event_insn (func : Z) : Instruction := mkI (wrap 59 func) true 0.
Definition real_insn (entry size : Z) : Instruction := mkI (wrap 59 entry) false (wrap 4 size).

(** The addresses of the handlers of Event.cpp. *)
Class EventFuncs := {
  event_func_before : Z; event_func_after : Z; event_insn_before : Z; event_insn_after : Z;
  event_block_before : Z; event_block_after : Z; event_debugging : Z;
  syscall_interpret : Z; interrupt_interpret : Z; jump_interpret : Z; call_interpret : Z;
  finish_function : Z; finish_emulation : Z; terminate_execution : Z
}.

(** The members of [EventConfig] the encoder reads. *)
Record EventConfig := mkCfg { c_func : bool; c_block : bool; c_insn : bool; c_debug : bool }.

(** * The executable representation of a binary *)

Record BasicBlocks := mkBB {
  vmaddrs : list Z; maxaddr : Z; bbhandlers : list (list Z); rthandlers : list Instruction
}.

(** The positions of the handlers of every block, from [rt] on. *)
Fixpoint bb_positions (rt : Z) (handlers : list (list Instruction)) : list (list Z) :=
  match handlers with
  | [] => []
  | insns :: hs => let n := Z.of_nat (length insns) in seqZ rt n :: bb_positions (rt + n) hs
  end.

(** [BasicBlocks::convert]. *)
Definition bb_convert (vmaddrs : list Z) (maxaddr : Z) (handlers : list (list Instruction)) : BasicBlocks :=
  mkBB vmaddrs maxaddr (bb_positions 0 handlers) (mjoin handlers).

(** * Encoding *)

(** The instruction types the encoder tells apart. *)
Inductive itype := SYSCALL | TRAP | JCOND | JUMP | CALL | RET | OTHER.

(** An instruction of the binary: whether others refer to it, its offset in
    the function, its type and its bytes. *)
Record BInsn := mkBInsn { b_comins : bool; b_fnoff : Z; b_type : itype; b_opcode : list Z }.
Record BFunction := mkBFunction { bf_addr : Z; bf_end : Z; bf_insns : list BInsn }.

Section Encode.
Context `{EventFuncs}.
(** The handlers lifted for the architecture, by opcode bytes. *)
Variable dynhandlers : list Z -> option Z.
Variable arm64 : bool.
Variable cfg : EventConfig.
Variable addend : Z.

(** The blocks built so far: addresses and handlers, the last one open. *)
Record enc_state := mkEnc { e_vmaddrs : list Z; e_done : list (list Instruction); e_open : list Instruction }.
Definition push (st : enc_state) (hs : list Instruction) : enc_state :=
  mkEnc (e_vmaddrs st) (e_done st) (e_open st ++ hs).
Definition open_block (st : enc_state) (addr : Z) : enc_state :=
  mkEnc (e_vmaddrs st ++ [addr]) (e_done st ++ [e_open st]) [].

(** [setup_event]. *)
Definition setup_event (on : bool) (func : Z) : list Instruction := if on then [event_insn func] else [].

(** The handlers of one instruction. *)
Definition insn_handlers (i : BInsn) : list Instruction :=
  setup_event (c_insn cfg) event_insn_before ++
  setup_event (c_debug cfg) event_debugging ++
  [real_insn (default terminate_execution (dynhandlers (b_opcode i))) (Z.of_nat (length (b_opcode i)))] ++
  (match b_type i with
   | SYSCALL => setup_event arm64 syscall_interpret
   | TRAP => setup_event (negb arm64) interrupt_interpret
   | _ => setup_event (c_insn cfg) event_insn_after
   end) ++
  (match b_type i with
   | JCOND | JUMP => [event_insn jump_interpret]
   | CALL => [event_insn call_interpret]
   | RET => setup_event (c_func cfg) event_func_after ++ [event_insn finish_function]
   | _ => []
   end).

(** Whether the instruction ends its block. *)
Definition ends_block (i : BInsn) : bool :=
  match b_type i with JCOND | JUMP | CALL | RET => true | _ => false end.

Fixpoint encode_insns (addr : Z) (first newbb : bool) (insns : list BInsn) (st : enc_state) : enc_state :=
  match insns with
  | [] => st
  | i :: is_ =>
      let split := negb first && (b_comins i || newbb) in
      let st :=
        if split then
          push (open_block (push st (setup_event (c_block cfg) event_block_after))
                  (wrap64 (addr + b_fnoff i + addend)))
               (setup_event (c_block cfg) event_block_before)
        else st in
      let newbb := newbb && negb split in
      encode_insns addr false (newbb || ends_block i) is_ (push st (insn_handlers i))
  end.

Definition encode_function (func : BFunction) (st : enc_state) : enc_state :=
  let st := open_block st (wrap64 (bf_addr func + addend)) in
  let st := push st (setup_event (c_func cfg) event_func_before ++
                     setup_event (c_block cfg) event_block_before) in
  encode_insns (bf_addr func) true false (bf_insns func) st.

(** [Orchestrator::encode] of a binary with functions. The first block opened
    closes the empty start, which is dropped. *)
Definition encode_blocks (functions : list BFunction) : list Z * list (list Instruction) :=
  let st := fold_left (fun st f => encode_function f st) functions (mkEnc [] [] []) in
  let st := if (length functions =? 1)%nat then push st [event_insn finish_emulation] else st in
  (e_vmaddrs st, tail (e_done st ++ [e_open st])).

Definition encode (functions : list BFunction) : exec BasicBlocks :=
  lastfunc ← of_option Undef (last functions);
  let '(vmaddrs, handlers) := encode_blocks functions in
  Ret (bb_convert vmaddrs (wrap64 (bf_end lastfunc + addend)) handlers).
End Encode.

(** * Finding a handler *)

(** A handler of one of the encoded binaries, or the one that aborts. *)
Inductive iptr := At (blocks : nat) (position : Z) | Terminate.

(** The first-level cache: per low byte, an address and its handler. *)
Record Cache := mkCache { current : option nat; L1 : gmap Z (Z * iptr) }.
Definition cache_index (vmaddr : Z) : Z := Z.land vmaddr 0xff.
Definition set_L1 (c : Cache) (vmaddr : Z) (p : iptr) : Cache :=
  mkCache (current c) (<[cache_index vmaddr := (vmaddr, p)]> (L1 c)).

Definition rt_at (blocks : BasicBlocks) (p : Z) : option Instruction :=
  if p <? 0 then None else rthandlers blocks !! Z.to_nat p.

(** The walk inside a block: the address after every handler. *)
Fixpoint scan_block (blocks : BasicBlocks) (vmaddr first addr : Z) (ps : list Z) : exec (option Z) :=
  match ps with
  | [] => Ret None
  | p :: ps' =>
      insn ← of_option Undef (rt_at blocks p);
      let addr := wrap64 (addr + i_oplen insn) in
      if addr =? vmaddr then
        if first <=? p - 1 then
          prev ← of_option Undef (rt_at blocks (p - 1));
          Ret (Some (if negb (i_event prev) then p else p - 1))
        else Ret (Some (p - 1))
      else scan_block blocks vmaddr first addr ps'
  end.

(** [findBlocks], without the cache it fills: the position in these blocks. *)
Definition findBlocks (blocks : BasicBlocks) (vmaddr : Z) : exec (option Z) :=
  first ← of_option Undef (head (vmaddrs blocks));
  if (vmaddr <? first) || (maxaddr blocks <=? vmaddr) then Ret None
  else
    found ← binary_search (key_ltb id) (arr_rd (vmaddrs blocks)) (length (vmaddrs blocks)) vmaddr;
    exact ← is_exact (arr_rd (vmaddrs blocks)) (key_eqb id) found (length (vmaddrs blocks)) vmaddr;
    if exact : bool then
      ps ← of_option Undef (bbhandlers blocks !! found);
      p ← of_option Undef (head ps);
      Ret (Some p)
    else
      let index := (if (found =? 0)%nat then found else found - 1)%nat in
      addr ← of_option Undef (vmaddrs blocks !! index);
      ps ← of_option Undef (bbhandlers blocks !! index);
      match ps with
      | [] => Ret None
      | p0 :: _ => scan_block blocks vmaddr p0 addr ps
      end.

(** [findBlocks] of binary number [k], filling the cache. *)
Definition findBlocks_cached (bbs : list BasicBlocks) (k : nat) (vmaddr : Z) (c : Cache)
  : exec (option iptr * Cache) :=
  blocks ← of_option Undef (bbs !! k);
  r ← findBlocks blocks vmaddr;
  Ret (match r with
       | Some p => (Some (At k p), set_L1 c vmaddr (At k p))
       | None => (None, c)
       end).

Definition findCache (bbs : list BasicBlocks) (k : nat) (vmaddr : Z) (c : Cache)
  : exec (option iptr * Cache) :=
  match L1 c !! cache_index vmaddr with
  | Some (v, p) => if v =? vmaddr then Ret (Some p, c) else findBlocks_cached bbs k vmaddr c
  | None => findBlocks_cached bbs k vmaddr c
  end.

(** The loop over all binaries but the current one. *)
Fixpoint find_all (bbs : list BasicBlocks) (ks : list nat) (vmaddr : Z) (c : Cache) : exec (iptr * Cache) :=
  match ks with
  | [] => Ret (Terminate, c)
  | k :: ks' =>
      if bool_decide (current c = Some k) then find_all bbs ks' vmaddr c
      else
        '(r, c) ← findBlocks_cached bbs k vmaddr c;
        match r with
        | Some p => Ret (p, mkCache (Some k) (L1 c))
        | None => find_all bbs ks' vmaddr c
        end
  end.

(** [Orchestrator::find]. *)
Definition find (bbs : list BasicBlocks) (vmaddr : Z) (c : Cache) : exec (iptr * Cache) :=
  '(r, c) ← (match current c with
             | Some k => findCache bbs k vmaddr c
             | None => Ret (None, c)
             end);
  match r with
  | Some p => Ret (p, c)
  | None => find_all bbs (seq 0 (length bbs)) vmaddr c
  end.

(** Encoding appends the binary and makes it the current one. *)
Definition encode_into `{EventFuncs} dynhandlers arm64 cfg addend (functions : list BFunction)
    (bbs : list BasicBlocks) (c : Cache) : exec (list BasicBlocks * Cache) :=
  bb ← encode dynhandlers arm64 cfg addend functions;
  Ret (bbs ++ [bb], mkCache (Some (length bbs)) (L1 c)).

(** [Orchestrator::clear]. *)
Definition clear : list BasicBlocks * Cache := ([], mkCache None ∅).

(** Without caches: the first binary whose blocks answer. *)
Fixpoint find_ref (k : nat) (bbs : list BasicBlocks) (vmaddr : Z) : iptr :=
  match bbs with
  | [] => Terminate
  | blocks :: bbs' =>
      match findBlocks blocks vmaddr with
      | Ret (Some q) => At k q
      | _ => find_ref (S k) bbs' vmaddr
      end
  end.

(** What a thread can make of its cache and the binaries, from the start on. *)
Inductive orch_reach `{EventFuncs} : list BasicBlocks -> Cache -> Prop :=
| R_clear : orch_reach clear.1 clear.2
| R_encode dynhandlers arm64 cfg addend functions bbs c bbs' c' : orch_reach bbs c ->
    encode_into dynhandlers arm64 cfg addend functions bbs c = Ret (bbs', c') -> orch_reach bbs' c'
| R_find bbs c vmaddr p c' : orch_reach bbs c -> find bbs vmaddr c = Ret (p, c') -> orch_reach bbs c'.

(** * Lemmas: layout *)

Lemma bb_positions_lookup handlers : ∀ rt (k : nat) insns, handlers !! k = Some insns ->
  bb_positions rt handlers !! k =
    Some (seqZ (rt + Z.of_nat (length (mjoin (take k handlers)))) (Z.of_nat (length insns))).
Proof.
  induction handlers as [|l hs IH]; intros rt [|k] insns Hk; simpl in Hk; simplify_eq.
  - cbn. by rewrite Z.add_0_r.
  - cbn [bb_positions lookup list_lookup]. 
    change (bb_positions (rt + Z.of_nat (length l)) hs !! k =
      Some (seqZ (rt + Z.of_nat (length (mjoin (take (S k) (l :: hs))))) (Z.of_nat (length insns)))).
    rewrite (IH _ _ _ Hk). change (mjoin (take (S k) (l :: hs))) with (l ++ mjoin (take k hs)).
    rewrite length_app. do 2 f_equal. lia.
Qed.

Lemma bb_positions_length handlers rt : length (bb_positions rt handlers) = length handlers.
Proof. revert rt. induction handlers as [|l hs IH]; intros rt; cbn; [done|]. by rewrite IH. Qed.

(** Handler number [i] of block number [k] is where its position says. *)
Lemma mjoin_lookup {A} (ls : list (list A)) (k i : nat) l x : ls !! k = Some l -> l !! i = Some x ->
  mjoin ls !! (length (mjoin (take k ls)) + i)%nat = Some x.
Proof.
  intros Hk Hi. pose proof (join_split id ls k l Hk) as Hj. rewrite !list_fmap_id in Hj. rewrite Hj.
  rewrite lookup_app_r by lia. replace (_ + i - _)%nat with i by lia. by apply lookup_app_l_Some.
Qed.

Section Blocks.
Variables (vmaddrs : list Z) (maxaddr : Z) (handlers : list (list Instruction)).
Let bb := bb_convert vmaddrs maxaddr handlers.

Lemma convert_at (k i : nat) insns x : handlers !! k = Some insns -> insns !! i = Some x ->
  let p := Z.of_nat (length (mjoin (take k handlers)) + i) in
  (ps ← bbhandlers bb !! k; ps !! i) = Some p ∧ rt_at bb p = Some x.
Proof.
  intros Hk Hi p. unfold bb, bb_convert; cbn [bbhandlers].
  rewrite (bb_positions_lookup _ _ _ _ Hk). pose proof (lookup_lt_Some _ _ _ Hi). split.
  - change (seqZ (0 + Z.of_nat (length (mjoin (take k handlers)))) (Z.of_nat (length insns)) !! i = Some p).
    apply lookup_seqZ. unfold p. lia.
  - unfold rt_at, p. rewrite (proj2 (Z.ltb_ge _ _)) by lia. rewrite Nat2Z.id.
    by eapply mjoin_lookup.
Qed.

(** How many bytes of opcodes the first [j] handlers of a block stand for. *)
Definition opcode_bytes (insns : list Instruction) (j : nat) : Z :=
  foldr Z.add 0 (i_oplen <$> take j insns).

Lemma opcode_bytes_S insns (j : nat) x : insns !! j = Some x ->
  opcode_bytes insns (S j) = opcode_bytes insns j + i_oplen x.
Proof.
  intros Hj. unfold opcode_bytes. rewrite (take_S_r _ _ _ Hj), fmap_app, foldr_app. cbn.
  generalize (i_oplen <$> take j insns). intros l. induction l; cbn; lia.
Qed.

(** The opcodes of the handlers up to number [j] end at the address. *)
Definition ends_at (insns : list Instruction) (addr vmaddr : Z) (j : nat) : Prop :=
  wrap64 (addr + opcode_bytes insns (S j)) = vmaddr.

(** Whether the handler before number [j] is outside the block or an event. *)
Definition steps_back (insns : list Instruction) (j : nat) : bool :=
  match j with O => true | S j' => default false (i_event <$> insns !! j') end.

(** What the walk through a block laid out from position [start] answers. *)
Definition block_answer (insns : list Instruction) (start addr vmaddr : Z) (r : option Z) : Prop :=
  match r with
  | None => ∀ j, (j < length insns)%nat -> ~ ends_at insns addr vmaddr j
  | Some p => ∃ j, (j < length insns)%nat ∧ ends_at insns addr vmaddr j ∧
      (∀ i, (i < j)%nat -> ~ ends_at insns addr vmaddr i) ∧
      p = start + Z.of_nat j - (if steps_back insns j then 1 else 0)
  end.

Lemma scan_block_spec (k : nat) insns a vmaddr suf : handlers !! k = Some insns -> ∀ pre addr,
  let start := Z.of_nat (length (mjoin (take k handlers))) in
  insns = pre ++ suf -> wrap64 addr = wrap64 (a + opcode_bytes insns (length pre)) ->
  (∀ i, (i < length pre)%nat -> ~ ends_at insns a vmaddr i) ->
  ∃ r, scan_block bb vmaddr start addr (seqZ (start + Z.of_nat (length pre)) (Z.of_nat (length suf))) = Ret r ∧
    block_answer insns start a vmaddr r.
Proof.
  intros Hk. induction suf as [|x suf IH]; intros pre addr start Hins Haddr Hpre; cbv zeta.
  { exists None. split; [done|]. intros j Hj. apply Hpre. rewrite Hins, app_nil_r in Hj. done. }
  assert (insns !! length pre = Some x) as Hx by by rewrite Hins, list_lookup_middle.
  destruct (convert_at k (length pre) insns x Hk Hx) as [_ Hrt].
  rewrite Nat2Z.inj_add in Hrt. fold start in Hrt.
  rewrite seqZ_cons by (cbn; lia). cbn [scan_block]. rewrite Hrt. cbn [of_option mbind exec_bind].
  assert (wrap64 (addr + i_oplen x) = wrap64 (a + opcode_bytes insns (S (length pre)))) as Hnext.
  { rewrite (opcode_bytes_S _ _ _ Hx), <- wrap_add_l, Haddr, wrap_add_l. f_equal. lia. }
  destruct (Z.eqb_spec (wrap64 (addr + i_oplen x)) vmaddr) as [Hv|Hv].
  - assert (ends_at insns a vmaddr (length pre)) as Hends by (unfold ends_at; congruence).
    assert (length pre < length insns)%nat as Hlt by (by eapply lookup_lt_Some).
    destruct (Z.leb_spec start (start + Z.of_nat (length pre) - 1)) as [Hle|Hgt].
    + destruct (length pre) as [|j] eqn:Hj; [lia|].
      destruct (lookup_lt_is_Some_2 insns j) as [prev Hprev]; [lia|].
      destruct (convert_at k j insns prev Hk Hprev) as [_ Hrt'].
      replace (start + Z.of_nat (S j) - 1) with (Z.of_nat (length (mjoin (take k handlers)) + j)) by (unfold start; lia).
      rewrite Hrt'. cbn [of_option mbind exec_bind]. eexists. split; [done|].
      exists (S j). split_and!; [lia|done|done|]. cbn [steps_back]. rewrite Hprev. cbn.
      unfold start. destruct (i_event prev); cbn; lia.
    + eexists. split; [done|]. exists (length pre). split_and!; [done..|].
      destruct (length pre); [cbn; lia|lia].
  - destruct (IH (pre ++ [x]) (wrap64 (addr + i_oplen x))) as (r & Hr & Ha).
    + by rewrite Hins, <- app_assoc.
    + rewrite wrap_wrap, Hnext. f_equal. f_equal. rewrite length_app. cbn. by rewrite Nat.add_1_r.
    + intros i. rewrite length_app. cbn. intros Hi. destruct (decide (i = length pre)) as [->|].
      * unfold ends_at. congruence.
      * apply Hpre. lia.
    + exists r. split; [|done]. cbv zeta in Hr. fold start in Hr. rewrite <- Hr. f_equal.
      rewrite length_app. cbn. f_equal; lia.
Qed.

(** The block an address lies in. *)
Lemma findBlocks_lookup (k : nat) insns v a :
  vmaddrs <> [] -> key_sorted id vmaddrs -> length handlers = length vmaddrs ->
  (∀ l, l ∈ handlers -> l <> []) ->
  (∀ first, head vmaddrs = Some first -> first <= v < maxaddr) ->
  vmaddrs !! k = Some a -> handlers !! k = Some insns ->
  let start := Z.of_nat (length (mjoin (take k handlers))) in
  (a = v -> rank id vmaddrs v = k -> findBlocks bb v = Ret (Some start)) ∧
  (a < v -> (∀ b, vmaddrs !! S k = Some b -> v < b) ->
     ∃ r, findBlocks bb v = Ret r ∧ block_answer insns start a v r).
Proof.
  intros Hne Hs Hlen Hnonempty Hrange Hk Hh start.
  destruct (head vmaddrs) as [first|] eqn:Hfirst; [|by apply head_None in Hfirst].
  specialize (Hrange _ eq_refl).
  assert (∃ x l, insns = x :: l) as (x & l & Hins).
  { destruct insns as [|x l]; [|by exists x, l]. exfalso.
    apply (Hnonempty []); [by eapply list_elem_of_lookup_2|done]. }
  assert (bbhandlers bb !! k = Some (seqZ start (Z.of_nat (length insns)))) as Hps.
  { unfold bb, bb_convert; cbn [bbhandlers]. by rewrite (bb_positions_lookup _ _ _ _ Hh). }
  assert (∀ f : nat -> exec (option Z), (found ← binary_search (key_ltb id) (arr_rd vmaddrs) (length vmaddrs) v; f found) =
    f (rank id vmaddrs v)) as Hsearch by (intros f; by rewrite (binary_search_rank id) by done).
  unfold findBlocks. change (Orchestrator.vmaddrs bb) with vmaddrs. change (Orchestrator.maxaddr bb) with maxaddr.
  rewrite Hfirst. cbn [of_option]. cbn [mbind exec_bind].
  rewrite (proj2 (Z.ltb_ge v first)), (proj2 (Z.leb_gt maxaddr v)) by lia. cbn [orb].
  rewrite Hsearch. split.
  - intros -> ->. unfold is_exact. pose proof (lookup_lt_Some _ _ _ Hk).
    rewrite (proj2 (Nat.eqb_neq k (length vmaddrs))) by lia. unfold arr_rd. rewrite Hk. cbn [of_option mbind exec_bind].
    unfold key_eqb. rewrite Z.eqb_refl. rewrite Hps. cbn [of_option mbind exec_bind].
    rewrite Hins. rewrite seqZ_cons by (cbn; lia). done.
  - intros Hav Hnext.
    assert (rank id vmaddrs v = S k) as Hrank.
    { pose proof (rank_le id vmaddrs v). apply (rank_lookup id vmaddrs v k a Hs Hk) in Hav as Hlt.
      destruct (decide (rank id vmaddrs v = S k)) as [|Hr]; [done|]. exfalso.
      destruct (lookup_lt_is_Some_2 vmaddrs (S k)) as [b Hb]; [lia|].
      pose proof (proj2 (rank_lookup id vmaddrs v (S k) b Hs Hb) ltac:(lia)). specialize (Hnext b Hb). cbn in *. lia. }
    rewrite Hrank.
    assert (is_exact (arr_rd vmaddrs) (key_eqb id) (S k) (length vmaddrs) v = Ret false) as ->.
    { unfold is_exact. destruct (Nat.eqb_spec (S k) (length vmaddrs)); [done|].
      destruct (lookup_lt_is_Some_2 vmaddrs (S k)) as [b Hb]; [pose proof (lookup_lt_Some _ _ _ Hk); lia|].
      unfold arr_rd. rewrite Hb. cbn. unfold key_eqb, id. specialize (Hnext b Hb).
      by rewrite (proj2 (Z.eqb_neq b v)) by lia. }
    cbn [mbind exec_bind]. cbn [Nat.eqb]. rewrite Nat.sub_succ, Nat.sub_0_r, Hk, Hps. cbn [of_option mbind exec_bind].
    destruct (scan_block_spec k insns a v insns Hh [] a) as (r & Hr & Ha); [done| |intros i Hi; cbn in Hi; lia|].
    { unfold opcode_bytes. cbn. by rewrite Z.add_0_r. }
    exists r. split; [|done]. rewrite <- Hr. cbv zeta. fold start. change (Z.of_nat (length [])) with 0.
    rewrite Z.add_0_r. rewrite Hins. rewrite !seqZ_cons by (cbn; lia). done.
Qed.
End Blocks.

(** * Lemmas: the cache *)

Section Cached.
Variable bbs : list BasicBlocks.

(** Every entry is what the blocks of some binary answer. *)
Definition cache_ok (c : Cache) : Prop :=
  (∀ k, current c = Some k -> (k < length bbs)%nat) ∧
  ∀ i v p, L1 c !! i = Some (v, p) ->
    ∃ k q blocks, p = At k q ∧ bbs !! k = Some blocks ∧ findBlocks blocks v = Ret (Some q).

Lemma findBlocks_cached_spec k vmaddr c r c' : cache_ok c ->
  findBlocks_cached bbs k vmaddr c = Ret (r, c') ->
  cache_ok c' ∧ current c' = current c ∧
  ∃ blocks q, bbs !! k = Some blocks ∧ findBlocks blocks vmaddr = Ret q ∧ r = At k <$> q.
Proof.
  intros [Hcur Hok]. unfold findBlocks_cached. destruct (bbs !! k) as [blocks|] eqn:Hk; [|done].
  cbn [of_option mbind exec_bind]. destruct (findBlocks blocks vmaddr) as [[q|]| |] eqn:Hf; try done;
    cbn [mbind exec_bind]; intros [= <- <-].
  - split; [|split; [done|by exists blocks, (Some q)]]. split; [done|].
    intros i v p Hi. cbn in Hi. apply lookup_insert_Some in Hi as [[<- [= <- <-]]|[_ Hi]]; [|by eapply Hok].
    by exists k, q, blocks.
  - split; [by split|split; [done|by exists blocks, None]].
Qed.

(** An answer of the cache or of the blocks of one binary. *)
Definition answer (vmaddr : Z) (p : iptr) : Prop :=
  ∃ k q blocks, p = At k q ∧ bbs !! k = Some blocks ∧ findBlocks blocks vmaddr = Ret (Some q).

Lemma findCache_spec k vmaddr c r c' : cache_ok c -> findCache bbs k vmaddr c = Ret (r, c') ->
  cache_ok c' ∧ current c' = current c ∧
  match r with
  | Some p => answer vmaddr p
  | None => ∃ blocks, bbs !! k = Some blocks ∧ findBlocks blocks vmaddr = Ret None
  end.
Proof.
  intros Hok. unfold findCache. destruct (L1 c !! _) as [[v p]|] eqn:E.
  - destruct (Z.eqb_spec v vmaddr) as [->|].
    + intros [= <- <-]. split_and!; [done|done|]. by apply (proj2 Hok) in E.
    + intros Hf. apply (findBlocks_cached_spec _ _ _ _ _ Hok) in Hf as (? & ? & blocks & q & Hk & Hq & ->).
      split_and!; [done|done|]. destruct q; [by exists k, z, blocks|by exists blocks].
  - intros Hf. apply (findBlocks_cached_spec _ _ _ _ _ Hok) in Hf as (? & ? & blocks & q & Hk & Hq & ->).
    split_and!; [done|done|]. destruct q; [by exists k, z, blocks|by exists blocks].
Qed.

Lemma find_all_spec ks vmaddr : ∀ c p c', cache_ok c ->
  find_all bbs ks vmaddr c = Ret (p, c') ->
  cache_ok c' ∧
  (answer vmaddr p \/
   p = Terminate ∧ ∀ k, k ∈ ks -> current c <> Some k ->
     ∃ blocks, bbs !! k = Some blocks ∧ findBlocks blocks vmaddr = Ret None).
Proof.
  induction ks as [|k ks IH]; intros c p c' Hok; cbn [find_all].
  { intros [= <- <-]. split; [done|]. right. split; [done|]. intros k Hk. by apply elem_of_nil in Hk. }
  case_bool_decide as Hcur.
  { intros Hf. destruct (IH _ _ _ Hok Hf) as [Hok' [Ha|[-> Hall]]]; [by split; [|left]|].
    split; [done|]. right. split; [done|]. intros j Hj Hne. apply elem_of_cons in Hj as [->|Hj]; [done|auto]. }
  destruct (findBlocks_cached bbs k vmaddr c) as [[r c1]| |] eqn:E; try done. cbn [mbind exec_bind].
  apply (findBlocks_cached_spec _ _ _ _ _ Hok) in E as (Hok1 & Hc1 & blocks & q & Hk & Hq & ->).
  destruct q as [q|]; cbn.
  - intros [= <- <-]. split; [|left; by exists k, q, blocks]. split; [|apply Hok1].
    intros j [= <-]. by eapply lookup_lt_Some.
  - intros Hf. destruct (IH _ _ _ Hok1 Hf) as [Hok' [Ha|[-> Hall]]]; [by split; [|left]|].
    split; [done|]. right. split; [done|]. intros j Hj Hne.
    apply elem_of_cons in Hj as [->|Hj]; [by exists blocks|]. apply Hall; [done|]. by rewrite Hc1.
Qed.

Lemma find_spec_cached vmaddr c p c' : cache_ok c -> find bbs vmaddr c = Ret (p, c') ->
  cache_ok c' ∧
  (answer vmaddr p \/
   p = Terminate ∧ ∀ k blocks, bbs !! k = Some blocks -> findBlocks blocks vmaddr = Ret None).
Proof.
  intros Hok. unfold find. destruct (current c) as [k|] eqn:Hcur.
  - destruct (findCache bbs k vmaddr c) as [[r c1]| |] eqn:E; try done. cbn [mbind exec_bind].
    apply (findCache_spec _ _ _ _ _ Hok) in E as (Hok1 & Hc1 & Hr). destruct r as [q|].
    + intros [= <- <-]. by split; [|left].
    + intros Hf. apply (find_all_spec _ _ _ _ _ Hok1) in Hf as [Hok' [Ha|[-> Hall]]]; [by split; [|left]|].
      split; [done|]. right. split; [done|]. intros j blocks Hj.
      destruct (decide (j = k)) as [->|Hne].
      * destruct Hr as (blocks' & Hk & Hn). by simplify_eq.
      * destruct (Hall j) as (blocks' & Hk & Hn); [|by rewrite Hc1, Hcur; intros [=]|by simplify_eq].
        apply elem_of_seq. apply lookup_lt_Some in Hj. lia.
  - cbn [mbind exec_bind]. intros Hf.
    apply (find_all_spec _ _ _ _ _ Hok) in Hf as [Hok' [Ha|[-> Hall]]]; [by split; [|left]|].
    split; [done|]. right. split; [done|]. intros j blocks Hj.
    destruct (Hall j) as (blocks' & Hk & Hn); [|by rewrite Hcur|by simplify_eq].
    apply elem_of_seq. apply lookup_lt_Some in Hj. lia.
Qed.

(** Searching returns when the search of every binary does. *)
Definition searchable (vmaddr : Z) : Prop :=
  ∀ k blocks, bbs !! k = Some blocks -> ∃ r, findBlocks blocks vmaddr = Ret r.

Lemma findBlocks_cached_total k vmaddr c : searchable vmaddr -> (k < length bbs)%nat ->
  ∃ r L, findBlocks_cached bbs k vmaddr c = Ret (r, mkCache (current c) L).
Proof.
  intros Hall Hk. unfold findBlocks_cached. destruct (lookup_lt_is_Some_2 _ _ Hk) as [blocks Hb].
  rewrite Hb. destruct (Hall _ _ Hb) as [r Hr]. cbn. rewrite Hr. cbn.
  destruct c, r; by eexists _, _.
Qed.

Lemma find_all_total ks vmaddr : searchable vmaddr -> (∀ k, k ∈ ks -> (k < length bbs)%nat) -> ∀ c,
  ∃ p c', find_all bbs ks vmaddr c = Ret (p, c').
Proof.
  intros Hall. induction ks as [|k ks IH]; intros Hks c; cbn [find_all]; [by eexists _, _|].
  case_bool_decide; [apply IH; intros j Hj; by apply Hks, list_elem_of_further|].
  destruct (findBlocks_cached_total k vmaddr c Hall) as (r & L & ->); [apply Hks, list_elem_of_here|].
  cbn [mbind exec_bind]. destruct r; [by eexists _, _|].
  apply IH. intros j Hj. by apply Hks, list_elem_of_further.
Qed.

Lemma find_total vmaddr c : searchable vmaddr -> cache_ok c ->
  ∃ p c', find bbs vmaddr c = Ret (p, c').
Proof.
  intros Hall [Hcur _]. unfold find.
  assert (∀ c, ∃ p c', find_all bbs (seq 0 (length bbs)) vmaddr c = Ret (p, c')) as Hf.
  { apply find_all_total; [done|]. intros k Hk. apply elem_of_seq in Hk. lia. }
  destruct (current c) as [k|] eqn:E; [|cbn; apply Hf].
  assert (∃ r c', findCache bbs k vmaddr c = Ret (r, c')) as (r & c1 & ->).
  { unfold findCache. destruct (findBlocks_cached_total k vmaddr c Hall (Hcur k eq_refl)) as (r & L & Hr).
    destruct (L1 c !! _) as [[v q]|]; [destruct (v =? vmaddr)|]; by eexists _, _. }
  cbn [mbind exec_bind]. destruct r; [by eexists _, _|apply Hf].
Qed.
End Cached.

Lemma find_ref_answer bbs vmaddr : ∀ k0,
  (∀ k blocks, bbs !! k = Some blocks -> ∃ r, findBlocks blocks vmaddr = Ret r) ->
  (find_ref k0 bbs vmaddr = Terminate ∧ ∀ k blocks, bbs !! k = Some blocks -> findBlocks blocks vmaddr = Ret None) \/
  (∃ k q blocks, find_ref k0 bbs vmaddr = At (k0 + k) q ∧ bbs !! k = Some blocks ∧ findBlocks blocks vmaddr = Ret (Some q)).
Proof.
  induction bbs as [|b bbs IH]; intros k0 Hall; cbn [find_ref].
  { left. split; [done|]. intros k blocks Hk. by rewrite lookup_nil in Hk. }
  destruct (Hall 0%nat b eq_refl) as [[q|] Hb]; rewrite Hb.
  - right. exists 0%nat, q, b. by rewrite Nat.add_0_r.
  - destruct (IH (S k0)) as [[-> Hn]|(k & q & blocks & -> & Hk & Hq)].
    + intros k blocks Hk. by apply (Hall (S k)).
    + left. split; [done|]. intros [|k] blocks Hk; [by injection Hk as <-|by apply (Hn k)].
    + right. exists (S k), q, blocks. split_and!; [f_equal; lia|done|done].
Qed.

Lemma find_transparent bbs c vmaddr : cache_ok bbs c -> searchable bbs vmaddr ->
  (∀ p q, answer bbs vmaddr p -> answer bbs vmaddr q -> p = q) ->
  ∃ c', find bbs vmaddr c = Ret (find_ref 0 bbs vmaddr, c') ∧ cache_ok bbs c'.
Proof.
  intros Hok Hall Huniq. destruct (find_total bbs vmaddr c Hall Hok) as (p & c' & Hf). exists c'.
  pose proof (find_spec_cached _ _ _ _ _ Hok Hf) as [Hok' Hp]. split; [|done]. rewrite Hf. do 2 f_equal.
  destruct (find_ref_answer bbs vmaddr 0 Hall) as [[-> Hn]|(k & q & blocks & -> & Hk & Hq)].
  - destruct Hp as [(k & q & blocks & -> & Hk & Hq)|[-> _]]; [|done]. by rewrite (Hn _ _ Hk) in Hq.
  - destruct Hp as [Ha|[_ Hn]]; [|by rewrite (Hn _ _ Hk) in Hq]. apply Huniq; [done|]. by exists k, q, blocks.
Qed.

Lemma orch_reach_ok `{EventFuncs} bbs c : orch_reach bbs c -> cache_ok bbs c.
Proof.
  induction 1 as [|dynhandlers arm64 cfg addend functions bbs c bbs' c' _ [Hcur Hok] He|bbs c vmaddr p c' _ Hok Hf].
  - split; [done|]. intros i v p Hi. cbn in Hi. by rewrite lookup_empty in Hi.
  - unfold encode_into in He. bind_inv He. simplify_eq. split.
    + intros k [= <-]. rewrite length_app. cbn. lia.
    + intros i v p Hi. destruct (Hok i v p Hi) as (k & q & blocks & -> & Hk & Hq).
      exists k, q, blocks. split_and!; [done| |done]. by apply lookup_app_l_Some.
  - by apply find_spec_cached in Hf as [? _].
Qed.

(** * Lemmas: encoding *)

Section Encoding.
Context `{EventFuncs}.
Variable dynhandlers : list Z -> option Z.
Variable arm64 : bool.
Variable addend : Z.

Definition real (l : list Instruction) : list Instruction := filter (fun i => i_event i = false) l.
Definition insn_real (i : BInsn) : Instruction :=
  real_insn (default terminate_execution (dynhandlers (b_opcode i))) (Z.of_nat (length (b_opcode i))).

(** The addresses blocks start at, which no event takes part in. *)
Fixpoint insn_blocks (addr : Z) (first newbb : bool) (insns : list BInsn) : list Z :=
  match insns with
  | [] => []
  | i :: is_ =>
      let split := negb first && (b_comins i || newbb) in
      (if split then [wrap64 (addr + b_fnoff i + addend)] else []) ++
      insn_blocks addr false ((newbb && negb split) || ends_block i) is_
  end.
Definition fn_blocks (f : BFunction) : list Z :=
  wrap64 (bf_addr f + addend) :: insn_blocks (bf_addr f) true false (bf_insns f).

Definition all_handlers (st : enc_state) : list Instruction := mjoin (e_done st) ++ e_open st.

Lemma setup_event_real on func : real (setup_event on func) = [].
Proof. by destruct on. Qed.

Lemma real_app l l' : real (l ++ l') = real l ++ real l'.
Proof. apply filter_app. Qed.

Lemma insn_handlers_real cfg i : real (insn_handlers dynhandlers arm64 cfg i) = [insn_real i].
Proof.
  unfold insn_handlers. rewrite !real_app, !setup_event_real.
  destruct (b_type i); rewrite ?real_app, ?setup_event_real; done.
Qed.

Lemma push_all st hs : all_handlers (push st hs) = all_handlers st ++ hs.
Proof. unfold all_handlers, push; cbn. by rewrite app_assoc. Qed.

Lemma open_block_all st addr : all_handlers (open_block st addr) = all_handlers st.
Proof. unfold all_handlers, open_block; cbn. rewrite join_app. cbn. by rewrite !app_nil_r. Qed.

Lemma encode_insns_spec cfg addr insns : ∀ first newbb st,
  let st' := encode_insns dynhandlers arm64 cfg addend addr first newbb insns st in
  real (all_handlers st') = real (all_handlers st) ++ (insn_real <$> insns) ∧
  e_vmaddrs st' = e_vmaddrs st ++ insn_blocks addr first newbb insns.
Proof.
  induction insns as [|i insns IH]; intros first newbb st; cbn [encode_insns insn_blocks].
  { by rewrite !app_nil_r. }
  set (split := negb first && (b_comins i || newbb)). cbv zeta.
  specialize (IH false ((newbb && negb split) || ends_block i)
    (push (if split then push (open_block (push st (setup_event (c_block cfg) event_block_after))
             (wrap64 (addr + b_fnoff i + addend))) (setup_event (c_block cfg) event_block_before) else st)
          (insn_handlers dynhandlers arm64 cfg i))).
  cbv zeta in IH. destruct IH as [IH1 IH2]. rewrite IH1, IH2. rewrite push_all, real_app, insn_handlers_real.
  split.
  - rewrite <- app_assoc. cbn [fmap list_fmap app]. f_equal.
    destruct split; [|done]. rewrite push_all, open_block_all, push_all, !real_app, !setup_event_real.
    by rewrite !app_nil_r.
  - destruct split; cbn; [by rewrite <- app_assoc|done].
Qed.

Lemma encode_function_spec cfg f st :
  let st' := encode_function dynhandlers arm64 cfg addend f st in
  real (all_handlers st') = real (all_handlers st) ++ (insn_real <$> bf_insns f) ∧
  e_vmaddrs st' = e_vmaddrs st ++ fn_blocks f.
Proof.
  unfold encode_function. cbv zeta.
  match goal with |- context [encode_insns _ _ _ _ _ _ _ _ ?st0] =>
    destruct (encode_insns_spec cfg (bf_addr f) (bf_insns f) true false st0) as [-> ->] end.
  rewrite push_all, open_block_all, !real_app, !setup_event_real. cbn. by rewrite !app_nil_r, <- app_assoc.
Qed.

Lemma encode_functions_spec cfg fs : ∀ st,
  let st' := fold_left (fun st f => encode_function dynhandlers arm64 cfg addend f st) fs st in
  real (all_handlers st') = real (all_handlers st) ++ mjoin ((fun f => insn_real <$> bf_insns f) <$> fs) ∧
  e_vmaddrs st' = e_vmaddrs st ++ mjoin (fn_blocks <$> fs).
Proof.
  induction fs as [|f fs IH]; intros st; cbn [fold_left]; [by rewrite !app_nil_r|].
  cbv zeta. destruct (IH (encode_function dynhandlers arm64 cfg addend f st)) as [-> ->].
  destruct (encode_function_spec cfg f st) as [-> ->]. cbn. by rewrite <- !app_assoc.
Qed.

(** The start, dropped once a block is open, holds no handler. *)
Lemma encode_insns_done cfg addr insns : ∀ first newbb st l, e_done st = [] :: l ->
  ∃ l', e_done (encode_insns dynhandlers arm64 cfg addend addr first newbb insns st) = [] :: l'.
Proof.
  induction insns as [|i insns IH]; intros first newbb st l Hd; cbn [encode_insns]; [by exists l|].
  cbv zeta. destruct (negb first && (b_comins i || newbb)); eapply IH; cbn; by rewrite Hd.
Qed.

Lemma encode_functions_done cfg fs : ∀ st l, e_done st = [] :: l ->
  ∃ l', e_done (fold_left (fun st f => encode_function dynhandlers arm64 cfg addend f st) fs st) = [] :: l'.
Proof.
  induction fs as [|f fs IH]; intros st l Hd; cbn [fold_left]; [by exists l|].
  destruct (encode_insns_done cfg (bf_addr f) (bf_insns f) true false
    (push (open_block st (wrap64 (bf_addr f + addend)))
       (setup_event (c_func cfg) event_func_before ++ setup_event (c_block cfg) event_block_before))
    (l ++ [e_open st])) as [l' Hl']; [cbn; by rewrite Hd|].
  eapply IH. exact Hl'.
Qed.

Lemma encode_blocks_spec cfg fs : fs <> [] ->
  let '(vmaddrs, handlers) := encode_blocks dynhandlers arm64 cfg addend fs in
  vmaddrs = mjoin (fn_blocks <$> fs) ∧
  real (mjoin handlers) = mjoin ((fun f => insn_real <$> bf_insns f) <$> fs).
Proof.
  intros Hne. unfold encode_blocks.
  pose proof (encode_functions_spec cfg fs (mkEnc [] [] [])) as [Hr Hv]. cbn [e_vmaddrs app] in Hv.
  set (st := fold_left _ _ _) in *.
  assert (∃ l, e_done st = [] :: l) as [l Hl].
  { destruct fs as [|f fs]; [done|]. unfold st. cbn [fold_left].
    destruct (encode_insns_done cfg (bf_addr f) (bf_insns f) true false
      (push (open_block (mkEnc [] [] []) (wrap64 (bf_addr f + addend)))
         (setup_event (c_func cfg) event_func_before ++ setup_event (c_block cfg) event_block_before))
      []) as [l' Hl']; [done|]. eapply encode_functions_done. exact Hl'. }
  set (st' := if (length fs =? 1)%nat then push st [event_insn finish_emulation] else st).
  assert (e_vmaddrs st' = e_vmaddrs st ∧ e_done st' = e_done st ∧
    real (all_handlers st') = real (all_handlers st)) as (-> & Hd & Hr').
  { unfold st'. destruct (_ =? _)%nat; [|done]. split_and!; [done|done|].
    rewrite push_all, real_app. cbn. by rewrite app_nil_r. }
  split; [done|]. rewrite Hd, Hl. cbn [app tail]. rewrite join_app. cbn [mjoin list_join].
  rewrite app_nil_r. unfold all_handlers in Hr'. rewrite Hd, Hl in Hr'. cbn [mjoin list_join app] in Hr'.
  etrans; [exact Hr'|]. unfold all_handlers in Hr. rewrite Hl in Hr. exact Hr.
Qed.
End Encoding.

(** A binary with functions encodes. *)
Lemma encode_total `{EventFuncs} (dynhandlers : list Z -> option Z) (arm64 : bool)
    (addend : Z) (cfg : EventConfig) (functions : list BFunction) :
  functions <> [] ->
  ∃ bb lastfunc, encode dynhandlers arm64 cfg addend functions = Ret bb ∧
    vmaddrs bb = mjoin (fn_blocks addend <$> functions) ∧
    real (rthandlers bb) = mjoin ((fun f => insn_real dynhandlers <$> bf_insns f) <$> functions) ∧
    last functions = Some lastfunc ∧ maxaddr bb = wrap64 (bf_end lastfunc + addend).
Proof.
  intros Hne. pose proof (encode_blocks_spec dynhandlers arm64 addend cfg functions Hne) as Hb.
  destruct (last functions) as [lastfunc|] eqn:Hlast; [|by apply last_None in Hlast].
  unfold encode. rewrite Hlast. cbn [of_option mbind exec_bind].
  destruct (encode_blocks dynhandlers arm64 cfg addend functions) as [addrs handlers].
  destruct Hb as [-> Hr]. eexists _, _. split_and!; [done|done|exact Hr|done|done].
Qed.

(** * Properties *)

(** Instrumentation does not change the program. Whatever events are
    configured, a binary with functions encodes; the blocks start at the same
    addresses, those of its functions and of the instructions that are
    referred to or follow the end of a block; and apart from events the
    handlers are exactly those of its instructions, in order. *)
Theorem encode_config_independent `{EventFuncs} (dynhandlers : list Z -> option Z) (arm64 : bool)
    (addend : Z) (cfg : EventConfig) (functions : list BFunction) :
  functions <> [] ->
  ∃ bb lastfunc, encode dynhandlers arm64 cfg addend functions = Ret bb ∧
    vmaddrs bb = mjoin (fn_blocks addend <$> functions) ∧
    real (rthandlers bb) = mjoin ((fun f => insn_real dynhandlers <$> bf_insns f) <$> functions) ∧
    last functions = Some lastfunc ∧ maxaddr bb = wrap64 (bf_end lastfunc + addend).
Proof. exact (encode_total dynhandlers arm64 addend cfg functions). Qed.

Definition no_events : EventConfig := mkCfg false false false false.
#[export] Instance example_funcs : EventFuncs :=
  Build_EventFuncs 1 2 3 4 5 6 7 8 9 10 11 12 13 14.
Definition add_insn (off : Z) : BInsn := mkBInsn false off OTHER [0; 0; 0; 0x8b].
Definition three_adds : BFunction :=
  mkBFunction 0x1000 0x100c [add_insn 0; add_insn 4; add_insn 8].

Lemma encode_config_independent_witness :
  [three_adds] <> [] ∧
  ∃ bb lastfunc, encode (fun _ => Some 100) true (mkCfg true true true true) 0 [three_adds] = Ret bb ∧
    vmaddrs bb = mjoin (fn_blocks 0 <$> [three_adds]) ∧
    real (rthandlers bb) =
      mjoin ((fun f => insn_real (fun _ => Some 100) <$> bf_insns f) <$> [three_adds]) ∧
    last [three_adds] = Some lastfunc ∧ maxaddr bb = wrap64 (bf_end lastfunc + 0).
Proof. split; [done|]. by apply (encode_config_independent (fun _ => Some 100) true 0). Defined.

(** The layout [findBlocks] relies on. *)
Definition blocks_wf (vmaddrs : list Z) (handlers : list (list Instruction)) : Prop :=
  vmaddrs <> [] ∧ length handlers = length vmaddrs ∧ (∀ l, l ∈ handlers -> l <> []) ∧
  ∀ (i j : nat) a b, (i < j)%nat -> vmaddrs !! i = Some a -> vmaddrs !! j = Some b -> a < b.

Lemma wf_sorted vmaddrs handlers : blocks_wf vmaddrs handlers -> key_sorted id vmaddrs.
Proof. intros (_ & _ & _ & Hs). by apply strict_sorted. Qed.

(** Searching the blocks of a binary always returns. Outside of its
    address range nothing is found; the start of a block gives the block's
    first handler; elsewhere, in the block the address lies in, the first
    handler whose opcode ends at the address is taken, one handler earlier
    when that follows an event or starts the block. *)
Theorem findBlocks_spec (vmaddrs : list Z) (maxaddr : Z) (handlers : list (list Instruction)) (v first : Z) :
  blocks_wf vmaddrs handlers -> head vmaddrs = Some first ->
  let bb := bb_convert vmaddrs maxaddr handlers in
  if (v <? first) || (maxaddr <=? v) then findBlocks bb v = Ret None
  else ∃ (k : nat) a insns, vmaddrs !! k = Some a ∧ handlers !! k = Some insns ∧ a <= v ∧
    let start := Z.of_nat (length (mjoin (take k handlers))) in
    if v =? a then findBlocks bb v = Ret (Some start) ∧ rt_at bb start = head insns
    else ∃ r, findBlocks bb v = Ret r ∧ block_answer insns start a v r.
Proof.
  intros Hwf Hfirst bb. destruct (_ || _) eqn:E.
  { unfold findBlocks. change (Orchestrator.vmaddrs bb) with vmaddrs. rewrite Hfirst.
    cbn [of_option mbind exec_bind]. change (Orchestrator.maxaddr bb) with maxaddr. by rewrite E. }
  bsplit. pose proof (wf_sorted _ _ Hwf) as Hs. destruct Hwf as (Hne & Hlen & Hnonempty & Hstrict).
  assert (vmaddrs !! 0%nat = Some first) as Hv0 by by rewrite <- head_lookup.
  assert (∃ k a, vmaddrs !! k = Some a ∧ a <= v ∧ (∀ b, vmaddrs !! S k = Some b -> v < b)) as (k & a & Hk & Ha & Hb).
  { set (q := rank id vmaddrs (v + 1)). pose proof (rank_le id vmaddrs (v + 1)).
    assert (0 < q)%nat by (apply (rank_lookup id vmaddrs (v + 1) 0 first Hs Hv0); cbn; lia).
    destruct (lookup_lt_is_Some_2 vmaddrs (q - 1)) as [a Ha]; [unfold q in *; lia|].
    exists (q - 1)%nat, a. split; [done|]. split.
    - pose proof (proj2 (rank_lookup id vmaddrs (v + 1) _ a Hs Ha) ltac:(unfold q in *; lia)). cbn in *. lia.
    - intros b Hb. replace (S (q - 1)) with q in Hb by lia.
      destruct (Z.lt_ge_cases v b) as [|Hge]; [done|]. exfalso.
      pose proof (proj1 (rank_lookup id vmaddrs (v + 1) q b Hs Hb) ltac:(cbn; lia)). unfold q in *. lia. }
  destruct (lookup_lt_is_Some_2 handlers k) as [insns Hh]; [rewrite Hlen; by eapply lookup_lt_Some|].
  exists k, a, insns. split_and!; [done..|].
  destruct (findBlocks_lookup vmaddrs maxaddr handlers k insns v a) as [Hexact Hmid]; [done..| |done|done|].
  { intros f Hf. simplify_eq. lia. }
  cbv zeta in *. destruct (Z.eqb_spec v a) as [->|Hva].
  - split; [apply Hexact; [done|exact (rank_found id vmaddrs k a Hstrict Hk)]|].
    destruct insns as [|x insns]; [by destruct (Hnonempty []); [eapply list_elem_of_lookup_2|]|].
    destruct (convert_at vmaddrs maxaddr handlers k 0 (x :: insns) x Hh eq_refl) as [_ Hrt].
    by rewrite Nat.add_0_r in Hrt.
  - apply Hmid; [lia|done].
Qed.

(** A binary of two blocks of two instructions each. *)
Definition example_handlers : list (list Instruction) :=
  [[real_insn 100 4; real_insn 101 4]; [event_insn 3; real_insn 102 4]].

Lemma example_wf : blocks_wf [0x1000; 0x1008] example_handlers.
Proof.
  split_and!; [done|done| |].
  - apply Forall_forall. by repeat constructor.
  - intros [|[|i]] [|[|j]] a b Hij Ha Hb; cbn in *; simplify_eq; lia.
Defined.

Lemma findBlocks_spec_witness :
  let bb := bb_convert [0x1000; 0x1008] 0x100c example_handlers in
  findBlocks bb 0x1008 = Ret (Some 2) ∧
  ∃ (k : nat) a insns, [0x1000; 0x1008] !! k = Some a ∧ example_handlers !! k = Some insns ∧ a <= 0x1008 ∧
    let start := Z.of_nat (length (mjoin (take k example_handlers))) in
    if 0x1008 =? a then findBlocks bb 0x1008 = Ret (Some start) ∧ rt_at bb start = head insns
    else ∃ r, findBlocks bb 0x1008 = Ret r ∧ block_answer insns start a 0x1008 r.
Proof.
  split; [reflexivity|].
  exact (findBlocks_spec [0x1000; 0x1008] 0x100c example_handlers 0x1008 0x1000 example_wf eq_refl).
Defined.

(** An address in the middle of a block of a binary without events, where
    instruction number [j] of the block begins, does not give that instruction
    but the one before it, and for the second instruction of the block the
    handler before the block. *)
Theorem findBlocks_mid_block (vmaddrs : list Z) (maxaddr : Z) (handlers : list (list Instruction))
    (k j : nat) a insns :
  blocks_wf vmaddrs handlers -> vmaddrs !! k = Some a -> handlers !! k = Some insns ->
  Forall (fun i => i_event i = false ∧ 0 < i_oplen i) insns ->
  (0 < j < length insns)%nat -> 0 <= a -> a + opcode_bytes insns (length insns) < 2 ^ 64 ->
  let v := a + opcode_bytes insns j in
  (∀ first, head vmaddrs = Some first -> first <= a) -> v < maxaddr ->
  (∀ b, vmaddrs !! S k = Some b -> v < b) ->
  let start := Z.of_nat (length (mjoin (take k handlers))) in
  findBlocks (bb_convert vmaddrs maxaddr handlers) v =
    Ret (Some (start + Z.of_nat j - if (j =? 1)%nat then 2 else 1)).
Proof.
  intros Hwf Hk Hh Hall Hj Ha Hfit v Hfirst Hmax Hnext start. pose proof (wf_sorted _ _ Hwf) as Hs.
  destruct Hwf as (Hne & Hlen & Hnonempty & _).
  assert (∀ i : nat, (i < length insns)%nat -> opcode_bytes insns i < opcode_bytes insns (S i)) as Hinc.
  { intros i Hi. destruct (lookup_lt_is_Some_2 insns i Hi) as [x Hx]. rewrite (opcode_bytes_S _ _ _ Hx).
    pose proof (proj1 (Forall_lookup _ _) Hall i x Hx) as [_ ?]. lia. }
  assert (∀ i i' : nat, (i <= i' <= length insns)%nat -> opcode_bytes insns i <= opcode_bytes insns i') as Hmono.
  { intros i i' [Hi Hi']. induction Hi as [|i' Hi IH]; [lia|]. specialize (Hinc i' Hi').
    specialize (IH ltac:(lia)). lia. }
  assert (opcode_bytes insns 0 = 0) as Hz by done.
  assert (∀ i : nat, (i < length insns)%nat -> ends_at insns a v i <-> S i = j) as Hends.
  { intros i Hi. unfold ends_at. pose proof (Hmono (S i) (length insns) ltac:(lia)).
    pose proof (Hmono 0%nat (S i) ltac:(lia)). rewrite (wrap_small 64) by (unfold fits; lia). unfold v.
    split; [|by intros <-]. intros He. destruct (Nat.lt_trichotomy (S i) j) as [Hlt|[|Hgt]]; [|done|].
    - pose proof (Hinc (S i) ltac:(lia)). pose proof (Hmono (S (S i)) j ltac:(lia)). lia.
    - pose proof (Hinc j ltac:(lia)). pose proof (Hmono (S j) (S i) ltac:(lia)). lia. }
  assert (a < v) as Hav.
  { unfold v. pose proof (Hinc 0%nat ltac:(lia)). pose proof (Hmono 1%nat j ltac:(lia)). lia. }
  destruct (findBlocks_lookup vmaddrs maxaddr handlers k insns v a) as [_ Hmid]; [done..| |done|done|].
  { intros f Hf. specialize (Hfirst f Hf). lia. }
  destruct (Hmid Hav Hnext) as (r & -> & Hr). fold start in Hr. f_equal.
  destruct r as [p|]; cbn [block_answer] in Hr.
  - destruct Hr as (i & Hi & He & _ & ->). apply Hends in He; [|done]. subst j. f_equal.
    destruct i as [|i]; cbn [steps_back Nat.eqb]; [lia|].
    destruct (lookup_lt_is_Some_2 insns i) as [x Hx]; [lia|]. rewrite Hx. cbn.
    pose proof (proj1 (Forall_lookup _ _) Hall i x Hx) as [-> _]. lia.
  - exfalso. apply (Hr (j - 1)%nat); [lia|]. apply Hends; lia.
Qed.

(** Three four-byte instructions, no events. *)
Lemma findBlocks_mid_block_witness :
  let insns := [real_insn 100 4; real_insn 101 4; real_insn 102 4] in
  findBlocks (bb_convert [0x1000] 0x100c [insns]) (0x1000 + opcode_bytes insns 1) = Ret (Some (-1)) ∧
  findBlocks (bb_convert [0x1000] 0x100c [insns]) (0x1000 + opcode_bytes insns 2) = Ret (Some 1).
Proof.
  assert (blocks_wf [0x1000] [[real_insn 100 4; real_insn 101 4; real_insn 102 4]]).
  { split_and!; [done|done|apply Forall_forall; by repeat constructor|].
    intros [|i] [|j] a b Hij Hi Hj; cbn in *; simplify_eq; lia. }
  split.
  - apply (findBlocks_mid_block [0x1000] 0x100c [[real_insn 100 4; real_insn 101 4; real_insn 102 4]] 0 1 0x1000);
      [done|done|done|by repeat constructor|cbn; lia|lia|done|by intros ? [= <-]|done|done].
  - apply (findBlocks_mid_block [0x1000] 0x100c [[real_insn 100 4; real_insn 101 4; real_insn 102 4]] 0 2 0x1000);
      [done|done|done|by repeat constructor|cbn; lia|lia|done|by intros ? [= <-]|done|done].
Defined.

(** C20: the cache never shows. Whatever a thread encoded, cleared and looked
    up before, as long as no two binaries answer for the address, a lookup
    returns what searching the binaries without any cache gives, and the
    aborting handler when none answers. *)
Theorem find_cache_transparent `{EventFuncs} bbs c vmaddr :
  orch_reach bbs c -> searchable bbs vmaddr ->
  (∀ p q, answer bbs vmaddr p -> answer bbs vmaddr q -> p = q) ->
  ∃ c', find bbs vmaddr c = Ret (find_ref 0 bbs vmaddr, c') ∧ orch_reach bbs c'.
Proof.
  intros Hreach Hall Huniq.
  destruct (find_transparent bbs c vmaddr (orch_reach_ok _ _ Hreach) Hall Huniq) as (c' & Hf & _).
  exists c'. split; [done|by eapply R_find].
Qed.

(** The binary of [three_adds], found through the cache it starts with. *)
Definition example_bb : BasicBlocks :=
  mkBB [0x1000] 0x100c [[0; 1; 2; 3]]
    [real_insn 100 4; real_insn 100 4; real_insn 100 4; event_insn finish_emulation].

Lemma find_cache_transparent_witness :
  ∃ c', find [example_bb] 0x1000 (mkCache (Some 0%nat) ∅) = Ret (At 0 0, c') ∧ orch_reach [example_bb] c'.
Proof.
  change (At 0 0) with (find_ref 0 [example_bb] 0x1000).
  apply (find_cache_transparent [example_bb] (mkCache (Some 0%nat) ∅) 0x1000).
  - eapply (R_encode (fun _ => Some 100) true no_events 0 [three_adds]); [apply R_clear|reflexivity].
  - intros [|k] blocks Hk; [|done]. injection Hk as <-. by eexists.
  - intros p q (i & ? & b & -> & Hi & Hp) (j & ? & b' & -> & Hj & Hq).
    destruct i, j; try done. injection Hi as <-. injection Hj as <-. congruence.
Defined.
