(* ===== verification/Event.v ===== *)
(** src/Event.cpp with the events of include/Event.h, [handleEvent] of
    src/BinaryEngine.h, [startVM] of src/BinaryEngine.cpp, and the threaded
    machine they make with the handlers of Orchestrator.v: an event handler
    answers with the instruction to go on with, any other handler runs its
    code and goes to the next one. Callbacks, native code, system calls and
    the debugger are parameters. *)
From Stdlib Require Import ZArith Lia List String.
From stdpp Require Import base list gmap strings.
From S2P Require Import Prelude Utils Registers StateMem CPUState Orchestrator.
#[local] Open Scope Z_scope.

(** * Events *)

Inductive EventType :=
| LiftBefore | LiftAfter
| MemRead | MemWrite | MemMap | MemUnmap | MemProtect
| InsnBefore | InsnAfter | BlockBefore | BlockAfter | FuncBefore | FuncAfter
| SyscallBefore | SyscallAfter
| HostBridgeBefore | HostBridgeAfter
| TrapHit | ExceptionThrown | InvalidInsn.

Inductive EventResult := Continue | Processed | TerminateTask.

#[export] Instance EventResult_eq_dec : EqDecision EventResult.
Proof. solve_decision. Defined.

Inductive Event :=
| EventRuntime (type : EventType) (addr : Z)
| EventLift (type : EventType) (addr : Z) (opcode : list Z) (name : string)
| EventMemory (type : EventType) (addr mem size value : Z)
| EventHyperCall (type : EventType) (addr sysno : Z).

(** [std::get<EventHyperCall>(event).type = type]: the variant a callback
    left behind may be another one, then it throws. *)
Definition set_hypercall_type (type : EventType) (e : Event) : exec Event :=
  match e with
  | EventHyperCall _ addr sysno => Ret (EventHyperCall type addr sysno)
  | _ => Abort
  end.

Section Callbacks.
Context {S : Type}.

(** A callback may rewrite the event and whatever it can reach. *)
Definition callback : Type := Event -> S -> EventResult * Event * S.

Fixpoint handleEvent (eventCallbacks : list callback) (event : Event) (s : S) : EventResult * Event * S :=
  match eventCallbacks with
  | [] => (Continue, event, s)
  | c :: cs =>
      let '(result, event, s) := c event s in
      match result with
      | Continue => handleEvent cs event s
      | _ => (result, event, s)
      end
  end.

Definition hasEventHandler (eventCallbacks : list callback) : bool :=
  (0 <? length eventCallbacks)%nat.
End Callbacks.

(** * The event handlers *)

(** The next instruction: one of the orchestrator's, or what [&cpu->retaddr]
    points to. *)
Inductive insn_ref := Insn (p : iptr) | RetAddr.

(** [&current[n]]. The aborting instruction has no successor. *)
Definition current_plus (current : iptr) (n : Z) : exec insn_ref :=
  match current with
  | At k p => Ret (Insn (At k (p + n)))
  | Terminate => Undef
  end.

Section Handlers.
Context `{EventFuncs} `{A64Layout} {W : Type}.
Implicit Types s : CPUState * W.

Variable eventCallbacks : list (callback (S := CPUState * W)).
(** The debugger's [insn_handler] and the system call: its number, seven
    arguments and what it returns in 64 bits. *)
Variable insn_handler : Z -> iptr -> CPUState * W -> CPUState * W.
Variable syscall : Z -> list Z -> CPUState * W -> Z * (CPUState * W).
Variable bbs : list BasicBlocks.

(** [*cpu->pcptr] and [cpu->runtime]. *)
Definition cpu_pc s : exec Z := p ← of_option Undef (pcptr s.1); Ret (load 8 (state s.1) p).
Definition cpu_runtime s : exec runtime_t := of_option Undef (runtime s.1).
Definition cpu_x (n : Z) s : Z := load 8 (state s.1) (off (gpr_x n)).
Definition set_state s (m : bytes) : CPUState * W :=
  let c := s.1 in
  (mkCPU (pcptr c) (runtime c) m (pc c) (rvalue c) (retaddr c) (stack c) (stacksize c), s.2).
Definition set_cpu_x (n v : Z) s : CPUState * W := set_state s (store 8 (state s.1) (off (gpr_x n)) v).

(** Tells the callbacks, if there are any. *)
Definition tell (type : EventType) s : exec (EventResult * (CPUState * W)) :=
  _ ← cpu_runtime s;
  if hasEventHandler eventCallbacks then
    addr ← cpu_pc s;
    let '(result, _, s) := handleEvent eventCallbacks (EventRuntime type addr) s in Ret (result, s)
  else Ret (Continue, s).

Abbreviation answer := (exec (insn_ref * (CPUState * W) * Cache)).

Definition notify (type : EventType) s (c : Cache) (current : iptr) : answer :=
  '(_, s) ← tell type s;
  next ← current_plus current 1;
  Ret (next, s, c).

Definition host_event_func_before := notify FuncBefore.
Definition host_event_func_after := notify FuncAfter.
Definition host_event_insn_after := notify InsnAfter.
Definition host_event_block_before := notify BlockBefore.
Definition host_event_block_after := notify BlockAfter.

Definition host_finish_emulation s (c : Cache) (current : iptr) : answer := Ret (RetAddr, s, c).

Definition host_event_insn_before s (c : Cache) (current : iptr) : answer :=
  '(result, s) ← tell InsnBefore s;
  match result with
  | Processed => next ← current_plus current 2; Ret (next, s, c)
  | TerminateTask => host_finish_emulation s c current
  | Continue => next ← current_plus current 1; Ret (next, s, c)
  end.

Definition host_event_debugging s (c : Cache) (current : iptr) : answer :=
  rt ← cpu_runtime s;
  s ← (if rt_debug rt then addr ← cpu_pc s; Ret (insn_handler addr current s) else Ret s);
  next ← current_plus current 1;
  Ret (next, s, c).

(** [int syscall(int number, ...)]: the number is cut to an [int], and so is
    what comes back before it is put in x0. *)
Definition host_syscall_interpret s (c : Cache) (current : iptr) : answer :=
  _ ← cpu_runtime s;
  addr ← cpu_pc s;
  let event := EventHyperCall SyscallBefore addr (to_signed 32 (cpu_x 0 s)) in
  let '(result, event, s) := handleEvent eventCallbacks event s in
  s ← (match result with
       | Processed => Ret s
       | _ =>
           let '(r, s) := syscall (to_signed 32 (cpu_x 0 s)) ((fun n => cpu_x n s) <$> seqZ 1 7) s in
           let s := set_cpu_x 0 (wrap64 (to_signed 32 r)) s in
           if hasEventHandler eventCallbacks then
             event ← set_hypercall_type SyscallAfter event;
             let '(_, _, s) := handleEvent eventCallbacks event s in Ret s
           else Ret s
       end);
  next ← current_plus current 1;
  Ret (next, s, c).

Definition host_interrupt_interpret s (c : Cache) (current : iptr) : answer :=
  _ ← cpu_runtime s;
  addr ← cpu_pc s;
  let '(_, _, _) := handleEvent eventCallbacks (EventRuntime TrapHit addr) s in
  Abort.

Definition host_jump_interpret s (c : Cache) (current : iptr) : answer :=
  addr ← cpu_pc s;
  '(p, c) ← find bbs addr c;
  Ret (Insn p, s, c).

Definition host_call_interpret s (c : Cache) (current : iptr) : answer :=
  addr ← cpu_pc s;
  '(p, c) ← find bbs addr c;
  Ret (Insn p, s, c).

Definition host_finish_function s (c : Cache) (current : iptr) : answer :=
  addr ← cpu_pc s;
  if addr =? retaddr s.1 then host_finish_emulation s c current
  else host_jump_interpret s c current.

Definition host_terminate_execution s (c : Cache) (current : iptr) : answer := Abort.

(** * The threaded machine *)

(** The code of the lifted handlers, by address; it ends in
    [__remill_function_return], which goes to the next instruction. *)
Variable native : Z -> CPUState * W -> exec (CPUState * W).

Definition handlers_of_events : list (Z * (CPUState * W -> Cache -> iptr -> answer)) :=
  [(wrap 59 event_func_before, host_event_func_before); (wrap 59 event_func_after, host_event_func_after);
   (wrap 59 event_insn_before, host_event_insn_before); (wrap 59 event_insn_after, host_event_insn_after);
   (wrap 59 event_block_before, host_event_block_before); (wrap 59 event_block_after, host_event_block_after);
   (wrap 59 event_debugging, host_event_debugging); (wrap 59 syscall_interpret, host_syscall_interpret);
   (wrap 59 interrupt_interpret, host_interrupt_interpret); (wrap 59 jump_interpret, host_jump_interpret);
   (wrap 59 call_interpret, host_call_interpret); (wrap 59 finish_function, host_finish_function);
   (wrap 59 finish_emulation, host_finish_emulation); (wrap 59 terminate_execution, host_terminate_execution)].

Definition run_insn (insn : Instruction) s (c : Cache) (current : iptr) : answer :=
  match switch (i_handler insn) handlers_of_events with
  | Some host => host s c current
  | None =>
      s ← native (i_handler insn) s;
      next ← current_plus current 1;
      Ret (next, s, c)
  end.

(** Where the machine is after one handler: at the next one, or back in
    [aether_vm_entry]. The word at [&cpu->retaddr] is taken for an instruction
    and loses its upper five bits. *)
Inductive outcome := Running (r : insn_ref) (s : CPUState * W) (c : Cache) | Returned (s : CPUState * W).

Definition chain_step (r : insn_ref) s (c : Cache) : exec outcome :=
  match r with
  | RetAddr => if retaddr s.1 <? 2 ^ 59 then Ret (Returned s) else Undef
  | Insn Terminate => Abort
  | Insn (At k p) =>
      blocks ← of_option Undef (bbs !! k);
      insn ← of_option Undef (rt_at blocks p);
      '(r, s, c) ← run_insn insn s c (At k p);
      Ret (Running r s c)
  end.

Fixpoint chain_run (fuel : nat) (r : insn_ref) s (c : Cache) : exec (option (CPUState * W)) :=
  match fuel with
  | O => Ret None
  | Datatypes.S fuel' =>
      o ← chain_step r s c;
      match o with
      | Returned s => Ret (Some s)
      | Running r s c => chain_run fuel' r s c
      end
  end.

(** The debugger's [thread_handler], the stack of the guest in memory. *)
Variable thread_handler : thread_call -> CPUState * W -> CPUState * W.
Variable write_stack : Z -> Z -> W -> W.
Context `{X86Layout}.
Variables (stack_size : Z) (alloc : Z -> Z).

(** [retaddr_aarch64] and [retaddr_x86] with the store of [vm_enter]: the
    return address goes to the link register or on the stack, below the shadow
    space of Windows. *)
Definition push_retaddr (arch : arch_t) (pe : bool) (host : Z) s : exec (CPUState * W) :=
  match arch with
  | ARM64 =>
      let '(p, m) := rf_get (RegFile := a64_regfile) Register.LR (state s.1) in
      p ← of_option Undef p;
      Ret (set_state s (store 8 m p host))
  | X64 =>
      let '(p, m) := rf_get (RegFile := x86_regfile) Register.SP (state s.1) in
      p ← of_option Undef p;
      let sp := wrap64 (load 8 m p - 8 * (if pe then 5 else 1)) in
      Ret (set_state (s.1, write_stack sp host s.2) (store 8 m p sp))
  end.

Definition set_retaddr (host : Z) s : CPUState * W :=
  let c := s.1 in
  (mkCPU (pcptr c) (runtime c) (state c) (pc c) (rvalue c) host (stack c) (stacksize c), s.2).

(** [BinaryEngineImpl::startVM], whose call of [aether_vm_entry] returns to
    the host at [host]. *)
Definition startVM (arch : arch_t) (pe : bool) (host : Z) (fuel : nat) (entry : Z) s (c : Cache)
  : exec (option (bool * (CPUState * W))) :=
  '(_, cpu, calls) ← initContext stack_size alloc entry s.1;
  let s := fold_left (fun s call => thread_handler call s) calls (cpu, s.2) in
  '(p, c) ← find bbs entry c;
  s ← push_retaddr arch pe host (set_retaddr host s);
  r ← chain_run fuel (Insn p) s c;
  Ret (option_map (pair true) r).
End Handlers.

(** * Properties *)

(** The callbacks leave event and state alone and do not claim the event. *)
Definition passive {S} (eventCallbacks : list (callback (S := S))) : Prop :=
  ∀ c e s, c ∈ eventCallbacks -> ∃ r, c e s = (r, e, s) ∧ r <> Processed.

Lemma handleEvent_passive {S} (cs : list (callback (S := S))) e s : passive cs ->
  ∃ r, handleEvent cs e s = (r, e, s) ∧ r <> Processed.
Proof.
  induction cs as [|c cs IH]; intros Hp; cbn [handleEvent]; [by exists Continue|].
  destruct (Hp c e s) as (r & -> & Hr); [apply list_elem_of_here|].
  destruct r; [|done|by eexists]. apply IH. intros d e' s' Hd. by apply Hp, list_elem_of_further.
Qed.

Lemma to_signed32_wrap r : u64 r ->
  wrap64 (to_signed 32 r) = r <-> r < 2 ^ 31 \/ 2 ^ 64 - 2 ^ 31 <= r.
Proof.
  intros Hr. unfold fits in Hr. unfold to_signed, wrap.
  pose proof (Z.div_mod r (2 ^ 32) ltac:(lia)). pose proof (Z.mod_pos_bound r (2 ^ 32) ltac:(lia)).
  change (2 ^ (32 - 1)) with (2 ^ 31) in *. destruct (Z.ltb_spec (r mod 2 ^ 32) (2 ^ 31)).
  - rewrite (Z.mod_small (r mod 2 ^ 32)) by lia. split; [intros <-; left; lia|]. lia.
  - replace (r mod 2 ^ 32 - 2 ^ 32) with (r mod 2 ^ 32 - 2 ^ 32 + 2 ^ 64 + (-1) * 2 ^ 64) by lia.
    rewrite Z.mod_add, Z.mod_small by lia. lia.
Qed.

Lemma cpu_x_set `{A64Layout} {W} (s : CPUState * W) n v : u64 v -> cpu_x n (set_cpu_x n v s) = v.
Proof. intros Hv. unfold cpu_x, set_cpu_x, set_state; cbn [state fst]. rewrite load_store. by apply Z.mod_small. Qed.

(** A system call of the guest is made whatever callbacks that do not
    claim it answer, a request to terminate included, and the guest goes on
    behind it. What comes back in x0 is the kernel's answer only when that
    is a number of 32 bits with a sign; any other, such as the address of a
    mapping, loses its upper half. *)
Theorem syscall_result `{EventFuncs} `{A64Layout} {W : Type} (eventCallbacks : list (callback (S := CPUState * W)))
    syscall (s : CPUState * W) (c : Cache) (k : nat) (p : Z) :
  passive eventCallbacks -> is_Some (pcptr s.1) -> is_Some (runtime s.1) ->
  let '(r, s1) := syscall (to_signed 32 (cpu_x 0 s)) ((fun n => cpu_x n s) <$> seqZ 1 7) s in
  u64 r ->
  ∃ s', host_syscall_interpret eventCallbacks syscall s c (At k p) = Ret (Insn (At k (p + 1)), s', c) ∧
    (cpu_x 0 s' = r <-> r < 2 ^ 31 \/ 2 ^ 64 - 2 ^ 31 <= r).
Proof.
  intros Hpass [pp Hpc] [rt Hrt]. destruct (syscall _ _ _) as [r s1] eqn:Hsys. intros Hr.
  exists (set_cpu_x 0 (wrap64 (to_signed 32 r)) s1). split.
  - unfold host_syscall_interpret, cpu_runtime, cpu_pc. rewrite Hrt, Hpc. cbn [of_option mbind exec_bind].
    destruct (handleEvent_passive eventCallbacks
      (EventHyperCall SyscallBefore (load 8 (state s.1) pp) (to_signed 32 (cpu_x 0 s))) s Hpass) as (res & -> & Hres).
    destruct res; [|done|]; rewrite Hsys; (destruct (hasEventHandler _); [|done]); cbn [set_hypercall_type mbind exec_bind];
      match goal with |- context [handleEvent eventCallbacks ?e ?t] =>
        destruct (handleEvent_passive eventCallbacks e t Hpass) as (res' & -> & _) end; done.
  - rewrite cpu_x_set by (apply wrap_fits; lia). by apply to_signed32_wrap.
Qed.

Section Examples.
#[local] Existing Instance a64_sample.

Definition sample_cpu : CPUState := mkCPU (Some 0x448) (Some (Runtime ARM64 true)) ∅ 0 0 0 0 0.

(** A mapping at 2^47, with a callback that asks to terminate. *)
Lemma syscall_result_witness :
  ∃ s', host_syscall_interpret [fun e s => (TerminateTask, e, s)] (fun _ _ s => (2 ^ 47, s)) (sample_cpu, tt)
      (mkCache None ∅) (At 0 0) = Ret (Insn (At 0 1), s', mkCache None ∅) ∧ cpu_x 0 s' <> 2 ^ 47.
Proof.
  destruct (syscall_result [fun e s => (TerminateTask, e, s)] (fun _ _ s => (2 ^ 47, s)) (sample_cpu, tt)
    (mkCache None ∅) 0 0) as (s' & H1 & H2).
  - intros c e s Hc. apply list_elem_of_singleton in Hc as ->. by eexists.
  - by eexists.
  - by eexists.
  - split; lia.
  - exists s'. split; [exact H1|]. rewrite H2. lia.
Defined.

(** An instruction event that a callback claims as processed skips two
    handlers. Without the debugger that is the instruction, as meant; with it
    the debugger's handler lies between, and the instruction that should be
    skipped is executed. *)
Theorem insn_before_processed {W : Type} (eventCallbacks : list (callback (S := CPUState * W)))
    (dynhandlers : list Z -> option Z) (arm64 : bool) (cfg : EventConfig) (i : BInsn)
    (s s' : CPUState * W) (c : Cache) (k : nat) (p : Z) :
  c_insn cfg = true ->
  tell eventCallbacks InsnBefore s = Ret (Processed, s') ->
  let hs := insn_handlers dynhandlers arm64 cfg i in
  host_event_insn_before eventCallbacks s c (At k p) = Ret (Insn (At k (p + 2)), s', c) ∧
  hs !! 0%nat = Some (event_insn event_insn_before) ∧
  hs !! (if c_debug cfg then 2 else 1)%nat = Some (insn_real dynhandlers i) ∧
  (c_debug cfg = true -> hs !! 1%nat = Some (event_insn event_debugging)).
Proof.
  intros Hi Ht. unfold host_event_insn_before. rewrite Ht. cbn [mbind exec_bind current_plus].
  unfold insn_handlers. rewrite Hi. destruct (c_debug cfg); by split_and!.
Qed.

Lemma insn_before_processed_witness :
  host_event_insn_before [fun e s => (Processed, e, s)] (sample_cpu, tt) (mkCache None ∅) (At 0 0) =
    Ret (Insn (At 0 2), (sample_cpu, tt), mkCache None ∅) ∧
  insn_handlers (fun _ => Some 100) true (mkCfg false false true true) (add_insn 0) !! 2%nat =
    Some (real_insn 100 4).
Proof.
  destruct (insn_before_processed [fun e s => (Processed, e, s)] (fun _ => Some 100) true
    (mkCfg false false true true) (add_insn 0) (sample_cpu, tt) (sample_cpu, tt) (mkCache None ∅) 0 0)
    as (H1 & _ & H3 & _); [done|reflexivity|].
  split; [exact H1|exact H3].
Defined.
End Examples.
