(* ===== verification/Chain.v ===== *)
(** Instrumentation is transparent: the threaded machine of Event.v on a
    binary encoded with any events does what it does on the binary encoded
    without, as long as the callbacks let it. The proof relates the two
    layouts of the code by the handlers that are left of it. *)
From Stdlib Require Import ZArith Lia List.
From stdpp Require Import base list gmap.
From S2P Require Import Prelude Utils Registers StateMem CPUState Orchestrator Event.
#[local] Open Scope Z_scope.

(** * What is left of the code without instrumentation *)

Section Essential.
Context `{EventFuncs}.

Definition instr_funcs : list Z := wrap 59 <$>
  [event_func_before; event_func_after; event_insn_before; event_insn_after;
   event_block_before; event_block_after; event_debugging].
Definition guest_funcs : list Z := wrap 59 <$>
  [syscall_interpret; interrupt_interpret; jump_interpret; call_interpret;
   finish_function; finish_emulation; terminate_execution].

(** The functions are told apart by the 59 bits an instruction keeps. *)
Definition funcs_distinct : Prop := NoDup (instr_funcs ++ guest_funcs).

Definition instrument (i : Instruction) : Prop := i_event i = true ∧ i_handler i ∈ instr_funcs.
#[export] Instance instrument_dec i : Decision (instrument i).
Proof. unfold instrument. apply _. Defined.

Definition essential (l : list Instruction) : list Instruction := filter (fun i => ~ instrument i) l.

Lemma essential_app l l' : essential (l ++ l') = essential l ++ essential l'.
Proof. apply filter_app. Qed.

Lemma essential_mjoin ls : essential (mjoin ls) = mjoin (essential <$> ls).
Proof. induction ls as [|l ls IH]; [done|].
  change (essential (l ++ mjoin ls) = essential l ++ mjoin (essential <$> ls)). by rewrite essential_app, IH.
Qed.

Lemma essential_setup on f : wrap 59 f ∈ instr_funcs -> essential (setup_event on f) = [].
Proof.
  intros Hf. destruct on; [|done]. unfold essential, setup_event. rewrite filter_cons, decide_False; [done|].
  intros Hn. by apply Hn.
Qed.

Lemma essential_keep i l : ~ instrument i -> essential (i :: l) = i :: essential l.
Proof. intros Hi. unfold essential. by rewrite filter_cons, decide_True. Qed.

Lemma essential_drop i l : instrument i -> essential (i :: l) = essential l.
Proof. intros Hi. unfold essential. rewrite filter_cons, decide_False; [done|]. by intros Hn. Qed.

(** A kept handler sits behind instrumentation only. *)
Lemma essential_cons_inv l x l0 : essential l = x :: l0 ->
  ∃ pre rest, l = pre ++ x :: rest ∧ Forall instrument pre ∧ ~ instrument x ∧ essential rest = l0.
Proof.
  induction l as [|y l IH]; [done|]. destruct (decide (instrument y)) as [Hy|Hy].
  - rewrite essential_drop by done. intros He. destruct (IH He) as (pre & rest & -> & Hpre & Hx & Hr).
    exists (y :: pre), rest. by split_and!; [|constructor|..].
  - rewrite essential_keep by done. intros [= <- <-]. exists [], l. by split_and!.
Qed.

Hypothesis distinct : funcs_distinct.

Lemma guest_not_instr f : f ∈ guest_funcs -> f ∉ instr_funcs.
Proof. intros Hg Hi. apply NoDup_app in distinct as (_ & Hd & _). by apply (Hd f). Qed.

Lemma guest_kept f : wrap 59 f ∈ guest_funcs -> ~ instrument (event_insn f).
Proof. intros Hg [_ Hi]. by apply guest_not_instr in Hg. Qed.

Lemma essential_guest on f : wrap 59 f ∈ guest_funcs -> essential (setup_event on f) = setup_event on f.
Proof. intros Hf. destruct on; [|done]. by apply essential_keep, guest_kept. Qed.
End Essential.

Ltac in_funcs := unfold instr_funcs, guest_funcs; cbn [fmap list_fmap];
  in_list.

(** * The two encodings *)

Section Encodings.
Context `{EventFuncs}.
Hypothesis distinct : funcs_distinct.
Variables (dynhandlers : list Z -> option Z) (arm64 : bool) (addend : Z) (cfg : EventConfig).

Lemma essential_insn i :
  essential (insn_handlers dynhandlers arm64 cfg i) = insn_handlers dynhandlers arm64 no_events i.
Proof.
  unfold insn_handlers, no_events; cbn [c_insn c_debug c_func].
  rewrite !essential_app, !(essential_setup _ event_insn_before), !(essential_setup _ event_debugging) by in_funcs.
  rewrite essential_keep by by intros [? _]. cbn [setup_event app]. f_equal.
  destruct (b_type i); rewrite ?essential_app, ?(essential_guest distinct) by in_funcs;
    rewrite ?(essential_setup _ event_insn_after), ?(essential_setup _ event_func_after) by in_funcs;
    rewrite ?(essential_keep (event_insn _)) by (apply guest_kept; [done|in_funcs]); done.
Qed.

(** What the encoder has built with events and without. *)
Definition enc_rel (st st0 : enc_state) : Prop :=
  e_vmaddrs st = e_vmaddrs st0 ∧ essential <$> e_done st = e_done st0 ∧ essential (e_open st) = e_open st0.

Lemma push_rel st st0 l l0 : enc_rel st st0 -> essential l = l0 -> enc_rel (push st l) (push st0 l0).
Proof. intros (Hv & Hd & Ho) Hl. split_and!; [done|done|].
  change (essential (e_open st ++ l) = e_open st0 ++ l0). by rewrite essential_app, Ho, Hl.
Qed.

Lemma open_rel st st0 addr : enc_rel st st0 -> enc_rel (open_block st addr) (open_block st0 addr).
Proof.
  intros (Hv & Hd & Ho). split_and!; cbn; [by rewrite Hv| |done]. by rewrite fmap_app, Hd, <- Ho.
Qed.

Lemma encode_insns_rel addr insns : ∀ first newbb st st0, enc_rel st st0 ->
  enc_rel (encode_insns dynhandlers arm64 cfg addend addr first newbb insns st)
          (encode_insns dynhandlers arm64 no_events addend addr first newbb insns st0).
Proof.
  induction insns as [|i insns IH]; intros first newbb st st0 Hst; [done|]. cbn [encode_insns]. cbv zeta.
  apply IH, push_rel; [|apply essential_insn]. destruct (negb first && (b_comins i || newbb)); [|done].
  apply push_rel; [apply open_rel, push_rel; [done|]|]; apply essential_setup; in_funcs.
Qed.

Lemma encode_functions_rel fs : ∀ st st0, enc_rel st st0 ->
  enc_rel (fold_left (fun st f => encode_function dynhandlers arm64 cfg addend f st) fs st)
          (fold_left (fun st f => encode_function dynhandlers arm64 no_events addend f st) fs st0).
Proof.
  induction fs as [|f fs IH]; intros st st0 Hst; [done|]. cbn [fold_left]. apply IH.
  apply encode_insns_rel, push_rel; [by apply open_rel|].
  by rewrite essential_app, !essential_setup by in_funcs.
Qed.

Lemma fmap_tail {A B} (f : A -> B) l : f <$> tail l = tail (f <$> l).
Proof. by destruct l. Qed.

Lemma encode_blocks_rel fs :
  let '(vmaddrs, hs) := encode_blocks dynhandlers arm64 cfg addend fs in
  let '(vmaddrs0, hs0) := encode_blocks dynhandlers arm64 no_events addend fs in
  vmaddrs = vmaddrs0 ∧ essential <$> hs = hs0.
Proof.
  unfold encode_blocks. pose proof (encode_functions_rel fs (mkEnc [] [] []) (mkEnc [] [] [])) as Hst.
  specialize (Hst ltac:(by split_and!)).
  match type of Hst with enc_rel ?a ?b => set (st := a) in *; set (st0 := b) in * end.
  assert (enc_rel (if (length fs =? 1)%nat then push st [event_insn finish_emulation] else st)
    (if (length fs =? 1)%nat then push st0 [event_insn finish_emulation] else st0)) as (-> & Hd & Ho).
  { destruct (_ =? _)%nat; [|exact Hst]. apply push_rel; [exact Hst|].
    apply (essential_guest distinct true). in_funcs. }
  split; [done|]. by rewrite fmap_tail, fmap_app, Hd, <- Ho.
Qed.

(** Functions with instructions give blocks with handlers. *)
Definition enc_full (st : enc_state) : Prop :=
  Forall (.≠ []) (tail (e_done st)) ∧ (e_done st <> [] -> e_open st <> []).

Lemma push_full st l : enc_full st -> enc_full (push st l).
Proof. intros [Hd Ho]. split; [done|]. cbn. intros Hne Hn. apply app_eq_nil in Hn as [Hn _]. by apply Ho. Qed.

Lemma open_push_full st addr l : enc_full st -> l <> [] -> enc_full (push (open_block st addr) l).
Proof.
  intros [Hd Ho] Hl. split; cbn; [|done].
  destruct (e_done st) as [|b bs]; [done|]. cbn in *. apply Forall_app. split; [done|].
  constructor; [by apply Ho|done].
Qed.

Lemma push_push st l l' : push (push st l) l' = push st (l ++ l').
Proof. unfold push; cbn. by rewrite <- app_assoc. Qed.

Lemma encode_insns_full addr insns : ∀ newbb st, enc_full st ->
  enc_full (encode_insns dynhandlers arm64 cfg addend addr false newbb insns st).
Proof.
  induction insns as [|i insns IH]; intros newbb st Hst; [done|]. cbn [encode_insns]. cbv zeta.
  apply IH. cbn [negb andb]. destruct (b_comins i || newbb); [|by apply push_full].
  rewrite push_push. apply open_push_full; [by apply push_full|].
  intros Hn. apply app_eq_nil in Hn as [_ Hn]. unfold insn_handlers in Hn.
  apply app_eq_nil in Hn as [_ Hn]. apply app_eq_nil in Hn as [_ Hn]. done.
Qed.

Lemma encode_functions_full fs : Forall (fun f => bf_insns f <> []) fs -> ∀ st, enc_full st ->
  enc_full (fold_left (fun st f => encode_function dynhandlers arm64 cfg addend f st) fs st).
Proof.
  induction 1 as [|f fs Hf _ IH]; intros st Hst; [done|]. cbn [fold_left]. apply IH.
  unfold encode_function. destruct (bf_insns f) as [|i insns]; [done|]. cbn [encode_insns]. cbv zeta.
  apply encode_insns_full. cbn [negb andb]. rewrite push_push. apply open_push_full; [done|].
  intros Hn. apply app_eq_nil in Hn as [_ Hn]. unfold insn_handlers in Hn.
  apply app_eq_nil in Hn as [_ Hn]. apply app_eq_nil in Hn as [_ Hn]. done.
Qed.
End Encodings.

Section Layouts.
Context `{EventFuncs}.
Variables (dynhandlers : list Z -> option Z) (arm64 : bool) (addend : Z).

Lemma encode_insns_length cfg addr insns : ∀ first newbb st,
  length (e_done st) = length (e_vmaddrs st) ->
  let st' := encode_insns dynhandlers arm64 cfg addend addr first newbb insns st in
  length (e_done st') = length (e_vmaddrs st').
Proof.
  induction insns as [|i insns IH]; intros first newbb st Hst; [done|]. cbn [encode_insns]. cbv zeta.
  apply IH. cbn. destruct (negb first && (b_comins i || newbb)); cbn; [|done]. rewrite !length_app. cbn. lia.
Qed.

Lemma encode_functions_length cfg fs : ∀ st, length (e_done st) = length (e_vmaddrs st) ->
  let st' := fold_left (fun st f => encode_function dynhandlers arm64 cfg addend f st) fs st in
  length (e_done st') = length (e_vmaddrs st').
Proof.
  induction fs as [|f fs IH]; intros st Hst; [done|]. cbn [fold_left]. apply IH.
  apply encode_insns_length. cbn. rewrite !length_app. cbn. lia.
Qed.

(** Functions with instructions at increasing addresses. *)
Definition program_wf (fs : list BFunction) : Prop :=
  fs <> [] ∧ Forall (fun f => bf_insns f <> []) fs ∧
  ∀ (i j : nat) a b, (i < j)%nat ->
    mjoin (fn_blocks addend <$> fs) !! i = Some a -> mjoin (fn_blocks addend <$> fs) !! j = Some b -> a < b.

Lemma encode_blocks_wf cfg fs : program_wf fs ->
  let '(vmaddrs, hs) := encode_blocks dynhandlers arm64 cfg addend fs in
  vmaddrs = mjoin (fn_blocks addend <$> fs) ∧ blocks_wf vmaddrs hs.
Proof.
  intros (Hne & Hfull & Hsorted). pose proof (encode_blocks_spec dynhandlers arm64 addend cfg fs Hne) as Hspec.
  unfold encode_blocks in *.
  pose proof (encode_functions_full dynhandlers arm64 addend cfg fs Hfull (mkEnc [] [] []) ltac:(by split)) as [Hd Ho].
  pose proof (encode_functions_length cfg fs (mkEnc [] [] []) eq_refl) as Hlen. cbv zeta in Hlen.
  set (st := fold_left _ _ _) in *.
  set (st' := if (length fs =? 1)%nat then push st [event_insn finish_emulation] else st) in *.
  assert (e_done st' = e_done st ∧ e_vmaddrs st' = e_vmaddrs st ∧ (e_done st <> [] -> e_open st' <> [])) as (Hd' & Hv' & Ho').
  { unfold st'. destruct (_ =? _)%nat; [|done]. split_and!; [done..|]. cbn. intros Hn Hn'.
    by apply app_eq_nil in Hn' as [_ ?]. }
  destruct Hspec as [Hv _]. rewrite Hv' in *. split; [done|].
  assert (e_vmaddrs st <> []) as Hnonempty.
  { rewrite Hv. destruct fs as [|f fs]; [done|]. done. }
  split_and!; [done| | |].
  - rewrite Hd'. destruct (e_done st) as [|b bs]; cbn in *; [by destruct (e_vmaddrs st)|].
    rewrite length_app. cbn. lia.
  - rewrite Hd'. destruct (e_done st) as [|b bs]; cbn in *; [by destruct (e_vmaddrs st)|].
    apply Forall_forall. apply Forall_app. split; [done|]. constructor; [by apply Ho'|done].
  - rewrite Hv. exact Hsorted.
Qed.
End Layouts.

(** * Runs that end *)

Section Runs.
Context `{EventFuncs} `{A64Layout} {W : Type}.
Abbreviation vm := (CPUState * W)%type.
Variable eventCallbacks : list (callback (S := vm)).
Variable insn_handler : Z -> iptr -> vm -> vm.
Variable syscall : Z -> list Z -> vm -> Z * vm.
Variable native : Z -> vm -> exec vm.
Variable b : BasicBlocks.

Definition finders : list Z := wrap 59 <$> [jump_interpret; call_interpret; finish_function].

(** Addresses where blocks start, and those outside of the binary. *)
Definition jump_target (v : Z) : Prop :=
  v ∈ vmaddrs b \/ (∀ first, head (vmaddrs b) = Some first -> v < first) \/ maxaddr b <= v.

(** Lookups go to block starts or leave the binary; the return address is not
    looked up. *)
Definition lookup_ok (key : Z) (s : vm) : Prop :=
  key ∈ finders -> ∀ addr, cpu_pc s = Ret addr ->
    jump_target addr \/ key = wrap 59 finish_function ∧ addr = retaddr s.1.

Definition insn_ok (r : insn_ref) (s : vm) : Prop :=
  ∀ p x, r = Insn (At 0 p) -> rt_at b p = Some x -> lookup_ok (i_handler x) s.

Abbreviation step := (chain_step eventCallbacks insn_handler syscall [b] native).

(** Runs of one binary that end, by returning to the host or by aborting, and
    whose lookups are all [lookup_ok]. *)
Inductive halts : insn_ref -> vm -> Cache -> exec vm -> Prop :=
| halt_returned r s c s' : step r s c = Ret (Returned s') -> halts r s c (Ret s')
| halt_abort r s c : step r s c = Abort -> insn_ok r s -> halts r s c Abort
| halt_running r s c r' s' c' o : step r s c = Ret (Running r' s' c') -> insn_ok r s ->
    halts r' s' c' o -> halts r s c o.
End Runs.

(** * One binary, two layouts *)

Section Positions.
Context `{EventFuncs}.
Variables (vmaddrs : list Z) (maxaddr : Z) (hs hs0 : list (list Instruction)).
Hypothesis wf : blocks_wf vmaddrs hs.
Hypothesis wf0 : blocks_wf vmaddrs hs0.
Hypothesis same : essential <$> hs = hs0.
Let bb := bb_convert vmaddrs maxaddr hs.
Let bb0 := bb_convert vmaddrs maxaddr hs0.

(** The same is left of the code at two positions. *)
Definition pos_rel (p0 p : Z) : Prop :=
  0 <= p0 ∧ 0 <= p ∧
  essential (drop (Z.to_nat p) (rthandlers bb)) = drop (Z.to_nat p0) (rthandlers bb0).

Definition start (ls : list (list Instruction)) (k : nat) : Z := Z.of_nat (length (mjoin (take k ls))).

Lemma drop_start (ls : list (list Instruction)) k : drop (Z.to_nat (start ls k)) (mjoin ls) = mjoin (drop k ls).
Proof.
  unfold start. rewrite Nat2Z.id. rewrite <- (take_drop k ls) at 2. by rewrite join_app, drop_app_length.
Qed.

Lemma start_rel k : pos_rel (start hs0 k) (start hs k).
Proof.
  split; [unfold start; lia|]. split; [unfold start; lia|].
  change (rthandlers bb) with (mjoin hs). change (rthandlers bb0) with (mjoin hs0).
  rewrite !drop_start, essential_mjoin, <- same. by rewrite fmap_drop.
Qed.

Inductive iptr_rel : iptr -> iptr -> Prop :=
| rel_At p0 p : pos_rel p0 p -> iptr_rel (At 0 p0) (At 0 p)
| rel_Terminate : iptr_rel Terminate Terminate.

Lemma findBlocks_target ls v : blocks_wf vmaddrs ls -> jump_target bb v ->
  findBlocks (bb_convert vmaddrs maxaddr ls) v =
    match head vmaddrs with
    | Some first =>
        if (v <? first) || (maxaddr <=? v) then Ret None
        else Ret (start ls <$> (fst <$> list_find (eq v) vmaddrs))
    | None => Undef
    end.
Proof.
  intros Hwf Hv. pose proof (wf_sorted _ _ Hwf) as Hs. destruct Hwf as (Hne & Hlen & Hnonempty & Hstrict).
  destruct (head vmaddrs) as [first|] eqn:Hfirst; [|by apply head_None in Hfirst].
  destruct (_ || _) eqn:E.
  { unfold findBlocks. cbn [Orchestrator.vmaddrs Orchestrator.maxaddr bb_convert]. rewrite Hfirst.
    cbn [of_option mbind exec_bind]. by rewrite E. }
  bsplit. assert (v ∈ vmaddrs) as Hin.
  { destruct Hv as [|[Hv|Hv]]; [done|specialize (Hv first Hfirst); lia|change (maxaddr <= v) in Hv; lia]. }
  apply list_elem_of_lookup in Hin as [k Hk].
  assert (list_find (eq v) vmaddrs = Some (k, v)) as ->.
  { apply list_find_Some. split_and!; [done|done|]. intros j y Hj Hjk ->.
    pose proof (Hstrict j k _ _ Hjk Hj Hk). lia. }
  destruct (lookup_lt_is_Some_2 ls k) as [insns Hh]; [rewrite Hlen; by eapply lookup_lt_Some|].
  destruct (findBlocks_lookup vmaddrs maxaddr ls k insns v v) as [Hexact _]; [done..| |done|done|].
  { intros f Hf. simplify_eq. lia. }
  rewrite Hexact; [done|done|exact (rank_found id vmaddrs k v Hstrict Hk)].
Qed.

(** A lookup gives corresponding instructions in both layouts. *)
Lemma find_rel c c0 v : cache_ok [bb] c -> cache_ok [bb0] c0 -> jump_target bb v ->
  ∃ p p0 c' c0', find [bb] v c = Ret (p, c') ∧ find [bb0] v c0 = Ret (p0, c0') ∧
    iptr_rel p0 p ∧ cache_ok [bb] c' ∧ cache_ok [bb0] c0'.
Proof.
  intros Hc Hc0 Hv.
  assert (∀ ls d, blocks_wf vmaddrs ls -> cache_ok [bb_convert vmaddrs maxaddr ls] d ->
    ∃ d', find [bb_convert vmaddrs maxaddr ls] v d =
        Ret (find_ref 0 [bb_convert vmaddrs maxaddr ls] v, d') ∧ cache_ok [bb_convert vmaddrs maxaddr ls] d') as Hfind.
  { intros ls d Hwf Hd. apply find_transparent; [done| |].
    - intros [|k] blocks Hk; [|done]. injection Hk as <-. rewrite (findBlocks_target _ _ Hwf Hv).
      destruct Hwf as [Hne _]. destruct (head vmaddrs) eqn:E; [|by apply head_None in E].
      destruct (_ || _); by eexists.
    - intros p q (i & ? & b & -> & Hi & Hp) (j & ? & b' & -> & Hj & Hq).
      destruct i, j; try done. injection Hi as <-. injection Hj as <-. congruence. }
  destruct (Hfind hs c wf Hc) as (c' & Hf & Hc'). destruct (Hfind hs0 c0 wf0 Hc0) as (c0' & Hf0 & Hc0').
  eexists _, _, c', c0'. split_and!; [exact Hf|exact Hf0| |done|done].
  cbn [find_ref]. rewrite (findBlocks_target _ _ wf Hv), (findBlocks_target _ _ wf0 Hv).
  destruct (head vmaddrs); [|constructor]. destruct (_ || _); [constructor|].
  destruct (list_find _ _) as [[k w]|]; constructor. apply start_rel.
Qed.

(** The instruction at a position of the plain layout, behind the
    instrumentation the other layout has there. *)
Lemma pos_rel_insn p0 p x : pos_rel p0 p -> rt_at bb0 p0 = Some x ->
  ∃ n : nat, (∀ i : nat, (i < n)%nat -> ∃ y, rt_at bb (p + Z.of_nat i) = Some y ∧ instrument y) ∧
    rt_at bb (p + Z.of_nat n) = Some x ∧ ~ instrument x ∧ pos_rel (p0 + 1) (p + Z.of_nat n + 1).
Proof.
  intros (H0 & H1 & He) Hx. unfold rt_at in Hx. rewrite (proj2 (Z.ltb_ge p0 0)) in Hx by lia.
  assert (drop (Z.to_nat p0) (rthandlers bb0) = x :: drop (S (Z.to_nat p0)) (rthandlers bb0)) as Hd
    by by apply drop_S.
  rewrite Hd in He. apply essential_cons_inv in He as (pre & rest & Hpre & Hall & Hxi & Hrest).
  assert (∀ i : nat, rt_at bb (p + Z.of_nat i) = (pre ++ x :: rest) !! i) as Hat.
  { intros i. unfold rt_at. rewrite (proj2 (Z.ltb_ge _ 0)) by lia. rewrite <- Hpre, lookup_drop.
    f_equal. lia. }
  exists (length pre). split_and!; [|by rewrite Hat, list_lookup_middle|done|].
  - intros i Hi. destruct (lookup_lt_is_Some_2 pre i Hi) as [y Hy]. exists y.
    rewrite Hat, lookup_app_l by done. split; [done|]. by apply (proj1 (Forall_lookup _ _) Hall i).
  - split; [lia|]. split; [lia|]. replace (Z.to_nat (p0 + 1)) with (S (Z.to_nat p0)) by lia.
    rewrite <- Hrest. f_equal.
    replace (Z.to_nat (p + Z.of_nat (length pre) + 1)) with (Z.to_nat p + S (length pre))%nat by lia.
    rewrite <- drop_drop, Hpre. by rewrite cons_middle, app_assoc, drop_app_length' by (rewrite length_app; cbn; lia).
Qed.
End Positions.

(** * The two machines *)

Section Machines.
Context `{EventFuncs} `{A64Layout} {W : Type}.
Abbreviation vm := (CPUState * W)%type.
Variable eventCallbacks : list (callback (S := vm)).
Variable insn_handler : Z -> iptr -> vm -> vm.
Variable syscall : Z -> list Z -> vm -> Z * vm.
Variable native : Z -> vm -> exec vm.
(** States the guest cannot tell apart: the CPU is the same, what callbacks
    keep for themselves may differ. *)
Variable eqv : vm -> vm -> Prop.

Definition live (s : vm) : Prop := is_Some (pcptr s.1) ∧ is_Some (runtime s.1).

Definition instr_events : list EventType :=
  [FuncBefore; FuncAfter; InsnBefore; InsnAfter; BlockBefore; BlockAfter].

(** The rest of the process does not depend on what only the host sees, and
    callbacks and debugger let instrumentation events pass. *)
Record transparent_host := {
  th_equiv : Equivalence eqv;
  th_cpu s s' : eqv s s' -> s.1 = s'.1;
  th_set s s' m : eqv s s' -> eqv (set_state s m) (set_state s' m);
  th_observe c type addr s : c ∈ eventCallbacks -> type ∈ instr_events ->
    ∃ s', c (EventRuntime type addr) s = (Continue, EventRuntime type addr, s') ∧ eqv s s';
  th_debug addr current s : eqv s (insn_handler addr current s);
  th_callback c e s s' : c ∈ eventCallbacks -> eqv s s' ->
    (c e s).1 = (c e s').1 ∧ eqv (c e s).2 (c e s').2 ∧ (live s -> live (c e s).2);
  th_syscall n args s s' : eqv s s' ->
    (syscall n args s).1 = (syscall n args s').1 ∧ eqv (syscall n args s).2 (syscall n args s').2 ∧
    (live s -> live (syscall n args s).2);
  th_native h s s' : eqv s s' ->
    exec_rel (fun t t' => eqv t t' ∧ (live s -> live t)) (native h s) (native h s')
}.
Hypothesis host : transparent_host.
#[local] Instance eqv_equivalence : Equivalence eqv := th_equiv host.

Lemma live_eqv s s' : eqv s s' -> live s -> live s'.
Proof. intros He. unfold live. by rewrite (th_cpu host _ _ He). Qed.

Lemma set_live s m : live s -> live (set_state s m).
Proof. done. Qed.

Lemma handleEvent_rel cs e s s' : (∀ c, c ∈ cs -> c ∈ eventCallbacks) -> eqv s s' ->
  (handleEvent cs e s).1 = (handleEvent cs e s').1 ∧ eqv (handleEvent cs e s).2 (handleEvent cs e s').2 ∧
  (live s -> live (handleEvent cs e s).2).
Proof.
  revert e s s'. induction cs as [|c cs IH]; intros e s s' Hcs He; cbn [handleEvent]; [done|].
  destruct (th_callback host c e s s') as (H1 & H2 & H3); [apply Hcs, list_elem_of_here|done|].
  destruct (c e s) as [[r e1] s1], (c e s') as [[r' e1'] s1']. cbn in *. simplify_eq.
  assert (∀ c, c ∈ cs -> c ∈ eventCallbacks) as Hcs' by (intros d Hd; by apply Hcs, list_elem_of_further).
  destruct r'; cbn; [|by split_and!; auto..]. destruct (IH e1' s1 s1' Hcs' H2) as (I1 & I2 & I3). auto.
Qed.

Lemma handleEvent_observe cs type addr : (∀ c, c ∈ cs -> c ∈ eventCallbacks) -> type ∈ instr_events -> ∀ s,
  ∃ s', handleEvent cs (EventRuntime type addr) s = (Continue, EventRuntime type addr, s') ∧ eqv s s'.
Proof.
  intros Hcs Ht. induction cs as [|c cs IH]; intros s; cbn [handleEvent].
  { exists s. split; [done|reflexivity]. }
  destruct (th_observe host c type addr s) as (s1 & -> & H1); [apply Hcs, list_elem_of_here|done|].
  destruct (IH ltac:(intros d Hd; by apply Hcs, list_elem_of_further) s1) as (s2 & -> & H2).
  exists s2. split; [done|]. by transitivity s1.
Qed.

Lemma cpu_pc_eqv s s' : eqv s s' -> cpu_pc s = cpu_pc s'.
Proof. intros He. unfold cpu_pc. by rewrite (th_cpu host _ _ He). Qed.

Lemma cpu_x_eqv n s s' : eqv s s' -> cpu_x n s = cpu_x n s'.
Proof. intros He. unfold cpu_x. by rewrite (th_cpu host _ _ He). Qed.

Lemma live_pc s : live s -> ∃ addr, cpu_pc s = Ret addr.
Proof. intros [[p Hp] _]. unfold cpu_pc. rewrite Hp. by eexists. Qed.

Lemma tell_observe type s : type ∈ instr_events -> live s ->
  ∃ s', tell eventCallbacks type s = Ret (Continue, s') ∧ eqv s s'.
Proof.
  intros Ht Hl. unfold tell, cpu_runtime. destruct (live_pc s Hl) as [addr Hpc]. destruct Hl as [_ [rt Hrt]].
  rewrite Hrt. cbn [of_option mbind exec_bind]. destruct (hasEventHandler _); [|by exists s; split; [|reflexivity]].
  rewrite Hpc. cbn [mbind exec_bind].
  destruct (handleEvent_observe eventCallbacks type addr (fun _ H => H) Ht s) as (s' & -> & He). by exists s'.
Qed.

(** ** One handler in both layouts *)

Variables (vmaddrs : list Z) (maxaddr : Z) (hs hs0 : list (list Instruction)).
Hypothesis wf : blocks_wf vmaddrs hs.
Hypothesis wf0 : blocks_wf vmaddrs hs0.
Hypothesis same : essential <$> hs = hs0.
Hypothesis distinct : funcs_distinct.
Let bb := bb_convert vmaddrs maxaddr hs.
Let bb0 := bb_convert vmaddrs maxaddr hs0.

Inductive ref_rel : insn_ref -> insn_ref -> Prop :=
| ref_Insn p0 p : iptr_rel vmaddrs maxaddr hs hs0 p0 p -> ref_rel (Insn p0) (Insn p)
| ref_RetAddr : ref_rel RetAddr RetAddr.

Definition ans_rel (a0 a : insn_ref * vm * Cache) : Prop :=
  ref_rel a0.1.1 a.1.1 ∧ eqv a0.1.2 a.1.2 ∧ live a0.1.2 ∧ cache_ok [bb0] a0.2 ∧ cache_ok [bb] a.2.

Definition host_rel (key : Z) (h0 h : vm -> Cache -> iptr -> exec (insn_ref * vm * Cache)) : Prop :=
  ∀ s0 s c0 c p0 p, eqv s0 s -> live s0 -> cache_ok [bb0] c0 -> cache_ok [bb] c ->
    pos_rel vmaddrs maxaddr hs hs0 (p0 + 1) (p + 1) -> lookup_ok bb0 key s0 ->
    exec_rel ans_rel (h0 s0 c0 (At 0 p0)) (h s c (At 0 p)).

Lemma next_rel s0 s c0 c p0 p : eqv s0 s -> live s0 -> cache_ok [bb0] c0 -> cache_ok [bb] c ->
  pos_rel vmaddrs maxaddr hs hs0 (p0 + 1) (p + 1) ->
  exec_rel ans_rel (next ← current_plus (At 0 p0) 1; Ret (next, s0, c0))
                   (next ← current_plus (At 0 p) 1; Ret (next, s, c)).
Proof. intros. cbn. constructor. split_and!; [by do 2 constructor|done..]. Qed.

Lemma notify_rel key type : type ∈ instr_events ->
  host_rel key (notify eventCallbacks type) (notify eventCallbacks type).
Proof.
  intros Ht s0 s c0 c p0 p He Hl Hc0 Hc Hp _. unfold notify.
  destruct (tell_observe type s0 Ht Hl) as (s0' & -> & Ha).
  destruct (tell_observe type s Ht (live_eqv _ _ He Hl)) as (s' & -> & Hb). cbn [mbind exec_bind].
  apply next_rel; [by rewrite <- Ha, <- Hb|by apply (live_eqv _ _ Ha)|done..].
Qed.

Lemma insn_before_rel key :
  host_rel key (host_event_insn_before eventCallbacks) (host_event_insn_before eventCallbacks).
Proof.
  intros s0 s c0 c p0 p He Hl Hc0 Hc Hp _. unfold host_event_insn_before.
  assert (InsnBefore ∈ instr_events) as Ht by in_list.
  destruct (tell_observe InsnBefore s0 Ht Hl) as (s0' & -> & Ha).
  destruct (tell_observe InsnBefore s Ht (live_eqv _ _ He Hl)) as (s' & -> & Hb). cbn [mbind exec_bind].
  apply next_rel; [by rewrite <- Ha, <- Hb|by apply (live_eqv _ _ Ha)|done..].
Qed.

Lemma debugging_rel key :
  host_rel key (host_event_debugging insn_handler) (host_event_debugging insn_handler).
Proof.
  intros s0 s c0 c p0 p He Hl Hc0 Hc Hp _. unfold host_event_debugging, cpu_runtime.
  rewrite <- (th_cpu host _ _ He), <- (cpu_pc_eqv _ _ He). destruct (live_pc s0 Hl) as [addr ->].
  pose proof Hl as [_ [rt ->]]. cbn [of_option mbind exec_bind]. destruct (rt_debug rt); cbn [mbind exec_bind].
  - apply next_rel; [|by eapply live_eqv; [apply (th_debug host)|]|done..].
    rewrite <- (th_debug host addr (At 0 p0) s0), <- (th_debug host addr (At 0 p) s). done.
  - by apply next_rel.
Qed.

Lemma syscall_rel key :
  host_rel key (host_syscall_interpret eventCallbacks syscall) (host_syscall_interpret eventCallbacks syscall).
Proof.
  intros s0 s c0 c p0 p He Hl Hc0 Hc Hp _. unfold host_syscall_interpret, cpu_runtime.
  rewrite <- (th_cpu host _ _ He), <- (cpu_pc_eqv _ _ He), <- (cpu_x_eqv 0 _ _ He).
  destruct (live_pc s0 Hl) as [addr ->]. pose proof Hl as [_ [rt ->]]. cbn [of_option mbind exec_bind].
  destruct (handleEvent_rel eventCallbacks (EventHyperCall SyscallBefore addr (to_signed 32 (cpu_x 0 s0))) s0 s
    (fun _ H => H) He) as (H1 & H2 & H3). specialize (H3 Hl).
  destruct (handleEvent _ _ s0) as [[r0 e0] s1], (handleEvent _ _ s) as [[r e] s1']. cbn in H1, H2, H3.
  injection H1 as -> ->.
  apply (exec_rel_bind (fun t t' => eqv t t' ∧ live t)); [|by intros t t' [? ?]; apply next_rel].
  assert (∀ n, cpu_x n s1' = cpu_x n s1) as Hx by (intros n; symmetry; by apply cpu_x_eqv).
  assert (((fun n => cpu_x n s1') <$> seqZ 1 7) = ((fun n => cpu_x n s1) <$> seqZ 1 7)) as Hargs
    by (apply list_fmap_ext; intros; apply Hx).
  destruct r; [|by constructor|]; rewrite Hx, Hargs;
    destruct (th_syscall host (to_signed 32 (cpu_x 0 s1)) ((fun n => cpu_x n s1) <$> seqZ 1 7) s1 s1' H2) as (I1 & I2 & I3);
    destruct (syscall _ _ s1) as [v t], (syscall _ _ s1') as [v' t']; cbn in I1, I2, I3; subst v';
    (assert (eqv (set_cpu_x 0 (wrap64 (to_signed 32 v)) t) (set_cpu_x 0 (wrap64 (to_signed 32 v)) t')) as J
       by (unfold set_cpu_x; rewrite (th_cpu host _ _ I2); by apply (th_set host)));
    (destruct (hasEventHandler _); [|by constructor; split; [|apply I3]]);
    (destruct (set_hypercall_type _ _) as [ev| |]; cbn [mbind exec_bind]; [|constructor..]);
    destruct (handleEvent_rel eventCallbacks ev _ _ (fun _ H => H) J) as (K1 & K2 & K3);
    destruct (handleEvent _ ev (set_cpu_x _ _ t)) as [[? ?] u], (handleEvent _ ev (set_cpu_x _ _ t')) as [[? ?] u'];
    constructor; split; [done|by apply K3, set_live, I3|done|by apply K3, set_live, I3].
Qed.

Lemma interrupt_rel key :
  host_rel key (host_interrupt_interpret eventCallbacks) (host_interrupt_interpret eventCallbacks).
Proof.
  intros s0 s c0 c p0 p He Hl Hc0 Hc Hp _. unfold host_interrupt_interpret, cpu_runtime.
  rewrite <- (th_cpu host _ _ He), <- (cpu_pc_eqv _ _ He). destruct (live_pc s0 Hl) as [addr ->].
  pose proof Hl as [_ [rt ->]]. cbn [of_option mbind exec_bind].
  destruct (handleEvent _ _ s0) as [[? ?] ?], (handleEvent _ _ s) as [[? ?] ?]. constructor.
Qed.

Lemma finish_emulation_rel key : host_rel key host_finish_emulation host_finish_emulation.
Proof. intros s0 s c0 c p0 p He Hl Hc0 Hc Hp _. constructor. split_and!; [constructor|done..]. Qed.

(** The lookup of [jump_interpret] and [call_interpret]. *)
Lemma lookup_rel s0 s c0 c addr : eqv s0 s -> live s0 -> cache_ok [bb0] c0 -> cache_ok [bb] c ->
  jump_target bb0 addr ->
  exec_rel ans_rel ('(p, c) ← find [bb0] addr c0; Ret (Insn p, s0, c)) ('(p, c) ← find [bb] addr c; Ret (Insn p, s, c)).
Proof.
  intros He Hl Hc0 Hc Ht.
  destruct (find_rel vmaddrs maxaddr hs hs0 wf wf0 same c c0 addr Hc Hc0 Ht) as (p & p0 & c' & c0' & Hf & Hf0 & Hp & ? & ?).
  rewrite (Hf : find [bb] addr c = _), (Hf0 : find [bb0] addr c0 = _).
  constructor. split_and!; [by constructor|done..].
Qed.

Lemma jump_rel key : key ∈ finders -> (key <> wrap 59 finish_function) ->
  host_rel key (host_jump_interpret [bb0]) (host_jump_interpret [bb]).
Proof.
  intros Hkey Hnf s0 s c0 c p0 p He Hl Hc0 Hc Hp Hok. unfold host_jump_interpret.
  rewrite <- (cpu_pc_eqv _ _ He). destruct (live_pc s0 Hl) as [addr Hpc]. rewrite Hpc. cbn [mbind exec_bind].
  destruct (Hok Hkey addr Hpc) as [|[? _]]; [by apply lookup_rel|done].
Qed.

Lemma finish_function_rel key : key ∈ finders ->
  host_rel key (host_finish_function [bb0]) (host_finish_function [bb]).
Proof.
  intros Hkey s0 s c0 c p0 p He Hl Hc0 Hc Hp Hok. unfold host_finish_function, host_jump_interpret.
  rewrite <- (cpu_pc_eqv _ _ He), <- (th_cpu host _ _ He). destruct (live_pc s0 Hl) as [addr Hpc].
  rewrite Hpc. cbn [mbind exec_bind]. destruct (Z.eqb_spec addr (retaddr s0.1)) as [|Hne].
  - by apply (finish_emulation_rel key).
  - destruct (Hok Hkey addr Hpc) as [|[_ ?]]; [by apply lookup_rel|done].
Qed.

Abbreviation table b := (handlers_of_events eventCallbacks insn_handler syscall b).

Lemma table_keys b : (table b).*1 = instr_funcs ++ guest_funcs.
Proof. done. Qed.

Lemma table_rel : Forall2 (fun e0 e => e0.1 = e.1 ∧ host_rel e0.1 e0.2 e.2) (table [bb0]) (table [bb]).
Proof.
  assert (wrap 59 jump_interpret <> wrap 59 finish_function ∧ wrap 59 call_interpret <> wrap 59 finish_function) as [Hj Hc].
  { apply NoDup_app in distinct as (_ & _ & Hd). unfold guest_funcs in Hd. cbn in Hd.
    rewrite !NoDup_cons in Hd. destruct Hd as (_ & _ & Hd1 & Hd2 & _).
    split; intros He; [apply Hd1|apply Hd2]; rewrite He;
      in_list. }
  repeat apply Forall2_cons_2; try apply Forall2_nil_2; (split; [done|]); cbn [fst snd];
    try (apply notify_rel; in_list).
  - apply insn_before_rel.
  - apply debugging_rel.
  - apply syscall_rel.
  - apply interrupt_rel.
  - apply jump_rel; [|done]. unfold finders; cbn; in_list.
  - apply jump_rel; [|done]. unfold finders; cbn; in_list.
  - apply finish_function_rel. unfold finders; cbn; in_list.
  - apply finish_emulation_rel.
  - intros s0 s c0 c p0 p _ _ _ _ _ _. constructor.
Qed.

Abbreviation insn0 := (run_insn eventCallbacks insn_handler syscall [bb0] native).
Abbreviation insn1 := (run_insn eventCallbacks insn_handler syscall [bb] native).
Abbreviation step0 := (chain_step eventCallbacks insn_handler syscall [bb0] native).
Abbreviation step1 := (chain_step eventCallbacks insn_handler syscall [bb] native).
Abbreviation run1 := (chain_run eventCallbacks insn_handler syscall [bb] native).

Lemma run_insn_rel x s0 s c0 c p0 p : eqv s0 s -> live s0 -> cache_ok [bb0] c0 -> cache_ok [bb] c ->
  pos_rel vmaddrs maxaddr hs hs0 (p0 + 1) (p + 1) -> lookup_ok bb0 (i_handler x) s0 ->
  exec_rel ans_rel (insn0 x s0 c0 (At 0 p0)) (insn1 x s c (At 0 p)).
Proof.
  intros He Hl Hc0 Hc Hp Hok. unfold run_insn.
  pose proof (switch_rel host_rel (i_handler x) _ _ table_rel) as Hsw.
  destruct (switch _ (table [bb0])), (switch _ (table [bb])); [by apply Hsw|done..|].
  apply (exec_rel_bind _ _ _ _ _ _ (th_native host (i_handler x) s0 s He)).
  intros t0 t [? Hlive]. by apply next_rel; [|apply Hlive|..].
Qed.

(** An instrumentation handler goes to the next one. *)
Lemma step_instrument p y s c : rt_at bb p = Some y -> instrument y -> live s ->
  ∃ s', step1 (Insn (At 0 p)) s c = Ret (Running (Insn (At 0 (p + 1))) s' c) ∧ eqv s s'.
Proof.
  intros Hp [_ Hy] Hl. unfold chain_step. cbn [lookup list_lookup of_option mbind exec_bind]. rewrite Hp.
  cbn [of_option mbind exec_bind]. unfold run_insn.
  assert (∀ h, (i_handler y, h) ∈ table [bb] -> switch (i_handler y) (table [bb]) = Some h) as Hsw.
  { intros h Hh. apply switch_elem; [|done]. by rewrite table_keys. }
  unfold instr_funcs in Hy. cbn [fmap list_fmap] in Hy.
  assert (∀ type, type ∈ instr_events -> (i_handler y, notify eventCallbacks type) ∈ table [bb] ->
    ∃ s', ('(r, s, c) ← match switch (i_handler y) (table [bb]) with
       | Some host => host s c (At 0 p)
       | None => s ← native (i_handler y) s; next ← current_plus (At 0 p) 1; Ret (next, s, c)
       end; Ret (Running r s c)) = Ret (Running (Insn (At 0 (p + 1))) s' c) ∧ eqv s s') as Hnotify.
  { intros type Ht Hin. rewrite (Hsw _ Hin). unfold notify.
    destruct (tell_observe type s Ht Hl) as (s' & -> & He). by exists s'. }
  repeat (apply elem_of_cons in Hy as [Hy|Hy]; [|]); [..|by apply elem_of_nil in Hy].
  1,2,4,5,6: rewrite ?Hy in Hnotify; rewrite Hy; eapply Hnotify;
    [|unfold handlers_of_events; in_list];
    in_list.
  - rewrite (Hsw (host_event_insn_before eventCallbacks)) by
      (rewrite Hy; unfold handlers_of_events; in_list).
    unfold host_event_insn_before.
    destruct (tell_observe InsnBefore s) as (s' & -> & He); [in_list|done|].
    by exists s'.
  - rewrite (Hsw (host_event_debugging insn_handler)) by
      (rewrite Hy; unfold handlers_of_events; in_list).
    unfold host_event_debugging, cpu_runtime. destruct (live_pc s Hl) as [addr ->]. destruct Hl as [_ [rt ->]].
    cbn [of_option mbind exec_bind]. destruct (rt_debug rt).
    + eexists. split; [reflexivity|]. apply (th_debug host).
    + exists s. by split.
Qed.

(** ** Whole runs *)

(** The outcome of a run of the other layout, which has to end too. *)
Definition same_outcome (o0 : exec vm) (o : exec (option vm)) : Prop :=
  exec_rel (fun s0 s => ∃ s', s = Some s' ∧ eqv s0 s') o0 o.

Lemma run_skip o0 n : ∀ p s s0 c, (∀ i : nat, (i < n)%nat -> ∃ y, rt_at bb (p + Z.of_nat i) = Some y ∧ instrument y) ->
  eqv s0 s -> live s0 ->
  (∀ s', eqv s0 s' -> ∃ fuel, same_outcome o0 (run1 fuel (Insn (At 0 (p + Z.of_nat n))) s' c)) ->
  ∃ fuel, same_outcome o0 (run1 fuel (Insn (At 0 p)) s c).
Proof.
  induction n as [|n IH]; intros p s s0 c Hpre He Hl Hrun.
  - rewrite Z.add_0_r in Hrun. by apply Hrun.
  - destruct (Hpre 0%nat) as (y & Hy & Hi); [lia|]. rewrite Z.add_0_r in Hy.
    destruct (step_instrument p y s c Hy Hi (live_eqv _ _ He Hl)) as (s1 & Hstep & He1).
    destruct (IH (p + 1) s1 s0 c) as [fuel Hf].
    + intros i Hi'. replace (p + 1 + Z.of_nat i) with (p + Z.of_nat (S i)) by lia. apply Hpre. lia.
    + by transitivity s.
    + done.
    + intros s' Hs'. replace (p + 1 + Z.of_nat n) with (p + Z.of_nat (S n)) by lia. by apply Hrun.
    + exists (S fuel). cbn [chain_run]. by rewrite Hstep.
Qed.

Lemma halts_same r0 s0 c0 o0 : halts eventCallbacks insn_handler syscall native bb0 r0 s0 c0 o0 -> ∀ r s c,
  ref_rel r0 r -> eqv s0 s -> live s0 -> cache_ok [bb0] c0 -> cache_ok [bb] c ->
  ∃ fuel, same_outcome o0 (run1 fuel r s c).
Proof.
  intros Hh. induction Hh as [r0 s0 c0 s0' Hs|r0 s0 c0 Hs Hok|r0 s0 c0 r0' s0' c0' o0 Hs Hok _ IH];
    intros r s c Hr He Hl Hc0 Hc; destruct Hr as [? ? [q0 q Hpos|]|]; cbn [chain_step] in Hs; try done;
    try (change ([bb0] !! 0%nat) with (Some bb0) in Hs; cbn [of_option mbind exec_bind] in Hs;
         destruct (rt_at bb0 q0) as [x|] eqn:Hx; cbn [of_option mbind exec_bind] in Hs; [|done]).
  - by destruct (insn0 x s0 c0 (At 0 q0)) as [[[? ?] ?]| |].
  - destruct (retaddr s0.1 <? 2 ^ 59) eqn:E; [|done]. simplify_eq. exists 1%nat.
    cbn [chain_run chain_step]. rewrite <- (th_cpu host _ _ He), E. constructor. by exists s.
  - destruct (pos_rel_insn _ _ _ _ q0 q x Hpos Hx) as (n & Hpre & Hxn & _ & Hnext).
    apply (run_skip _ n q s s0 c Hpre He Hl). intros s' He'. exists 1%nat. cbn [chain_run chain_step].
    change ([bb] !! 0%nat) with (Some bb). cbn [of_option mbind exec_bind].
    rewrite (Hxn : rt_at bb _ = _). cbn [of_option mbind exec_bind].
    pose proof (run_insn_rel x s0 s' c0 c q0 _ He' Hl Hc0 Hc Hnext (Hok q0 x eq_refl Hx)) as Hrel.
    destruct (insn0 x s0 c0 (At 0 q0)) as [[[? ?] ?]| |]; try done. inversion Hrel. constructor.
  - exists 1%nat. constructor.
  - by destruct (_ <? _).
  - destruct (pos_rel_insn _ _ _ _ q0 q x Hpos Hx) as (n & Hpre & Hxn & _ & Hnext).
    apply (run_skip _ n q s s0 c Hpre He Hl). intros s' He'.
    pose proof (run_insn_rel x s0 s' c0 c q0 _ He' Hl Hc0 Hc Hnext (Hok q0 x eq_refl Hx)) as Hrel.
    destruct (insn0 x s0 c0 (At 0 q0)) as [[[r1 s1] c1]| |]; try done. cbn in Hs. simplify_eq.
    inversion Hrel as [a0 [[r2 s2] c2] (? & ? & ? & ? & ?) E0 E| |]; subst. cbn in *.
    destruct (IH r2 s2 c2) as [fuel Hf]; [done..|]. exists (S fuel). cbn [chain_run chain_step].
    change ([bb] !! 0%nat) with (Some bb). cbn [of_option mbind exec_bind].
    rewrite (Hxn : rt_at bb _ = _). cbn [of_option mbind exec_bind]. by rewrite <- E.
  - by destruct (_ <? _).
Qed.
End Machines.

(** * Properties *)

(** C3: instrumentation is transparent. Take a program whose functions have
    instructions, with increasing block addresses, callbacks that let the
    instrumentation events pass and whose own state neither native code nor
    system calls look at, and a run of the binary encoded without events from
    some entry that ends, all of whose lookups go to block starts or leave the
    binary. Then the binary encoded with any events, started at the same
    entry, ends as well, in the same way and with the same CPU. *)
Theorem instrumentation_transparent `{EventFuncs} `{A64Layout} {W : Type}
    (eventCallbacks : list (callback (S := CPUState * W))) insn_handler syscall native eqv
    (dynhandlers : list Z -> option Z) (arm64 : bool) (addend : Z) (cfg : EventConfig)
    (functions : list BFunction) (bb0 : BasicBlocks) (entry : Z) (s : CPUState * W) p0 c0 o :
  transparent_host eventCallbacks insn_handler syscall native eqv ->
  funcs_distinct -> program_wf addend functions ->
  encode dynhandlers arm64 no_events addend functions = Ret bb0 ->
  jump_target bb0 entry -> live s ->
  find [bb0] entry (mkCache (Some 0%nat) ∅) = Ret (p0, c0) ->
  halts eventCallbacks insn_handler syscall native bb0 (Insn p0) s c0 o ->
  ∃ bb p c fuel, encode dynhandlers arm64 cfg addend functions = Ret bb ∧
    find [bb] entry (mkCache (Some 0%nat) ∅) = Ret (p, c) ∧
    exec_rel (fun s0 s1 => ∃ s', s1 = Some s' ∧ eqv s0 s' ∧ s0.1 = s'.1) o
      (chain_run eventCallbacks insn_handler syscall [bb] native fuel (Insn p) s c).
Proof.
  intros host distinct Hwf He0 Hentry Hl Hf0 Hh. pose proof (th_equiv _ _ _ _ _ host). unfold encode in *.
  destruct (last functions) as [lastfunc|]; [|done]. cbn [of_option mbind exec_bind] in *.
  pose proof (encode_blocks_rel distinct dynhandlers arm64 addend cfg functions) as Hrel.
  pose proof (encode_blocks_wf dynhandlers arm64 addend cfg functions Hwf) as Hw.
  pose proof (encode_blocks_wf dynhandlers arm64 addend no_events functions Hwf) as Hw0.
  destruct (encode_blocks _ _ cfg _ _) as [va hs], (encode_blocks _ _ no_events _ _) as [va0 hs0].
  destruct Hrel as [-> Hsame], Hw as [_ Hw], Hw0 as [_ Hw0]. injection He0 as <-.
  set (mx := wrap64 (bf_end lastfunc + addend)) in *.
  assert (∀ b, cache_ok [b] (mkCache (Some 0%nat) ∅)) as Hok.
  { intros b. split; [intros k [= <-]; cbn; lia|]. intros i v p Hi. cbn in Hi. by rewrite lookup_empty in Hi. }
  destruct (find_rel va0 mx hs hs0 Hw Hw0 Hsame _ _ entry (Hok _) (Hok _) Hentry)
    as (p & q & c & d & Hf & Hq & Hp & Hc & Hd).
  rewrite Hf0 in Hq. injection Hq as -> ->.
  destruct (halts_same eventCallbacks insn_handler syscall native eqv host va0 mx hs hs0 Hw Hw0 Hsame distinct
    _ _ _ _ Hh (Insn p) s c) as [fuel Hrun]; [exact (ref_Insn _ _ _ _ _ _ Hp)|reflexivity|done..|].
  eexists _, p, c, fuel. split_and!; [reflexivity|exact Hf|].
  destruct Hrun as [s0 s1 (s' & -> & He)| |]; constructor. exists s'. split_and!; [done|done|].
  by apply (th_cpu _ _ _ _ _ host).
Qed.

(** ** A program that adds and returns, watched by a callback that counts *)

Section Example.
#[local] Existing Instance a64_sample.

Definition add_ret : BFunction :=
  mkBFunction 0x1000 0x1008 [mkBInsn false 0 OTHER [0; 0; 0; 0x8b]; mkBInsn false 4 RET [0xc0; 3; 0x5f; 0xd6]].
Definition add_ret_handlers (opcode : list Z) : option Z :=
  match opcode with 0 :: _ => Some 100 | _ => Some 101 end.

Definition example_m (pc : Z) : bytes := store 8 ∅ 0x448 pc.
Definition example_cpu (m : bytes) : CPUState := mkCPU (Some 0x448) (Some (Runtime ARM64 true)) m 0 0 0x5000 0 0.

(** The handler of [ret] goes to the return address. *)
Definition example_native (h : Z) (s : CPUState * Z) : exec (CPUState * Z) :=
  Ret (if h =? 101 then set_state s (example_m 0x5000) else s).
Definition count_events (e : Event) (s : CPUState * Z) : EventResult * Event * (CPUState * Z) :=
  (Continue, e, (s.1, s.2 + 1)).
Definition no_syscall (n : Z) (args : list Z) (s : CPUState * Z) : Z * (CPUState * Z) := (0, s).

Definition same_cpu (s s' : CPUState * Z) : Prop := s.1 = s'.1.

Lemma example_host :
  transparent_host [count_events] (fun _ _ s => s) no_syscall example_native same_cpu.
Proof.
  split; unfold same_cpu.
  - split; [by intros ?|by intros ? ? ?|by intros ? ? ? -> ->].
  - done.
  - intros [c w] [c' w'] m E. cbn in *. by subst.
  - intros c type addr s Hc _. apply list_elem_of_singleton in Hc as ->. by eexists.
  - done.
  - intros c e s s' Hc E. apply list_elem_of_singleton in Hc as ->. by split_and!.
  - intros n args s s' E. by split_and!.
  - intros h [c w] [c' w'] E. cbn in E. subst c'. unfold example_native. constructor. by destruct (h =? 101).
Qed.

Definition add_ret_blocks : BasicBlocks :=
  mkBB [0x1000] 0x1008 [[0; 1; 2; 3]]
    [real_insn 100 4; real_insn 101 4; event_insn finish_function; event_insn finish_emulation].

Lemma example_funcs_distinct : funcs_distinct.
Proof. apply (bool_decide_unpack _). by vm_compute. Qed.

Lemma add_ret_wf : program_wf 0 [add_ret].
Proof.
  split_and!; [done|by repeat constructor|].
  intros [|i] [|j] a b Hij Ha Hb; cbn in *; simplify_eq; lia.
Qed.

Lemma add_ret_halts : halts [count_events] (fun _ _ s => s) no_syscall example_native add_ret_blocks
  (Insn (At 0 0)) (example_cpu (example_m 0x1000), 0)
  (mkCache (Some 0%nat) (<[0 := (0x1000, At 0 0)]> ∅)) (Ret (example_cpu (example_m 0x5000), 0)).
Proof.
  eapply halt_running; [reflexivity| |].
  { intros p x [= <-] [= <-] Hk. exfalso. revert Hk. apply (bool_decide_unpack _). by vm_compute. }
  eapply halt_running; [reflexivity| |].
  { intros p x [= <-] [= <-] Hk. exfalso. revert Hk. apply (bool_decide_unpack _). by vm_compute. }
  eapply halt_running; [reflexivity| |].
  { intros p x [= <-] [= <-] Hk addr Ha. right. split; [done|]. injection Ha as <-.
    change (load 8 (store 8 ∅ 0x448 0x5000) 0x448 = 0x5000). by rewrite load_store. }
  by apply halt_returned.
Qed.

Lemma instrumentation_transparent_witness :
  ∃ bb p c fuel, encode add_ret_handlers true (mkCfg true true true true) 0 [add_ret] = Ret bb ∧
    find [bb] 0x1000 (mkCache (Some 0%nat) ∅) = Ret (p, c) ∧
    exec_rel (fun s0 s1 => ∃ s', s1 = Some s' ∧ same_cpu s0 s' ∧ s0.1 = s'.1)
      (Ret (example_cpu (example_m 0x5000), 0))
      (chain_run [count_events] (fun _ _ s => s) no_syscall [bb] example_native fuel (Insn p)
         (example_cpu (example_m 0x1000), 0) c).
Proof.
  eapply (instrumentation_transparent [count_events] (fun _ _ s => s) no_syscall example_native same_cpu
    add_ret_handlers true 0 (mkCfg true true true true) [add_ret] add_ret_blocks 0x1000).
  - exact example_host.
  - exact example_funcs_distinct.
  - exact add_ret_wf.
  - reflexivity.
  - left. apply list_elem_of_here.
  - split; by eexists.
  - reflexivity.
  - exact add_ret_halts.
Defined.
End Example.
