(* ===== verification/UtilsAArch64.v ===== *)
(** src/UtilsAArch64.cpp: which guest registers an LLVM instruction uses, the
    renaming of registers that makes one opcode stand for all instructions of
    its kind, and the loop over all opcodes that collects those remill cannot
    lift. LLVM's register numbers, the disassembler and remill are parameters. *)
From Stdlib Require Import ZArith Lia List Sorting.Sorted.
From stdpp Require Import base list gmap sorting.
From S2P Require Import Prelude Registers.
#[local] Open Scope Z_scope.

(** * Sets of numbers *)

(** [std::set]: increasing, without duplicates. *)
Fixpoint reg_insert (r : Z) (l : list Z) : list Z :=
  match l with
  | [] => [r]
  | x :: l' => if r <? x then r :: l else if r =? x then l else x :: reg_insert r l'
  end.
Definition reg_set (l : list Z) : list Z := fold_left (fun s r => reg_insert r s) l [].

(** [while (regused.find(reg) != regused.end()) reg++]. *)
Fixpoint first_unused (fuel : nat) (regused : list Z) (reg : Z) : Z :=
  match fuel with
  | O => reg
  | S fuel' => if bool_decide (reg ∈ regused) then first_unused fuel' regused (reg + 1) else reg
  end.

(** * LLVM's registers *)

(** The vector views; [Vec D 2 n] is the tuple of D<n> and the next register. *)
Inductive vector := VB | VH | VS | VD | VQ | VZ.
Inductive llvm_class := CW | CWpair | CX | CXpair | CVec (v : vector) (len : Z).
Inductive llvm_reg := Nth (c : llvm_class) (n : Z) | WSP | WZR | FP | LR | SP | XZR.

Definition tuples (v : vector) (len : Z) : bool :=
  match v with VB | VH | VS => len =? 1 | VD | VQ | VZ => (1 <=? len) && (len <=? 4) end.

(** How many registers of a class follow one another, up to the last one the
    code names: W0..W30, W0_W1..W28_W29, X0..X28, X0_X1..X26_X27 and the
    tuples that do not wrap around. *)
Definition count (c : llvm_class) : Z :=
  match c with
  | CW => 31 | CWpair => 15 | CX => 29 | CXpair => 14
  | CVec v len => if tuples v len then 33 - len else 0
  end.
Definition reg_ok (r : llvm_reg) : bool :=
  match r with Nth c n => (0 <=? n) && (n <? count c) | _ => true end.

(** The generated enumeration of AArch64GenRegisterInfo.inc. *)
Class LlvmNumbers := {
  num : llvm_reg -> Z;
  num_inj r r' : reg_ok r = true -> reg_ok r' = true -> num r = num r' -> r = r';
  num_next c n : 0 <= n < count c -> num (Nth c n) = num (Nth c 0) + n
}.

(** An operand of an [MCInst]. *)
Inductive mc_operand := OReg (reg : Z) | OOther (v : Z).
Definition operand_reg (o : mc_operand) : option Z := match o with OReg r => Some r | OOther _ => None end.

(** * [parse_regused] *)

Section Used.
Context `{LlvmNumbers}.

(** [reg >= AArch64::W0 && reg <= AArch64::W30]. *)
Definition within (reg : Z) (c : llvm_class) : bool :=
  (num (Nth c 0) <=? reg) && (reg <=? num (Nth c 0) + (count c - 1)).
Definition number_in (reg : Z) (c : llvm_class) : Z := reg - num (Nth c 0).

(** The tuples in the order of the code. *)
Definition vector_classes : list (vector * Z) :=
  [(VB, 1); (VH, 1); (VS, 1); (VD, 1); (VD, 2); (VD, 3); (VD, 4); (VQ, 1); (VQ, 2); (VQ, 3); (VQ, 4);
   (VZ, 1); (VZ, 2); (VZ, 3); (VZ, 4)].

Fixpoint parse_vector (reg : Z) (cs : list (vector * Z)) : list Z :=
  match cs with
  | [] => []
  | (v, len) :: cs' =>
      if within reg (CVec v len) then (fun i => number_in reg (CVec v len) + i) <$> seqZ 0 len
      else parse_vector reg cs'
  end.

(** What a register adds to [xregs] and [qregs]. *)
Definition parse_reg (reg : Z) : list Z * list Z :=
  if (reg =? num WZR) || (reg =? num XZR) then ([], [])
  else if within reg CW then ([number_in reg CW], [])
  else if reg =? num WSP then ([31], [])
  else if within reg CWpair then ([number_in reg CWpair + 0; number_in reg CWpair + 1], [])
  else if within reg CX then ([number_in reg CX], [])
  else if within reg CXpair then ([number_in reg CXpair + 0; number_in reg CXpair + 1], [])
  else if reg =? num FP then ([29], [])
  else if reg =? num LR then ([30], [])
  else if reg =? num SP then ([31], [])
  else ([], parse_vector reg vector_classes).

Definition parse_regused (inst : list mc_operand) : list Z :=
  let regs := parse_reg <$> omap operand_reg inst in
  let xregs := reg_set (mjoin (fst <$> regs)) in
  let qregs := reg_set (mjoin (snd <$> regs)) in
  reg_set (((fun x => Register.X0 + x) <$> xregs) ++ ((fun q => Register.Q0 + q) <$> qregs)).
End Used.

(** * [normalize_opcode] *)

Record OpcodeRegisters := mkOpregs {
  usedregs : list Z; regused : list Z; fpuused : list Z;
  regmaps : gmap Z Z; fpumaps : gmap Z Z; asmerropcs : list Z
}.

(** [std::map::insert]: a key that is there keeps its value. *)
Definition map_insert (m : gmap Z Z) (k v : Z) : gmap Z Z :=
  match m !! k with Some _ => m | None => <[k := v]> m end.

(** The loop over [regused] with the first number [ireg]. *)
Fixpoint assign (base : Z) (usedregs : list Z) (l : list Z) (ireg : Z) (m : gmap Z Z) : gmap Z Z :=
  match l with
  | [] => m
  | i :: l' =>
      let ireg := first_unused (length usedregs) usedregs (base + ireg) - base in
      assign base usedregs l' (ireg + 1) (map_insert m i ireg)
  end.

Section Normalize.
Context `{LlvmNumbers}.

(** The general and the vector register a scalar operand names. *)
Definition general_number (reg : Z) : option Z :=
  if within reg CW then Some (number_in reg CW)
  else if within reg CX then Some (number_in reg CX)
  else if reg =? num FP then Some 29
  else if reg =? num LR then Some 30
  else None.

Definition scalar_vectors : list vector := [VB; VH; VS; VD; VQ; VZ].
Fixpoint vector_number (reg : Z) (vs : list vector) : option (vector * Z) :=
  match vs with
  | [] => None
  | v :: vs' => if within reg (CVec v 1) then Some (v, number_in reg (CVec v 1)) else vector_number reg vs'
  end.

(** The first loop. *)
Definition note_operand (opregs : OpcodeRegisters) (o : mc_operand) : OpcodeRegisters :=
  match operand_reg o with
  | None => opregs
  | Some reg =>
      match general_number reg with
      | Some n => mkOpregs (usedregs opregs) (reg_insert n (regused opregs)) (fpuused opregs)
                    (regmaps opregs) (fpumaps opregs) (asmerropcs opregs)
      | None =>
          match vector_number reg scalar_vectors with
          | Some (_, n) => mkOpregs (usedregs opregs) (regused opregs) (reg_insert n (fpuused opregs))
                             (regmaps opregs) (fpumaps opregs) (asmerropcs opregs)
          | None => opregs
          end
      end
  end.

(** The two loops that fill the maps. *)
Definition fill_maps (opregs : OpcodeRegisters) : OpcodeRegisters :=
  mkOpregs (usedregs opregs) (regused opregs) (fpuused opregs)
    (assign Register.X0 (usedregs opregs) (regused opregs) 0 (regmaps opregs))
    (assign Register.Q0 (usedregs opregs) (fpuused opregs) 0 (fpumaps opregs)) (asmerropcs opregs).

(** [regmaps.find(n)->second]. *)
Definition find_map (m : gmap Z Z) (n : Z) : exec Z := match m !! n with Some v => Ret v | None => Undef end.

(** The last loop: what an operand becomes. *)
Definition rename_operand (opregs : OpcodeRegisters) (o : mc_operand) : exec mc_operand :=
  match operand_reg o with
  | None => Ret o
  | Some reg =>
      if within reg CW then v ← find_map (regmaps opregs) (number_in reg CW); Ret (OReg (v + num (Nth CW 0)))
      else if within reg CX then v ← find_map (regmaps opregs) (number_in reg CX); Ret (OReg (v + num (Nth CX 0)))
      else if reg =? num FP then v ← find_map (regmaps opregs) 29; Ret (OReg (v + num (Nth CX 0)))
      else if reg =? num LR then v ← find_map (regmaps opregs) 30; Ret (OReg (v + num (Nth CX 0)))
      else match vector_number reg scalar_vectors with
           | Some (v, n) => k ← find_map (fpumaps opregs) n; Ret (OReg (k + num (Nth (CVec v 1) 0)))
           | None => Ret o
           end
  end.

(** The disassembler: the opcode of an instruction and, when it assembles to
    four bytes, the word. *)
Variable assemble : Z -> list mc_operand -> option Z.

Definition normalize_opcode (opc : Z) (inst : list mc_operand) (opcode : Z) (opregs : OpcodeRegisters) :
    exec (Z * list mc_operand * OpcodeRegisters) :=
  if bool_decide (opc ∈ asmerropcs opregs) then Ret (opcode, inst, opregs)
  else
    let opregs := fill_maps (fold_left note_operand inst opregs) in
    inst' ← mapE (rename_operand opregs) inst;
    match assemble opc inst' with
    | Some w => Ret (w, inst', opregs)
    | None => Ret (opcode, inst', mkOpregs (usedregs opregs) (regused opregs) (fpuused opregs)
                                    (regmaps opregs) (fpumaps opregs) (reg_insert opc (asmerropcs opregs)))
    end.
End Normalize.

(** * [opcode_generator] *)

Section Generator.
Context `{LlvmNumbers}.
(** The disassembler (an opcode of four bytes or nothing), remill, the
    assembler, and the numbers of two LLVM opcodes. *)
Variable disassemble : Z -> option (Z * list mc_operand).
Variable canLift : Z -> bool.
Variable assemble : Z -> list mc_operand -> option Z.
Variables ABS_ZPmZ_B_UNDEF UDF : Z.

Record generator := mkGenerator { opcodes : list Z; canopc : list Z; cannot : list Z }.

Definition reserved (r : Z) : bool :=
  (r =? Register.X18) || (r =? Register.X26) || (r =? Register.X27) || (r =? Register.X30) || (r =? Register.X31).

(** The opcodes LLVM knows. *)
Definition decoded (opcode : Z) : option (Z * list mc_operand) :=
  match disassemble opcode with
  | None => None
  | Some (opc, inst) => if (opc <=? ABS_ZPmZ_B_UNDEF) || (opc =? UDF) then None else Some (opc, inst)
  end.

(** [opregs] is new for each opcode. *)
Definition fresh_opregs (inst : list mc_operand) : OpcodeRegisters :=
  mkOpregs (parse_regused inst) [] [] ∅ ∅ [].

Definition insert_opcode (st : generator) (opc opcode : Z) (inst : list mc_operand) : exec generator :=
  r ← normalize_opcode assemble opc inst opcode (fresh_opregs inst);
  Ret (mkGenerator (reg_insert (fst (fst r)) (opcodes st)) (canopc st) (cannot st)).

(** The sets hold the low sixteen bits of LLVM's opcode. *)
Definition generate_step (st : generator) (opcode : Z) : exec generator :=
  match decoded opcode with
  | None => Ret st
  | Some (opc, inst) =>
      if bool_decide (wrap16 opc ∈ canopc st) then Ret st
      else if existsb reserved (parse_regused inst) then Ret st
      else if bool_decide (wrap16 opc ∈ cannot st) then insert_opcode st opc opcode inst
      else if canLift opcode then Ret (mkGenerator (opcodes st) (reg_insert (wrap16 opc) (canopc st)) (cannot st))
      else insert_opcode (mkGenerator (opcodes st) (canopc st) (reg_insert (wrap16 opc) (cannot st))) opc opcode inst
  end.

Fixpoint generate (l : list Z) (st : generator) : exec generator :=
  match l with
  | [] => Ret st
  | opcode :: l' => st ← generate_step st opcode; generate l' st
  end.

(** All words of 32 bits. *)
Definition opcode_generator : exec generator := generate (seqZ 0 (2 ^ 32)) (mkGenerator [] [] []).
End Generator.

(** * [opcret_generator]: a [ret] behind each opcode of a file *)

Definition insn_ret : list Z := [0xC0; 0x03; 0x5F; 0xD6].
Fixpoint opcret_words (l : list Z) : list Z :=
  match l with
  | a :: b :: c :: d :: l' => ([a; b; c; d] ++ insn_ret) ++ opcret_words l'
  | _ => []
  end.

(** * Lemmas about sets *)

Lemma reg_insert_elem r l x : x ∈ reg_insert r l <-> x = r \/ x ∈ l.
Proof.
  induction l as [|y l IH]; cbn [reg_insert]; [by rewrite list_elem_of_singleton, elem_of_nil; tauto|].
  destruct (r <? y); [by rewrite elem_of_cons|].
  destruct (Z.eqb_spec r y) as [->|]; rewrite !elem_of_cons; [tauto|]. rewrite IH. tauto.
Qed.

Lemma reg_set_elem l x : x ∈ reg_set l <-> x ∈ l.
Proof.
  unfold reg_set. assert (∀ s, x ∈ fold_left (fun s r => reg_insert r s) l s <-> x ∈ s \/ x ∈ l) as H.
  { induction l as [|y l IH]; intros s; cbn [fold_left]; [by rewrite elem_of_nil; tauto|].
    rewrite IH, reg_insert_elem, elem_of_cons. tauto. }
  rewrite H, elem_of_nil. tauto.
Qed.

Lemma first_unused_found regused reg :
  let r := first_unused (length regused) regused reg in
  reg <= r ∧ r ∉ regused ∧ ∀ x, reg <= x < r -> x ∈ regused.
Proof.
  cbv zeta. revert reg. assert (∀ fuel reg, (∀ x, reg <= x < first_unused fuel regused reg -> x ∈ regused) ∧
    (first_unused fuel regused reg ∉ regused \/ first_unused fuel regused reg = reg + Z.of_nat fuel) ∧
    reg <= first_unused fuel regused reg) as H.
  { induction fuel as [|fuel IH]; intros reg; cbn [first_unused]; [split_and!; [lia|right; lia|lia]|].
    case_bool_decide as Hreg; [|split_and!; [lia|by left|lia]].
    destruct (IH (reg + 1)) as (H1 & H2 & H3). split_and!; [|destruct H2 as [|H2]; [by left|right; lia]|lia].
    intros x Hx. destruct (decide (x = reg)) as [->|]; [done|]. apply H1. lia. }
  intros reg. destruct (H (length regused) reg) as (H1 & H2 & H3). split_and!; [done| |done].
  destruct H2 as [|H2]; [done|]. intros Hin.
  assert (length (seqZ reg (Z.of_nat (length regused) + 1)) <= length regused)%nat as Hle.
  { apply submseteq_length, NoDup_submseteq; [apply NoDup_seqZ|]. intros x Hx. apply elem_of_seqZ in Hx.
    destruct (decide (x = reg + Z.of_nat (length regused))) as [->|]; [by rewrite <- H2|]. apply H1. lia. }
  rewrite length_seqZ in Hle. lia.
Qed.
Lemma reg_insert_sorted r l : StronglySorted Z.lt l -> StronglySorted Z.lt (reg_insert r l).
Proof.
  induction 1 as [|x l Hs IH Hf]; cbn [reg_insert]; [repeat constructor|].
  destruct (Z.ltb_spec r x).
  - constructor; [by constructor|]. constructor; [done|]. eapply Forall_impl; [done|]. intros; lia.
  - destruct (Z.eqb_spec r x); [by constructor|]. constructor; [done|].
    apply Forall_forall. intros y [->|Hy]%reg_insert_elem; [lia|]. by eapply Forall_forall in Hf.
Qed.

Lemma reg_set_sorted l : StronglySorted Z.lt (reg_set l).
Proof.
  unfold reg_set. assert (∀ s, StronglySorted Z.lt s -> StronglySorted Z.lt (fold_left (fun s r => reg_insert r s) l s)) as H.
  { induction l as [|r l IH]; intros s Hs; [done|]. apply IH, reg_insert_sorted, Hs. }
  apply H. constructor.
Qed.

Lemma sorted_NoDup l : StronglySorted Z.lt l -> NoDup l.
Proof.
  induction 1 as [|x l Hs IH Hf]; constructor; [|done].
  intros Hx. eapply Forall_forall in Hf; [|exact Hx]. lia.
Qed.

(** A register that contributes nothing. *)
Lemma join_reg_insert {A} (f : Z -> list A) r l : f r = [] -> mjoin (f <$> reg_insert r l) = mjoin (f <$> l).
Proof.
  intros Hf. induction l as [|x l IH]; cbn [reg_insert]; [cbn; by rewrite Hf|].
  destruct (r <? x); [cbn; by rewrite Hf|]. destruct (r =? x); [done|].
  change (f x ++ mjoin (f <$> reg_insert r l) = f x ++ mjoin (f <$> l))%list. by rewrite IH.
Qed.

Lemma join_reverse_insert {A} (f : Z -> list A) r l :
  f r = [] -> mjoin (f <$> reverse (reg_insert r l)) = mjoin (f <$> reverse l).
Proof.
  intros Hf. induction l as [|x l IH]; cbn [reg_insert]; [cbn; by rewrite Hf|].
  destruct (r <? x).
  - rewrite (reverse_cons (x :: l)), fmap_app, join_app. cbn [fmap list_fmap mjoin list_join]. by rewrite Hf, !app_nil_r.
  - destruct (r =? x); [done|]. rewrite !reverse_cons, !fmap_app, !join_app. by rewrite IH.
Qed.

(** A larger bound on the search changes nothing. *)
Lemma first_unused_fuel regused n reg :
  (length regused <= n)%nat -> first_unused n regused reg = first_unused (length regused) regused reg.
Proof.
  assert (∀ k m reg, first_unused k regused reg ∉ regused -> (k <= m)%nat ->
    first_unused m regused reg = first_unused k regused reg) as H.
  { induction k as [|k IH]; intros m r Hr Hm; cbn [first_unused] in *.
    - destruct m; [done|]. cbn [first_unused]. by rewrite bool_decide_false.
    - destruct m; [lia|]. cbn [first_unused]. case_bool_decide; [|done]. apply IH; [done|lia]. }
  intros Hn. apply H; [|done]. by destruct (first_unused_found regused reg) as (_ & ? & _).
Qed.

Lemma first_unused_unique regused reg r :
  reg <= r -> r ∉ regused -> (∀ x, reg <= x < r -> x ∈ regused) ->
  first_unused (length regused) regused reg = r.
Proof.
  intros Hle Hr Hx. destruct (first_unused_found regused reg) as (F1 & F2 & F3).
  set (r' := first_unused _ _ _) in *. destruct (Z.lt_trichotomy r' r) as [|[|]]; [|done|].
  - exfalso. apply F2, Hx. lia.
  - exfalso. apply Hr, F3. lia.
Qed.

(** * Lemmas about registers *)

#[export] Instance vector_eq_dec : EqDecision vector.
Proof. solve_decision. Defined.
#[export] Instance llvm_class_eq_dec : EqDecision llvm_class.
Proof. solve_decision. Defined.

Section UsedLemmas.
Context `{LlvmNumbers}.

Lemma within_index reg c : within reg c = true -> 0 <= number_in reg c < count c.
Proof. unfold within, number_in. intros Hw. bsplit. lia. Qed.

Lemma nth_ok c n : reg_ok (Nth c n) = true <-> 0 <= n < count c.
Proof. cbn [reg_ok]. rewrite andb_true_iff, Z.leb_le, Z.ltb_lt. done. Qed.

Lemma within_num r c : reg_ok r = true ->
  within (num r) c = match r with Nth c' _ => bool_decide (c' = c) | _ => false end.
Proof.
  intros Hr. destruct (within (num r) c) eqn:Hw.
  - pose proof (within_index _ _ Hw) as Hi. unfold number_in in Hi.
    assert (num r = num (Nth c (num r - num (Nth c 0)))) as Hn by (rewrite num_next by done; lia).
    apply num_inj in Hn; [|done|by apply nth_ok]. destruct r; try done. injection Hn as -> _. by rewrite bool_decide_true.
  - destruct r as [c' n| | | | | |]; try done. case_bool_decide as Hc; [|done]. subst c'.
    apply nth_ok in Hr. rewrite <- Hw. unfold within. rewrite (num_next _ n) by done.
    rewrite !(proj2 (Z.leb_le _ _)) by lia. done.
Qed.

Lemma index_num c n : reg_ok (Nth c n) = true -> number_in (num (Nth c n)) c = n.
Proof. intros Hr%nth_ok. unfold number_in. rewrite (num_next _ n) by done. lia. Qed.

Lemma num_eqb r r' : reg_ok r = true -> reg_ok r' = true -> (num r =? num r') = true <-> r = r'.
Proof. intros Hr Hr'. rewrite Z.eqb_eq. split; [by apply num_inj|by intros ->]. Qed.

Lemma num_neq r r' : reg_ok r = true -> reg_ok r' = true -> r <> r' -> (num r =? num r') = false.
Proof. intros Hr Hr' Hne. apply Z.eqb_neq. intros He. by apply Hne, num_inj. Qed.

End UsedLemmas.

(** Settles the tests of a known register. *)
Ltac decide_num Hr :=
  repeat first [rewrite within_num by exact Hr; cbn iota | rewrite Z.eqb_refl
    | rewrite (num_neq _ WZR Hr eq_refl) by discriminate | rewrite (num_neq _ XZR Hr eq_refl) by discriminate
    | rewrite (num_neq _ WSP Hr eq_refl) by discriminate | rewrite (num_neq _ FP Hr eq_refl) by discriminate
    | rewrite (num_neq _ LR Hr eq_refl) by discriminate | rewrite (num_neq _ SP Hr eq_refl) by discriminate
    | rewrite (bool_decide_true (_ = _)) by reflexivity | rewrite (bool_decide_false (_ = _)) by discriminate
    | rewrite index_num by exact Hr | progress cbn [orb]].

Section ParseLemmas.
Context `{LlvmNumbers}.

Lemma parse_vector_num r cs : reg_ok r = true ->
  parse_vector (num r) cs = match r with
    | Nth (CVec v len) n => if bool_decide ((v, len) ∈ cs) then (fun i => n + i) <$> seqZ 0 len else []
    | _ => [] end.
Proof.
  intros Hr. induction cs as [|[v len] cs IH]; cbn [parse_vector]; [by destruct r as [[]| | | | | |]|].
  rewrite within_num by done. rewrite IH. destruct r as [[| | | |v' len'] n| | | | | |]; try done.
  destruct (decide (CVec v' len' = CVec v len)) as [Hc|Hc].
  - rewrite (bool_decide_true _ Hc). simplify_eq.
    rewrite bool_decide_true by apply list_elem_of_here. by rewrite index_num.
  - rewrite (bool_decide_false _ Hc).
    by rewrite (bool_decide_ext ((v', len') ∈ (v, len) :: cs) ((v', len') ∈ cs))
      by (rewrite elem_of_cons; split; [intros [?|]; [simplify_eq|done]|by right]).
Qed.

(** The registers the architecture means. *)
Definition arch_uses (r : llvm_reg) : list Z :=
  match r with
  | Nth CW n | Nth CX n => [Register.X0 + n]
  | Nth CWpair k | Nth CXpair k => [Register.X0 + 2 * k; Register.X0 + 2 * k + 1]
  | Nth (CVec _ len) n => (fun i => Register.Q0 + (n + i)) <$> seqZ 0 len
  | FP => [Register.X29] | LR => [Register.X30] | SP | WSP => [Register.X31]
  | WZR | XZR => []
  end.
Definition is_pair (r : llvm_reg) : bool := match r with Nth (CWpair | CXpair) _ => true | _ => false end.

(** What [parse_regused] makes of one operand. *)
Definition reg_uses (reg : Z) : list Z :=
  (((fun x => Register.X0 + x) <$> (parse_reg reg).1) ++ ((fun q => Register.Q0 + q) <$> (parse_reg reg).2))%list.

Lemma reg_uses_arch r : reg_ok r = true -> is_pair r = false -> reg_uses (num r) = arch_uses r.
Proof.
  intros Hr Hp. unfold reg_uses, parse_reg. rewrite parse_vector_num by done.
  destruct r as [c n| | | | | |]; try (decide_num Hr; done).
  destruct c as [| | | |v len]; try done; decide_num Hr; try done. cbn [fst snd fmap list_fmap app].
  rewrite bool_decide_true; [by rewrite <- list_fmap_compose|].
  apply nth_ok in Hr. cbn [count] in Hr. unfold tuples in Hr.
  assert (len = 1 \/ len = 2 \/ len = 3 \/ len = 4) as Hlen.
  { destruct v; match type of Hr with _ <= _ < if ?b then _ else _ => destruct b eqn:E end; bsplit; lia. }
  unfold vector_classes; rewrite !elem_of_cons.
  destruct Hlen as [ -> | [ -> | [ -> | -> ] ] ]; destruct v; cbn in Hr; try lia; tauto.
Qed.

Lemma pair_uses (w : bool) k : 0 <= k < count (if w then CWpair else CXpair) ->
  reg_uses (num (Nth (if w then CWpair else CXpair) k)) = [Register.X0 + k; Register.X0 + (k + 1)].
Proof.
  intros Hk. assert (reg_ok (Nth (if w then CWpair else CXpair) k) = true) as Hr by (by apply nth_ok).
  unfold reg_uses, parse_reg. destruct w; decide_num Hr; cbn [fst snd fmap list_fmap app]; by rewrite Z.add_0_r.
Qed.

(** What the code takes a register for: pair [k] for X<k> and X<k+1>, the
    others for what the architecture means. *)
Definition code_uses (r : llvm_reg) : list Z :=
  match r with
  | Nth CWpair k | Nth CXpair k => [Register.X0 + k; Register.X0 + (k + 1)]
  | _ => arch_uses r
  end.

Lemma reg_uses_code r : reg_ok r = true -> reg_uses (num r) = code_uses r.
Proof.
  intros Hr. destruct (is_pair r) eqn:Hp; [|rewrite reg_uses_arch by done; by destruct r as [[]| | | | | |]].
  destruct r as [[]| | | | | |]; try done; apply nth_ok in Hr; [by apply (pair_uses true)|by apply (pair_uses false)].
Qed.

(** Operands whose registers are registers the code knows, and those without pairs. *)
Definition known (inst : list mc_operand) : Prop :=
  ∀ reg, OReg reg ∈ inst -> ∃ r, reg = num r ∧ reg_ok r = true.
Definition no_pairs (inst : list mc_operand) : Prop :=
  ∀ r, reg_ok r = true -> OReg (num r) ∈ inst -> is_pair r = false.

Lemma parse_vector_bounds reg cs q : q ∈ parse_vector reg cs -> 0 <= q <= 31.
Proof.
  induction cs as [|[v len] cs IH]; cbn [parse_vector]; [by rewrite elem_of_nil|].
  destruct (within _ _) eqn:Hw; [|done]. apply within_index in Hw. cbn [count] in Hw.
  destruct (tuples v len); [|lia]. rewrite list_elem_of_fmap. intros (i & -> & Hi%elem_of_seqZ). lia.
Qed.

Lemma parse_reg_bounds reg :
  (∀ x, x ∈ (parse_reg reg).1 -> 0 <= x <= 31) ∧ (∀ q, q ∈ (parse_reg reg).2 -> 0 <= q <= 31).
Proof.
  unfold parse_reg.
  repeat match goal with |- context [if ?b then _ else _] => destruct b eqn:?; cbn [fst snd] end;
    split; intros y Hy; rewrite ?elem_of_cons, ?elem_of_nil in Hy;
    repeat match goal with Hw : within _ _ = true |- _ => apply within_index in Hw; cbn [count] in Hw end;
    try lia; by eapply parse_vector_bounds.
Qed.

Lemma parse_regused_elem inst R : R ∈ parse_regused inst <-> ∃ reg, OReg reg ∈ inst ∧ R ∈ reg_uses reg.
Proof.
  unfold parse_regused, reg_uses. rewrite reg_set_elem, elem_of_app, !list_elem_of_fmap.
  assert (∀ (f : list Z * list Z -> list Z) y, y ∈ reg_set (mjoin (f <$> (parse_reg <$> omap operand_reg inst))) <->
    ∃ reg, OReg reg ∈ inst ∧ y ∈ f (parse_reg reg)) as Hin.
  { intros f y. rewrite reg_set_elem, list_elem_of_join. split.
    - intros (l & Hy & Hl). apply list_elem_of_fmap in Hl as (p & -> & Hp).
      apply list_elem_of_fmap in Hp as (reg & -> & Hreg). apply list_elem_of_omap in Hreg as (o & Ho & Hor).
      destruct o; [|done]. injection Hor as ->. by eauto.
    - intros (reg & Hreg & Hy). exists (f (parse_reg reg)). split; [done|].
      apply list_elem_of_fmap. exists (parse_reg reg). split; [done|].
      apply list_elem_of_fmap. exists reg. split; [done|]. apply list_elem_of_omap. by exists (OReg reg). }
  setoid_rewrite (Hin fst). setoid_rewrite (Hin snd). setoid_rewrite elem_of_app. setoid_rewrite list_elem_of_fmap.
  naive_solver.
Qed.

Lemma parse_regused_code inst R : known inst ->
  R ∈ parse_regused inst <-> ∃ r, reg_ok r = true ∧ OReg (num r) ∈ inst ∧ R ∈ code_uses r.
Proof.
  intros Hi. rewrite parse_regused_elem. split.
  - intros (reg & Hin & HR). destruct (Hi reg Hin) as (r & -> & Hr). exists r. by rewrite <- reg_uses_code.
  - intros (r & Hr & Hin & HR). exists (num r). by rewrite reg_uses_code.
Qed.

Lemma code_uses_arch r : is_pair r = false -> code_uses r = arch_uses r.
Proof. by destruct r as [[]| | | | | |]. Qed.

Lemma parse_regused_arch inst R : known inst -> no_pairs inst ->
  R ∈ parse_regused inst <-> ∃ r, reg_ok r = true ∧ OReg (num r) ∈ inst ∧ R ∈ arch_uses r.
Proof.
  intros Hi Hp. rewrite parse_regused_code by done.
  split; intros (r & Hr & Hin & HR); exists r; [rewrite code_uses_arch in HR by auto|rewrite code_uses_arch by auto]; done.
Qed.
End ParseLemmas.

(** * Lemmas about the renaming *)

Section Assign.
Variables (base : Z) (used : list Z).

(** What [assign] gives to the registers of [l]: numbers from [ireg] on, each
    its own, none of them used, none skipped that is free. *)
Definition assigned (l : list Z) (ireg : Z) (m m' : gmap Z Z) : Prop :=
  (∀ n, n ∉ l -> m' !! n = m !! n) ∧
  (∀ n, n ∈ l -> ∃ v, m' !! n = Some v ∧ ireg <= v ∧ base + v ∉ used ∧
     ∀ x, ireg <= x < v -> base + x ∈ used \/ ∃ n', n' ∈ l ∧ m' !! n' = Some x) ∧
  (∀ n n' v, n ∈ l -> n' ∈ l -> m' !! n = Some v -> m' !! n' = Some v -> n = n').

Lemma assign_assigned l : ∀ ireg m, NoDup l -> (∀ n, n ∈ l -> m !! n = None) ->
  assigned l ireg m (assign base used l ireg m).
Proof.
  induction l as [|i l IH]; intros ireg m Hnd Hm; cbn [assign].
  { split_and!; [done|intros n Hn|intros n n' v Hn]; by apply elem_of_nil in Hn. }
  apply NoDup_cons in Hnd as [Hi Hnd].
  destruct (first_unused_found used (base + ireg)) as (F1 & F2 & F3).
  set (r := first_unused _ _ _) in *. clearbody r.
  unfold map_insert. rewrite (Hm i) by apply list_elem_of_here.
  destruct (IH (r - base + 1) (<[i := r - base]> m) Hnd) as (A1 & A2 & A3).
  { intros n Hn. rewrite lookup_insert_ne; [by apply Hm, list_elem_of_further|]. by intros ->. }
  set (m' := assign _ _ _ _ _) in *. clearbody m'.
  assert (m' !! i = Some (r - base)) as Hmi by (by rewrite A1, lookup_insert_eq).
  split_and!.
  - intros n [Hni Hn]%not_elem_of_cons. by rewrite A1, lookup_insert_ne.
  - intros n [->|Hn]%elem_of_cons.
    + exists (r - base). split_and!; [done|lia|by replace (base + (r - base)) with r by lia|].
      intros x Hx. left. apply F3. lia.
    + destruct (A2 n Hn) as (v & Hv & Hle & Hu & Hx). exists v. split_and!; [done|lia|done|].
      intros x Hlt. destruct (Z.lt_trichotomy x (r - base)) as [Hl|[->|Hl]].
      * left. apply F3. lia.
      * right. exists i. split; [apply list_elem_of_here|done].
      * destruct (Hx x ltac:(lia)) as [|(n' & Hn' & He)]; [by left|right].
        exists n'. split; [by apply list_elem_of_further|done].
  - assert (∀ n v, n ∈ l -> m' !! n = Some v -> m' !! i = Some v -> False) as Hne.
    { intros n v Hn Hv Hv'. destruct (A2 n Hn) as (w & Hw & Hle & _). simplify_eq. lia. }
    intros n n' v [->|Hn]%elem_of_cons [->|Hn']%elem_of_cons Hv Hv'; [done| | |by eapply A3];
      exfalso; by eapply Hne.
Qed.

(** So no number reaches the registers used and renamed together. *)
Lemma assigned_bound l ireg m m' n v : assigned l ireg m m' -> n ∈ l -> m' !! n = Some v ->
  ireg <= v < ireg + Z.of_nat (length used + length l).
Proof.
  intros (_ & A2 & A3) Hn Hv. destruct (A2 n Hn) as (w & Hw & Hle & _ & Hx).
  rewrite Hv in Hw. injection Hw as <-. split; [done|].
  set (img := (fun x => base + default 0 (m' !! x)) <$> l).
  assert (length (seqZ (base + ireg) (v - ireg + 1)) <= length (used ++ img))%nat as Hlen.
  { apply submseteq_length, NoDup_submseteq; [apply NoDup_seqZ|]. intros y Hy%elem_of_seqZ.
    apply elem_of_app. destruct (decide (y = base + v)) as [->|Hne].
    - right. apply list_elem_of_fmap. exists n. by rewrite Hv.
    - destruct (Hx (y - base) ltac:(lia)) as [Hu|(n' & Hn' & He)].
      + left. by replace (base + (y - base)) with y in Hu by lia.
      + right. apply list_elem_of_fmap. exists n'. rewrite He. cbn. split; [lia|done]. }
  unfold img in Hlen. rewrite length_seqZ, length_app, length_fmap in Hlen. lia.
Qed.
End Assign.

Section NormalizeLemmas.
Context `{LlvmNumbers}.

(** The scalar register an operand names: general or vector, and its number. *)
Definition reg_number (reg : Z) : option (bool * Z) :=
  match general_number reg with
  | Some n => Some (true, n)
  | None => (fun p => (false, p.2)) <$> vector_number reg scalar_vectors
  end.

(** The numbers of one kind the instruction names. *)
Definition numbers (g : bool) (inst : list mc_operand) : list Z :=
  omap (fun o => reg ← operand_reg o; p ← reg_number reg;
                 if Bool.eqb p.1 g then Some p.2 else None) inst.

Lemma numbers_cons g o inst : numbers g (o :: inst) = (numbers g [o] ++ numbers g inst)%list.
Proof. unfold numbers. cbn [omap list_omap]. by destruct (_ ≫= _). Qed.

Lemma note_operands inst : ∀ o,
  fold_left note_operand inst o =
  mkOpregs (usedregs o) (fold_left (fun s r => reg_insert r s) (numbers true inst) (regused o))
    (fold_left (fun s r => reg_insert r s) (numbers false inst) (fpuused o)) (regmaps o) (fpumaps o) (asmerropcs o).
Proof.
  induction inst as [|x inst IH]; intros o; [by destruct o|].
  rewrite (numbers_cons true), (numbers_cons false), !fold_left_app. cbn [fold_left]. rewrite IH.
  unfold note_operand, numbers, reg_number. cbn [omap list_omap].
  destruct (operand_reg x) as [reg|]; [|by cbn]. cbn [mbind option_bind].
  destruct (general_number reg) as [n|]; [done|]. by destruct (vector_number reg scalar_vectors) as [[v n]|].
Qed.

Lemma numbers_elem g inst n :
  n ∈ numbers g inst <-> ∃ reg, OReg reg ∈ inst ∧ reg_number reg = Some (g, n).
Proof.
  unfold numbers. rewrite list_elem_of_omap. split.
  - intros (o & Ho & Hn). destruct o as [reg|]; [|done]. cbn [operand_reg mbind option_bind] in Hn.
    destruct (reg_number reg) as [[g' k]|] eqn:Hr; [|done]. cbn [mbind option_bind fst snd] in Hn.
    destruct (Bool.eqb_spec g' g) as [->|]; [|done]. injection Hn as ->. by eauto.
  - intros (reg & Ho & Hr). exists (OReg reg). split; [done|]. cbn [operand_reg mbind option_bind].
    rewrite Hr. cbn [mbind option_bind fst snd]. by rewrite Bool.eqb_reflx.
Qed.
End NormalizeLemmas.

Section Renames.
Context `{LlvmNumbers}.
Variable assemble : Z -> list mc_operand -> option Z.

Definition kind_base (g : bool) : Z := if g then Register.X0 else Register.Q0.
Definition maps_of (o : OpcodeRegisters) (g : bool) : gmap Z Z := if g then regmaps o else fpumaps o.

(** The maps give each register named a number of its own that is not used. *)
Definition renaming (used : list Z) (inst : list mc_operand) (f : bool -> gmap Z Z) : Prop :=
  ∀ g, (∀ n, n ∈ numbers g inst -> ∃ v, f g !! n = Some v ∧ kind_base g + v ∉ used ∧
          0 <= v < Z.of_nat (length used + length inst)) ∧
       (∀ n n' v, n ∈ numbers g inst -> n' ∈ numbers g inst -> f g !! n = Some v -> f g !! n' = Some v -> n = n').



(** An operand behind the renaming. *)
Definition renamed (f : bool -> gmap Z Z) (o o' : mc_operand) : Prop :=
  match operand_reg o ≫= reg_number with
  | Some (g, n) => ∃ reg v, o' = OReg reg ∧ f g !! n = Some v ∧ reg_number reg = Some (g, v)
  | None => o' = o
  end.

Lemma reg_number_num r : reg_ok r = true ->
  reg_number (num r) = match r with
    | Nth (CW | CX) n => Some (true, n) | FP => Some (true, 29) | LR => Some (true, 30)
    | Nth (CVec _ len) n => if len =? 1 then Some (false, n) else None
    | _ => None end.
Proof.
  intros Hr. unfold reg_number, general_number, scalar_vectors. cbn [vector_number].
  destruct r as [c n| | | | | |]; try (decide_num Hr; done).
  destruct c as [| | | |v len]; try (decide_num Hr; done). destruct (Z.eqb_spec len 1) as [->|Hne].
  - destruct v; decide_num Hr; done.
  - assert (∀ v', bool_decide (CVec v len = CVec v' 1) = false) as Hb by (intros v'; apply bool_decide_false; congruence).
    repeat rewrite within_num by exact Hr. cbn iota. rewrite !Hb.
    repeat (rewrite (bool_decide_false (CVec v len = _)) by discriminate).
    rewrite (num_neq _ FP Hr eq_refl), (num_neq _ LR Hr eq_refl) by discriminate. done.
Qed.

Lemma numbers_length g inst : (length (numbers g inst) <= length inst)%nat.
Proof.
  induction inst as [|o inst IH]; [done|]. rewrite numbers_cons, length_app. cbn [length].
  assert (length (numbers g [o]) <= 1)%nat; [|lia].
  unfold numbers. cbn [omap list_omap]. destruct (_ ≫= _); cbn; lia.
Qed.

Lemma reg_set_length l : (length (reg_set l) <= length l)%nat.
Proof.
  apply submseteq_length, NoDup_submseteq; [apply sorted_NoDup, reg_set_sorted|].
  intros x. apply reg_set_elem.
Qed.

(** The maps the first two loops make. *)
Definition noted (inst : list mc_operand) : OpcodeRegisters :=
  fill_maps (fold_left note_operand inst (fresh_opregs inst)).

Lemma noted_renaming inst : renaming (parse_regused inst) inst (maps_of (noted inst)).
Proof.
  intros g. set (l := reg_set (numbers g inst)).
  assert (assigned (kind_base g) (parse_regused inst) l 0 ∅ (maps_of (noted inst) g)) as Ha.
  { unfold noted. rewrite note_operands. destruct g;
      (apply assign_assigned; [apply sorted_NoDup, reg_set_sorted|intros; apply lookup_empty]). }
  assert (∀ n, n ∈ numbers g inst <-> n ∈ l) as Hl by (intros n; unfold l; by rewrite reg_set_elem).
  split.
  - intros n Hn%Hl. destruct (proj1 (proj2 Ha) n Hn) as (v & Hv & _ & Hu & _). exists v. split_and!; [done|done|..];
      destruct (assigned_bound _ _ _ _ _ _ _ _ Ha Hn Hv) as [Hlo Hhi]; [lia|].
    pose proof (reg_set_length (numbers g inst)). pose proof (numbers_length g inst). subst l. lia.
  - intros n n' v Hn%Hl Hn'%Hl. by apply (proj2 (proj2 Ha)).
Qed.

Lemma vector_number_scalar reg vs v n : vector_number reg vs = Some (v, n) -> 0 <= n < 32.
Proof.
  induction vs as [|w vs IH]; cbn [vector_number]; [done|]. destruct (within _ _) eqn:Hw; [|done].
  intros Hv. injection Hv as <- <-. apply within_index in Hw. by destruct w.
Qed.

(** With maps for all registers an operand can be renamed; with numbers small
    enough the new operand names what the map says. *)
Definition mapped (f : bool -> gmap Z Z) (p : option (bool * Z)) : Prop :=
  ∀ g n, p = Some (g, n) -> ∃ v, f g !! n = Some v ∧ 0 <= v.
Definition small (f : bool -> gmap Z Z) (p : option (bool * Z)) : Prop :=
  ∀ g n v, p = Some (g, n) -> f g !! n = Some v -> v < 29.

Lemma rename_to o g c k : reg_number (num (Nth c 0)) = Some (g, 0) -> 29 <= count c ->
  mapped (maps_of o) (Some (g, k)) ->
  ∃ x', (v ← find_map (maps_of o g) k; Ret (OReg (v + num (Nth c 0)))) = Ret x' ∧
    (small (maps_of o) (Some (g, k)) -> ∃ reg v, x' = OReg reg ∧ maps_of o g !! k = Some v ∧ reg_number reg = Some (g, v)).
Proof.
  intros Hc Hcount Hm. destruct (Hm g k eq_refl) as (v & Hv & Hpos). unfold find_map. rewrite Hv.
  cbn [mbind exec_bind]. eexists. split; [reflexivity|]. intros Hs. specialize (Hs g k v eq_refl Hv).
  exists (num (Nth c v)), v. rewrite (num_next c v) by lia. split_and!; [f_equal; lia|done|].
  rewrite <- (num_next c v) by lia. rewrite reg_number_num in * by (apply nth_ok; lia).
  destruct c as [| | | |w len]; try done; try (by injection Hc as <-).
  destruct (len =? 1); [by injection Hc as <-|done].
Qed.

Lemma rename_ret o x : mapped (maps_of o) (operand_reg x ≫= reg_number) ->
  ∃ x', rename_operand o x = Ret x' ∧
    (small (maps_of o) (operand_reg x ≫= reg_number) -> renamed (maps_of o) x x').
Proof.
  unfold rename_operand, renamed. destruct x as [reg|]; cbn [operand_reg mbind option_bind]; [|by eexists].
  assert (reg_number reg = reg_number reg) as Hr by done. unfold reg_number at 2, general_number in Hr.
  assert (∀ c, c = CW \/ c = CX -> reg_number (num (Nth c 0)) = Some (true, 0) ∧ 29 <= count c) as Hc.
  { intros c [-> | ->]; (split; [by rewrite reg_number_num by (by apply nth_ok)|done]). }
  destruct (within reg CW); [rewrite Hr; apply (rename_to o true CW); apply Hc; by left|].
  destruct (within reg CX); [rewrite Hr; apply (rename_to o true CX); apply Hc; by right|].
  destruct (reg =? num FP); [rewrite Hr; apply (rename_to o true CX); apply Hc; by right|].
  destruct (reg =? num LR); [rewrite Hr; apply (rename_to o true CX); apply Hc; by right|].
  destruct (vector_number reg scalar_vectors) as [[v n]|]; rewrite Hr; [|by eexists].
  apply (rename_to o false (CVec v 1)); [|destruct v; done].
  by rewrite reg_number_num by (apply nth_ok; by destruct v).
Qed.

Lemma rename_all o inst : (∀ x, x ∈ inst -> mapped (maps_of o) (operand_reg x ≫= reg_number)) ->
  ∃ inst', mapE (rename_operand o) inst = Ret inst' ∧
    ((∀ x, x ∈ inst -> small (maps_of o) (operand_reg x ≫= reg_number)) -> Forall2 (renamed (maps_of o)) inst inst').
Proof.
  induction inst as [|x inst IH]; intros Hm; [by exists []|]. cbn [mapE].
  destruct (rename_ret o x) as (x' & -> & Hx); [apply Hm, list_elem_of_here|].
  destruct IH as (inst' & -> & Hi); [intros y Hy; by apply Hm, list_elem_of_further|].
  eexists. split; [reflexivity|]. intros Hs.
  constructor; [apply Hx, Hs, list_elem_of_here|apply Hi; intros y Hy; by apply Hs, list_elem_of_further].
Qed.

Lemma operand_number x inst g n :
  x ∈ inst -> operand_reg x ≫= reg_number = Some (g, n) -> n ∈ numbers g inst.
Proof.
  intros Hx Hn. destruct x as [reg|]; [|done]. apply numbers_elem. by exists reg.
Qed.

(** What [normalize_opcode] does with new maps. *)
Definition normalized (opc opcode : Z) (inst : list mc_operand) (w : Z) (inst' : list mc_operand) (o : OpcodeRegisters) : Prop :=
  renaming (parse_regused inst) inst (maps_of o) ∧
  (Z.of_nat (length (parse_regused inst) + length inst) <= 29 -> Forall2 (renamed (maps_of o)) inst inst') ∧
  (assemble opc inst' = Some w \/ assemble opc inst' = None ∧ w = opcode ∧ opc ∈ asmerropcs o).

Lemma normalize_fresh opc inst opcode : ∃ w inst' o,
  normalize_opcode assemble opc inst opcode (fresh_opregs inst) = Ret (w, inst', o) ∧ normalized opc opcode inst w inst' o.
Proof.
  pose proof (noted_renaming inst) as Hren. unfold normalize_opcode. cbn [asmerropcs fresh_opregs].
  rewrite bool_decide_false by apply not_elem_of_nil. cbv zeta. fold (noted inst).
  destruct (rename_all (noted inst) inst) as (inst' & -> & Hi).
  { intros x Hx g n Hn. destruct (proj1 (Hren g) n (operand_number x inst g n Hx Hn)) as (v & Hv & _ & Hlo). eauto with lia. }
  cbn [mbind exec_bind]. unfold normalized.
  assert (Z.of_nat (length (parse_regused inst) + length inst) <= 29 -> Forall2 (renamed (maps_of (noted inst))) inst inst') as Hf.
  { intros Hlen. apply Hi. intros x Hx g n v Hn Hv.
    destruct (proj1 (Hren g) n (operand_number x inst g n Hx Hn)) as (v' & Hv' & _ & Hlt). simplify_eq. lia. }
  destruct (assemble opc inst') as [w|] eqn:Ha; do 3 eexists; (split; [reflexivity|]); (split_and!; [done|done|]).
  - by left.
  - right. split_and!; [done|done|]. apply reg_insert_elem. by left.
Qed.
End Renames.

(** * The loop over the opcodes *)

Section GeneratorLemmas.
Context `{LlvmNumbers}.
Variables (disassemble : Z -> option (Z * list mc_operand)) (canLift : Z -> bool).
Variable assemble : Z -> list mc_operand -> option Z.
Variables ABS UDF : Z.
Abbreviation step := (generate_step disassemble canLift assemble ABS UDF).
Abbreviation gen := (generate disassemble canLift assemble ABS UDF).

(** The opcodes to deal with: known, and without a reserved register. *)
Definition looked (opcode : Z) : option (Z * list mc_operand) :=
  match decoded disassemble ABS UDF opcode with
  | Some (opc, inst) => if existsb reserved (parse_regused inst) then None else Some (opc, inst)
  | None => None
  end.

(** The word an opcode is stored as. *)
Definition stored (opcode w : Z) : Prop := ∃ opc inst inst' o,
  looked opcode = Some (opc, inst) ∧
  normalize_opcode assemble opc inst opcode (fresh_opregs inst) = Ret (w, inst', o).

(** An opcode is dealt with: remill lifts one of its kind, or its word is there. *)
Definition covered (st : generator) (opcode : Z) : Prop := ∀ opc inst,
  looked opcode = Some (opc, inst) -> wrap16 opc ∈ canopc st \/ ∃ w, stored opcode w ∧ w ∈ opcodes st.

Definition grows (st st' : generator) : Prop := opcodes st ⊆ opcodes st' ∧ canopc st ⊆ canopc st'.

(** Everything in the sets comes from an opcode of [all]. *)
Record sound (all : list Z) (st : generator) : Prop := {
  so_words w : w ∈ opcodes st -> ∃ opcode, opcode ∈ all ∧ stored opcode w;
  so_can c : c ∈ canopc st -> ∃ opcode opc inst, opcode ∈ all ∧ looked opcode = Some (opc, inst) ∧
    wrap16 opc = c ∧ canLift opcode = true;
  so_cannot c : c ∈ cannot st -> ∃ opcode opc inst, opcode ∈ all ∧ looked opcode = Some (opc, inst) ∧
    wrap16 opc = c ∧ canLift opcode = false;
  so_apart c : c ∈ canopc st -> c ∉ cannot st;
  so_sorted : StronglySorted Z.lt (opcodes st)
}.

Lemma covered_grows st st' opcode : grows st st' -> covered st opcode -> covered st' opcode.
Proof.
  intros [Ho Hc] Hcov opc inst Hl. destruct (Hcov opc inst Hl) as [Hin|(w & Hw & Hin)]; [left|right]; [by apply Hc|].
  exists w. split; [done|by apply Ho].
Qed.

Lemma insert_step all st opcode opc inst : looked opcode = Some (opc, inst) ->
  ∃ st', insert_opcode assemble st opc opcode inst = Ret st' ∧ grows st st' ∧ covered st' opcode ∧
    (sound all st -> opcode ∈ all -> sound all st').
Proof.
  intros Hl. unfold insert_opcode. destruct (normalize_fresh assemble opc inst opcode) as (w & inst' & o & Hn & _).
  rewrite Hn. cbn [mbind exec_bind fst snd]. eexists. split; [reflexivity|].
  assert (stored opcode w) as Hw by by exists opc, inst, inst', o. split_and!.
  - split; [|done]. intros x Hx. cbn. apply reg_insert_elem. by right.
  - intros opc' inst'' Hl'. right. exists w. split; [done|]. apply reg_insert_elem. by left.
  - intros [S1 S2 S3 S4 S5] Hin. constructor; cbn [opcodes canopc cannot]; try done.
    + intros x [->|Hx]%reg_insert_elem; [by exists opcode|by apply S1].
    + by apply reg_insert_sorted.
Qed.

Lemma step_spec all st opcode : ∃ st', step st opcode = Ret st' ∧ grows st st' ∧ covered st' opcode ∧
  (sound all st -> opcode ∈ all -> sound all st').
Proof.
  assert (∀ st, looked opcode = None -> covered st opcode) as Hno by (intros st' Hn opc inst; by rewrite Hn).
  unfold generate_step. destruct (decoded _ _ _ opcode) as [[opc inst]|] eqn:Hd.
  2: { eexists. split_and!; [reflexivity|done|apply Hno; unfold looked; by rewrite Hd|done]. }
  destruct (existsb reserved (parse_regused inst)) eqn:Hres.
  { exists st. split_and!; [by case_bool_decide|done|apply Hno; unfold looked; by rewrite Hd, Hres|done]. }
  assert (looked opcode = Some (opc, inst)) as Hl by (unfold looked; by rewrite Hd, Hres).
  case_bool_decide as Hcan.
  { eexists. split_and!; [reflexivity|done| |done]. intros opc' inst' Hl'. rewrite Hl in Hl'. injection Hl' as <- <-. by left. }
  case_bool_decide as Hcannot; [by apply insert_step|]. destruct (canLift opcode) eqn:Hlift.
  - eexists. split_and!; [reflexivity|split; [done|]; intros x Hx; apply reg_insert_elem; by right| |].
    + intros opc' inst' Hl'. rewrite Hl in Hl'. injection Hl' as <- <-. left. apply reg_insert_elem. by left.
    + intros [S1 S2 S3 S4 S5] Hin. constructor; cbn [opcodes canopc cannot]; try done.
      * intros c [->|Hc]%reg_insert_elem; [by exists opcode, opc, inst|by apply S2].
      * intros c [->|Hc]%reg_insert_elem; [done|by apply S4].
  - destruct (insert_step all (mkGenerator (opcodes st) (canopc st) (reg_insert (wrap16 opc) (cannot st))) opcode opc inst Hl)
      as (st' & Hst & Hg & Hcov & Hs).
    exists st'. split_and!; [done|done|done|]. intros [S1 S2 S3 S4 S5] Hin. apply Hs; [|done].
    constructor; cbn [opcodes canopc cannot]; try done.
    + intros c [->|Hc]%reg_insert_elem; [by exists opcode, opc, inst|by apply S3].
    + intros c Hc [->|Hc']%reg_insert_elem; [done|by apply (S4 c)].
Qed.

Lemma generate_spec all l : ∀ st, l ⊆ all -> sound all st -> ∃ st', gen l st = Ret st' ∧
  grows st st' ∧ (∀ opcode, opcode ∈ l -> covered st' opcode) ∧ sound all st'.
Proof.
  induction l as [|opcode l IH]; intros st Hl Hs; cbn [generate].
  { exists st. split_and!; [done|done| |done]. intros x Hx. by apply elem_of_nil in Hx. }
  destruct (step_spec all st opcode) as (st1 & -> & Hg1 & Hc1 & Hs1). cbn [mbind exec_bind].
  destruct (IH st1) as (st2 & H2 & Hg2 & Hc2 & Hs2);
    [intros x Hx; by apply Hl, list_elem_of_further|apply Hs1; [done|apply Hl, list_elem_of_here]|].
  exists st2. split_and!; [done| | |done].
  - destruct Hg1 as [Ha Hb], Hg2 as [Hc Hd]. split; [by transitivity (opcodes st1)|by transitivity (canopc st1)].
  - intros x [->|Hx]%elem_of_cons; [by apply (covered_grows st1)|by apply Hc2].
Qed.

Lemma sound_empty all : sound all (mkGenerator [] [] []).
Proof. constructor; cbn; try (intros x Hx; by apply elem_of_nil in Hx). constructor. Qed.
End GeneratorLemmas.

(** * Properties *)

(** A numbering like LLVM's: each class in a row of its own. *)
Definition vector_code (v : vector) : Z :=
  match v with VB => 0 | VH => 1 | VS => 2 | VD => 3 | VQ => 4 | VZ => 5 end.
Definition class_code (c : llvm_class) : Z :=
  match c with CW => 0 | CX => 1 | CWpair => 2 | CXpair => 3 | CVec v len => 4 + 6 * len + vector_code v end.
Definition sample_num (r : llvm_reg) : Z :=
  match r with
  | WSP => 1 | WZR => 2 | FP => 3 | LR => 4 | SP => 5 | XZR => 6
  | Nth c n => 100 + 40 * class_code c + n
  end.

Definition sample_numbers : LlvmNumbers.
Proof.
  refine {| num := sample_num |}; [|intros c n Hn; cbn; lia].
  assert (∀ c n, reg_ok (Nth c n) = true -> 0 <= n <= 31 ∧ 0 <= class_code c ∧ match c with CVec _ len => 1 <= len | _ => True end) as Hb.
  { intros c n Hr. apply nth_ok in Hr. unfold count, tuples, class_code in *.
    destruct c as [| | | |[] len]; try lia; match type of Hr with _ <= _ < if ?b then _ else _ => destruct b eqn:E end;
      bsplit; cbn; lia. }
  intros [c n| | | | | |] [c' n'| | | | | |] Hr Hr' He; try done; unfold sample_num in He;
    repeat match goal with Hx : reg_ok (Nth _ _) = true |- _ => pose proof (Hb _ _ Hx); clear Hx end; try lia.
  assert (class_code c = class_code c') as Hc by lia. assert (n = n') as -> by lia. f_equal.
  destruct c as [| | | |[] ?], c' as [| | | |[] ?]; cbn in Hc; try done; try lia; f_equal; lia.
Defined.

(** C34: whatever the operands are, [parse_regused] returns registers of the
    guest only, X0..X31 and Q0..Q31, each once and in order. *)
Theorem parse_regused_typed `{LlvmNumbers} inst :
  StronglySorted Z.lt (parse_regused inst) ∧
  ∀ r, r ∈ parse_regused inst -> Register.X0 <= r <= Register.X31 \/ Register.Q0 <= r <= Register.Q31.
Proof.
  split; [apply reg_set_sorted|]. intros r (reg & _ & Hr)%parse_regused_elem. unfold reg_uses in Hr.
  destruct (parse_reg_bounds reg) as [Hx Hq]. apply elem_of_app in Hr as [Hr|Hr];
    apply list_elem_of_fmap in Hr as (n & -> & Hn); [left; apply Hx in Hn|right; apply Hq in Hn].
  - change Register.X31 with (Register.X0 + 31). lia.
  - change Register.Q31 with (Register.Q0 + 31). lia.
Qed.

(** C32: for operands whose registers are LLVM registers the code knows,
    [parse_regused] is exactly the set of what the code takes each of them
    for: a 32-bit name for the 64-bit register, a vector view or tuple for the
    vectors it covers, the zero registers for nothing, and pair number [k] for
    X<k> and X<k+1>. When no operand is a pair that is the set of the registers
    the architecture means; for a pair it is not ([pairs_misread]). *)
Theorem parse_regused_spec `{LlvmNumbers} inst : known inst ->
  (∀ R, R ∈ parse_regused inst <-> ∃ r, reg_ok r = true ∧ OReg (num r) ∈ inst ∧ R ∈ code_uses r) ∧
  (no_pairs inst ->
   ∀ R, R ∈ parse_regused inst <-> ∃ r, reg_ok r = true ∧ OReg (num r) ∈ inst ∧ R ∈ arch_uses r).
Proof.
  intros Hi. split; [intros R; by apply parse_regused_code|]. intros Hp R. by apply parse_regused_arch.
Qed.

(** X2_X3 and X0, as in [CASP x2, x3, x4, x5, [x0]]. *)
Definition sample_pair : list mc_operand :=
  [OReg (@num sample_numbers (Nth CXpair 1)); OReg (@num sample_numbers (Nth CX 0))].

(** D30_D31 and the stack pointer beside an immediate. *)
Definition sample_inst : list mc_operand :=
  [OReg (@num sample_numbers (Nth (CVec VD 2) 30)); OOther 7; OReg (@num sample_numbers SP)].

Lemma sample_known : @known sample_numbers sample_inst.
Proof.
  intros reg Hin. unfold sample_inst in Hin. rewrite !elem_of_cons, elem_of_nil in Hin.
  destruct Hin as [Hin|[Hin|[Hin|Hin]]]; [|done| |done]; injection Hin as ->; [exists (Nth (CVec VD 2) 30)|exists SP]; done.
Qed.

Lemma sample_no_pairs : @no_pairs sample_numbers sample_inst.
Proof.
  intros r Hr Hin. unfold sample_inst in Hin. rewrite !elem_of_cons, elem_of_nil in Hin.
  destruct Hin as [Hin|[Hin|[Hin|Hin]]]; [|done| |done]; injection Hin as Hin.
  - apply (@num_inj sample_numbers r (Nth (CVec VD 2) 30) Hr eq_refl) in Hin. by subst r.
  - apply (@num_inj sample_numbers r SP Hr eq_refl) in Hin. by subst r.
Qed.

Theorem parse_regused_spec_witness :
  Register.Q31 ∈ @parse_regused sample_numbers sample_inst <->
  ∃ r, reg_ok r = true ∧ OReg (@num sample_numbers r) ∈ sample_inst ∧ Register.Q31 ∈ arch_uses r.
Proof. apply (@parse_regused_spec sample_numbers sample_inst sample_known), sample_no_pairs. Defined.

(** The pairs of general registers start at even registers, so LLVM's [k]-th
    is X<2k>, X<2k+1>; the code takes it for X<k>, X<k+1>. *)
Theorem pairs_misread `{LlvmNumbers} (w : bool) k : 0 < k < count (if w then CWpair else CXpair) ->
  ∃ R, R ∈ arch_uses (Nth (if w then CWpair else CXpair) k) ∧
       R ∉ parse_regused [OReg (num (Nth (if w then CWpair else CXpair) k))].
Proof.
  intros Hk. exists (Register.X0 + 2 * k + 1). split.
  - destruct w; apply list_elem_of_further, list_elem_of_here.
  - rewrite parse_regused_elem. intros (reg & Hin%list_elem_of_singleton & HR). injection Hin as ->.
    rewrite pair_uses in HR by lia. rewrite !elem_of_cons, elem_of_nil in HR. lia.
Qed.

(** The search for a register that is not in a set ends within as many
    steps as the set has elements, at the first such register, and looking
    longer changes nothing. *)
Theorem first_unused_terminates regused reg n : (length regused <= n)%nat ->
  let r := first_unused n regused reg in
  reg <= r ∧ r ∉ regused ∧ ∀ x, reg <= x < r -> x ∈ regused.
Proof. intros Hn. rewrite first_unused_fuel by done. apply first_unused_found. Qed.

Theorem first_unused_terminates_witness :
  let r := first_unused 3 [2; 3; 5] 2 in 2 <= r ∧ r ∉ [2; 3; 5] ∧ ∀ x, 2 <= x < r -> x ∈ [2; 3; 5].
Proof. apply (first_unused_terminates [2; 3; 5] 2 3). cbn. lia. Defined.



(** With a pair the number can be that of a register the instruction uses:
    for X2_X3 (the pair number 1) beside X0, X0 becomes X3. *)
Theorem pair_renamed_into : ∃ w inst' o,
  @normalize_opcode sample_numbers (λ _ _, None) 3 sample_pair 9 (@fresh_opregs sample_numbers sample_pair) = Ret (w, inst', o) ∧
  regmaps o !! 0 = Some 3 ∧ Register.X0 + 3 ∈ arch_uses (Nth CXpair 1).
Proof.
  eexists _, _, _. split; [vm_compute; reflexivity|]. split; [reflexivity|]. apply list_elem_of_further, list_elem_of_here.
Qed.

(** The loop over the opcodes always ends; every opcode that disassembles
    and uses no reserved register is of a kind remill lifts or has its
    normalised word in the file, every word in the file comes from such an
    opcode, and no kind is both liftable and not. *)
Theorem opcode_generator_complete `{LlvmNumbers} disassemble canLift assemble ABS UDF : ∃ st,
  opcode_generator disassemble canLift assemble ABS UDF = Ret st ∧
  (∀ opcode, 0 <= opcode < 2 ^ 32 -> covered disassemble assemble ABS UDF st opcode) ∧
  sound disassemble canLift assemble ABS UDF (seqZ 0 (2 ^ 32)) st.
Proof.
  unfold opcode_generator.
  destruct (generate_spec disassemble canLift assemble ABS UDF (seqZ 0 (2 ^ 32)) (seqZ 0 (2 ^ 32))
    (mkGenerator [] [] [])) as (st & Hst & _ & Hc & Hs); [done|apply sound_empty|].
  exists st. split_and!; [done| |done]. intros opcode Ho. apply Hc, elem_of_seqZ. lia.
Qed.

(** Each whole word of the file with a [ret] behind it. *)
Theorem opcret_words_spec l ws : length l = (4 * ws)%nat ->
  length (opcret_words l) = (8 * ws)%nat ∧
  ∀ i, (i < ws)%nat -> take 8 (drop (8 * i) (opcret_words l)) = (take 4 (drop (4 * i) l) ++ insn_ret)%list.
Proof.
  revert l. induction ws as [|ws IH]; intros l Hl.
  - apply nil_length_inv in Hl as ->. split; [done|]. lia.
  - destruct l as [|a [|b [|c [|d l]]]]; cbn in Hl; try lia. destruct (IH l) as [H1 H2]; [lia|].
    split; [cbn [opcret_words app length insn_ret]; lia|]. intros [|i] Hi; [done|].
    replace (8 * S i)%nat with (8 + 8 * i)%nat by lia. replace (4 * S i)%nat with (4 + 4 * i)%nat by lia.
    apply (H2 i). lia.
Qed.
