(* ===== verification/MCInst.v ===== *)
(** src/OpcodeAArch64.cpp: the instructions on the guest's stack pointer that
    remill does not lift, interpreted from their LLVM form, and the caches of
    those forms. The guest's registers are the register file of CPUState.v,
    its stack is memory at the same address. LLVM's numbers are parameters. *)
From Stdlib Require Import ZArith Lia List.
From stdpp Require Import base list gmap.
From S2P Require Import Prelude Registers StateMem CPUState UtilsAArch64.
#[local] Open Scope Z_scope.

(** An [MCInst]: the opcode and the operands; an immediate is [OOther]. *)
Record mcinst := mkInst { mc_opcode : Z; mc_operands : list mc_operand }.

(** The numbers of the three instructions. *)
Class McOpcodes := {
  STPDpre : Z; STRDpre : Z; STPQi : Z;
  opcodes_differ : NoDup [STPDpre; STRDpre; STPQi]
}.

(** * Interpreting *)

Section Interp.
Context `{A64Layout} `{LlvmNumbers} `{McOpcodes}.

(** [inst.getOperand(i).getReg()] and [.getImm()]. *)
Definition operand_register (inst : mcinst) (i : nat) : exec Z :=
  match mc_operands inst !! i with Some (OReg r) => Ret r | _ => Undef end.
Definition operand_imm (inst : mcinst) (i : nat) : exec Z :=
  match mc_operands inst !! i with Some (OOther v) => Ret v | _ => Undef end.

(** The cpu's state and memory. *)
Abbreviation machine := (bytes * bytes)%type.

(** [CPU.getRegisterAArch64(reg)], which must not be null when it is used. *)
Definition cpu_ptr (reg : Z) (s : machine) : exec (Z * machine) :=
  let '(p, m) := getRegisterAArch64 reg s.1 in
  p ← of_option Undef p;
  Ret (p, (m, s.2)).
Definition cpu_get (reg : Z) (s : machine) : exec (Z * machine) :=
  '(p, s) ← cpu_ptr reg s; Ret (load 8 s.1 p, s).
Definition cpu_set (reg v : Z) (s : machine) : machine := ((setRegisterAArch64 reg v s.1).2, s.2).

(** [std::memcpy((void * )addr, ptr, n)] from the state to memory. *)
Definition copy_out (n : nat) (addr ptr : Z) (s : machine) : machine :=
  (s.1, store n s.2 addr (load n s.1 ptr)).

Definition interp_STPDpre (inst : mcinst) (s : machine) : exec machine :=
  r1 ← operand_register inst 1; r2 ← operand_register inst 2; i ← operand_imm inst 4;
  let idm := r1 - num (Nth (CVec VD 1) 0) in
  let idn := r2 - num (Nth (CVec VD 1) 0) in
  let imm := i * 8 in
  '(dm, s) ← cpu_ptr (Register.Q0 + idm) s;
  '(dn, s) ← cpu_ptr (Register.Q0 + idn) s;
  '(sp, s) ← cpu_get Register.SP s;
  let sp := wrap64 (sp + imm) in
  let s := copy_out 8 (wrap64 (sp + 0)) dm s in
  let s := copy_out 8 (wrap64 (sp + 8)) dn s in
  Ret (cpu_set Register.SP sp s).

Definition interp_STRDpre (inst : mcinst) (s : machine) : exec machine :=
  r1 ← operand_register inst 1; imm ← operand_imm inst 3;
  let idm := r1 - num (Nth (CVec VD 1) 0) in
  '(dm, s) ← cpu_ptr (Register.Q0 + idm) s;
  '(sp, s) ← cpu_get Register.SP s;
  let sp := wrap64 (sp + imm) in
  let s := copy_out 8 sp dm s in
  Ret (cpu_set Register.SP sp s).

Definition interp_STPQi (inst : mcinst) (s : machine) : exec machine :=
  r0 ← operand_register inst 0; r1 ← operand_register inst 1; i ← operand_imm inst 3;
  let iqm := r0 - num (Nth (CVec VQ 1) 0) in
  let iqn := r1 - num (Nth (CVec VQ 1) 0) in
  let imm := i * 16 in
  '(qm, s) ← cpu_ptr (Register.Q0 + iqm) s;
  '(qn, s) ← cpu_ptr (Register.Q0 + iqn) s;
  '(sp, s) ← cpu_get Register.SP s;
  let sp := wrap64 (sp + imm) in
  let s := copy_out 16 (wrap64 (sp + 0)) qm s in
  Ret (copy_out 16 (wrap64 (sp + 8)) qn s).

(** Any other instruction ends the process. *)
Definition interpMCInstARM64 (inst : mcinst) (s : machine) : exec machine :=
  s ← (if mc_opcode inst =? STPDpre then interp_STPDpre inst s
       else if mc_opcode inst =? STRDpre then interp_STRDpre inst s
       else if mc_opcode inst =? STPQi then interp_STPQi inst s
       else Abort);
  '(pc, s) ← cpu_get Register.PC s;
  Ret (cpu_set Register.PC (wrap64 (pc + 4)) s).
End Interp.

(** * The caches *)

(** [insts] and [instmap], shared by all handlers. *)
Record mc_cache := mkMcCache { insts : list mcinst; instmap : gmap Z nat }.

Section Caches.
Context `{LlvmNumbers}.

(** Whether the instruction names the stack pointer; then its place in
    [insts] becomes the handler's only argument. *)
Definition uses_sp (inst : mcinst) : bool :=
  existsb (fun o => match o with OReg r => r =? num SP | OOther _ => false end) (mc_operands inst).
Definition initMCInstARM64 (opcode : Z) (inst : mcinst) (c : mc_cache) : option nat * mc_cache :=
  if uses_sp inst then
    match instmap c !! opcode with
    | Some i => (Some i, c)
    | None => (Some (length (insts c)), mkMcCache (insts c ++ [inst]) (<[opcode := length (insts c)]> (instmap c)))
    end
  else (None, c).

(** [insts[args[0].index]]. *)
Definition cached_inst (c : mc_cache) (i : nat) : exec mcinst := of_option Undef (insts c !! i).
End Caches.

(** * Lemmas *)

Lemma aarch64_cases_nodup : NoDup aarch64_cases.*1.
Proof. apply (bool_decide_unpack _). by vm_compute. Qed.

Section Lemmas.
Context `{A64Layout} `{LlvmNumbers} `{McOpcodes}.

Lemma simd_case n : 0 <= n <= 31 -> switch (Register.Q0 + n) aarch64_cases = Some (simd_v n).
Proof.
  intros Hn. apply switch_elem; [apply aarch64_cases_nodup|]. unfold aarch64_cases, case_range.
  rewrite !elem_of_app, list_elem_of_fmap. right; left. exists n. split; [done|]. apply elem_of_seqZ. lia.
Qed.

Lemma cpu_ptr_case reg f s : switch reg aarch64_cases = Some f -> reg <> Register.NZCV ->
  cpu_ptr reg s = Ret (off f, s).
Proof.
  intros Hs Hne. unfold cpu_ptr, getRegisterAArch64, table_get. rewrite Hs, (proj2 (Z.eqb_neq _ _) Hne). by destruct s.
Qed.

Lemma cpu_get_case reg f s : switch reg aarch64_cases = Some f -> reg <> Register.NZCV ->
  cpu_get reg s = Ret (load 8 s.1 (off f), s).
Proof. intros Hs Hne. unfold cpu_get. by rewrite (cpu_ptr_case reg f). Qed.

Lemma cpu_set_case reg f v s : switch reg aarch64_cases = Some f -> reg <> Register.NZCV ->
  cpu_set reg v s = (store 8 s.1 (off f) v, s.2).
Proof.
  intros Hs Hne. unfold cpu_set, setRegisterAArch64, table_set, table_get.
  by rewrite Hs, (proj2 (Z.eqb_neq _ _) Hne).
Qed.

Lemma simd_ptr n s : 0 <= n <= 31 -> cpu_ptr (Register.Q0 + n) s = Ret (off (simd_v n), s).
Proof. intros Hn. apply cpu_ptr_case; [by apply simd_case|]. unfold Register.Q0. lia. Qed.
Lemma sp_get s : cpu_get Register.SP s = Ret (load 8 s.1 (off gpr_sp), s).
Proof. by apply cpu_get_case. Qed.
Lemma sp_set v s : cpu_set Register.SP v s = (store 8 s.1 (off gpr_sp) v, s.2).
Proof. by apply cpu_set_case. Qed.
Lemma pc_get s : cpu_get Register.PC s = Ret (load 8 s.1 (off gpr_pc), s).
Proof. by apply cpu_get_case. Qed.
Lemma pc_set v s : cpu_set Register.PC v s = (store 8 s.1 (off gpr_pc) v, s.2).
Proof. by apply cpu_set_case. Qed.

(** The number of a vector register of an operand. *)
Lemma vector_index v n : 0 <= n <= 31 -> num (Nth (CVec v 1) n) - num (Nth (CVec v 1) 0) = n.
Proof. intros Hn. rewrite (num_next _ n); [lia|]. destruct v; cbn; lia. Qed.

(** The 128-bit register's address and its low half are the same. *)
Abbreviation sp_of m := (load 8 m (off gpr_sp)).
Abbreviation pc_of m := (load 8 m (off gpr_pc)).
Abbreviation d_of m n := (load 8 m (off (simd_v n))).
Abbreviation q_of m n := (load 16 m (off (simd_v n))).

(** The state after an instruction: a new stack pointer, the next pc, the
    rest as it was. *)
Definition state_after (m m' : bytes) (sp : Z) : Prop :=
  sp_of m' = sp ∧ pc_of m' = wrap64 (pc_of m + 4) ∧
  ∀ f n, a64_ok f = true -> f <> gpr_sp -> f <> gpr_pc -> Z.of_nat n <= a64_size f ->
    load n m' (off f) = load n m (off f).

Lemma state_written m sp : u64 sp ->
  state_after m (store 8 (store 8 m (off gpr_sp) sp) (off gpr_pc) (wrap64 (pc_of m + 4))) sp.
Proof.
  intros Hsp. pose proof (off_disjoint gpr_sp gpr_pc eq_refl eq_refl ltac:(done)) as Hd. cbn [a64_size] in Hd.
  split_and!.
  - rewrite load_store_disjoint, load_store by lia. by apply Z.mod_small.
  - rewrite load_store. apply wrap_wrap.
  - intros f n Hf Hfs Hfp Hn. pose proof (off_disjoint f gpr_sp Hf eq_refl Hfs).
    pose proof (off_disjoint f gpr_pc Hf eq_refl Hfp). cbn [a64_size] in *.
    by rewrite !load_store_disjoint by lia.
Qed.

(** The pc read after the stack pointer is written is the old one. *)
Lemma pc_kept m v : pc_of (store 8 m (off gpr_sp) v) = pc_of m.
Proof.
  pose proof (off_disjoint gpr_pc gpr_sp eq_refl eq_refl ltac:(done)) as Hd. cbn [a64_size] in Hd.
  apply load_store_disjoint. lia.
Qed.

(** An instruction that moves the stack pointer to [sp] and stores there. *)
Lemma finish_push inst s mem sp :
  (if mc_opcode inst =? STPDpre then interp_STPDpre inst s
   else if mc_opcode inst =? STRDpre then interp_STRDpre inst s
   else if mc_opcode inst =? STPQi then interp_STPQi inst s else Abort) = Ret (store 8 s.1 (off gpr_sp) sp, mem) ->
  interpMCInstARM64 inst s = Ret (store 8 (store 8 s.1 (off gpr_sp) sp) (off gpr_pc) (wrap64 (pc_of s.1 + 4)), mem).
Proof.
  intros Hi. unfold interpMCInstARM64. rewrite Hi. cbn [mbind exec_bind]. rewrite pc_get. cbn [mbind exec_bind fst snd].
  by rewrite pc_set, pc_kept.
Qed.

Lemma stpd_interp s base base' i j k : 0 <= i <= 31 -> 0 <= j <= 31 ->
  let sp := wrap64 (sp_of s.1 + k * 8) in
  interp_STPDpre (mkInst STPDpre [base; OReg (num (Nth (CVec VD 1) i)); OReg (num (Nth (CVec VD 1) j)); base'; OOther k]) s =
  Ret (store 8 s.1 (off gpr_sp) sp,
       store 8 (store 8 s.2 (wrap64 (sp + 0)) (d_of s.1 i)) (wrap64 (sp + 8)) (d_of s.1 j)).
Proof.
  intros Hi Hj sp. unfold interp_STPDpre, operand_register, operand_imm. cbn [mc_operands lookup list_lookup mbind exec_bind].
  rewrite !vector_index by done. rewrite !simd_ptr by done. cbn [mbind exec_bind]. rewrite simd_ptr by done.
  cbn [mbind exec_bind]. rewrite sp_get. cbn [mbind exec_bind]. by rewrite sp_set.
Qed.

Lemma strd_interp s base base' i k : 0 <= i <= 31 ->
  let sp := wrap64 (sp_of s.1 + k) in
  interp_STRDpre (mkInst STRDpre [base; OReg (num (Nth (CVec VD 1) i)); base'; OOther k]) s =
  Ret (store 8 s.1 (off gpr_sp) sp, store 8 s.2 sp (d_of s.1 i)).
Proof.
  intros Hi sp. unfold interp_STRDpre, operand_register, operand_imm. cbn [mc_operands lookup list_lookup mbind exec_bind].
  rewrite !vector_index by done. rewrite simd_ptr by done. cbn [mbind exec_bind]. rewrite sp_get.
  cbn [mbind exec_bind]. by rewrite sp_set.
Qed.

Lemma stpq_interp s base i j k : 0 <= i <= 31 -> 0 <= j <= 31 ->
  let sp := wrap64 (sp_of s.1 + k * 16) in
  interp_STPQi (mkInst STPQi [OReg (num (Nth (CVec VQ 1) i)); OReg (num (Nth (CVec VQ 1) j)); base; OOther k]) s =
  Ret (s.1, store 16 (store 16 s.2 (wrap64 (sp + 0)) (q_of s.1 i)) (wrap64 (sp + 8)) (q_of s.1 j)).
Proof.
  intros Hi Hj sp. unfold interp_STPQi, operand_register, operand_imm. cbn [mc_operands lookup list_lookup mbind exec_bind].
  rewrite !vector_index by done. rewrite !simd_ptr by done. cbn [mbind exec_bind]. rewrite simd_ptr by done.
  cbn [mbind exec_bind]. rewrite sp_get. by destruct s.
Qed.
End Lemmas.

Section CacheLemmas.
Context `{LlvmNumbers}.
(** The disassembler. *)
Variable disassemble : Z -> mcinst.

Definition mc_cache_ok (c : mc_cache) : Prop := ∀ opcode i, instmap c !! opcode = Some i -> insts c !! i = Some (disassemble opcode).

Lemma init_ok opcode c : mc_cache_ok c ->
  let '(r, c') := initMCInstARM64 opcode (disassemble opcode) c in
  mc_cache_ok c' ∧ prefix (insts c) (insts c') ∧
  (∀ i, r = Some i -> cached_inst c' i = Ret (disassemble opcode)) ∧
  (is_Some r <-> uses_sp (disassemble opcode) = true).
Proof.
  intros Hok. unfold initMCInstARM64, cached_inst. destruct (uses_sp _) eqn:Hu.
  2: { split_and!; [done|reflexivity|done|split; [by intros [? ?]|done]]. }
  destruct (instmap c !! opcode) as [i|] eqn:Hi.
  - split_and!; [done|reflexivity| |split; [done|by eexists]]. intros k [= <-]. by rewrite (Hok _ _ Hi).
  - cbn [insts instmap]. split_and!; [|by eexists| |split; [done|by eexists]].
    + intros o k Hk. cbn [insts instmap] in *. apply lookup_insert_Some in Hk as [[<- <-]|[_ Hk]].
      * by rewrite lookup_app_r, Nat.sub_diag by lia.
      * apply lookup_app_l_Some. by apply Hok.
    + intros k [= <-]. by rewrite lookup_app_r, Nat.sub_diag by lia.
Qed.

(** The handlers of a list of opcodes, in order. *)
Fixpoint init_all (opcodes : list Z) (c : mc_cache) : list (Z * option nat) * mc_cache :=
  match opcodes with
  | [] => ([], c)
  | o :: os =>
      let '(r, c) := initMCInstARM64 o (disassemble o) c in
      let '(rs, c) := init_all os c in ((o, r) :: rs, c)
  end.

Lemma init_all_ok os : ∀ c, mc_cache_ok c ->
  let '(rs, c') := init_all os c in
  mc_cache_ok c' ∧ prefix (insts c) (insts c') ∧
  ∀ o r, (o, r) ∈ rs -> (∀ i, r = Some i -> cached_inst c' i = Ret (disassemble o)) ∧
                       (is_Some r <-> uses_sp (disassemble o) = true).
Proof.
  induction os as [|o os IH]; intros c Hok; cbn [init_all].
  { split_and!; [done|reflexivity|]. intros o r Hr. by apply elem_of_nil in Hr. }
  pose proof (init_ok o c Hok) as Hi. destruct (initMCInstARM64 o (disassemble o) c) as [r c1].
  destruct Hi as (Hok1 & Hp1 & Hr & Hu). pose proof (IH c1 Hok1) as Ha. destruct (init_all os c1) as [rs c2].
  destruct Ha as (Hok2 & Hp2 & Hrs). split_and!; [done|by transitivity (insts c1)|].
  intros o' r' [[= -> ->]|Hin]%elem_of_cons; [|by apply Hrs]. split; [|done].
  intros i ->. specialize (Hr i eq_refl). unfold cached_inst in *.
  destruct (insts c1 !! i) as [x|] eqn:Hx; [|done]. by rewrite (prefix_lookup_Some _ _ _ _ Hx Hp2).
Qed.
End CacheLemmas.

(** * Properties *)

(** The two pushes of vector registers do what the architecture says, as
    long as the slot does not wrap around: [stp dm, dn, [sp, #imm]!] and
    [str dm, [sp, #imm]!] move the stack pointer by the scaled or plain offset,
    store the low halves there and nothing else, and go on at the next
    instruction with all other registers as they were. *)
Theorem mcinst_pushes `{A64Layout} `{LlvmNumbers} `{McOpcodes} (s : bytes * bytes) base base' i j k :
  0 <= i <= 31 -> 0 <= j <= 31 ->
  let d n := OReg (num (Nth (CVec VD 1) n)) in
  let v n := load 8 s.1 (off (simd_v n)) in
  (let sp := wrap64 (load 8 s.1 (off gpr_sp) + k * 8) in sp + 16 <= 2 ^ 64 ->
   ∃ m mem, interpMCInstARM64 (mkInst STPDpre [base; d i; d j; base'; OOther k]) s = Ret (m, mem) ∧
     state_after s.1 m sp ∧ load 8 mem sp = v i mod 2 ^ 64 ∧ load 8 mem (sp + 8) = v j mod 2 ^ 64 ∧
     ∀ a, a < sp \/ sp + 16 <= a -> get8 mem a = get8 s.2 a) ∧
  (let sp := wrap64 (load 8 s.1 (off gpr_sp) + k) in sp + 8 <= 2 ^ 64 ->
   ∃ m mem, interpMCInstARM64 (mkInst STRDpre [base; d i; base'; OOther k]) s = Ret (m, mem) ∧
     state_after s.1 m sp ∧ load 8 mem sp = v i mod 2 ^ 64 ∧ ∀ a, a < sp \/ sp + 8 <= a -> get8 mem a = get8 s.2 a).
Proof.
  intros Hi Hj d v. pose proof opcodes_differ as Hd. rewrite !NoDup_cons, !not_elem_of_cons in Hd.
  destruct Hd as ((Hd1 & Hd2 & _) & (Hd3 & _) & _).
  split; intros sp Hsp; assert (u64 sp) as Hu by (by apply wrap_fits).
  - eexists _, _. split; [apply finish_push; cbn [mc_opcode]; rewrite Z.eqb_refl; by apply stpd_interp|].
    fold sp. destruct Hu as [Hu0 Hu1].
    rewrite (wrap_small 64 (sp + 0)), (wrap_small 64 (sp + 8)) by (unfold fits; lia). rewrite Z.add_0_r.
    split_and!; [by apply state_written|rewrite load_store_disjoint by lia; apply load_store|apply load_store|].
    intros a Ha. unfold store. rewrite !get8_store_bytes, !le_bytes_length.
    by rewrite !decide_False by lia.
  - eexists _, _. split; [apply finish_push; cbn [mc_opcode]; rewrite (proj2 (Z.eqb_neq _ _)), Z.eqb_refl by congruence; by apply strd_interp|].
    fold sp. split_and!; [by apply state_written|apply load_store|].
    intros a Ha. unfold store. rewrite get8_store_bytes, le_bytes_length. by rewrite decide_False by lia.
Qed.

Definition sample_opcodes : McOpcodes.
Proof. refine {| STPDpre := 7577; STRDpre := 7601; STPQi := 7578 |}. apply (bool_decide_unpack _). by vm_compute. Defined.

(** A stack pointer of 0x2000 in the sample's layout. *)
Definition sample_mc : bytes * bytes := (store 8 ∅ (@off _ _ _ (@a64_state a64_sample) gpr_sp) 0x2000, ∅).

Theorem mcinst_pushes_witness : ∃ m mem,
  @interpMCInstARM64 a64_sample sample_numbers sample_opcodes
    (mkInst 7577 [OOther 0; OReg (@num sample_numbers (Nth (CVec VD 1) 9)); OReg (@num sample_numbers (Nth (CVec VD 1) 8)); OOther 0; OOther (-14)])
    sample_mc = Ret (m, mem) ∧ @state_after a64_sample sample_mc.1 m 0x1f90.
Proof.
  destruct (@mcinst_pushes a64_sample sample_numbers sample_opcodes sample_mc (OOther 0) (OOther 0) 9 8 (-14)) as [H _]; [lia|lia|].
  assert (wrap64 (load 8 sample_mc.1 (@off _ _ _ (@a64_state a64_sample) gpr_sp) + -14 * 8) = 0x1f90) as Hsp.
  { unfold sample_mc. cbn [fst]. by rewrite load_store. }
  rewrite Hsp in H. destruct H as (m & mem & H1 & H2 & _); [lia|]. exists m, mem. split; [exact H1|exact H2].
Defined.

(** C39: [stp qm, qn, [sp, #imm]] stores its second register eight bytes
    behind the first instead of sixteen: it overwrites the first one's upper
    half, and the memory where it belongs keeps its old upper half. *)
Theorem stp_q_overlaps `{A64Layout} `{LlvmNumbers} `{McOpcodes} (s : bytes * bytes) base i j k :
  0 <= i <= 31 -> 0 <= j <= 31 ->
  let q n := OReg (num (Nth (CVec VQ 1) n)) in
  let v n := load 16 s.1 (off (simd_v n)) in
  let sp := wrap64 (load 8 s.1 (off gpr_sp) + k * 16) in
  sp + 32 <= 2 ^ 64 ->
  ∃ m mem, interpMCInstARM64 (mkInst STPQi [q i; q j; base; OOther k]) s = Ret (m, mem) ∧
    load 16 mem (sp + 8) = v j mod 2 ^ 128 ∧ ∀ a, sp + 24 <= a -> get8 mem a = get8 s.2 a.
Proof.
  intros Hi Hj q v sp Hsp. pose proof opcodes_differ as Hd. rewrite !NoDup_cons, !not_elem_of_cons in Hd.
  destruct Hd as ((Hd1 & Hd2 & _) & (Hd3 & _) & _).
  assert (0 <= sp) as Hu by (apply Z.mod_pos_bound; lia).
  eexists _, _. split.
  - unfold interpMCInstARM64. cbn [mc_opcode]. rewrite !(proj2 (Z.eqb_neq STPQi _)), Z.eqb_refl by congruence.
    unfold q. rewrite stpq_interp by done. cbn [mbind exec_bind]. rewrite pc_get. cbn [mbind exec_bind]. by rewrite pc_set.
  - cbn [snd]. fold sp. rewrite (wrap_small 64 (sp + 0)), (wrap_small 64 (sp + 8)) by (unfold fits; lia). split; [apply (load_store 16)|].
    intros a Ha. unfold store. rewrite !get8_store_bytes, !le_bytes_length. by rewrite !decide_False by lia.
Qed.

Theorem stp_q_overlaps_witness : ∃ m mem,
  @interpMCInstARM64 a64_sample sample_numbers sample_opcodes
    (mkInst 7578 [OReg (@num sample_numbers (Nth (CVec VQ 1) 0)); OReg (@num sample_numbers (Nth (CVec VQ 1) 1)); OOther 0; OOther 12])
    sample_mc = Ret (m, mem) ∧ load 16 mem 0x20c8 = load 16 sample_mc.1 (@off _ _ _ (@a64_state a64_sample) (simd_v 1)) mod 2 ^ 128.
Proof.
  pose proof (@stp_q_overlaps a64_sample sample_numbers sample_opcodes sample_mc (OOther 0) 0 1 12) as H.
  cbv zeta in H. assert (wrap64 (load 8 sample_mc.1 (@off _ _ _ (@a64_state a64_sample) gpr_sp) + 12 * 16) = 0x20c0) as Hsp.
  { unfold sample_mc. cbn [fst]. by rewrite load_store. }
  rewrite Hsp in H. destruct H as (m & mem & H1 & H2 & _); [lia|lia|lia|]. exists m, mem. split; [exact H1|exact H2].
Defined.

(** Whatever opcodes are initialised in whatever order, with repetitions,
    an opcode gets an index exactly when its instruction names the stack
    pointer, and every index handed out still stands for its own instruction
    in the end. *)
Theorem mcinst_cache_resolves `{LlvmNumbers} disassemble opcodes :
  let '(rs, c) := init_all disassemble opcodes (mkMcCache [] ∅) in
  ∀ o r, (o, r) ∈ rs -> (∀ i, r = Some i -> cached_inst c i = Ret (disassemble o)) ∧
                       (is_Some r <-> uses_sp (disassemble o) = true).
Proof.
  pose proof (init_all_ok disassemble opcodes (mkMcCache [] ∅) ltac:(intros o i Hi; cbn in Hi; by rewrite lookup_empty in Hi)) as Hall.
  destruct (init_all _ _ _) as [rs c]. by destruct Hall as (_ & _ & Hr).
Qed.
