(* ===== verification/Emit.v ===== *)
(** What the generators of native handlers share: the text of numbers and raw
    opcodes ([std::format] and [emit_opcode] of src/Lifter.cpp), and register
    files as functions from register numbers to values. *)
From Stdlib Require Import ZArith Lia List String Ascii.
From stdpp Require Import base list gmap pretty strings.
From S2P Require Import Prelude.
#[local] Open Scope string_scope.
#[local] Open Scope Z_scope.

(** * Text *)

(** [std::format("{:#x}", n)]. *)
Definition hex_digit (d : Z) : string :=
  String (ascii_of_nat (Z.to_nat (if d <? 10 then 48 + d else 87 + d))) "".
Fixpoint hex_digits (fuel : nat) (n : Z) (acc : string) : string :=
  match fuel with
  | O => acc
  | S fuel' =>
      let acc := (hex_digit (n mod 16) ++ acc)%string in
      if n / 16 =? 0 then acc else hex_digits fuel' (n / 16) acc
  end.
Definition hex (n : Z) : string := ("0x" ++ hex_digits 16 n "")%string.
Definition dec (n : Z) : string := pretty n.

Definition nl : string := String (ascii_of_nat 10) "".
Definition emit_opcode (opcode : list Z) : string :=
  String.concat "" ((fun b => ".byte " ++ hex b ++ nl)%string <$> opcode).

(** * Characters of a text *)

Fixpoint all_chars (P : ascii -> bool) (s : string) : bool :=
  match s with
  | EmptyString => true
  | String c s' => P c && all_chars P s'
  end.

Lemma all_chars_app P s s' : all_chars P (s ++ s') = all_chars P s && all_chars P s'.
Proof.
  induction s as [|c s IH]; [done|]. change (String c s ++ s')%string with (String c (s ++ s')).
  cbn [all_chars]. by rewrite IH, andb_assoc.
Qed.

Lemma all_chars_impl (P Q : ascii -> bool) s : (∀ c, P c = true -> Q c = true) -> all_chars P s = true -> all_chars Q s = true.
Proof.
  intros HPQ. induction s as [|c s IH]; [done|]. cbn [all_chars]. rewrite !andb_true_iff. intros [? ?]. auto.
Qed.

Lemma pretty_go_chars P x : all_chars P "0123456789" = true -> ∀ s, all_chars P s = true -> all_chars P (pretty_N_go x s) = true.
Proof.
  intros HP. induction (N.lt_wf_0 x) as [x _ IH]. intros s Hs.
  destruct (decide (x = 0%N)) as [->|Hx]; [done|].
  rewrite pretty_N_go_step by lia. apply IH; [apply N.div_lt; lia|]. cbn [all_chars]. rewrite Hs, andb_true_r.
  cbn in HP. rewrite !andb_true_iff in HP. destruct_and!. unfold pretty_N_char. by repeat case_match.
Qed.

(** A number in decimal is made of digits, and a sign. *)
Lemma dec_chars P n : all_chars P "-0123456789" = true -> all_chars P (dec n) = true.
Proof.
  change "-0123456789"%string with ("-" ++ "0123456789")%string. rewrite all_chars_app, andb_true_iff. intros [Hm HP].
  assert (∀ x, all_chars P (pretty (x : N)) = true) as Hn.
  { intros x. unfold pretty, pretty_N. case_decide; [|by apply pretty_go_chars].
    cbn in HP |- *. rewrite andb_true_r. by apply andb_true_iff in HP as [? _]. }
  assert (∀ p, all_chars P (pretty (p : positive)) = true) as Hp by (intros p; exact (Hn (N.pos p))).
  unfold dec, pretty, pretty_Z. destruct n; [exact (Hn 0%N)|apply Hp|].
  rewrite all_chars_app, Hm. apply Hp.
Qed.

(** * Register files *)

Definition upd (f : Z -> Z) (n v : Z) : Z -> Z := fun k => if k =? n then v else f k.
Lemma upd_same f n v : upd f n v n = v.
Proof. unfold upd. by rewrite Z.eqb_refl. Qed.
Lemma upd_other f n v k : k <> n -> upd f n v k = f k.
Proof. intros Hk. unfold upd. by rewrite (proj2 (Z.eqb_neq k n)). Qed.


(** Forgets how a register file was updated. *)
Lemma upd_abstract (P : (Z -> Z) -> Prop) f n v :
  (∀ g, g n = v -> (∀ k, k <> n -> g k = f k) -> P g) -> P (upd f n v).
Proof. intros HP. apply HP; [apply upd_same|]. intros k. apply upd_other. Qed.

(** * Generating without failure, and reading unchanged memory *)

Lemma mapE_Ret {A B} (f : A -> exec B) (g : A -> B) l : (∀ x, f x = Ret (g x)) -> mapE f l = Ret (g <$> l).
Proof. intros Hf. induction l as [|x l IH]; [done|]. cbn [mapE]. by rewrite Hf, IH. Qed.

Lemma load_ext m m' n a : (∀ x, a <= x < a + Z.of_nat n -> get8 m x = get8 m' x) -> load n m a = load n m' a.
Proof. intros Hx. unfold load. f_equal. by apply load_bytes_ext. Qed.
