(* ===== verification/Dump.v ===== *)
(** [PreEncoder::dump] of src/PreEncoder.cpp: a metadata file read back for
    display. What is printed is a document of values, line by line; the layout
    of the text is left out. Disassembling is a parameter. The file is the list
    of its bytes. *)
From Stdlib Require Import ZArith Lia List String.
From stdpp Require Import base list gmap strings sorting.
From S2P Require Import Prelude Utils Regoffs Operands IMetaData MetaOperands Convert OpcodeCache Handler PreEncoder UtilsAArch64 Emit.
#[local] Open Scope string_scope.
#[local] Open Scope Z_scope.

(** * Names *)

Definition flag_names : list (Z * string) := [(kFlag_HasWX, "HasWX"); (kFlag_ARM64, "ARM64"); (kFlag_X64, "X64")].
Definition add_name (result name : string) : string :=
  String.append result (String.append (if String.eqb result "" then "" else " | ") name).
Definition flagsString (flags : Z) : string :=
  let '(flags, result) := fold_left (fun st p =>
    let '(flags, result) := st in
    if Z.land flags p.1 =? 0 then st else (Z.ldiff flags p.1, add_name result p.2)) flag_names (flags, "") in
  let result := if flags =? 0 then result
                else add_name result (String.append "unknown(0x" (String.append (hex_digits 8 flags "") ")")) in
  if String.eqb result "" then "none" else result.

Definition operandTypeName `{Codes} (type : Z) : string :=
  default "unknown" (switch type
    [(kTypeInvalid, "invalid"); (kTypeRegister, "register"); (kTypeShiftRegister, "shift-register");
     (kTypeImmediate, "immediate"); (kTypeAddress, "address"); (kTypeExpression, "expression");
     (kTypeRegisterExpression, "register-expression"); (kTypeImmediateExpression, "immediate-expression");
     (kTypeAddressExpression, "address-expression")]).

Definition handlerTypeName (type : Z) : string :=
  default "unknown" (switch type
    [(OHT_Remill, "Remill"); (OHT_MCInst, "MCInst"); (OHT_Dynamic, "Dynamic"); (OHT_Prebuilt, "Prebuilt");
     (OHT_PrebuiltMapped, "PrebuiltMapped")]).

Definition expressionKindName (kind : Z) : string :=
  default "unknown" (switch kind
    [(kInvalid, "invalid"); (kOperation, "operation"); (kRegister, "register"); (kConstant, "constant")]).

(** * The document *)

Record handler_dump := mkHDump {
  hd_offset : Z; hd_record : MHandler; hd_opcode : list Z; hd_asm : option string;
  (* of a semantic function *) hd_operands : list OperandInfo;
  (* stored code, by offset; the bytes left where it cannot be disassembled *)
  hd_code : option (list (Z * (string + list Z)))
}.
(** How the walk over the handlers ended. *)
Inductive walk_end := WalkDone | TruncatedRecord (i : Z) | InvalidRecord (i : Z) | TruncatedImpl (i : Z).

Record document := mkDoc {
  d_header : IMetaData; d_flags : string;
  d_insns : list (Z * option Z);
  d_operands : list (string * Operand); d_expressions : list (string * Expression);
  d_handlers : list handler_dump; d_end : walk_end;
  (* the offsets instructions refer to where no handler was found; not
     reported when the walk stopped early *)
  d_mismatches : list Z
}.
Inductive complaint := BadMagic | BadVersion | BadSize | BadSections.
Inductive dumped :=
| Unreadable | TooSmall | TooLarge
| Undecoded (h : IMetaData) (why : complaint) (lines : list (Z * list Z))
| Document (d : document).

Section Dump.
Context `{Codes}.
(** The length of the first instruction of some bytes, 0 for none, and its text. *)
Variable disassemble : bool -> list Z -> Z * string.

Definition disasOpcode (arm64 : bool) (opcode : list Z) : Z * string :=
  let '(oplen, result) := disassemble arm64 opcode in
  (oplen, match result with String c s => if Ascii.eqb c (Ascii.ascii_of_nat 9) then s else result | EmptyString => result end).

Section File.
Variable data : list Z.
Let f : bytes := store_bytes ∅ 0 data.
Let size : Z := Z.of_nat (List.length data).

Fixpoint printBytes (fuel : nat) (offset length i : Z) : list (Z * list Z) :=
  match fuel with
  | O => []
  | S fuel' =>
      if i <? length
      then (offset + i, load_bytes f (offset + i) (Z.to_nat (Z.min 16 (length - i)))) :: printBytes fuel' offset length (i + 16)
      else []
  end.

(** The stored code, up to what is not an instruction. *)
Fixpoint print_code (fuel : nat) (arm64 : bool) (code n pos : Z) : list (Z * (string + list Z)) :=
  match fuel with
  | O => []
  | S fuel' =>
      if pos <? n then
        let '(len, text) := disasOpcode arm64 (load_bytes f (code + pos) (Z.to_nat (Z.min 16 (n - pos)))) in
        if len =? 0 then [(pos, inr (load_bytes f (code + pos) (Z.to_nat (n - pos))))]
        else (pos, inl text) :: print_code fuel' arm64 code n (wrap32 (pos + len))
      else []
  end.

Definition recordSize (h : MHandler) : Z :=
  4 + h_oplen h + (if h_type h =? OHT_Remill then h_oprnum h * 2 else 0).

(** The records from number [i] on: what is printed, the offsets computed, how
    it ended. *)
Fixpoint dump_handlers (n : nat) (metadata : IMetaData) (i handler_offset : Z)
    : list handler_dump * list Z * walk_end :=
  match n with
  | O => ([], [], WalkDone)
  | S n' =>
      if (handler_offset >? size) || (4 >? size - handler_offset) then ([], [], TruncatedRecord i)
      else
        let handler := read_handler f handler_offset in
        let record_size := recordSize handler in
        if (h_type handler >? OHT_PrebuiltMapped) || (record_size >? size - handler_offset) then ([], [], InvalidRecord i)
        else
          let computed := wrap32 (handler_offset - off_handlers metadata) in
          let arm64 := negb (Z.land (flags metadata) kFlag_ARM64 =? 0) in
          let aotimpl := negb (Z.land (flags metadata) kFlag_HasWX =? 0) in
          let opcode := load_bytes f (handler_offset + 4) (Z.to_nat (h_oplen handler)) in
          let '(len, text) := disasOpcode arm64 opcode in
          let operands :=
            if h_type handler =? OHT_Remill
            then (fun j => read_operand_info f (handler_offset + 4 + h_oplen handler + 2 * j)) <$> seqZ 0 (h_oprnum handler)
            else [] in
          let line := mkHDump (handler_offset - off_handlers metadata) handler opcode (if len =? 0 then None else Some text) operands in
          if negb aotimpl then
            let '(lines, offs, e) := dump_handlers n' metadata (i + 1) (handler_offset + record_size) in
            (line None :: lines, computed :: offs, e)
          else if h_type handler =? OHT_Dynamic then
            let code_offset := align4 record_size in
            let record_size := code_offset + h_impl handler in
            if record_size >? size - handler_offset then ([line None], [computed], TruncatedImpl i)
            else
              let code := print_code (S (Z.to_nat (h_impl handler))) arm64 (handler_offset + code_offset) (h_impl handler) 0 in
              let '(lines, offs, e) := dump_handlers n' metadata (i + 1) (handler_offset + align4 record_size) in
              (line (Some code) :: lines, computed :: offs, e)
          else
            let '(lines, offs, e) := dump_handlers n' metadata (i + 1) (handler_offset + align4 record_size) in
            (line None :: lines, computed :: offs, e)
  end.

Definition sections_valid (m : IMetaData) : bool :=
  (off_instruction m =? 48) && (off_instruction m + num_instruction m * 8 =? off_operands m) &&
  (off_operands m + num_operands m * 48 =? off_expressions m) &&
  (off_expressions m + num_expressions m * 12 =? off_handlers m) && (off_handlers m <=? size).

Definition dump_insn (i : InsnMeta) : Z * option Z := (rva i, if handler i =? UINT32_MAX then None else Some (handler i)).

(** [referenced_offsets], a set, in its order. *)
Definition referenced_offsets (insns : list InsnMeta) : list Z :=
  merge_sort Z.le (elements (list_to_set (omap (fun i => (dump_insn i).2) insns) : gset Z)).

Definition dump_decoded (m : IMetaData) : document :=
  let insns := (fun i => read_insn f (off_instruction m + i * 8)) <$> seqZ 0 (num_instruction m) in
  let operands := (fun i => Meta.read_operand f (off_operands m + i * 48)) <$> seqZ 0 (num_operands m) in
  let expressions := (fun i => read_expression f (off_expressions m + i * 12)) <$> seqZ 0 (num_expressions m) in
  let '(lines, computed_offsets, e) := dump_handlers (Z.to_nat (num_handlers m)) m 0 (off_handlers m) in
  mkDoc m (flagsString (flags m)) (dump_insn <$> insns)
    ((fun o => (operandTypeName (mo_type o), o)) <$> operands)
    ((fun x => (expressionKindName (ex_kind x), x)) <$> expressions) lines e
    (match e with WalkDone => filter (fun o => o ∉ computed_offsets) (referenced_offsets insns) | _ => [] end).

Definition dump_file : dumped :=
  let metadata := read_header f in
  let whole := printBytes (List.length data) 0 size 0 in
  if size <? 48 then TooSmall
  else if size >? UINT32_MAX then TooLarge
  else if negb (magic metadata =? kMagic) then Undecoded metadata BadMagic whole
  else if negb (version metadata =? kVersion) then Undecoded metadata BadVersion whole
  else if negb (md_size metadata =? size) then Undecoded metadata BadSize whole
  else if negb (sections_valid metadata) then Undecoded metadata BadSections whole
  else Document (dump_decoded metadata).
End File.

(** The bytes of the file, when it can be opened and read. *)
Definition dump (input : option (list Z)) : dumped :=
  match input with None => Unreadable | Some data => dump_file data end.
End Dump.

(** * Lemmas *)

(** A piece of code as it is to be shown, from position [pos] on: the text of
    each instruction, then the bytes from the first that is none. *)
Fixpoint listing (disassemble : bool -> list Z -> Z * string) (fuel : nat) (arm64 : bool) (code : list Z) (pos : Z)
    : list (Z * (string + list Z)) :=
  match fuel with
  | O => []
  | S fuel' =>
      if pos <? Z.of_nat (List.length code) then
        let '(len, text) := disasOpcode disassemble arm64 (take 16 (drop (Z.to_nat pos) code)) in
        if len =? 0 then [(pos, inr (drop (Z.to_nat pos) code))]
        else (pos, inl text) :: listing disassemble fuel' arm64 code (wrap32 (pos + len))
      else []
  end.

Lemma load_bytes_part m a n pos k : (pos + k <= n)%nat ->
  load_bytes m (a + Z.of_nat pos) k = take k (drop pos (load_bytes m a n)).
Proof.
  intros Hle. apply list_eq. intros i. destruct (decide (i < k)%nat).
  - rewrite load_bytes_lookup, lookup_take, lookup_drop, load_bytes_lookup by lia.
    rewrite decide_True by done. do 2 f_equal. lia.
  - rewrite lookup_ge_None_2 by (rewrite load_bytes_length; lia). rewrite lookup_take. by rewrite decide_False.
Qed.

Lemma print_code_listing disassemble data arm64 code n : 0 <= n -> ∀ fuel pos, 0 <= pos ->
  print_code disassemble data fuel arm64 code n pos =
  listing disassemble fuel arm64 (load_bytes (store_bytes ∅ 0 data) code (Z.to_nat n)) pos.
Proof.
  intros Hn. induction fuel as [|fuel IH]; intros pos Hp; [done|]. cbn [print_code listing].
  rewrite load_bytes_length, Z2Nat.id by done. destruct (Z.ltb_spec pos n); [|done].
  assert (load_bytes (store_bytes ∅ 0 data) (code + pos) (Z.to_nat (Z.min 16 (n - pos))) =
    take 16 (drop (Z.to_nat pos) (load_bytes (store_bytes ∅ 0 data) code (Z.to_nat n)))) as ->.
  { rewrite <- (Z2Nat.id pos) at 1 by done. rewrite (load_bytes_part _ _ (Z.to_nat n)) by lia.
    destruct (Z.le_gt_cases (n - pos) 16).
    - rewrite !take_ge; [done|rewrite length_drop, load_bytes_length; lia..].
    - f_equal. lia. }
  assert (load_bytes (store_bytes ∅ 0 data) (code + pos) (Z.to_nat (n - pos)) =
    drop (Z.to_nat pos) (load_bytes (store_bytes ∅ 0 data) code (Z.to_nat n))) as ->.
  { rewrite <- (Z2Nat.id pos) at 1 by done. rewrite (load_bytes_part _ _ (Z.to_nat n)) by lia.
    apply take_ge. rewrite length_drop, load_bytes_length. lia. }
  destruct (disasOpcode _ _ _) as [len text]. destruct (len =? 0); [done|]. f_equal. apply IH. by apply (wrap_fits 32).
Qed.

Lemma fmap_seqZ_list {A} (g : Z -> A) (l : list A) n : n = Z.of_nat (List.length l) ->
  (∀ (k : nat) x, l !! k = Some x -> g (Z.of_nat k) = x) -> g <$> seqZ 0 n = l.
Proof.
  intros -> Hg. apply list_eq. intros k. rewrite list_lookup_fmap.
  destruct (l !! k) as [x|] eqn:Hk.
  - pose proof (lookup_lt_Some _ _ _ Hk). rewrite lookup_seqZ_lt by lia. cbn [fmap option_fmap option_map].
    rewrite Z.add_0_l. by rewrite (Hg k x Hk).
  - apply lookup_ge_None in Hk. by rewrite lookup_seqZ_ge by lia.
Qed.

Section Records.
Context `{Codes}.
Variable disassemble : bool -> list Z -> Z * string.
Variable host : bytes.
Variable implementations : list Handler.
Variables haswx arm64 : bool.

Definition body_size (h : OpcodeHandler) : Z := 4 + oh_oplen h + 2 * Z.of_nat (List.length (record_args h)).
Definition record_len (h : OpcodeHandler) : Z :=
  if haswx && arm64 then align4 (align4 (body_size h) + (if oh_type h =? OHT_Dynamic then oh_implsize h else 0))
  else body_size h.

Lemma record_body_length i h : 0 <= oh_oplen h -> Z.of_nat (List.length (record_body i h)) = body_size h.
Proof.
  intros Ho. unfold record_body, body_size. rewrite !length_app, enc_length, le_bytes_length.
  rewrite (join_length _ _ 2) by (intros; apply le_bytes_length). cbn [width MHandler_fields fmap list_fmap fst]. unfold width. cbn. lia.
Qed.

Lemma convert_length w h dyn rec dyn' : handler_wf h ->
  convert host implementations haswx arm64 w h dyn = Some (rec, dyn') -> Z.of_nat (List.length rec) = record_len h.
Proof.
  intros (Ho & Hsz & _). unfold convert, record_len. fold (record_args h).
  destruct (_ || _); [done|]. intros Hc. apply bind_Some in Hc as ([i d] & _ & Hc).
  destruct (existsb _ _); [done|]. fold (record_head i h) in Hc. fold (record_body i h) in Hc.
  pose proof (record_body_length i h Ho) as Hb.
  destruct (haswx && arm64); simplify_eq; [|done]. rewrite <- Hb. set (b := record_body i h).
  pose proof (align4_spec (Z.of_nat (List.length b))) as [Ha _]. set (off := align4 (Z.of_nat (List.length b))) in *.
  set (cs := if oh_type h =? OHT_Dynamic then oh_implsize h else 0) in *.
  assert (0 <= cs) by (unfold cs; destruct (_ =? _); [apply Hsz|lia]).
  pose proof (align4_spec (off + cs)) as [Hr _].
  rewrite !length_app, !length_replicate, load_bytes_length. lia.
Qed.

(** Only records of semantic functions have operands. *)
Lemma convert_no_operands w h dyn rec dyn' m l1 l3 : handler_wf h -> 0 <= dyn ->
  convert host implementations haswx arm64 w h dyn = Some (rec, dyn') -> oh_type h <> OHT_Remill ->
  h_oprnum (read_handler (store_bytes m 0 (l1 ++ rec ++ l3)%list) (Z.of_nat (List.length l1))) = 0.
Proof.
  intros Hwf Hd Hc Hne. destruct (convert_inv _ _ _ _ _ _ _ _ _ Hwf Hd Hc) as (Ho & _ & _ & _ & i & Hi & p1 & p2 & -> & _).
  destruct (impl_of_spec _ _ _ _ _ _ _ Hwf Hd Hi) as (Hi16 & _ & Ht & _).
  assert (record_args h = []) as Ha by (unfold record_args; by rewrite (proj2 (Z.eqb_neq _ _))).
  unfold record_body. rewrite <- !app_assoc. rewrite (read_handler_placed m 0); [cbn [h_oprnum record_head]; by rewrite Ha|].
  assert (wrap8 (oh_type h) = oh_type h) as Hty by (apply wrap_small, (fits_mono 4); [lia|done]).
  unfold MHandler_ok, record_head. cbn. rewrite Hty, Ha. unfold fits in *. cbn. change (wrap8 (Z.of_nat 0)) with 0. lia.
Qed.

(** What the walk needs to know of a record. *)
Record record_ok (h : OpcodeHandler) (rec : list Z) : Prop := {
  ro_oprnum m l1 l3 : oh_type h <> OHT_Remill ->
    h_oprnum (read_handler (store_bytes m 0 (l1 ++ rec ++ l3)%list) (Z.of_nat (List.length l1))) = 0;
  ro_stored m l1 l3 : PreEncoder.stored host implementations haswx arm64 (store_bytes m 0 (l1 ++ rec ++ l3)%list) (Z.of_nat (List.length l1)) h;
  ro_length : Z.of_nat (List.length rec) = record_len h;
  ro_oplen : 0 <= oh_oplen h;
  ro_type : oh_type h <= OHT_PrebuiltMapped;
  ro_size : 0 <= oh_implsize h
}.

(** What is printed of a handler: its type, opcode bytes and operands, and the
    listing of the host's code of a dynamic one, a step of fuel per byte. *)
Definition describes (h : OpcodeHandler) (l : handler_dump) : Prop :=
  h_type (hd_record l) = oh_type h ∧ hd_opcode l = le_bytes (Z.to_nat (oh_oplen h)) (oh_opcode h) ∧
  hd_operands l = (if oh_type h =? OHT_Remill then (fun arg => mkOpInfo (fst arg) (b2z (snd arg))) <$> oh_args h else []) ∧
  hd_code l =
    (if haswx && (oh_type h =? OHT_Dynamic)
     then Some (listing disassemble (S (Z.to_nat (oh_implsize h))) arm64
                  (load_bytes host (oh_impl h) (Z.to_nat (oh_implsize h))) 0)
     else None).

Lemma stored_size f a h : PreEncoder.stored host implementations haswx arm64 f a h -> recordSize (read_handler f a) = body_size h.
Proof.
  intros (Ht & Ho & _ & Hr & _). unfold recordSize, body_size, record_args. rewrite Ht, Ho.
  destruct (Z.eqb_spec (oh_type h) OHT_Remill) as [E|]; [|cbn [List.length]; lia].
  destruct (Hr E) as (_ & -> & _). lia.
Qed.

Lemma record_len_bounds h : 0 <= oh_oplen h -> 0 <= oh_implsize h -> 4 <= body_size h <= record_len h.
Proof.
  intros Ho Hs. unfold record_len. assert (4 <= body_size h) by (unfold body_size; lia).
  destruct (haswx && arm64); [|lia]. pose proof (align4_spec (body_size h)) as [? _].
  pose proof (align4_spec (align4 (body_size h) + (if oh_type h =? OHT_Dynamic then oh_implsize h else 0))) as [? _].
  destruct (_ =? _); lia.
Qed.

Lemma align4_twice n : align4 (align4 n + 0) = align4 n.
Proof.
  rewrite Z.add_0_r. rewrite (align4_eq (align4 n)), (align4_eq n).
  replace (4 * ((n + 3) / 4) + 3) with (3 + (n + 3) / 4 * 4) by lia. rewrite Z.div_add by lia. done.
Qed.

Hypothesis wx_arm64 : haswx = true -> arm64 = true.
Variable metadata : IMetaData.
Hypothesis metadata_flags : flags metadata = Z.lor (if haswx then kFlag_HasWX else 0) (if arm64 then kFlag_ARM64 else kFlag_X64).

Lemma wx_flag : negb (Z.land (flags metadata) kFlag_HasWX =? 0) = haswx.
Proof. rewrite metadata_flags. by destruct haswx, arm64. Qed.

Lemma arm64_flag : negb (Z.land (flags metadata) kFlag_ARM64 =? 0) = arm64.
Proof. rewrite metadata_flags. by destruct haswx, arm64. Qed.

(** One record is printed and skipped. *)
Lemma dump_one n i pre rec rest h : record_ok h rec ->
  let data := (pre ++ rec ++ rest)%list in let a := Z.of_nat (List.length pre) in
  ∃ l, describes h l ∧ hd_offset l = a - off_handlers metadata ∧
    dump_handlers disassemble data (S n) metadata i a =
      (let '(lines, offs, e) := dump_handlers disassemble data n metadata (i + 1) (a + Z.of_nat (List.length rec)) in
       (l :: lines, wrap32 (a - off_handlers metadata) :: offs, e)).
Proof.
  intros [Hop Hst Hlen Ho Hty Hsz] data a. specialize (Hst ∅ pre rest). specialize (Hop ∅ pre rest). fold data a in Hst, Hop.
  pose proof (record_len_bounds h Ho Hsz) as Hb. pose proof (stored_size _ _ _ Hst) as Hsize.
  set (handler := read_handler (store_bytes ∅ 0 data) a) in *.
  assert (Z.of_nat (List.length data) - a = Z.of_nat (List.length rec) + Z.of_nat (List.length rest)) as Hrest
    by (unfold data, a; rewrite !length_app; lia).
  destruct Hst as (Ht & Hopl & Hopc & Hrem & _ & Hdyn). fold handler in Ht, Hopl, Hopc, Hrem, Hdyn, Hop.
  cbn [dump_handlers]. fold handler. rewrite Hsize, Ht.
  rewrite !Z.gtb_ltb, (proj2 (Z.ltb_ge _ a)), (proj2 (Z.ltb_ge _ 4)), (proj2 (Z.ltb_ge _ (oh_type h))), (proj2 (Z.ltb_ge _ (body_size h))) by lia.
  cbn [orb]. rewrite wx_flag, arm64_flag, Hopl. unfold Handler_opcode in Hopc. rewrite Hopl in Hopc. rewrite Hopc.
  destruct (disasOpcode _ _ _) as [len text].
  set (ops := if oh_type h =? OHT_Remill then _ <$> seqZ 0 _ else []).
  assert (ops = if oh_type h =? OHT_Remill then (fun arg => mkOpInfo (fst arg) (b2z (snd arg))) <$> oh_args h else []) as Hops.
  { unfold ops. destruct (Z.eqb_spec (oh_type h) OHT_Remill) as [E|]; [|done]. destruct (Hrem E) as (_ & Hn & Hj).
    apply fmap_seqZ_list; [by rewrite length_fmap|]. intros k x Hk. apply list_lookup_fmap_Some in Hk as (arg & -> & Hk).
    rewrite <- (Hj k arg Hk). f_equal. unfold Handler_operand. fold handler. lia. }
  unfold record_len in Hlen. destruct haswx eqn:Hwx; cbn [negb andb] in *.
  - rewrite (wx_arm64 eq_refl) in *. destruct (Z.eqb_spec (oh_type h) OHT_Dynamic) as [E|E]; cbn [andb] in *.
    + destruct (Hdyn E eq_refl) as [Himpl Hcode]. rewrite Himpl in *. rewrite (proj2 (Z.ltb_ge _ _)).
      2:{ pose proof (align4_spec (align4 (body_size h) + oh_implsize h)). lia. }
      rewrite <- Hlen. eexists (mkHDump _ handler _ _ ops (Some (print_code disassemble data (S (Z.to_nat (oh_implsize h))) true
        (a + align4 (body_size h)) (oh_implsize h) 0))). split; [split_and!; [exact Ht|reflexivity|exact Hops|]|split; [reflexivity|]].
      * cbn [hd_code]. rewrite E, <- Hcode, Hwx, (wx_arm64 eq_refl). change (true && (OHT_Dynamic =? OHT_Dynamic)) with true. cbv iota.
        rewrite print_code_listing by done. replace (Handler_handler _ a - a) with (body_size h); [done|].
        unfold Handler_handler, Handler_operand. fold handler. rewrite Hopl, Hop by (by rewrite E).
        unfold body_size, record_args. rewrite E. cbn. lia.
      * by destruct (dump_handlers _ _ n _ _ _) as [[? ?] ?].
    + rewrite align4_twice in Hlen. rewrite <- Hlen. eexists (mkHDump _ handler _ _ ops None). split; [split_and!; [exact Ht|reflexivity|exact Hops|]|split; [reflexivity|]].
      * cbn [hd_code]. by rewrite (proj2 (Z.eqb_neq _ _) E), andb_false_r.
      * by destruct (dump_handlers _ _ n _ _ _) as [[? ?] ?].
  - rewrite <- Hlen. eexists (mkHDump _ handler _ _ ops None). split; [split_and!; [exact Ht|reflexivity|exact Hops|]|split; [reflexivity|]].
    + cbn [hd_code]. by rewrite Hwx.
    + by destruct (dump_handlers _ _ n _ _ _) as [[? ?] ?].
Qed.

Lemma dump_all items : ∀ i pre post, Forall (fun it => record_ok it.1 it.2) items ->
  let data := (pre ++ mjoin items.*2 ++ post)%list in
  ∃ lines offs, dump_handlers disassemble data (List.length items) metadata i (Z.of_nat (List.length pre)) = (lines, offs, WalkDone) ∧
    Forall2 (fun it l => describes it.1 l) items lines ∧
    ∀ (k : nat) it, items !! k = Some it ->
      let off := Z.of_nat (List.length pre) + Z.of_nat (List.length (mjoin (take k items).*2)) - off_handlers metadata in
      offs !! k = Some (wrap32 off) ∧ hd_offset <$> lines !! k = Some off.
Proof.
  induction items as [|[h rec] items IH]; intros i pre post Hall data.
  { exists [], []. split_and!; [done|constructor|]. intros k it Hk. by rewrite lookup_nil in Hk. }
  apply Forall_cons in Hall as [Hok Hall]. cbn [fst snd] in Hok.
  assert (data = (pre ++ rec ++ (mjoin items.*2 ++ post))%list) as Hdata by (unfold data; cbn; by rewrite <- app_assoc).
  destruct (dump_one (List.length items) i pre rec (mjoin items.*2 ++ post)%list h Hok) as (l & Hl & Hoff & Hstep).
  cbv zeta in Hstep. rewrite <- Hdata in Hstep. change (List.length ((h, rec) :: items)) with (S (List.length items)). rewrite Hstep.
  destruct (IH (i + 1) (pre ++ rec)%list post Hall) as (lines & offs & Hrun & Hd & Ho).
  cbv zeta in Hrun, Ho. rewrite <- app_assoc, <- Hdata, length_app, Nat2Z.inj_add in Hrun. rewrite Hrun.
  eexists _, _. split_and!; [done|by constructor|].
  intros [|k] it Hk; cbn in Hk; simplify_eq.
  - cbn. rewrite Hoff, Z.add_0_r. done.
  - destruct (Ho k it Hk) as [H1 H2]. rewrite length_app, Nat2Z.inj_add in H1, H2.
    change (mjoin (take (S k) ((h, rec) :: items)).*2) with (rec ++ mjoin (take k items).*2)%list.
    rewrite length_app, Nat2Z.inj_add, Z.add_assoc. done.
Qed.
End Records.

(** * The file [serialize] writes *)

Section Serialized.
Context `{Codes}.
Variable disassemble : bool -> list Z -> Z * string.
Variable host : bytes.
Variable implementations : list Handler.
Variables haswx arm64 : bool.

Lemma impl_of_type h dyn r : impl_of implementations haswx arm64 h dyn = Some r -> oh_type h <= OHT_PrebuiltMapped.
Proof.
  unfold impl_of. destruct (Z.eqb_spec (oh_type h) OHT_Remill) as [->|]; [done|].
  destruct (Z.eqb_spec (oh_type h) OHT_MCInst) as [->|]; [done|].
  destruct (Z.eqb_spec (oh_type h) OHT_Dynamic) as [->|]; done.
Qed.

Lemma loop_records_ok hs hoffsets recs : Forall (fun h => handler_wf h.2) hs ->
  serialize_loop host implementations haswx arm64 hs 0 0 = Some (hoffsets, recs) ->
  Forall (fun it => record_ok host implementations haswx arm64 it.1 it.2) (zip hs.*2 recs).
Proof.
  intros Hwf Hl. destruct (serialize_loop_spec _ _ _ _ hs 0 0 _ _ Hwf ltac:(lia) ltac:(lia) Hl) as (_ & _ & _ & Hk).
  apply Forall_lookup. intros k [h rec] Hz. apply lookup_zip_Some in Hz as [Hh Hr].
  apply list_lookup_fmap_Some in Hh as ([w h'] & -> & Hh). cbn [fst snd] in *.
  destruct (Hk k w h' Hh) as (off & rec' & d & d' & _ & Hr' & Hd & _ & Hc). simplify_eq.
  rewrite Forall_forall in Hwf. pose proof (Hwf _ (list_elem_of_lookup_2 _ _ _ Hh)) as Hw. cbn [snd] in Hw.
  destruct (convert_inv _ _ _ _ _ _ _ _ _ Hw Hd Hc) as (Ho & _ & _ & _ & i & Hi & _).
  split; [intros; by eapply convert_no_operands|intros; by eapply convert_stored|by eapply convert_length|lia|by eapply impl_of_type|apply Hw].
Qed.

Lemma section_valid s : let file := file_bytes haswx arm64 s in
  sections_valid file (section_header haswx arm64 s) = true.
Proof.
  cbv zeta. unfold sections_valid, section_header, header. cbn [off_instruction num_instruction off_operands num_operands
    off_expressions num_expressions off_handlers]. rewrite Z.eqb_refl. cbn [andb].
  rewrite !(proj2 (Z.eqb_eq _ _)) by lia. cbn [andb]. apply Z.leb_le.
  unfold file_bytes, section_bytes. rewrite !length_app, header_enc_length, insn_bytes_length, operand_bytes_length, expression_bytes_length. lia.
Qed.

Lemma referenced_elem insns o : o ∈ referenced_offsets insns <-> ∃ i, i ∈ insns ∧ handler i = o ∧ o <> UINT32_MAX.
Proof.
  unfold referenced_offsets. rewrite merge_sort_Permutation, elem_of_elements, elem_of_list_to_set, list_elem_of_omap.
  unfold dump_insn. cbn [snd]. split.
  - intros (i & Hi & Hh). exists i. destruct (Z.eqb_spec (handler i) UINT32_MAX); [done|]. simplify_eq. done.
  - intros (i & Hi & <- & Hne). exists i. split; [done|]. by rewrite (proj2 (Z.eqb_neq _ _)).
Qed.

(** The instructions of the file, and where their handlers are. *)
Lemma fixed_insns_ok hs insns insns' hoffsets recs : Forall (fun h => handler_wf h.2) hs -> Forall InsnMeta_ok insns ->
  serialize_loop host implementations haswx arm64 hs 0 0 = Some (hoffsets, recs) ->
  Forall2 (fixed_insn hoffsets) insns insns' -> Forall InsnMeta_ok insns'.
Proof.
  intros Hwf Hins Hl Hfix. apply Forall_lookup. intros k i' Hk.
  destruct (Forall2_lookup_r _ _ _ _ _ Hfix Hk) as (i & Hi & Hr & Hh).
  rewrite Forall_forall in Hins. pose proof (Hins _ (list_elem_of_lookup_2 _ _ _ Hi)) as [Hrva _].
  split; [by rewrite Hr|]. destruct (_ =? _); [rewrite Hh; by unfold UINT32_MAX, fits; lia|].
  destruct Hh as [_ Hoff]. by destruct (loop_record _ _ _ _ _ _ _ _ _ Hwf Hl Hoff) as (_ & _ & _ & _ & _ & ? & _).
Qed.

Lemma dump_decoded_file s : Forall InsnMeta_ok (s_insns s) -> Forall Meta.Operand_ok (s_operands s) ->
  Forall Expression_ok (s_expressions s) -> let file := file_bytes haswx arm64 s in
  Z.of_nat (List.length file) <= UINT32_MAX -> Z.of_nat (List.length (s_records s)) <= UINT32_MAX ->
  let '(lines, offs, e) := dump_handlers disassemble file (List.length (s_records s)) (section_header haswx arm64 s) 0
                             (off_handlers (section_header haswx arm64 s)) in
  dump disassemble (Some file) = Document (mkDoc (section_header haswx arm64 s) (flagsString (flags (section_header haswx arm64 s)))
    (dump_insn <$> s_insns s) ((fun o => (operandTypeName (mo_type o), o)) <$> s_operands s)
    ((fun x => (expressionKindName (ex_kind x), x)) <$> s_expressions s) lines e
    (match e with WalkDone => filter (fun o => o ∉ offs) (referenced_offsets (s_insns s)) | _ => [] end)).
Proof.
  intros Hi Ho He file Hn Hr. pose proof (read_file_header haswx arm64 s Hn Hr) as Hh. fold file in Hh.
  unfold dump, dump_file. cbv zeta. rewrite Hh. set (m := section_header _ _ _).
  assert (48 <= Z.of_nat (List.length file)) as H48.
  { unfold file, file_bytes. rewrite length_app, header_enc_length. lia. }
  rewrite (proj2 (Z.ltb_ge _ _)), Z.gtb_ltb, (proj2 (Z.ltb_ge _ _)) by done.
  assert (md_size m = Z.of_nat (List.length file)) as Hs by (unfold file, file_bytes, m; rewrite length_app, header_enc_length; done).
  change (magic m =? kMagic) with true. change (version m =? kVersion) with true. rewrite Hs, Z.eqb_refl.
  pose proof (section_valid s) as Hv. cbv zeta in Hv. fold file m in Hv. rewrite Hv. cbn [negb]. unfold dump_decoded.
  change (Z.to_nat (num_handlers m)) with (Z.to_nat (Z.of_nat (List.length (s_records s)))). rewrite Nat2Z.id.
  destruct (dump_handlers _ _ _ _ _ _) as [[lines offs] e]. f_equal.
  rewrite (fmap_seqZ_list _ (s_insns s)), (fmap_seqZ_list _ (s_operands s)), (fmap_seqZ_list _ (s_expressions s)); try done.
  - intros k x Hk. rewrite (Z.mul_comm _ 12). apply (read_file_expression haswx arm64 s k x Hk).
    rewrite Forall_forall in He. apply He. by eapply list_elem_of_lookup_2.
  - intros k x Hk. rewrite (Z.mul_comm _ 48). apply (read_file_operand haswx arm64 s k x Hk).
    rewrite Forall_forall in Ho. apply Ho. by eapply list_elem_of_lookup_2.
  - intros k x Hk. rewrite (Z.mul_comm _ 8). apply (read_file_insn haswx arm64 s k x Hk).
    rewrite Forall_forall in Hi. apply Hi. by eapply list_elem_of_lookup_2.
Qed.

Lemma handlers_listed hs hoffsets recs s : s_records s = recs -> (haswx = true -> arm64 = true) ->
  Forall (fun h => handler_wf h.2) hs -> serialize_loop host implementations haswx arm64 hs 0 0 = Some (hoffsets, recs) ->
  let file := file_bytes haswx arm64 s in Z.of_nat (List.length file) <= UINT32_MAX -> ∃ lines offs,
  dump_handlers disassemble file (List.length recs) (section_header haswx arm64 s) 0 (off_handlers (section_header haswx arm64 s)) =
    (lines, offs, WalkDone) ∧
  Forall2 (fun h l => describes disassemble host haswx arm64 h.2 l) hs lines ∧
  ∀ (k : nat) off, hoffsets !! k = Some off -> offs !! k = Some off ∧ hd_offset <$> lines !! k = Some off ∧ off <> UINT32_MAX.
Proof.
  intros <- Hwx Hwf Hl file Hn. set (recs := s_records s) in *.
  destruct (serialize_loop_spec _ _ _ _ hs 0 0 _ _ Hwf ltac:(lia) ltac:(lia) Hl) as (Hlo & Hlr & _ & Hk).
  assert (List.length hs.*2 = List.length recs) as Hlen by (rewrite length_fmap; lia).
  assert ((zip hs.*2 recs).*2 = recs) as Hz by (apply snd_zip; lia).
  set (pre := (enc (IMetaData_fields (section_header haswx arm64 s)) ++ insn_bytes s ++ operand_bytes s ++ expression_bytes s)%list).
  assert (file = (pre ++ mjoin (zip hs.*2 recs).*2 ++ [])%list) as Hfile.
  { rewrite Hz, app_nil_r. unfold file, file_bytes, section_bytes, pre. fold recs. by rewrite <- !app_assoc. }
  assert (Z.of_nat (List.length pre) = off_handlers (section_header haswx arm64 s)) as Hpre.
  { unfold pre. rewrite !length_app, header_enc_length, insn_bytes_length, operand_bytes_length, expression_bytes_length.
    unfold section_header, header. cbn [off_handlers]. lia. }
  destruct (dump_all disassemble host implementations haswx arm64 Hwx (section_header haswx arm64 s) eq_refl (zip hs.*2 recs) 0 pre []
    (loop_records_ok hs hoffsets recs Hwf Hl)) as (lines & offs & Hrun & Hd & Ho). cbv zeta in Hrun, Ho.
  rewrite <- Hfile, Hpre, length_zip, Hlen, Nat.min_id in Hrun.
  exists lines, offs. split_and!; [done| |].
  - apply (Forall2_fmap_l snd (describes disassemble host haswx arm64)). rewrite <- (fst_zip hs.*2 recs) by lia. by apply Forall2_fmap_l.
  - intros k off Hoff. pose proof (lookup_lt_Some _ _ _ Hoff).
    destruct (lookup_lt_is_Some_2 hs k ltac:(lia)) as [[w h] Hh].
    destruct (Hk k w h Hh) as (off' & rec & d & d' & Ho' & Hr & _ & Hval & _).
    rewrite Ho' in Hoff. injection Hoff as <-. rewrite Hval.
    destruct (Ho k (h, rec)) as [H1 H2]; [apply lookup_zip_Some; by rewrite list_lookup_fmap, Hh|].
    rewrite fmap_take, Hz, Hpre in H1, H2.
    set (off := Z.of_nat (List.length (mjoin (take k recs)))) in *.
    assert (off + 4 <= UINT32_MAX) as Hb.
    { pose proof (loop_records_ok hs hoffsets recs Hwf Hl) as Hall. rewrite Forall_lookup in Hall.
      destruct (Hall k (h, rec)) as [_ _ Hrl Hop _ Hsz]; [apply lookup_zip_Some; by rewrite list_lookup_fmap, Hh|].
      pose proof (record_len_bounds haswx arm64 h Hop Hsz). cbn [fst snd] in *.
      destruct (file_record haswx arm64 s k rec) as (l1 & l3 & Hf & Hl1); [done|].
      fold file in Hf. rewrite Hf, !length_app in Hn. fold recs in Hl1. fold off in Hl1. unfold section_header, header in Hl1.
      cbn [off_handlers] in Hl1. lia. }
    replace (off_handlers (section_header haswx arm64 s) + off - off_handlers (section_header haswx arm64 s)) with off in H1, H2 by lia.
    rewrite wrap_small in H1 by (unfold off, UINT32_MAX, fits in *; lia). rewrite Z.add_0_l. split_and!; [done|done|lia].
Qed.
End Serialized.

(** The listing ends: one step per byte is enough, whatever is disassembled. *)
Lemma print_code_fuel `{Codes} disassemble data arm64 code n : 0 <= n < 2 ^ 31 ->
  (∀ a l, 0 <= (disassemble a l).1 <= 16) -> ∀ fuel pos, 0 <= pos -> (Z.to_nat (n - pos) < fuel)%nat ->
  print_code disassemble data fuel arm64 code n pos = print_code disassemble data (S fuel) arm64 code n pos.
Proof.
  intros Hn Hd. induction fuel as [|fuel IH]; intros pos Hp Hf; [lia|].
  remember (S fuel) as k eqn:Hk. cbn [print_code]. rewrite Hk at 1. cbn [print_code]. destruct (Z.ltb_spec pos n); [|done].
  unfold disasOpcode. pose proof (Hd arm64 (load_bytes (store_bytes ∅ 0 data) (code + pos) (Z.to_nat (Z.min 16 (n - pos))))) as Hl.
  destruct (disassemble _ _) as [len text]. cbn [fst] in Hl. destruct (Z.eqb_spec len 0); [done|]. f_equal. subst k.
  rewrite wrap_small by (unfold fits; lia). apply IH; lia.
Qed.

(** * Properties *)

(** C18: a file that [serialize] wrote is displayed as what was encoded, and the
    display's own check of the handler offsets finds nothing: the walk over the
    records ends at the last one, each is shown with its handler's type, opcode
    bytes and operands, and the instructions of the very code a dynamic one was
    encoded from, when code is stored; every
    instruction has its address and the offset of its handler, or none in both;
    operands and expressions are the converted ones. That holds of files with
    stored code for arm64 and of files without for either architecture; those
    for x86_64 with stored code are misread ([dump_x64_misread]). *)
Theorem dump_serialized `{Codes} disassemble (host : bytes) (implementations : list Handler) (haswx arm64 : bool)
    (mds : list Operand) (nodes : list Expression) (hs : list SHandler) (insns : list InsnMeta) (file : list Z) :
  (haswx = true -> arm64 = true) ->
  Forall (fun h => handler_wf h.2) hs -> Forall InsnMeta_ok insns -> Forall Meta.Operand_ok mds -> Forall Expression_ok nodes ->
  serialize host implementations haswx arm64 (true, mds, nodes) hs insns = Some file ->
  ∃ d, dump disassemble (Some file) = Document d ∧ d_end d = WalkDone ∧ d_mismatches d = [] ∧
    d_flags d = (if haswx then "HasWX | ARM64" else if arm64 then "ARM64" else "X64") ∧
    d_operands d = (fun o => (operandTypeName (mo_type o), o)) <$> mds ∧
    d_expressions d = (fun x => (expressionKindName (ex_kind x), x)) <$> nodes ∧
    Forall2 (fun h l => describes disassemble host haswx arm64 h.2 l) hs (d_handlers d) ∧
    Forall2 (fun insn line => line.1 = rva insn ∧
      match line.2 with
      | None => handler insn = UINT32_MAX
      | Some off => handler insn <> UINT32_MAX ∧ hd_offset <$> d_handlers d !! Z.to_nat (handler insn) = Some off
      end) insns (d_insns d).
Proof.
  intros Hwx Hwf Hins Hmds Hnodes Hs.
  destruct (serialize_inv _ _ _ _ _ _ _ _ _ Hs) as (hoffsets & insns' & recs & Hl & Hfix & -> & Hn & Hnr).
  set (s := mkSections insns' mds nodes recs) in *.
  pose proof (fixed_insns_ok host implementations haswx arm64 hs insns insns' hoffsets recs Hwf Hins Hl Hfix) as Hins'.
  destruct (handlers_listed disassemble host implementations haswx arm64 hs hoffsets recs s eq_refl Hwx Hwf Hl Hn)
    as (lines & offs & Hrun & Hd & Ho). cbv zeta in Hrun.
  pose proof (dump_decoded_file disassemble haswx arm64 s Hins' Hmds Hnodes Hn Hnr) as Hdump. cbv zeta in Hdump.
  change (s_records s) with recs in Hdump. rewrite Hrun in Hdump. eexists. split; [exact Hdump|].
  cbn [d_end d_mismatches d_flags d_operands d_expressions d_handlers d_insns]. split_and!; try done.
  - apply elem_of_nil_inv. intros o [Hno Ho']%list_elem_of_filter. apply referenced_elem in Ho' as (i' & Hi' & <- & Hne).
    apply list_elem_of_lookup in Hi' as [k Hk]. destruct (Forall2_lookup_r _ _ _ _ _ Hfix Hk) as (i & Hi & _ & Hh).
    destruct (Z.eqb_spec (handler i) UINT32_MAX); [done|]. destruct Hh as [_ Hoff].
    destruct (Ho _ _ Hoff) as [Hin _]. by apply Hno, (list_elem_of_lookup_2 _ _ _ Hin).
  - destruct haswx; [rewrite (Hwx eq_refl)|destruct arm64]; by vm_compute.
  - apply Forall2_fmap_r. eapply Forall2_impl; [exact Hfix|]. intros i i' [Hr Hh]. cbn [compose dump_insn fst snd].
    split; [done|]. destruct (Z.eqb_spec (handler i) UINT32_MAX) as [E|E].
    + by rewrite Hh.
    + destruct Hh as [_ Hoff]. destruct (Ho _ _ Hoff) as (_ & Hline & Hne). by rewrite (proj2 (Z.eqb_neq _ _)).
Qed.

Definition sample_disas (_ : bool) (opcode : list Z) : Z * string :=
  if bool_decide (take 4 opcode = [0x1f; 0x20; 0x03; 0xd5]) then (4, "nop") else (0, "").
Definition sample_host : bytes := store_bytes ∅ 0x40 [0x1f; 0x20; 0x03; 0xd5; 1; 2; 3; 4].

Theorem dump_serialized_witness :
  ∃ file d, serialize sample_host [mkHandler 5 0x10; mkHandler 9 0x20] true true (true, [], []) (m_handlers (index_handlers sample_engine))
      [mkInsn 0 1; mkInsn 4 0; mkInsn 8 UINT32_MAX] = Some file ∧
    dump (H := sample_codes) sample_disas (Some file) = Document d ∧ d_mismatches d = [] ∧
    Forall2 (fun h l => describes sample_disas sample_host true true h.2 l) (m_handlers (index_handlers sample_engine)) (d_handlers d).
Proof.
  eexists. destruct (@dump_serialized sample_codes sample_disas sample_host [mkHandler 5 0x10; mkHandler 9 0x20] true true [] []
    (m_handlers (index_handlers sample_engine)) [mkInsn 0 1; mkInsn 4 0; mkInsn 8 UINT32_MAX] _ ltac:(done)
    ltac:(repeat constructor; cbn; lia) ltac:(repeat constructor; cbn; unfold UINT32_MAX; lia)
    ltac:(constructor) ltac:(constructor) ltac:(vm_compute; reflexivity)) as (d & H1 & _ & H2 & _ & _ & _ & H3 & _).
  exists d. split; [vm_compute; reflexivity|]. split; [exact H1|]. split; [exact H2|exact H3].
Defined.

(** The display pads records to 4 bytes whenever code may be stored, the
    encoder only on arm64: of a file for x86_64 with two handlers of one byte,
    the second is taken for garbage. *)
Definition x64_engine : OpcodeEngine :=
  mkEngine (mkOHs [mkOH 0x50 1 0 0 [] 0x20; mkOH 0x90 1 0 0 [] 0x20] ∅) OpcodeHandlers_new OpcodeHandlers_new
    OpcodeHandlers_new OpcodeHandlers_new true.
Theorem dump_x64_misread :
  match serialize ∅ [mkHandler 5 0x20] true false (true, [], []) (m_handlers (index_handlers x64_engine)) [mkInsn 0 0; mkInsn 1 1] with
  | Some file => match dump (H := sample_codes) sample_disas (Some file) with Document d => d_end d <> WalkDone | _ => False end
  | None => False
  end.
Proof. vm_compute. discriminate. Qed.
