(* ===== verification/NativeA64.v ===== *)
(** The native handlers of src/Lifter.cpp for aarch64: an instruction remill
    cannot lift is executed by the processor itself, between code that swaps
    the registers it uses with the guest's. The code is generated as text; here
    it is a list of instructions with their text and what they do to the
    machine. The registers an instruction uses come from src/UtilsAArch64.cpp. *)
From Stdlib Require Import ZArith Lia List String Ascii.
From stdpp Require Import base list gmap pretty strings.
From S2P Require Import Prelude Registers StateMem CPUState AArch64 UtilsAArch64 Emit.
#[local] Open Scope string_scope.
#[local] Open Scope Z_scope.

(** * The instructions of a handler *)

Inductive a64_insn :=
| STRx_pre (t : Z) | STRd_pre (t : Z)
| LDRx_post (t : Z) | LDRd_post (t : Z)
| MOV (d n : Z)
| LDRx (t n : Z) (off : option Z) | STRx (t n : Z) (off : option Z)
| LDRq (t n : Z) (off : Z) | STRq (t n : Z) (off : Z)
| ADDi (d n imm : Z) | UBFX59 (d : Z) | BR (n : Z)
| ADD8 (d n : Z)
| OPCODE (opcode : list Z).

Definition offset_text (off : option Z) : string :=
  match off with
  | None => ""
  | Some o => if o <? 0 then (", #-" ++ hex (- o))%string else (", #" ++ hex o)%string
  end.

Definition a64_text (i : a64_insn) : string :=
  match i with
  | STRx_pre t => "str x" ++ dec t ++ ", [sp, #-0x10]!" ++ nl
  | STRd_pre t => "str d" ++ dec t ++ ", [sp, #-0x10]!" ++ nl
  | LDRx_post t => "ldr x" ++ dec t ++ ", [sp], #0x10" ++ nl
  | LDRd_post t => "ldr d" ++ dec t ++ ", [sp], #0x10" ++ nl
  | MOV d n => "mov x" ++ dec d ++ ", x" ++ dec n ++ nl
  | LDRx t n o => "ldr x" ++ dec t ++ ", [x" ++ dec n ++ offset_text o ++ "]" ++ nl
  | STRx t n o => "str x" ++ dec t ++ ", [x" ++ dec n ++ offset_text o ++ "]" ++ nl
  | LDRq t n o => "ldr q" ++ dec t ++ ", [x" ++ dec n ++ offset_text (Some o) ++ "]" ++ nl
  | STRq t n o => "str q" ++ dec t ++ ", [x" ++ dec n ++ offset_text (Some o) ++ "]" ++ nl
  | ADDi d n imm => "add x" ++ dec d ++ ", x" ++ dec n ++ ", #" ++ hex imm ++ nl
  | ADD8 d n => "add x" ++ dec d ++ ", x" ++ dec n ++ ", #8" ++ nl
  | UBFX59 d => "ubfx x" ++ dec d ++ ", x" ++ dec d ++ ", #0, #59" ++ nl
  | BR n => "br x" ++ dec n
  | OPCODE opcode => emit_opcode opcode
  end%string.

(** * The text of [nativeHandlerAArch64] *)

Section Generate.
Context `{A64Layout}.

Definition is_x (r : Z) : bool := (Register.X0 <=? r) && (r <=? Register.X30).
Definition is_q (r : Z) : bool := (Register.Q0 <=? r) && (r <=? Register.Q31).

Definition save_host (r : Z) : list a64_insn :=
  if (Register.X19 <=? r) && (r <=? Register.X30) then [STRx_pre (19 + r - Register.X19)]
  else if (Register.Q8 <=? r) && (r <=? Register.Q15) then [STRd_pre (8 + r - Register.Q8)]
  else [].

Definition restore_host (r : Z) : list a64_insn :=
  if (Register.X19 <=? r) && (r <=? Register.X30) then [LDRx_post (19 + r - Register.X19)]
  else if (Register.Q8 <=? r) && (r <=? Register.Q15) then [LDRd_post (8 + r - Register.Q8)]
  else [].

Definition load_guest (regcpu r : Z) : exec (list a64_insn) :=
  if is_x r then o ← aarch64.offset_reg r; Ret [LDRx (r - Register.X0) regcpu (Some o)]
  else if is_q r then o ← aarch64.offset_reg r; Ret [LDRq (r - Register.Q0) regcpu o]
  else Ret [].

Definition save_guest (regcpu r : Z) : exec (list a64_insn) :=
  if is_x r then o ← aarch64.offset_reg r; Ret [STRx (r - Register.X0) regcpu (Some o)]
  else if is_q r then o ← aarch64.offset_reg r; Ret [STRq (r - Register.Q0) regcpu o]
  else Ret [].

(** x26 itself, or a register the instruction does not use. *)
Definition cpu_register (regused : list Z) : Z :=
  first_unused (length regused) regused
    (if bool_decide (Register.X26 ∈ regused) then Register.X0 else Register.X26) - Register.X0.

(** Updates the pc and goes to the next instruction. *)
Definition a64_advance : list a64_insn :=
  [MOV 0 26; LDRx 1 0 (Some (-0x10)); LDRx 2 1 None; ADDi 2 2 4; STRx 2 1 None; MOV 1 2;
   ADD8 27 27; MOV 2 27; LDRx 16 27 None; UBFX59 16; BR 16].

Definition handler_insns (regused opcode : list Z) : exec (list a64_insn) :=
  let regcpu := cpu_register regused in
  loads ← mapE (load_guest regcpu) regused;
  saves ← mapE (save_guest regcpu) regused;
  Ret (mjoin (save_host <$> regused) ++
       (if regcpu =? 26 then [] else [MOV regcpu 26]) ++
       mjoin loads ++ [OPCODE opcode] ++ mjoin saves ++
       (if regcpu =? 26 then [] else [MOV 26 regcpu]) ++
       mjoin (restore_host <$> reverse regused) ++ a64_advance)%list.

Definition nativeHandlerAArch64 (regused opcode : list Z) : exec string :=
  insns ← handler_insns regused opcode;
  Ret (String.concat "" (a64_text <$> insns)).
End Generate.

(** * What the instructions do *)

(** General and vector registers by number, the stack pointer, memory. *)
Record a64_machine := mkA64 { xr : Z -> Z; vr : Z -> Z; sp : Z; mem : bytes }.

Definition set_x (m : a64_machine) (n v : Z) := mkA64 (upd (xr m) n v) (vr m) (sp m) (mem m).
Definition set_v (m : a64_machine) (n v : Z) := mkA64 (xr m) (upd (vr m) n v) (sp m) (mem m).
Definition set_mem (m : a64_machine) (b : bytes) := mkA64 (xr m) (vr m) (sp m) b.
Definition set_sp (m : a64_machine) (a : Z) := mkA64 (xr m) (vr m) a (mem m).

Section Execute.
(** The processor executing the raw opcode. *)
Variable native_opcode : list Z -> a64_machine -> a64_machine.

Definition address (m : a64_machine) (n : Z) (o : option Z) : Z := wrap64 (xr m n + default 0 o).

Definition a64_exec (m : a64_machine) (i : a64_insn) : a64_machine :=
  match i with
  | STRx_pre t => let a := wrap64 (sp m - 16) in set_mem (set_sp m a) (store 8 (mem m) a (xr m t))
  | STRd_pre t => let a := wrap64 (sp m - 16) in set_mem (set_sp m a) (store 8 (mem m) a (vr m t))
  | LDRx_post t => set_sp (set_x m t (load 8 (mem m) (sp m))) (wrap64 (sp m + 16))
  | LDRd_post t => set_sp (set_v m t (load 8 (mem m) (sp m))) (wrap64 (sp m + 16))
  | MOV d n => set_x m d (xr m n)
  | LDRx t n o => set_x m t (load 8 (mem m) (address m n o))
  | STRx t n o => set_mem m (store 8 (mem m) (address m n o) (xr m t))
  | LDRq t n o => set_v m t (load 16 (mem m) (address m n (Some o)))
  | STRq t n o => set_mem m (store 16 (mem m) (address m n (Some o)) (vr m t))
  | ADDi d n imm => set_x m d (wrap64 (xr m n + imm))
  | ADD8 d n => set_x m d (wrap64 (xr m n + 8))
  | UBFX59 d => set_x m d (wrap 59 (xr m d))
  | BR _ => m
  | OPCODE opcode => native_opcode opcode m
  end.

Definition a64_run (insns : list a64_insn) (m : a64_machine) : a64_machine := fold_left a64_exec insns m.

Lemma a64_run_app l l' m : a64_run (l ++ l') m = a64_run l' (a64_run l m).
Proof. apply fold_left_app. Qed.
Lemma a64_run_cons i l m : a64_run (i :: l) m = a64_run l (a64_exec m i).
Proof. done. Qed.
End Execute.

(** * Saving and restoring the host's registers *)

(** What is on the stack for a register: a general or a vector register. *)
Definition saved1 (r : Z) : option (bool * Z) :=
  if (Register.X19 <=? r) && (r <=? Register.X30) then Some (true, 19 + r - Register.X19)
  else if (Register.Q8 <=? r) && (r <=? Register.Q15) then Some (false, 8 + r - Register.Q8)
  else None.
Definition saved (l : list Z) : list (bool * Z) := omap saved1 l.

(** The eight bytes of it. *)
Definition word_of (m : a64_machine) (it : bool * Z) : Z :=
  (if it.1 then xr m it.2 else vr m it.2) mod 2 ^ 64.

Section Stack.
Variable native_opcode : list Z -> a64_machine -> a64_machine.
Abbreviation run := (a64_run native_opcode).

Definition push1 (it : bool * Z) : list a64_insn := if it.1 then [STRx_pre it.2] else [STRd_pre it.2].
Definition pop1 (it : bool * Z) : list a64_insn := if it.1 then [LDRx_post it.2] else [LDRd_post it.2].

Lemma run_pop it m : run (pop1 it) m =
  set_sp (if it.1 then set_x m it.2 (load 8 (mem m) (sp m)) else set_v m it.2 (load 8 (mem m) (sp m)))
    (wrap64 (sp m + 16)).
Proof. by destruct it as [[] t]. Qed.

Lemma save_host_saved r : save_host r = from_option push1 [] (saved1 r).
Proof. unfold save_host, saved1. destruct (_ && _); [done|]. by destruct (_ && _). Qed.

Lemma restore_host_saved r : restore_host r = from_option pop1 [] (saved1 r).
Proof. unfold restore_host, saved1. destruct (_ && _); [done|]. by destruct (_ && _). Qed.

Lemma saved_cons r l : saved (r :: l) = (from_option (fun it => [it]) [] (saved1 r) ++ saved l)%list.
Proof. unfold saved. cbn [omap list_omap]. by destruct (saved1 r). Qed.

(** Where item [i] of the stack lies below [top]. *)
Definition slot (top : Z) (i : nat) : Z := top - 16 * (Z.of_nat i + 1).

Lemma run_saves l : ∀ m, 16 * Z.of_nat (length (saved l)) <= sp m < 2 ^ 64 ->
  let m' := run (mjoin (save_host <$> l)) m in
  xr m' = xr m ∧ vr m' = vr m ∧ sp m' = sp m - 16 * Z.of_nat (length (saved l)) ∧
  (∀ a, a < sp m' \/ sp m <= a -> get8 (mem m') a = get8 (mem m) a) ∧
  (∀ i it, saved l !! i = Some it -> load 8 (mem m') (slot (sp m) i) = word_of m it).
Proof.
  induction l as [|r l IH]; intros m Hsp; cbv zeta.
  { cbn. split_and!; [done|done|lia|done|]. intros i it Hi. by rewrite lookup_nil in Hi. }
  change (mjoin (save_host <$> r :: l)) with (save_host r ++ mjoin (save_host <$> l))%list.
  rewrite a64_run_app, save_host_saved. rewrite saved_cons in *.
  destruct (saved1 r) as [it|]; [|by apply IH]. cbn [from_option] in *. cbn [app length] in *.
  set (m1 := run (push1 it) m).
  assert (Hm1 : xr m1 = xr m ∧ vr m1 = vr m ∧ sp m1 = sp m - 16 ∧
    mem m1 = store 8 (mem m) (sp m - 16) (if it.1 then xr m it.2 else vr m it.2)).
  { unfold m1, push1. destruct it.1; cbn; rewrite (wrap_small 64) by (unfold fits; lia); done. }
  clearbody m1. destruct Hm1 as (H1 & H2 & H3 & H4).
  destruct (IH m1) as (I1 & I2 & I3 & I4 & I5); [lia|]. rewrite I1, I2, I3, H1, H2, H3.
  rewrite I3, H3 in I4. rewrite H3 in I5. split_and!; [done|done|lia| |].
  - intros a Ha. rewrite I4 by lia. rewrite H4. unfold store. rewrite get8_store_bytes, le_bytes_length.
    rewrite decide_False by lia. done.
  - intros i it' Hi. destruct i as [|i]; cbn in Hi.
    + simplify_eq. unfold slot. cbn [Z.of_nat]. replace (sp m - 16 * (0 + 1)) with (sp m - 16) by lia.
      transitivity (load 8 (mem m1) (sp m - 16)).
      * unfold load. f_equal. apply load_bytes_ext. intros x Hx. apply I4. lia.
      * rewrite H4, load_store. done.
    + pose proof (I5 i it' Hi) as Hl. unfold slot in *.
      replace (sp m - 16 * (Z.of_nat (S i) + 1)) with (sp m - 16 - 16 * (Z.of_nat i + 1)) by lia.
      rewrite Hl. unfold word_of. by rewrite H1, H2.
Qed.

(** Popping what lies there brings every saved register its word back. *)
Lemma run_restores (f : bool * Z -> Z) l : ∀ m top,
  sp m = top - 16 * Z.of_nat (length (saved l)) -> 0 <= sp m -> top < 2 ^ 64 ->
  (∀ i it, saved l !! i = Some it -> load 8 (mem m) (slot top i) = f it) ->
  let m' := run (mjoin (restore_host <$> reverse l)) m in
  sp m' = top ∧ mem m' = mem m ∧
  (∀ n, xr m' n = if bool_decide ((true, n) ∈ saved l) then f (true, n) else xr m n) ∧
  (∀ n, vr m' n = if bool_decide ((false, n) ∈ saved l) then f (false, n) else vr m n).
Proof.
  induction l as [|r l IH]; intros m top Hsp Hpos Htop Hl; cbv zeta.
  { cbn in *. split_and!; [lia|done|done|done]. }
  rewrite reverse_cons, fmap_app, join_app, a64_run_app. cbn [fmap list_fmap mjoin list_join].
  rewrite app_nil_r, restore_host_saved. rewrite saved_cons in *.
  destruct (saved1 r) as [it|]; [|cbn [from_option app] in *; by apply IH].
  cbn [from_option] in *. cbn [app length] in *.
  destruct (IH m (top - 16)) as (I1 & I2 & I3 & I4); [lia|done|lia| |].
  { intros i it' Hi. rewrite <- (Hl (S i) it' Hi). f_equal. unfold slot. lia. }
  set (m1 := run (mjoin (restore_host <$> reverse l)) m) in *. clearbody m1.
  assert (load 8 (mem m1) (sp m1) = f it) as Hit.
  { rewrite I2, I1, <- (Hl 0%nat it eq_refl). reflexivity. }
  assert (∀ g n, bool_decide ((g, n) ∈ it :: saved l) =
    (bool_decide ((g, n) = it) || bool_decide ((g, n) ∈ saved l))) as Hin.
  { intros g n. rewrite <- bool_decide_or. apply bool_decide_ext, elem_of_cons. }
  rewrite run_pop, Hit, (wrap_small 64) by (unfold fits; lia).
  destruct it as [[] t]; cbn [fst snd set_sp set_x set_v sp mem xr vr];
    (split_and!; [lia|done| |]); intros n; rewrite Hin; unfold upd; rewrite ?I3, ?I4.
  - destruct (Z.eqb_spec n t) as [->|Hne]; [by rewrite bool_decide_true|].
    rewrite (bool_decide_false ((true, n) = _)) by congruence. done.
  - rewrite (bool_decide_false ((false, n) = _)) by congruence. done.
  - rewrite (bool_decide_false ((true, n) = _)) by congruence. done.
  - destruct (Z.eqb_spec n t) as [->|Hne]; [by rewrite bool_decide_true|].
    rewrite (bool_decide_false ((false, n) = _)) by congruence. done.
Qed.
End Stack.

(** * Loading and saving the guest's registers *)

Section Swap.
Context `{A64Layout}.
Variable native_opcode : list Z -> a64_machine -> a64_machine.
Abbreviation run := (a64_run native_opcode).

(** The numbers of the general and vector registers of a set. *)
Definition xregs (l : list Z) : list Z := omap (fun r => if is_x r then Some (r - Register.X0) else None) l.
Definition qregs (l : list Z) : list Z := omap (fun r => if is_q r then Some (r - Register.Q0) else None) l.

Lemma xregs_elem l n : n ∈ xregs l <-> Register.X0 + n ∈ l ∧ 0 <= n <= 30.
Proof.
  unfold xregs. rewrite list_elem_of_omap. unfold is_x. split.
  - intros (r & Hr & He). destruct (_ && _) eqn:E; [|done]. bsplit. simplify_eq.
    replace (Register.X0 + (r - Register.X0)) with r by lia. unfold Register.X30 in *. split; [done|].
    change Register.X29 with (Register.X0 + 29) in *. lia.
  - intros [Hr Hn]. exists (Register.X0 + n). split; [done|].
    change Register.X30 with (Register.X0 + 30). rewrite !(proj2 (Z.leb_le _ _)) by lia. cbn [andb]. f_equal. lia.
Qed.

Lemma qregs_elem l n : n ∈ qregs l <-> Register.Q0 + n ∈ l ∧ 0 <= n <= 31.
Proof.
  unfold qregs. rewrite list_elem_of_omap. unfold is_q. split.
  - intros (r & Hr & He). destruct (_ && _) eqn:E; [|done]. bsplit. simplify_eq.
    replace (Register.Q0 + (r - Register.Q0)) with r by lia. split; [done|].
    change Register.Q31 with (Register.Q0 + 31) in *. lia.
  - intros [Hr Hn]. exists (Register.Q0 + n). split; [done|].
    change Register.Q31 with (Register.Q0 + 31). rewrite !(proj2 (Z.leb_le _ _)) by lia. cbn [andb]. f_equal. lia.
Qed.

Lemma xregs_cons r l : xregs (r :: l) = (xregs [r] ++ xregs l)%list.
Proof. unfold xregs. cbn [omap list_omap]. by destruct (is_x r). Qed.
Lemma qregs_cons r l : qregs (r :: l) = (qregs [r] ++ qregs l)%list.
Proof. unfold qregs. cbn [omap list_omap]. by destruct (is_q r). Qed.

(** The instructions with the offsets of the fields. *)
Definition load1 (b r : Z) : list a64_insn :=
  if is_x r then [LDRx (r - Register.X0) b (Some (off (gpr_x (r - Register.X0))))]
  else if is_q r then [LDRq (r - Register.Q0) b (off (simd_v (r - Register.Q0)))] else [].
Definition store1 (b r : Z) : list a64_insn :=
  if is_x r then [STRx (r - Register.X0) b (Some (off (gpr_x (r - Register.X0))))]
  else if is_q r then [STRq (r - Register.Q0) b (off (simd_v (r - Register.Q0)))] else [].

Lemma offset_x r : is_x r = true -> aarch64.offset_reg r = Ret (off (gpr_x (r - Register.X0))).
Proof.
  unfold is_x. intros Hr. bsplit. change Register.X30 with (Register.X0 + 30) in *.
  unfold aarch64.offset_reg. change Register.X31 with (Register.X0 + 31).
  rewrite !(proj2 (Z.leb_le _ _)) by lia. cbn [andb]. f_equal. rewrite (a64_x_stride (r - _)) by lia. done.
Qed.

Lemma offset_q r : is_x r = false -> is_q r = true -> aarch64.offset_reg r = Ret (off (simd_v (r - Register.Q0))).
Proof.
  unfold is_x, is_q. intros _ Hr. bsplit. change Register.Q31 with (Register.Q0 + 31) in *.
  unfold aarch64.offset_reg. change Register.X31 with (Register.Q0 - 2) .
  rewrite (proj2 (Z.leb_gt r _)) by lia. rewrite andb_false_r. change Register.Q31 with (Register.Q0 + 31).
  rewrite !(proj2 (Z.leb_le _ _)) by lia. cbn [andb]. f_equal. rewrite (a64_v_stride (r - _)) by lia. done.
Qed.

Lemma load_guest_ret b r : load_guest b r = Ret (load1 b r).
Proof.
  unfold load_guest, load1. destruct (is_x r) eqn:Hx; [by rewrite (offset_x r Hx)|].
  destruct (is_q r) eqn:Hq; [by rewrite (offset_q r Hx Hq)|done].
Qed.
Lemma save_guest_ret b r : save_guest b r = Ret (store1 b r).
Proof.
  unfold save_guest, store1. destruct (is_x r) eqn:Hx; [by rewrite (offset_x r Hx)|].
  destruct (is_q r) eqn:Hq; [by rewrite (offset_q r Hx Hq)|done].
Qed.

(** The state lies at [cpu]; its fields do not wrap around. *)
Variable cpu : Z.
Hypothesis placed : ∀ f, a64_ok f = true -> 0 <= cpu + off f ∧ cpu + off f + a64_size f <= 2 ^ 64.

Lemma address_field m b f : xr m b = cpu -> a64_ok f = true -> address m b (Some (off f)) = cpu + off f.
Proof.
  intros Hb Hf. unfold address. cbn [default from_option]. rewrite Hb. apply wrap_small. pose proof (placed f Hf).
  assert (0 < a64_size f) by (destruct f as [| | | | | | | | |[]|]; cbn; lia). unfold fits. lia.
Qed.

Lemma x_ok r : is_x r = true -> a64_ok (gpr_x (r - Register.X0)) = true.
Proof.
  unfold is_x, a64_ok. intros Hr. bsplit. change Register.X30 with (Register.X0 + 30) in *.
  by rewrite !(proj2 (Z.leb_le _ _)) by lia.
Qed.
Lemma q_ok r : is_q r = true -> a64_ok (simd_v (r - Register.Q0)) = true.
Proof.
  unfold is_q, a64_ok. intros Hr. bsplit. change Register.Q31 with (Register.Q0 + 31) in *.
  by rewrite !(proj2 (Z.leb_le _ _)) by lia.
Qed.

Lemma bool_decide_app {A} `{EqDecision A} (x : A) l l' :
  bool_decide (x ∈ (l ++ l')%list) = bool_decide (x ∈ l) || bool_decide (x ∈ l').
Proof. rewrite <- bool_decide_or. apply bool_decide_ext, elem_of_app. Qed.

Lemma not_x_and_q r : is_q r = true -> is_x r = false.
Proof.
  unfold is_x, is_q. intros Hr. bsplit. apply andb_false_iff. right. apply Z.leb_gt.
  change Register.X30 with (Register.Q0 - 3). lia.
Qed.

Lemma xregs_one r n : bool_decide (n ∈ xregs [r]) = is_x r && (n =? r - Register.X0).
Proof.
  unfold xregs. cbn [omap list_omap]. destruct (is_x r); cbn [andb]; [|done].
  destruct (Z.eqb_spec n (r - Register.X0)) as [->|Hne]; [apply bool_decide_true, list_elem_of_here|].
  apply bool_decide_false. by rewrite list_elem_of_singleton.
Qed.
Lemma qregs_one r n : bool_decide (n ∈ qregs [r]) = is_q r && (n =? r - Register.Q0).
Proof.
  unfold qregs. cbn [omap list_omap]. destruct (is_q r); cbn [andb]; [|done].
  destruct (Z.eqb_spec n (r - Register.Q0)) as [->|Hne]; [apply bool_decide_true, list_elem_of_here|].
  apply bool_decide_false. by rewrite list_elem_of_singleton.
Qed.

(** What loading the registers of [l] makes of [m]. *)
Definition loaded (l : list Z) (m m' : a64_machine) : Prop :=
  mem m' = mem m ∧ sp m' = sp m ∧
  (∀ n, xr m' n = if bool_decide (n ∈ xregs l) then load 8 (mem m) (cpu + off (gpr_x n)) else xr m n) ∧
  (∀ n, vr m' n = if bool_decide (n ∈ qregs l) then load 16 (mem m) (cpu + off (simd_v n)) else vr m n).

Lemma run_load1 b r m : xr m b = cpu -> loaded [r] m (run (load1 b r) m).
Proof.
  intros Hb. unfold load1. destruct (is_x r) eqn:Hx; [|destruct (is_q r) eqn:Hq]; cbn [a64_run fold_left a64_exec].
  - rewrite (address_field m b _ Hb) by by apply x_ok. split_and!; [done|done| |]; intros n.
    + rewrite xregs_one, Hx. cbn [andb set_x xr]. unfold upd. by destruct (Z.eqb_spec n (r - Register.X0)) as [->|].
    + rewrite qregs_one. destruct (is_q r) eqn:Hq; [|done]. apply not_x_and_q in Hq. congruence.
  - rewrite (address_field m b _ Hb) by by apply q_ok. split_and!; [done|done| |]; intros n.
    + by rewrite xregs_one, Hx.
    + rewrite qregs_one, Hq. cbn [andb set_v vr]. unfold upd. by destruct (Z.eqb_spec n (r - Register.Q0)) as [->|].
  - split_and!; [done|done| |]; intros n; by rewrite ?xregs_one, ?qregs_one, ?Hx, ?Hq.
Qed.

Lemma run_loads b l : ∀ m, xr m b = cpu -> b ∉ xregs l -> loaded l m (run (mjoin (load1 b <$> l)) m).
Proof.
  induction l as [|r l IH]; intros m Hb Hnb; [done|].
  change (mjoin (load1 b <$> r :: l)) with (load1 b r ++ mjoin (load1 b <$> l))%list.
  rewrite a64_run_app. rewrite xregs_cons in Hnb. apply not_elem_of_app in Hnb as [Hnr Hnb].
  destruct (run_load1 b r m Hb) as (L1 & L2 & L3 & L4). set (m1 := run (load1 b r) m) in *. clearbody m1.
  destruct (IH m1) as (I1 & I2 & I3 & I4); [by rewrite L3, bool_decide_false|done|].
  unfold loaded. rewrite I1, I2. split_and!; [done|done| |]; intros n;
    rewrite ?I3, ?I4, ?L3, ?L4, L1, ?(xregs_cons r l), ?(qregs_cons r l), bool_decide_app.
  - by destruct (bool_decide (n ∈ xregs [r])), (bool_decide (n ∈ xregs l)).
  - by destruct (bool_decide (n ∈ qregs [r])), (bool_decide (n ∈ qregs l)).
Qed.

(** The fields of the registers of [l]. *)
Definition guest_field (l : list Z) (f : a64_field) : Prop :=
  match f with gpr_x n => n ∈ xregs l | simd_v n => n ∈ qregs l | _ => False end.

Lemma guest_field_ok l f : guest_field l f -> a64_ok f = true.
Proof.
  destruct f; cbn; try done; [intros Hn%xregs_elem|intros Hn%qregs_elem];
    destruct Hn as [_ Hn]; by rewrite !(proj2 (Z.leb_le _ _)) by lia.
Qed.

Lemma guest_field_cons r l f : guest_field (r :: l) f <-> guest_field [r] f \/ guest_field l f.
Proof. destruct f; cbn [guest_field]; rewrite ?(xregs_cons r l), ?(qregs_cons r l), ?elem_of_app; tauto. Qed.

(** The register a field is saved from, and the bytes it takes. *)
Definition reg_value (m : a64_machine) (f : a64_field) : Z :=
  match f with gpr_x n => xr m n | simd_v n => vr m n | _ => 0 end.
Definition size_nat (f : a64_field) : nat := Z.to_nat (a64_size f).

(** What saving the registers of [l] makes of memory. *)
Definition stored (l : list Z) (m : a64_machine) (b : bytes) : Prop :=
  (∀ f, guest_field l f -> load (size_nat f) b (cpu + off f) = reg_value m f mod 2 ^ (8 * a64_size f)) ∧
  (∀ a, (∀ f, guest_field l f -> a < cpu + off f \/ cpu + off f + a64_size f <= a) ->
     get8 b a = get8 (mem m) a).

Lemma size_of_nat f : Z.of_nat (size_nat f) = a64_size f.
Proof. unfold size_nat. rewrite Z2Nat.id; [done|]. destruct f as [| | | | | | | | |[]|]; cbn; lia. Qed.

Lemma guest_field_one r f : guest_field [r] f <->
  f = (if is_x r then gpr_x (r - Register.X0) else simd_v (r - Register.Q0)) ∧ (is_x r || is_q r = true).
Proof.
  assert (∀ n, n ∈ xregs [r] <-> is_x r = true ∧ n = r - Register.X0) as Hxn.
  { intros n. rewrite <- (bool_decide_eq_true (n ∈ _)), xregs_one, andb_true_iff, Z.eqb_eq. done. }
  assert (∀ n, n ∈ qregs [r] <-> is_q r = true ∧ n = r - Register.Q0) as Hqn.
  { intros n. rewrite <- (bool_decide_eq_true (n ∈ _)), qregs_one, andb_true_iff, Z.eqb_eq. done. }
  pose proof (not_x_and_q r) as Hxq.
  destruct f; cbn [guest_field]; rewrite ?Hxn, ?Hqn; destruct (is_x r), (is_q r); cbn [orb];
    (split; [intros|intros [??]]); destruct_and?; try done; try (specialize (Hxq eq_refl)); try done;
    simplify_eq; done.
Qed.

#[local] Instance guest_field_dec l f : Decision (guest_field l f).
Proof. destruct f; cbn [guest_field]; apply _. Defined.

Lemma store_field_stored r m f : guest_field [r] f ->
  stored [r] m (store (size_nat f) (mem m) (cpu + off f) (reg_value m f)).
Proof.
  intros Hf. pose proof Hf as [Hfe _]%guest_field_one. split.
  - intros g [-> _]%guest_field_one. rewrite <- Hfe, load_store. by rewrite size_of_nat.
  - intros a Ha. specialize (Ha f Hf). unfold store.
    rewrite get8_store_bytes, le_bytes_length, size_of_nat, decide_False by lia. done.
Qed.

Lemma run_store1 b r m : xr m b = cpu ->
  let m' := run (store1 b r) m in
  xr m' = xr m ∧ vr m' = vr m ∧ sp m' = sp m ∧ stored [r] m (mem m').
Proof.
  intros Hb. cbv zeta. unfold store1.
  destruct (is_x r) eqn:Hx; [|destruct (is_q r) eqn:Hq]; cbn [a64_run fold_left a64_exec].
  - rewrite (address_field m b _ Hb) by by apply x_ok. split_and!; [done..|].
    apply (store_field_stored r m (gpr_x (r - Register.X0))). apply guest_field_one. by rewrite Hx.
  - rewrite (address_field m b _ Hb) by by apply q_ok. split_and!; [done..|].
    apply (store_field_stored r m (simd_v (r - Register.Q0))). apply guest_field_one. by rewrite Hx, Hq.
  - split_and!; [done..|]. split; [|done]. intros f [_ Hf]%guest_field_one. by rewrite Hx, Hq in Hf.
Qed.

Lemma run_stores b l : ∀ m, xr m b = cpu ->
  let m' := run (mjoin (store1 b <$> l)) m in
  xr m' = xr m ∧ vr m' = vr m ∧ sp m' = sp m ∧ stored l m (mem m').
Proof.
  induction l as [|r l IH]; intros m Hb; cbv zeta.
  { split_and!; [done..|]. split; [|done]. intros f Hf. destruct f; cbn in Hf; try done; by apply elem_of_nil in Hf. }
  change (mjoin (store1 b <$> r :: l)) with (store1 b r ++ mjoin (store1 b <$> l))%list.
  rewrite a64_run_app. destruct (run_store1 b r m Hb) as (L1 & L2 & L3 & L4 & L5).
  set (m1 := run (store1 b r) m) in *. clearbody m1.
  destruct (IH m1) as (I1 & I2 & I3 & I4 & I5); [by rewrite L1|].
  rewrite I1, I2, I3, L1, L2, L3. split_and!; [done..|].
  assert (∀ f, reg_value m1 f = reg_value m f) as Hval by (intros []; cbn; rewrite ?L1, ?L2; done).
  split.
  - intros f Hf. destruct (decide (guest_field l f)) as [Hg|Hg]; [by rewrite I4, Hval|].
    pose proof Hf as Hf'. apply guest_field_cons in Hf as [Hf|]; [|done]. rewrite <- (L4 f Hf).
    unfold load. f_equal. apply load_bytes_ext. intros x Hx. rewrite size_of_nat in Hx. apply I5. intros g Hgf.
    assert (f <> g) as Hne by by intros ->.
    pose proof (off_disjoint f g (guest_field_ok _ _ Hf') (guest_field_ok _ _ Hgf) Hne). lia.
  - intros a Ha. rewrite I5 by (intros f Hf; apply Ha, guest_field_cons; by right).
    apply L5. intros f Hf. apply Ha, guest_field_cons. by left.
Qed.
End Swap.

(** * The register that holds the CPU *)

(** Not all registers from [reg] on are used: as many steps as there are
    registers reach one that is not. *)
Lemma cpu_register_spec regused :
  Register.X26 ∉ regused \/ (∃ n, 0 <= n <= 17 ∧ Register.X0 + n ∉ regused) ->
  cpu_register regused ∉ xregs regused ∧
  (cpu_register regused = 26 \/ 0 <= cpu_register regused <= 17).
Proof.
  intros Hfree. unfold cpu_register.
  set (reg := if bool_decide (Register.X26 ∈ regused) then Register.X0 else Register.X26).
  destruct (first_unused_found regused reg) as (H1 & H2 & H3). set (r := first_unused _ _ _) in *.
  split; [rewrite xregs_elem; replace (Register.X0 + (r - Register.X0)) with r by lia; tauto|].
  destruct (decide (Register.X26 ∈ regused)) as [H26|H26].
  - right. unfold reg in *. rewrite bool_decide_true in * by done. destruct Hfree as [|(n & Hn & Hf)]; [done|].
    split; [lia|]. destruct (Z.le_gt_cases r (Register.X0 + n)); [lia|]. exfalso. apply Hf, H3. lia.
  - left. unfold reg in *. rewrite bool_decide_false in * by done.
    destruct (decide (r = Register.X26)) as [->|]; [done|]. exfalso. apply H26, H3. lia.
Qed.

(** * The whole handler *)

Section Handler.
Context `{A64Layout}.
Variable native_opcode : list Z -> a64_machine -> a64_machine.
Abbreviation run := (a64_run native_opcode).
Variables (regs opcode : list Z) (bound : Z) (m0 : a64_machine).
Let cpu : Z := xr m0 26.

(** The state in memory with the CPU fields before it, and the stack the
    handler saves to. *)
Definition in_state (a : Z) : Prop := cpu - 0x10 <= a < cpu + bound.
Definition in_saves (a : Z) : Prop := sp m0 - 16 * Z.of_nat (length (saved regs)) <= a < sp m0.
Definition private (a : Z) : Prop := in_state a \/ in_saves a.

(** How a handler is entered: x26 holds the state, whose pc pointer points to
    its own pc; there is room on the stack. *)
Record entry_ok : Prop := {
  en_low : 0x10 <= cpu; en_high : cpu + bound <= 2 ^ 64;
  en_fields f : a64_ok f = true -> 0 <= off f ∧ off f + a64_size f <= bound;
  en_stack : 16 * Z.of_nat (length (saved regs)) <= sp m0 < 2 ^ 64;
  en_disjoint a : in_state a -> ~ in_saves a;
  en_pcptr : load 8 (mem m0) (cpu - 0x10) = cpu + off gpr_pc;
  en_regs n : 19 <= n <= 30 -> u64 (xr m0 n)
}.

(** The opcode reads and writes the registers it names and memory that is not
    the handler's own. *)
Definition agree (m m' : a64_machine) : Prop :=
  (∀ n, n ∈ xregs regs -> xr m n = xr m' n) ∧ (∀ n, n ∈ qregs regs -> vr m n = vr m' n) ∧
  (∀ a, ~ private a -> get8 (mem m) a = get8 (mem m') a).
Record opcode_ok : Prop := {
  op_x m n : n ∉ xregs regs -> xr (native_opcode opcode m) n = xr m n;
  op_v m n : n ∉ qregs regs -> vr (native_opcode opcode m) n = vr m n;
  op_sp m : sp (native_opcode opcode m) = sp m;
  op_mem m a : private a -> get8 (mem (native_opcode opcode m)) a = get8 (mem m) a;
  op_agree m m' : agree m m' -> agree (native_opcode opcode m) (native_opcode opcode m')
}.

(** The machine with the guest's registers in the processor. *)
Definition guest_view : a64_machine :=
  mkA64 (fun n => load 8 (mem m0) (cpu + off (gpr_x n))) (fun n => load 16 (mem m0) (cpu + off (simd_v n)))
    (sp m0) (mem m0).

Hypothesis entry : entry_ok.
Hypothesis opcode_fine : opcode_ok.
Hypothesis free : Register.X26 ∉ regs \/ (∃ n, 0 <= n <= 17 ∧ Register.X0 + n ∉ regs).

Let c : Z := cpu_register regs.

Lemma field_placed f : a64_ok f = true -> 0 <= cpu + off f ∧ cpu + off f + a64_size f <= 2 ^ 64.
Proof. intros Hf. pose proof (en_fields entry f Hf). pose proof (en_low entry). pose proof (en_high entry). lia. Qed.

Lemma field_in_state f a : a64_ok f = true -> cpu + off f <= a < cpu + off f + a64_size f -> in_state a.
Proof. intros Hf Ha. pose proof (en_fields entry f Hf). unfold in_state. lia. Qed.

(** Up to the opcode: the host's registers are on the stack, the guest's in
    the processor, the state untouched. *)
Definition before_opcode (m : a64_machine) : Prop :=
  agree m guest_view ∧ xr m c = cpu ∧
  (∀ n, n ∉ xregs regs -> n <> c -> xr m n = xr m0 n) ∧ (∀ n, n ∉ qregs regs -> vr m n = vr m0 n) ∧
  sp m = sp m0 - 16 * Z.of_nat (length (saved regs)) ∧
  (∀ a, ~ in_saves a -> get8 (mem m) a = get8 (mem m0) a) ∧
  (∀ i it, saved regs !! i = Some it -> load 8 (mem m) (slot (sp m0) i) = word_of m0 it).

Lemma run_before : before_opcode (run (mjoin (save_host <$> regs) ++
  (if c =? 26 then [] else [MOV c 26]) ++ mjoin (load1 c <$> regs))%list m0).
Proof.
  destruct (cpu_register_spec regs free) as [Hc _]. fold c in Hc.
  rewrite !a64_run_app.
  destruct (run_saves native_opcode regs m0 (en_stack entry)) as (S1 & S2 & S3 & S4 & S5).
  set (m1 := run (mjoin (save_host <$> regs)) m0) in *. clearbody m1. rewrite S3 in S4.
  set (m2 := run (if c =? 26 then [] else [MOV c 26]) m1).
  assert (xr m2 c = cpu ∧ (∀ n, n <> c -> xr m2 n = xr m0 n) ∧ vr m2 = vr m0 ∧ sp m2 = sp m1 ∧ mem m2 = mem m1)
    as (M1 & M2 & M3 & M4 & M5).
  { unfold m2. destruct (Z.eqb_spec c 26) as [->|Hne]; cbn; rewrite ?S1; [done|].
    split_and!; [by unfold upd; rewrite Z.eqb_refl| |done|done|done].
    intros n Hn. unfold upd. by rewrite (proj2 (Z.eqb_neq n c)). }
  clearbody m2.
  destruct (run_loads native_opcode cpu field_placed c regs m2 M1 Hc) as (L1 & L2 & L3 & L4).
  set (m3 := run (mjoin (load1 c <$> regs)) m2) in *. clearbody m3.
  assert (∀ a, ~ in_saves a -> get8 (mem m2) a = get8 (mem m0) a) as Hmem.
  { intros a Ha. rewrite M5. apply S4. unfold in_saves in Ha. lia. }
  assert (∀ f, a64_ok f = true -> load (size_nat f) (mem m2) (cpu + off f) = load (size_nat f) (mem m0) (cpu + off f)) as Hf.
  { intros f Hf. apply load_ext. intros x Hx. rewrite size_of_nat in Hx.
    apply Hmem, (en_disjoint entry), (field_in_state f); done. }
  unfold before_opcode, agree. rewrite L1, L2, M4, S3. split_and!; try done.
  - intros n Hn. rewrite L3, bool_decide_true by done. apply (Hf (gpr_x n)).
    apply (guest_field_ok regs (gpr_x n) Hn).
  - intros n Hn. rewrite L4, bool_decide_true by done. apply (Hf (simd_v n)).
    apply (guest_field_ok regs (simd_v n) Hn).
  - intros a Ha. apply Hmem. intros Hs. apply Ha. by right.
  - by rewrite L3, bool_decide_false.
  - intros n Hn Hnc. by rewrite L3, bool_decide_false, M2.
  - intros n Hn. by rewrite L4, bool_decide_false, M3.
  - intros i it Hi. rewrite M5. by apply S5.
Qed.

Lemma saved_elem g n : (g, n) ∈ saved regs <->
  if (g : bool) then 19 <= n <= 30 ∧ n ∈ xregs regs else 8 <= n <= 15 ∧ n ∈ qregs regs.
Proof.
  unfold saved. rewrite list_elem_of_omap. split.
  - intros (r & Hr & He). unfold saved1 in He.
    destruct ((Register.X19 <=? r) && (r <=? Register.X30)) eqn:E; [|destruct ((Register.Q8 <=? r) && _) eqn:E'; [|done]];
      bsplit; injection He as <- <-; rewrite ?xregs_elem, ?qregs_elem;
      change Register.X30 with (Register.X0 + 30) in *; change Register.X19 with (Register.X0 + 19) in *;
      change Register.Q15 with (Register.Q0 + 15) in *; change Register.Q8 with (Register.Q0 + 8) in *.
    + replace (Register.X0 + (19 + r - (Register.X0 + 19))) with r by lia. split_and!; [lia..|done|lia|lia].
    + replace (Register.Q0 + (8 + r - (Register.Q0 + 8))) with r by lia. split_and!; [lia..|done|lia|lia].
  - destruct g; rewrite ?xregs_elem, ?qregs_elem; intros (Hn & Hr & _).
    + exists (Register.X0 + n). split; [done|]. unfold saved1.
      change Register.X30 with (Register.X0 + 30). change Register.X19 with (Register.X0 + 19).
      rewrite !(proj2 (Z.leb_le _ _)) by lia. cbn [andb]. do 2 f_equal. lia.
    + exists (Register.Q0 + n). split; [done|]. unfold saved1.
      change Register.X30 with (Register.Q0 - 3). rewrite (proj2 (Z.leb_gt (Register.Q0 + n) _)) by lia.
      rewrite andb_false_r. change Register.Q15 with (Register.Q0 + 15). change Register.Q8 with (Register.Q0 + 8).
      rewrite !(proj2 (Z.leb_le _ _)) by lia. cbn [andb]. do 2 f_equal. lia.
Qed.

(** Behind the opcode: the guest's results are in the state, the host has its
    registers and stack back. *)
Definition after_opcode (m : a64_machine) : Prop :=
  let g := native_opcode opcode guest_view in
  (∀ n, n ∈ xregs regs -> load 8 (mem m) (cpu + off (gpr_x n)) = xr g n mod 2 ^ 64) ∧
  (∀ n, n ∈ qregs regs -> load 16 (mem m) (cpu + off (simd_v n)) = vr g n mod 2 ^ 128) ∧
  (∀ a, in_state a -> (∀ f, guest_field regs f -> a < cpu + off f \/ cpu + off f + a64_size f <= a) ->
     get8 (mem m) a = get8 (mem m0) a) ∧
  (∀ a, ~ private a -> get8 (mem m) a = get8 (mem g) a) ∧
  (∀ n, 19 <= n <= 30 -> xr m n = xr m0 n) ∧
  (∀ n, 8 <= n <= 15 -> vr m n mod 2 ^ 64 = vr m0 n mod 2 ^ 64) ∧
  sp m = sp m0.

Lemma run_after m3 : before_opcode m3 -> after_opcode (run ([OPCODE opcode] ++ mjoin (store1 c <$> regs) ++
  (if c =? 26 then [] else [MOV 26 c]) ++ mjoin (restore_host <$> reverse regs))%list m3).
Proof.
  intros (Ha & Hc3 & Hx3 & Hv3 & Hsp3 & Hm3 & Hs3). destruct (cpu_register_spec regs free) as [Hc Hc'].
  fold c in Hc, Hc'. rewrite !a64_run_app.
  change (run [OPCODE opcode] m3) with (native_opcode opcode m3).
  pose proof (op_agree opcode_fine _ _ Ha) as (G1 & G2 & G3). set (g := native_opcode opcode guest_view) in *.
  pose proof (op_x opcode_fine m3) as O1. pose proof (op_v opcode_fine m3) as O2.
  pose proof (op_sp opcode_fine m3) as O3. pose proof (op_mem opcode_fine m3) as O4.
  set (m4 := native_opcode opcode m3) in *. clearbody m4.
  destruct (run_stores native_opcode cpu field_placed c regs m4) as (T1 & T2 & T3 & T4 & T5); [by rewrite O1|].
  set (m5 := run (mjoin (store1 c <$> regs)) m4) in *. clearbody m5.
  set (m6 := run (if c =? 26 then [] else [MOV 26 c]) m5).
  assert (xr m6 26 = cpu ∧ (∀ n, n <> 26 -> xr m6 n = xr m4 n) ∧ vr m6 = vr m4 ∧ sp m6 = sp m4 ∧ mem m6 = mem m5)
    as (M1 & M2 & M3 & M4 & M5).
  { assert (xr m5 c = cpu) as H5 by by rewrite T1, O1.
    unfold m6. destruct (Z.eqb_spec c 26) as [Hc26|Hne];
      cbn [a64_run fold_left a64_exec set_x xr vr sp mem]; [by rewrite <- Hc26, T1, <- T1|].
    rewrite <- T1. split_and!; [unfold upd; by rewrite Z.eqb_refl| |done|done|done].
    intros n Hn. unfold upd. by rewrite (proj2 (Z.eqb_neq n 26)). }
  clearbody m6.
  assert (∀ a, ~ in_state a -> get8 (mem m5) a = get8 (mem m4) a) as Hout.
  { intros a Hna. apply T5. intros f Hf. apply guest_field_ok in Hf.
    destruct (Z.lt_ge_cases a (cpu + off f)); [by left|]. destruct (Z.le_gt_cases (cpu + off f + a64_size f) a); [by right|].
    exfalso. apply Hna, (field_in_state f); [done|lia]. }
  assert (∀ i it, saved regs !! i = Some it -> load 8 (mem m6) (slot (sp m0) i) = word_of m0 it) as Hslots.
  { intros i it Hi. rewrite <- (Hs3 i it Hi), M5. apply load_ext. intros x Hx.
    assert (in_saves x) as Hin.
    { unfold in_saves, slot in *. pose proof (lookup_lt_Some _ _ _ Hi). lia. }
    rewrite Hout by (intros Hst; by apply (en_disjoint entry x)). apply O4. by right. }
  pose proof (en_stack entry).
  destruct (run_restores native_opcode (word_of m0) regs m6 (sp m0)) as (R1 & R2 & R3 & R4);
    [rewrite M4, O3; lia|rewrite M4, O3; lia|lia|done|].
  set (m7 := run (mjoin (restore_host <$> reverse regs)) m6) in *. clearbody m7.
  unfold after_opcode. fold g. rewrite R1, R2, M5. split_and!; [..|done].
  - intros n Hn. rewrite (T4 (gpr_x n) Hn : load 8 (mem m5) _ = xr m4 n mod 2 ^ 64). by rewrite G1.
  - intros n Hn. rewrite (T4 (simd_v n) Hn : load 16 (mem m5) _ = vr m4 n mod 2 ^ 128). by rewrite G2.
  - intros a Hst Hnf. rewrite T5, O4, Hm3; [done|by apply (en_disjoint entry)|by left|done].
  - intros a Hp. rewrite Hout by (intros Hst; apply Hp; by left). by apply G3.
  - intros n Hn. rewrite R3. case_bool_decide as Hin.
    + apply Z.mod_small, (en_regs entry n Hn).
    + rewrite (saved_elem true n) in Hin. destruct (decide (n = 26)) as [->|Hne]; [by rewrite M1|].
      rewrite M2, O1, Hx3; [done|tauto|lia|tauto|done].
  - intros n Hn. rewrite R4. case_bool_decide as Hin.
    + unfold word_of; cbn [fst snd]. apply Z.mod_mod. lia.
    + rewrite (saved_elem false n) in Hin. rewrite M3, O2, Hv3; [done|tauto|tauto].
Qed.

Lemma run_upd (P : a64_machine -> Prop) l x d w v s b :
  (∀ x', x' d = w -> (∀ n, n <> d -> x' n = x n) -> P (run l (mkA64 x' v s b))) ->
  P (run l (mkA64 (upd x d w) v s b)).
Proof. exact (upd_abstract (fun x' => P (run l (mkA64 x' v s b))) x d w). Qed.

(** The machine behind [a64_advance]. *)
Definition advanced (m m' : a64_machine) : Prop :=
  let x1 := load 8 (mem m) (wrap64 (xr m 26 + -0x10)) in
  let x2 := wrap64 (load 8 (mem m) (wrap64 (x1 + 0)) + 4) in
  let b := store 8 (mem m) (wrap64 (x1 + 0)) x2 in
  let x27 := wrap64 (xr m 27 + 8) in
  vr m' = vr m ∧ sp m' = sp m ∧ mem m' = b ∧
  xr m' 0 = xr m 26 ∧ xr m' 1 = x2 ∧ xr m' 2 = x27 ∧ xr m' 27 = x27 ∧
  xr m' 16 = wrap 59 (load 8 b (wrap64 (x27 + 0))) ∧
  ∀ n, n ∉ [0; 1; 2; 16; 27] -> xr m' n = xr m n.

Ltac a64_step Q y Y F :=
  rewrite a64_run_cons; apply (run_upd Q); intros y Y F;
  unfold address in Y; cbn [xr vr sp mem default from_option id] in Y, F |- *.

Lemma advance_regs m : advanced m (run a64_advance m).
Proof.
  destruct m as [x v s b]. unfold a64_advance, advanced. cbn [xr vr sp mem].
  set (x1 := load 8 b (wrap64 (x 26 + -0x10))).
  set (x2 := wrap64 (load 8 b (wrap64 (x1 + 0)) + 4)). set (x27 := wrap64 (x 27 + 8)).
  set (b' := store 8 b (wrap64 (x1 + 0)) x2).
  pattern (run [MOV 0 26; LDRx 1 0 (Some (-0x10)); LDRx 2 1 None; ADDi 2 2 4; STRx 2 1 None; MOV 1 2;
    ADD8 27 27; MOV 2 27; LDRx 16 27 None; UBFX59 16; BR 16] (mkA64 x v s b)).
  match goal with |- ?P _ => set (Q := P) end.
  a64_step Q y0 Y0 F0.
  a64_step Q y1 Y1 F1.
  rewrite Y0 in Y1. fold x1 in Y1.
  a64_step Q y2 Y2 F2.
  rewrite Y1 in Y2.
  a64_step Q y3 Y3 F3. rewrite Y2 in Y3. fold x2 in Y3.
  rewrite a64_run_cons. cbn [a64_exec]. unfold set_mem, address. cbn [xr vr sp mem default from_option id].
  rewrite Y3, F3, F2, Y1 by done. fold b'.
  a64_step Q y4 Y4 F4. rewrite Y3 in Y4.
  a64_step Q y5 Y5 F5.
  rewrite F4, F3, F2, F1, F0 in Y5 by done. fold x27 in Y5.
  a64_step Q y6 Y6 F6. rewrite Y5 in Y6.
  a64_step Q y7 Y7 F7.
  rewrite F6, Y5 in Y7 by done.
  a64_step Q y8 Y8 F8. rewrite Y7 in Y8.
  unfold Q. cbn [a64_run fold_left a64_exec xr vr sp mem]. split_and!; try done.
  - by rewrite F8, F7, F6, F5, F4, F3, F2, F1, Y0.
  - by rewrite F8, F7, F6, F5, Y4.
  - by rewrite F8, F7, Y6.
  - by rewrite F8, F7, F6, Y5.
  - intros n Hn. rewrite !not_elem_of_cons in Hn. destruct Hn as (? & ? & ? & ? & ? & _).
    by rewrite F8, F7, F6, F5, F4, F3, F2, F1, F0.
Qed.

Lemma run_advance m : xr m 26 = cpu -> load 8 (mem m) (cpu - 0x10) = cpu + off gpr_pc ->
  let m' := run a64_advance m in
  let pc := wrap64 (load 8 (mem m) (cpu + off gpr_pc) + 4) in
  mem m' = store 8 (mem m) (cpu + off gpr_pc) pc ∧
  (∀ n, 19 <= n <= 30 -> n <> 27 -> xr m' n = xr m n) ∧ vr m' = vr m ∧ sp m' = sp m ∧
  xr m' 27 = wrap64 (xr m 27 + 8) ∧ xr m' 0 = cpu ∧ xr m' 1 = pc ∧ xr m' 2 = xr m' 27 ∧
  xr m' 16 = wrap 59 (load 8 (mem m') (xr m' 27)).
Proof.
  intros H26 Hpcp m' pc. pose proof (en_low entry). pose proof (en_high entry).
  assert (bound > 0) as Hb by (pose proof (en_fields entry gpr_pc eq_refl); cbn in *; lia).
  pose proof (field_placed gpr_pc eq_refl) as Hpc. cbn [a64_size] in Hpc.
  assert (wrap64 (cpu + -0x10) = cpu - 0x10) as Hw1 by (rewrite (wrap_small 64) by (unfold fits; lia); lia).
  assert (wrap64 (cpu + off gpr_pc + 0) = cpu + off gpr_pc) as Hw2 by (rewrite (wrap_small 64) by (unfold fits; lia); lia).
  destruct (advance_regs m) as (V & S & M & F0 & F1 & F2 & F27 & F16 & Ff). fold m' in V, S, M, F0, F1, F2, F27, F16, Ff.
  rewrite H26, Hw1, Hpcp, Hw2 in *. rewrite Z.add_0_r, wrap_wrap, <- M in F16. unfold pc. rewrite F27.
  split_and!; [done| |done..].
  intros n Hn Hn27. apply Ff. rewrite !not_elem_of_cons. split_and!; try lia. apply not_elem_of_nil.
Qed.

(** What a native handler does, for any instruction whose registers leave a
    temporary free: the guest has the opcode's results, the host its vector
    registers and its stack. *)
Definition next_pc : Z := wrap64 (load 8 (mem m0) (cpu + off gpr_pc) + 4).
Definition guest_handled (m' : a64_machine) : Prop :=
  let g := native_opcode opcode guest_view in
  (∀ n, n ∈ xregs regs -> load 8 (mem m') (cpu + off (gpr_x n)) = xr g n mod 2 ^ 64) ∧
  (∀ n, n ∈ qregs regs -> load 16 (mem m') (cpu + off (simd_v n)) = vr g n mod 2 ^ 128) ∧
  load 8 (mem m') (cpu + off gpr_pc) = next_pc ∧
  (∀ f, a64_ok f = true -> ~ guest_field regs f -> f <> gpr_pc ->
     load (size_nat f) (mem m') (cpu + off f) = load (size_nat f) (mem m0) (cpu + off f)) ∧
  (∀ a, ~ private a -> get8 (mem m') a = get8 (mem g) a) ∧
  (∀ n, 8 <= n <= 15 -> vr m' n mod 2 ^ 64 = vr m0 n mod 2 ^ 64) ∧ sp m' = sp m0.

Definition handled (m' : a64_machine) : Prop :=
  guest_handled m' ∧
  (∀ n, 19 <= n <= 30 -> n <> 27 -> xr m' n = xr m0 n) ∧
  (* the next handler *)
  xr m' 27 = wrap64 (xr m0 27 + 8) ∧ xr m' 0 = cpu ∧ xr m' 1 = next_pc ∧ xr m' 2 = xr m' 27 ∧
  xr m' 16 = wrap 59 (load 8 (mem m') (xr m' 27)).

(** Behind the opcode the fields that are not the instruction's, and the
    pointer to the pc, are as they were. *)
Lemma after_frame m f : after_opcode m -> a64_ok f = true -> ~ guest_field regs f ->
  load (size_nat f) (mem m) (cpu + off f) = load (size_nat f) (mem m0) (cpu + off f).
Proof.
  intros (_ & _ & A3 & _) Hf Hnf. apply load_ext. intros x Hx. rewrite size_of_nat in Hx.
  apply A3; [by apply (field_in_state f)|]. intros g Hg.
  assert (f <> g) as Hne by by intros ->.
  pose proof (off_disjoint f g Hf (guest_field_ok _ _ Hg) Hne). lia.
Qed.

Lemma after_pcptr m : after_opcode m -> load 8 (mem m) (cpu - 0x10) = cpu + off gpr_pc.
Proof.
  intros (_ & _ & A3 & _). rewrite <- (en_pcptr entry).
  pose proof (en_low entry). pose proof (en_fields entry gpr_pc eq_refl). cbn [a64_size] in *.
  apply load_ext. intros x Hx. apply A3; [unfold in_state; lia|]. intros g Hg.
  pose proof (en_fields entry g (guest_field_ok _ _ Hg)). lia.
Qed.

(** Writing the pc is all that is left to do for the guest. *)
Lemma pc_handled m m' : after_opcode m ->
  (∀ a, get8 (mem m') a = get8 (store 8 (mem m) (cpu + off gpr_pc) next_pc) a) ->
  (∀ n, vr m' n = vr m n) -> sp m' = sp m -> guest_handled m'.
Proof.
  intros Ha Hm Hv Hs. pose proof Ha as (A1 & A2 & A3 & A4 & A5 & A6 & A7).
  assert (∀ f, a64_ok f = true -> f <> gpr_pc ->
    load (size_nat f) (mem m') (cpu + off f) = load (size_nat f) (mem m) (cpu + off f)) as Hpc.
  { intros f Hf Hne. rewrite (load_ext _ _ _ _ (fun x _ => Hm x)). apply load_store_disjoint. rewrite size_of_nat.
    pose proof (off_disjoint f gpr_pc Hf eq_refl Hne) as Hd. cbn [a64_size] in Hd. lia. }
  split_and!.
  - intros n Hn. rewrite (Hpc (gpr_x n) (guest_field_ok regs (gpr_x n) Hn) ltac:(done) : load 8 _ _ = _). by apply A1.
  - intros n Hn. rewrite (Hpc (simd_v n) (guest_field_ok regs (simd_v n) Hn) ltac:(done) : load 16 _ _ = _). by apply A2.
  - rewrite (load_ext _ _ _ _ (fun x _ => Hm x)), load_store. apply wrap_wrap.
  - intros f Hf Hnf Hne. by rewrite Hpc, (after_frame m).
  - intros a Hp. rewrite Hm. unfold store. rewrite get8_store_bytes, le_bytes_length, decide_False; [by apply A4|].
    intros Hx. apply Hp. left. apply (field_in_state gpr_pc); done.
  - intros n Hn. rewrite Hv. by apply A6.
  - by rewrite Hs.
Qed.

Lemma handler_insns_ret : handler_insns regs opcode =
  Ret ((mjoin (save_host <$> regs) ++ (if c =? 26 then [] else [MOV c 26]) ++ mjoin (load1 c <$> regs)) ++
       ([OPCODE opcode] ++ mjoin (store1 c <$> regs) ++ (if c =? 26 then [] else [MOV 26 c]) ++
        mjoin (restore_host <$> reverse regs)) ++ a64_advance)%list.
Proof.
  unfold handler_insns. cbv zeta. fold c.
  rewrite (mapE_Ret (load_guest c) (load1 c)) by apply load_guest_ret. cbn [mbind exec_bind].
  rewrite (mapE_Ret (save_guest c) (store1 c)) by apply save_guest_ret. cbn [mbind exec_bind]. by rewrite <- !app_assoc.
Qed.

Lemma handler_handles : ∃ insns, handler_insns regs opcode = Ret insns ∧ handled (run insns m0).
Proof.
  rewrite handler_insns_ret. eexists. split; [reflexivity|]. rewrite a64_run_app.
  pose proof run_before as Hbefore. set (m3 := run _ m0) in *. clearbody m3.
  rewrite a64_run_app. pose proof (run_after m3 Hbefore) as Ha.
  set (m7 := run _ m3) in *. clearbody m7. pose proof Ha as (_ & _ & _ & _ & A5 & _).
  destruct (run_advance m7) as (V1 & V2 & V3 & V4 & V5 & V6 & V7 & V8 & V9);
    [by rewrite A5|by apply after_pcptr|].
  rewrite (after_frame m7 gpr_pc Ha eq_refl (fun F => F) : load 8 (mem m7) _ = _) in V1, V7.
  fold next_pc in V1, V7. unfold handled. split_and!; try done.
  - apply (pc_handled m7 _ Ha); [by rewrite V1|by rewrite V3|done].
  - intros n Hn Hne. rewrite V2 by done. by apply A5.
  - rewrite V5. by rewrite A5.
Qed.
End Handler.

(** * Properties *)

(** The registers of an instruction, and whether one is free to hold the state. *)
Definition temporary_free (regused : list Z) : Prop :=
  Register.X26 ∉ regused \/ ∃ n, 0 <= n <= 17 ∧ Register.X0 + n ∉ regused.

(** C4: a native handler, entered with the state in x26, runs the opcode on
    the guest's registers: the registers the instruction names end up in the
    state as the opcode leaves them, other memory as the opcode leaves it, the
    guest's other registers as they were, the pc four further; the host gets
    back its callee-saved registers and its stack; and the next handler is
    entered with x26, x27 and the arguments as this one was. The instruction
    must leave x26 or one of x0 to x17 free, and must not touch the state or
    the stack by itself. *)
Theorem native_handler_correct `{A64Layout} `{LlvmNumbers} native_opcode inst opcode bound m0 :
  let regused := parse_regused inst in
  entry_ok regused bound m0 -> opcode_ok native_opcode regused opcode bound m0 -> temporary_free regused ->
  ∃ insns, nativeHandlerAArch64 regused opcode = Ret (String.concat "" (a64_text <$> insns)) ∧
    handled native_opcode regused opcode bound m0 (a64_run native_opcode insns m0).
Proof.
  intros regused He Ho Hf. destruct (handler_handles native_opcode regused opcode bound m0 He Ho Hf) as (insns & Hi & Hh).
  exists insns. split; [|done]. unfold nativeHandlerAArch64. by rewrite Hi.
Qed.

(** A machine about to run the handler of an instruction of x19, x26 and v8. *)
Definition sample_inst : list mc_operand :=
  [OReg (@num sample_numbers (Nth CX 19)); OReg (@num sample_numbers (Nth CX 26));
   OReg (@num sample_numbers (Nth (CVec VD 1) 8))].
Definition sample_opcode (_ : list Z) (m : a64_machine) : a64_machine :=
  set_v (set_x m 19 (wrap64 (xr m 19 + xr m 26))) 8 (xr m 26).
Definition sample_machine : a64_machine :=
  mkA64 (fun n => if n =? 26 then 0x10000 else n) (fun n => n) 0x1000 (store 8 ∅ 0xfff0 0x10448).

Lemma sample_entry_of m : xr m 26 = 0x10000 -> sp m = 0x1000 -> load 8 (mem m) 0xfff0 = 0x10448 ->
  (∀ n, 19 <= n <= 30 -> u64 (xr m n)) -> @entry_ok a64_sample (@parse_regused sample_numbers sample_inst) 0x1000 m.
Proof.
  intros H26 Hsp Hpc Hregs. constructor; rewrite ?H26, ?Hsp; try done.
  - intros f Hf. change (@off _ _ _ (@a64_state a64_sample)) with a64_sample_off.
    assert (∀ s, 0 <= a64_sr_index s <= 11 ∧ a64_size (f_sr s) <= 8) as Hi by (intros []; cbn; lia).
    assert (∀ s, 0 <= a64_sleigh_index s <= 4) as Hj by (intros []; cbn; lia).
    destruct f as [n| | |n| |n| | | |s|s]; try (pose proof (Hi s)); try (pose proof (Hj s)); unfold a64_ok in Hf; bsplit;
      unfold a64_sample_off; cbn [a64_size] in *; lia.
  - unfold in_state, in_saves. rewrite H26, Hsp. intros a Ha. lia.
Qed.

Lemma sample_entry : @entry_ok a64_sample (@parse_regused sample_numbers sample_inst) 0x1000 sample_machine.
Proof.
  apply sample_entry_of; try done. intros n Hn. unfold sample_machine, fits. cbn [xr]. destruct (n =? 26); lia.
Qed.

Lemma sample_opcode_ok opcode m0 :
  opcode_ok sample_opcode (@parse_regused sample_numbers sample_inst) opcode 0x1000 m0.
Proof.
  assert (19 ∈ xregs (@parse_regused sample_numbers sample_inst)) as H19.
  { apply xregs_elem. split; [|lia]. by apply (proj1 (bool_decide_eq_true _)); vm_compute. }
  assert (26 ∈ xregs (@parse_regused sample_numbers sample_inst)) as H26.
  { apply xregs_elem. split; [|lia]. by apply (proj1 (bool_decide_eq_true _)); vm_compute. }
  assert (8 ∈ qregs (@parse_regused sample_numbers sample_inst)) as H8.
  { apply qregs_elem. split; [|lia]. by apply (proj1 (bool_decide_eq_true _)); vm_compute. }
  unfold sample_opcode. constructor; cbn [set_v set_x xr vr sp mem]; try done.
  - intros m n Hn. apply upd_other. by intros ->.
  - intros m n Hn. apply upd_other. by intros ->.
  - intros m m' (Hx & Hv & Hm). split_and!; [|..|exact Hm]; intros n Hn; cbn [set_v set_x xr vr]; unfold upd;
      (destruct (Z.eqb_spec n 19) || destruct (Z.eqb_spec n 8)); rewrite ?(Hx 19 H19), ?(Hx 26 H26); try done.
    all: by (apply Hx || (rewrite ?(Hv n Hn); done)).
Qed.

Theorem native_handler_correct_witness :
  ∃ insns, @nativeHandlerAArch64 a64_sample (@parse_regused sample_numbers sample_inst) [0xAB] =
      Ret (String.concat "" (a64_text <$> insns)) ∧
    @handled a64_sample sample_opcode (@parse_regused sample_numbers sample_inst) [0xAB] 0x1000 sample_machine
      (a64_run sample_opcode insns sample_machine).
Proof.
  apply (@native_handler_correct a64_sample sample_numbers); [apply sample_entry|apply sample_opcode_ok|].
  right. exists 0. split; [lia|]. apply (proj1 (bool_decide_eq_true _)). by vm_compute.
Defined.

(** The stack pointer is neither brought from the state nor taken back: an
    instruction that names it too gets the handler it gets without. *)
Theorem stack_pointer_ignored `{A64Layout} regused opcode : temporary_free regused ->
  handler_insns (reg_insert Register.X31 regused) opcode = handler_insns regused opcode.
Proof.
  intros Hfree.
  assert (cpu_register (reg_insert Register.X31 regused) = cpu_register regused) as Hc.
  { destruct (cpu_register_spec regused Hfree) as [_ Hc]. unfold cpu_register in *.
    assert (∀ x, x <> Register.X31 -> x ∈ reg_insert Register.X31 regused <-> x ∈ regused) as Hin.
    { intros x Hx. rewrite reg_insert_elem. tauto. }
    assert (Register.X26 <> Register.X31) as Hne by (intros He; vm_compute in He; discriminate).
    rewrite (bool_decide_ext _ _ (Hin Register.X26 Hne)).
    set (start := if bool_decide (Register.X26 ∈ regused) then Register.X0 else Register.X26) in *.
    destruct (first_unused_found regused start) as (F1 & F2 & F3). set (r := first_unused _ regused start) in *.
    assert (r < Register.X31) as Hr.
    { change Register.X31 with (Register.X0 + 31). change Register.X26 with (Register.X0 + 26) in Hc. lia. }
    f_equal. apply first_unused_unique; [done|rewrite Hin by lia; done|]. intros x Hx. rewrite Hin by lia. by apply F3. }
  rewrite !handler_insns_ret, Hc. rewrite !(join_reg_insert _ Register.X31) by done.
  by rewrite (join_reverse_insert restore_host).
Qed.
