(* ===== verification/IosChain.v ===== *)
(** ios/OpcodeEngine.cpp: native opcodes where no code can be generated. An
    opcode that is part of the program (the table [aetherext]) runs between
    pieces of code that swap registers; a vector of the pieces' addresses, the
    chain, is threaded through x27. The tables of pieces are those
    [opcret_generator] of src/UtilsAArch64.cpp writes; what the plain
    instructions do is NativeA64's. The handlers that own the chains are
    IosHandler's. *)
From Stdlib Require Import ZArith Lia List Sorting.Sorted.
From stdpp Require Import base list gmap.
From S2P Require Import Prelude Utils Registers StateMem CPUState AArch64 UtilsAArch64 Emit NativeA64.
#[local] Open Scope Z_scope.

(** * The pieces *)

(** [vm_opcode_chain_...] and the two functions without a number; [c] is the
    register that holds the CPU. *)
Inductive piece :=
| chain_str_x (t : Z) | chain_ldr_x (t : Z) | chain_str_d (t : Z) | chain_ldr_d (t : Z)
| chain_save_x26 (n : Z) | chain_load_x26 (n : Z)
| chain_v2h_gpr (x c : Z) | chain_h2v_gpr (x c : Z) | chain_v2h_fpu (q c : Z) | chain_h2v_fpu (q c : Z)
| execute_prebuilt | finish_opchain.

#[export] Instance piece_eq_dec : EqDecision piece.
Proof. solve_decision. Defined.

(** The tables of pieces: registers to the stack and back, x26 to a temporary
    and back, and per guest register one piece for each register that may hold
    the CPU. *)
Definition str_xs : list piece := chain_str_x <$> seqZ 19 12.
Definition str_ds : list piece := chain_str_d <$> seqZ 8 8.
Definition ldr_xs : list piece := chain_ldr_x <$> seqZ 19 12.
Definition ldr_ds : list piece := chain_ldr_d <$> seqZ 8 8.
Definition save_x26 : list piece := chain_save_x26 <$> seqZ 0 6.
Definition load_x26 : list piece := chain_load_x26 <$> seqZ 0 6.

Definition cpu_regs : list Z := [0; 1; 2; 3; 4; 5; 26].
Definition max_gpr : Z := 31.
Definition max_fpu : Z := 32.
Definition v2h_xs : list (list piece) := (fun x => chain_v2h_gpr x <$> cpu_regs) <$> seqZ 0 max_gpr.
Definition h2v_xs : list (list piece) := (fun x => chain_h2v_gpr x <$> cpu_regs) <$> seqZ 0 max_gpr.
Definition v2h_qs : list (list piece) := (fun q => chain_v2h_fpu q <$> cpu_regs) <$> seqZ 0 max_fpu.
Definition h2v_qs : list (list piece) := (fun q => chain_h2v_fpu q <$> cpu_regs) <$> seqZ 0 max_fpu.

(** All pieces of the program. *)
Definition all_pieces : list piece :=
  (str_xs ++ str_ds ++ ldr_xs ++ ldr_ds ++ save_x26 ++ load_x26 ++
   mjoin v2h_xs ++ mjoin h2v_xs ++ mjoin v2h_qs ++ mjoin h2v_qs ++ [execute_prebuilt; finish_opchain])%list.

(** Where the linker put them: [finish_emulation], which ends a chain, the
    instruction behind [blr] in [execute_prebuilt], and the table of opcodes
    with a [ret] each. *)
Class ChainCode := {
  address_of : piece -> Z;
  piece_at : Z -> option piece;
  finish_emulation : Z;
  blr_return : Z;
  aetherext_start : Z;
  aetherext : list Z;
  piece_at_address p : p ∈ all_pieces -> piece_at (wrap 59 (address_of p)) = Some p;
  finish_not_piece : piece_at (wrap 59 finish_emulation) = None
}.

(** [l[i]]; nothing is known beyond the array. *)
Definition at_index {A} (l : list A) (i : Z) : exec A :=
  if i <? 0 then Undef else of_option Undef (l !! Z.to_nat i).

(** * [setup_chains] *)

Section Setup.
Context `{ChainCode}.

Definition push_piece (l : list piece) (i : Z) : exec (list Z) := p ← at_index l i; Ret [address_of p].

(** Save and load host context. *)
Definition host_pieces (xs ds : list piece) (r : Z) : exec (list Z) :=
  if (Register.X19 <=? r) && (r <=? Register.X30) then push_piece xs (r - Register.X19)
  else if (Register.Q8 <=? r) && (r <=? Register.Q15) then push_piece ds (r - Register.Q8)
  else Ret [].

(** Load and save guest context. *)
Definition guest_pieces (xs qs : list (list piece)) (regcpu r : Z) : exec (list Z) :=
  if is_x r then l ← at_index xs (r - Register.X0); push_piece l regcpu
  else if is_q r then l ← at_index qs (r - Register.Q0); push_piece l regcpu
  else Ret [].

(** The x26 pieces are chosen before the number is asserted to be in range. *)
Definition setup_chains (regused : list Z) (prebuilt : Z) : exec (list Z) :=
  saves ← mapE (host_pieces str_xs str_ds) regused;
  let cpu := cpu_register regused in
  x26 ← (if cpu =? 26 then Ret [] else push_piece save_x26 cpu);
  let regcpu := if cpu =? 26 then 6 else cpu in
  v2h ← mapE (guest_pieces v2h_xs v2h_qs regcpu) regused;
  h2v ← mapE (guest_pieces h2v_xs h2v_qs regcpu) regused;
  x26' ← (if regcpu =? 6 then Ret [] else push_piece load_x26 regcpu);
  loads ← mapE (host_pieces ldr_xs ldr_ds) (reverse regused);
  Ret (mjoin saves ++ x26 ++ mjoin v2h ++ [address_of execute_prebuilt; prebuilt] ++
       mjoin h2v ++ x26' ++ mjoin loads ++ [address_of finish_opchain; finish_emulation])%list.

(** [OpcodeNativeImpl::callable]: the address of the opcode's code, unless an
    operand is a register the chain needs. *)
Definition chain_register `{LlvmNumbers} (o : mc_operand) : bool :=
  match operand_reg o with
  | Some r => (r =? num (Nth CX 26)) || (r =? num (Nth CX 27)) || (r =? num LR)
  | None => false
  end.

Definition impl_address (i : nat) : Z := aetherext_start + 8 * Z.of_nat i.

Definition callable `{LlvmNumbers} (inst : list mc_operand) (opc : Z) : exec (option Z) :=
  if existsb chain_register inst then Ret None
  else
    found ← binary_search (key_ltb (fun opc : Z => opc)) (arr_rd aetherext) (length aetherext) opc;
    same ← is_exact (arr_rd aetherext) (key_eqb (fun opc : Z => opc)) found (length aetherext) opc;
    if same : bool then Ret (Some (impl_address found)) else Ret None.
End Setup.

(** * Running a chain *)

Section Run.
Context `{A64Layout} `{ChainCode}.
Variable native_opcode : list Z -> a64_machine -> a64_machine.

(** [extract_handler_x30_pre]: x27 to the next address, which goes to x30. *)
Definition extract_handler_x30_pre (m : a64_machine) : a64_machine :=
  let a := wrap64 (xr m 27 + 8) in
  set_x (set_x m 27 a) 30 (wrap 59 (load 8 (mem m) a)).

(** The instruction of a piece that has only one. *)
Definition piece_insn (p : piece) : option a64_insn :=
  match p with
  | chain_str_x t => Some (STRx_pre t)
  | chain_ldr_x t => Some (LDRx_post t)
  | chain_str_d t => Some (STRd_pre t)
  | chain_ldr_d t => Some (LDRd_post t)
  | chain_save_x26 n => Some (MOV n 26)
  | chain_load_x26 n => Some (MOV 26 n)
  | chain_v2h_gpr x c => Some (LDRx x c (Some (off (gpr_x x))))
  | chain_h2v_gpr x c => Some (STRx x c (Some (off (gpr_x x))))
  | chain_v2h_fpu q c => Some (LDRq q c (off (simd_v q)))
  | chain_h2v_fpu q c => Some (STRq q c (off (simd_v q)))
  | execute_prebuilt | finish_opchain => None
  end.

(** The opcode behind an address of [aetherext]. *)
Definition opcode_at (a : Z) : option (list Z) :=
  let i := a - aetherext_start in
  if (0 <=? i) && (i mod 8 =? 0) then le_bytes 4 <$> aetherext !! Z.to_nat (i / 8) else None.

(** The opcode is called; its [ret] must find x30 unchanged. *)
Definition call_prebuilt (m : a64_machine) : exec a64_machine :=
  opcode ← of_option Undef (opcode_at (xr m 30));
  let m := native_opcode opcode (set_x m 30 blr_return) in
  if xr m 30 =? blr_return then Ret m else Undef.

(** The instructions of [finish_opchain] before the next address. *)
Definition finish_insns : list a64_insn :=
  [MOV 0 26; LDRx 1 0 (Some (-0x10)); LDRx 2 1 None; ADDi 2 2 4; STRx 2 1 None; MOV 1 2].

(** A piece up to its [br x30]. *)
Definition run_piece (p : piece) (m : a64_machine) : exec a64_machine :=
  match p with
  | execute_prebuilt =>
      m ← call_prebuilt (extract_handler_x30_pre m);
      Ret (a64_exec native_opcode (extract_handler_x30_pre m) (MOV 2 27))
  | finish_opchain =>
      Ret (a64_exec native_opcode (extract_handler_x30_pre (a64_run native_opcode finish_insns m)) (MOV 2 27))
  | _ => match piece_insn p with
         | Some i => Ret (extract_handler_x30_pre (a64_exec native_opcode m i))
         | None => Undef
         end
  end.

(** From the code at [pc] until [finish_emulation] is reached. *)
Fixpoint run_chain (fuel : nat) (pc : Z) (m : a64_machine) : exec a64_machine :=
  match fuel with
  | O => Undef
  | S f =>
      if pc =? wrap 59 finish_emulation then Ret m
      else match piece_at pc with
           | None => Undef
           | Some p => m' ← run_piece p m; run_chain f (xr m' 30) m'
           end
  end.

(** [execPrebuilt]: [aether_vm_entry] goes to the first address. *)
Definition execPrebuilt (fuel : nat) (m : a64_machine) : exec a64_machine :=
  run_chain fuel (wrap 59 (load 8 (mem m) (xr m 27))) m.
End Run.

(** * The chain as pieces of plain instructions *)

Definition save_piece (r : Z) : list piece :=
  if (Register.X19 <=? r) && (r <=? Register.X30) then [chain_str_x (19 + (r - Register.X19))]
  else if (Register.Q8 <=? r) && (r <=? Register.Q15) then [chain_str_d (8 + (r - Register.Q8))] else [].
Definition restore_piece (r : Z) : list piece :=
  if (Register.X19 <=? r) && (r <=? Register.X30) then [chain_ldr_x (19 + (r - Register.X19))]
  else if (Register.Q8 <=? r) && (r <=? Register.Q15) then [chain_ldr_d (8 + (r - Register.Q8))] else [].
Definition load_piece (c r : Z) : list piece :=
  if is_x r then [chain_v2h_gpr (r - Register.X0) c]
  else if is_q r then [chain_v2h_fpu (r - Register.Q0) c] else [].
Definition store_piece (c r : Z) : list piece :=
  if is_x r then [chain_h2v_gpr (r - Register.X0) c]
  else if is_q r then [chain_h2v_fpu (r - Register.Q0) c] else [].

(** What comes before and behind the opcode. *)
Definition pieces_before (regs : list Z) (c : Z) : list piece :=
  (mjoin (save_piece <$> regs) ++ (if c =? 26 then [] else [chain_save_x26 c]) ++ mjoin (load_piece c <$> regs))%list.
Definition pieces_after (regs : list Z) (c : Z) : list piece :=
  (mjoin (store_piece c <$> regs) ++ (if c =? 26 then [] else [chain_load_x26 c]) ++
   mjoin (restore_piece <$> reverse regs))%list.

(** The number of the register the chain keeps the CPU in has a column. *)
Definition has_column (c : Z) : Prop := c = 26 \/ 0 <= c <= 5.
Definition column (c : Z) : Z := if c =? 26 then 6 else c.

Lemma at_index_seqZ {A} (g : Z -> A) a n i : 0 <= i < n -> at_index (g <$> seqZ a n) i = Ret (g (a + i)).
Proof.
  intros Hi. unfold at_index. zcase; [lia|]. rewrite list_lookup_fmap.
  rewrite (proj2 (lookup_seqZ a n (Z.to_nat i) (a + i))) by lia. done.
Qed.

Lemma at_index_column {A} (g : Z -> A) c : has_column c -> at_index (g <$> cpu_regs) (column c) = Ret (g c).
Proof.
  unfold column. intros [-> | Hc]; [done|]. zcase; [lia|].
  assert (c = 0 \/ c = 1 \/ c = 2 \/ c = 3 \/ c = 4 \/ c = 5) as Hcs by lia.
  repeat (destruct Hcs as [-> | Hcs]; [done|]). by subst.
Qed.

Section Pieces.
Context `{A64Layout} `{ChainCode}.

Lemma host_pieces_ret (gx gd : Z -> piece) r :
  host_pieces (gx <$> seqZ 19 12) (gd <$> seqZ 8 8) r =
  Ret (address_of <$> (if (Register.X19 <=? r) && (r <=? Register.X30) then [gx (19 + (r - Register.X19))]
    else if (Register.Q8 <=? r) && (r <=? Register.Q15) then [gd (8 + (r - Register.Q8))] else [])).
Proof.
  unfold host_pieces, push_piece. destruct (_ && _) eqn:Hx; [|destruct ((Register.Q8 <=? r) && _) eqn:Hq; [|done]]; bsplit.
  - change Register.X30 with (Register.X19 + 11) in *. by rewrite at_index_seqZ by lia.
  - change Register.Q15 with (Register.Q8 + 7) in *. by rewrite at_index_seqZ by lia.
Qed.

Lemma guest_pieces_ret (gx gq : Z -> Z -> piece) c r : has_column c ->
  guest_pieces ((fun x => gx x <$> cpu_regs) <$> seqZ 0 max_gpr) ((fun q => gq q <$> cpu_regs) <$> seqZ 0 max_fpu)
    (column c) r =
  Ret (address_of <$> (if is_x r then [gx (r - Register.X0) c] else if is_q r then [gq (r - Register.Q0) c] else [])).
Proof.
  intros Hc. unfold guest_pieces, push_piece.
  destruct (is_x r) eqn:Hx; [|destruct (is_q r) eqn:Hq; [|done]]; unfold is_x, is_q in *; bsplit.
  - change Register.X30 with (Register.X0 + 30) in *. rewrite at_index_seqZ by (unfold max_gpr; lia).
    cbn [mbind exec_bind]. by rewrite at_index_column.
  - change Register.Q31 with (Register.Q0 + 31) in *. rewrite at_index_seqZ by (unfold max_fpu; lia).
    cbn [mbind exec_bind]. by rewrite at_index_column.
Qed.

Lemma fmap_mjoin {A B C} (f : B -> C) (g : A -> list B) l : f <$> mjoin (g <$> l) = mjoin ((fun x => f <$> g x) <$> l).
Proof.
  induction l as [|x l IH]; [done|]. rewrite !fmap_cons. cbn [mjoin list_join]. rewrite fmap_app. by f_equal.
Qed.

(** The chain of a set of registers. *)
Lemma setup_chains_ret regs prebuilt : let c := cpu_register regs in has_column c ->
  setup_chains regs prebuilt = Ret ((address_of <$> pieces_before regs c) ++ [address_of execute_prebuilt; prebuilt] ++
    (address_of <$> pieces_after regs c) ++ [address_of finish_opchain; finish_emulation])%list.
Proof.
  cbv zeta. intros Hc. unfold setup_chains. set (c := cpu_register regs) in *. cbv zeta. fold (column c).
  unfold str_xs, str_ds, ldr_xs, ldr_ds, v2h_xs, v2h_qs, h2v_xs, h2v_qs.
  rewrite (mapE_Ret _ _ _ (host_pieces_ret chain_str_x chain_str_d)). cbn [mbind exec_bind].
  assert ((if c =? 26 then Ret [] else push_piece save_x26 c) =
    Ret (address_of <$> (if c =? 26 then [] else [chain_save_x26 c]))) as ->.
  { zcase; [done|]. unfold push_piece, save_x26. destruct Hc; [done|]. by rewrite at_index_seqZ by lia. }
  cbn [mbind exec_bind]. rewrite !(mapE_Ret _ _ _ (fun r => guest_pieces_ret _ _ c r Hc)). cbn [mbind exec_bind].
  assert ((if column c =? 6 then Ret [] else push_piece load_x26 (column c)) =
    Ret (address_of <$> (if c =? 26 then [] else [chain_load_x26 c]))) as ->.
  { unfold column. destruct (Z.eqb_spec c 26); [done|]. zcase; [destruct Hc; lia|].
    unfold push_piece, load_x26. destruct Hc; [done|]. by rewrite at_index_seqZ by lia. }
  cbn [mbind exec_bind]. rewrite (mapE_Ret _ _ _ (host_pieces_ret chain_ldr_x chain_ldr_d)). cbn [mbind exec_bind].
  unfold pieces_before, pieces_after. rewrite !fmap_app, !fmap_mjoin, <- !app_assoc. done.
Qed.

(** They run the instructions of NativeA64. *)
Lemma pieces_before_insns regs c : piece_insn <$> pieces_before regs c =
  Some <$> (mjoin (save_host <$> regs) ++ (if c =? 26 then [] else [MOV c 26]) ++ mjoin (load1 c <$> regs))%list.
Proof.
  unfold pieces_before. rewrite !fmap_app, !fmap_mjoin. f_equal; [|f_equal; [by destruct (c =? 26)|]];
    f_equal; apply list_fmap_ext; intros _ r _.
  - unfold save_piece, save_host. destruct (_ && _); [cbn; do 3 f_equal; lia|]. by destruct (_ && _); [cbn; do 3 f_equal; lia|].
  - unfold load_piece, load1. destruct (is_x r); [done|]. by destruct (is_q r).
Qed.

Lemma pieces_after_insns regs c : piece_insn <$> pieces_after regs c =
  Some <$> (mjoin (store1 c <$> regs) ++ (if c =? 26 then [] else [MOV 26 c]) ++ mjoin (restore_host <$> reverse regs))%list.
Proof.
  unfold pieces_after. rewrite !fmap_app, !fmap_mjoin. f_equal; [|f_equal; [by destruct (c =? 26)|]];
    f_equal; apply list_fmap_ext; intros _ r _.
  - unfold store_piece, store1. destruct (is_x r); [done|]. by destruct (is_q r).
  - unfold restore_piece, restore_host. destruct (_ && _); [cbn; do 3 f_equal; lia|]. by destruct (_ && _); [cbn; do 3 f_equal; lia|].
Qed.
End Pieces.

(** * Pieces that are there *)

Lemma elem_fmap_seqZ {A} (g : Z -> A) a n i : a <= i < a + n -> g i ∈ (g <$> seqZ a n).
Proof. intros Hi. apply list_elem_of_fmap. exists i. split; [done|]. by apply elem_of_seqZ. Qed.

Lemma elem_column (g : Z -> Z -> piece) n x c : 0 <= x < n -> has_column c ->
  g x c ∈ mjoin ((fun x => g x <$> cpu_regs) <$> seqZ 0 n).
Proof.
  intros Hx Hc. apply list_elem_of_join. exists (g x <$> cpu_regs). split.
  - apply list_elem_of_fmap. exists c. split; [done|]. destruct Hc as [-> | Hc]; [unfold cpu_regs; in_list|].
    assert (c = 0 \/ c = 1 \/ c = 2 \/ c = 3 \/ c = 4 \/ c = 5) as Hcs by lia.
    repeat (destruct Hcs as [-> | Hcs]; [unfold cpu_regs; in_list|]). subst. unfold cpu_regs. in_list.
  - by apply (elem_fmap_seqZ (fun x => g x <$> cpu_regs)).
Qed.

(** The pieces of a program, each table apart. *)
Definition known (p : piece) : Prop :=
  match p with
  | chain_str_x t | chain_ldr_x t => 19 <= t <= 30
  | chain_str_d t | chain_ldr_d t => 8 <= t <= 15
  | chain_save_x26 n | chain_load_x26 n => 0 <= n <= 5
  | chain_v2h_gpr x c | chain_h2v_gpr x c => 0 <= x <= 30 ∧ has_column c
  | chain_v2h_fpu q c | chain_h2v_fpu q c => 0 <= q <= 31 ∧ has_column c
  | execute_prebuilt | finish_opchain => True
  end.

Lemma known_piece p : known p -> p ∈ all_pieces.
Proof.
  intros Hp. unfold all_pieces. rewrite !elem_of_app.
  destruct p as [t|t|t|t|n|n|x c|x c|q c|q c| |]; cbn [known] in Hp.
  - left. apply elem_fmap_seqZ. lia.
  - do 2 right; left. apply elem_fmap_seqZ. lia.
  - right; left. apply elem_fmap_seqZ. lia.
  - do 3 right; left. apply elem_fmap_seqZ. lia.
  - do 4 right; left. apply elem_fmap_seqZ. lia.
  - do 5 right; left. apply elem_fmap_seqZ. lia.
  - do 6 right; left. apply elem_column; [unfold max_gpr; lia|tauto].
  - do 7 right; left. apply elem_column; [unfold max_gpr; lia|tauto].
  - do 8 right; left. apply elem_column; [unfold max_fpu; lia|tauto].
  - do 9 right; left. apply elem_column; [unfold max_fpu; lia|tauto].
  - do 10 right. in_list.
  - do 10 right. in_list.
Qed.

Lemma known_join (g : Z -> list piece) l : (∀ r, Forall known (g r)) -> Forall known (mjoin (g <$> l)).
Proof.
  intros Hg. apply Forall_forall. intros p Hp. apply list_elem_of_join in Hp as (ps & Hp & (r & -> & _)%list_elem_of_fmap).
  by apply (proj1 (Forall_forall _ _) (Hg r)).
Qed.

Ltac known_one :=
  unfold is_x, is_q in *; bsplit; apply Forall_singleton; cbn [known];
  change Register.X30 with (Register.X19 + 11) in *; change Register.Q15 with (Register.Q8 + 7) in *;
  change Register.Q31 with (Register.Q0 + 31) in *; change Register.X19 with (Register.X0 + 19) in *;
  (lia || (split; [lia|done])).

Lemma known_before regs c : has_column c -> Forall known (pieces_before regs c).
Proof.
  intros Hc. unfold pieces_before. rewrite !Forall_app. split_and!.
  - apply known_join. intros r. unfold save_piece. destruct ((_ <=? r) && _) eqn:E; [known_one|clear E].
    destruct ((_ <=? r) && _) eqn:E; [known_one|constructor].
  - destruct (Z.eqb_spec c 26); [constructor|]. destruct Hc; [done|]. by apply Forall_singleton.
  - apply known_join. intros r. unfold load_piece. destruct (is_x r) eqn:E; [known_one|clear E].
    destruct (is_q r) eqn:E; [known_one|constructor].
Qed.

Lemma known_after regs c : has_column c -> Forall known (pieces_after regs c).
Proof.
  intros Hc. unfold pieces_after. rewrite !Forall_app. split_and!.
  - apply known_join. intros r. unfold store_piece. destruct (is_x r) eqn:E; [known_one|clear E].
    destruct (is_q r) eqn:E; [known_one|constructor].
  - destruct (Z.eqb_spec c 26); [constructor|]. destruct Hc; [done|]. by apply Forall_singleton.
  - apply known_join. intros r. unfold restore_piece. destruct ((_ <=? r) && _) eqn:E; [known_one|clear E].
    destruct ((_ <=? r) && _) eqn:E; [known_one|constructor].
Qed.

(** * The chain follows the plain instructions *)

(** The registers the chain has for itself: x27, x30 and the argument x2. *)
Definition chain_owned (n : Z) : bool := (n =? 2) || (n =? 27) || (n =? 30).

(** The same machine but for them. *)
Definition like (m mc : a64_machine) : Prop :=
  (∀ n, chain_owned n = false -> xr mc n = xr m n) ∧ (∀ n, vr mc n = vr m n) ∧ sp mc = sp m ∧
  (∀ a, get8 (mem mc) a = get8 (mem m) a).

Definition apart (i : a64_insn) : bool :=
  match i with
  | STRx_pre t | LDRx_post t => negb (chain_owned t)
  | STRd_pre _ | LDRd_post _ => true
  | MOV d n => negb (chain_owned d) && negb (chain_owned n)
  | LDRx t n _ | STRx t n _ => negb (chain_owned t) && negb (chain_owned n)
  | LDRq _ n _ | STRq _ n _ => negb (chain_owned n)
  | _ => false
  end.

Lemma wrap_59_64 w : wrap 59 (wrap64 w) = wrap 59 w.
Proof.
  unfold wrap. change (2 ^ 64) with (2 ^ 59 * 2 ^ 5). rewrite Z.rem_mul_r by lia.
  rewrite Z.mul_comm, Z.mod_add by lia. apply Z.mod_mod. lia.
Qed.

Section Follow.
Context `{A64Layout} `{ChainCode}.
Variable native_opcode : list Z -> a64_machine -> a64_machine.
Abbreviation run := (a64_run native_opcode).

Lemma like_refl m : like m m.
Proof. done. Qed.

Lemma like_set_x m mc t v : like m mc -> like (set_x m t v) (set_x mc t v).
Proof.
  intros (Hx & Hv & Hs & Hm). split_and!; [|done..]. intros n Hn. cbn [set_x xr]. unfold upd. zcase; [done|by apply Hx].
Qed.

Lemma like_owned m mc t v : chain_owned t = true -> like m mc -> like m (set_x mc t v).
Proof.
  intros Ht (Hx & Hv & Hs & Hm). split_and!; [|done..]. intros n Hn. cbn [set_x xr].
  rewrite upd_other; [by apply Hx|]. intros ->. congruence.
Qed.

Lemma like_set_v m mc t v : like m mc -> like (set_v m t v) (set_v mc t v).
Proof.
  intros (Hx & Hv & Hs & Hm). split_and!; [done| |done..]. intros n. cbn [set_v vr]. unfold upd. by zcase.
Qed.

Lemma like_set_sp m mc a : like m mc -> like (set_sp m a) (set_sp mc a).
Proof. by intros (Hx & Hv & Hs & Hm). Qed.

Lemma like_store m mc k a v : like m mc -> like (set_mem m (store k (mem m) a v)) (set_mem mc (store k (mem mc) a v)).
Proof.
  intros (Hx & Hv & Hs & Hm). split_and!; [done..|]. intros b. cbn [set_mem mem]. unfold store.
  rewrite !get8_store_bytes. by case_decide.
Qed.

Lemma like_load m mc k a : like m mc -> load k (mem mc) a = load k (mem m) a.
Proof. intros (_ & _ & _ & Hm). by apply load_ext. Qed.

Lemma like_address m mc n o : chain_owned n = false -> like m mc -> address mc n o = address m n o.
Proof. intros Hn (Hx & _). unfold address. by rewrite Hx. Qed.

(** Equal instructions keep the machines alike. *)
Lemma exec_like i m mc : apart i = true -> like m mc ->
  like (a64_exec native_opcode m i) (a64_exec native_opcode mc i).
Proof.
  intros Hi Hl. pose proof Hl as (Hx & Hv & Hs & Hm).
  destruct i as [t|t|t|t|d n|t n o|t n o|t n o|t n o| | | | |]; try done; cbn [apart] in Hi; bsplit;
    repeat match goal with H : negb _ = true |- _ => apply negb_true_iff in H end;
    cbn [a64_exec]; cbv zeta; rewrite ?Hs, ?(like_load m mc), ?(Hx t), ?(Hx n), ?(Hv t), ?(like_address m mc n) by done.
  - apply (like_store (set_sp m _) (set_sp mc _)), like_set_sp, Hl.
  - apply (like_store (set_sp m _) (set_sp mc _)), like_set_sp, Hl.
  - apply like_set_sp, like_set_x, Hl.
  - apply like_set_sp, like_set_v, Hl.
  - apply like_set_x, Hl.
  - apply like_set_x, Hl.
  - apply like_store, Hl.
  - apply like_set_v, Hl.
  - apply like_store, Hl.
Qed.

Lemma dispatch_like m mc : like m mc -> like m (extract_handler_x30_pre mc).
Proof. intros Hl. unfold extract_handler_x30_pre. do 2 (apply like_owned; [done|]). done. Qed.

(** A chain in memory at [base]. *)
Variables (base : Z) (chain : list Z).
Hypothesis base_low : 0 <= base.
Hypothesis base_high : base + 8 * Z.of_nat (length chain) <= 2 ^ 64.

Definition in_chain (a : Z) : Prop := base <= a < base + 8 * Z.of_nat (length chain).
Definition slot_of (i : nat) : Z := base + 8 * Z.of_nat i.
Definition chain_in (b : bytes) : Prop := ∀ i w, chain !! i = Some w -> load 8 b (slot_of i) = wrap64 w.

(** The code a slot leads to. *)
Definition target (i : nat) : Z := wrap 59 (default 0 (chain !! i)).

Lemma chain_in_ext b b' : (∀ a, in_chain a -> get8 b' a = get8 b a) -> chain_in b -> chain_in b'.
Proof.
  intros Hb Hc i w Hi. rewrite <- (Hc i w Hi). apply load_ext. intros a Ha. apply Hb.
  unfold in_chain, slot_of in *. pose proof (lookup_lt_Some _ _ _ Hi). lia.
Qed.

(** Going on brings the next slot. *)
Lemma dispatch_next mc i : chain_in (mem mc) -> xr mc 27 = slot_of i -> (S i < length chain)%nat ->
  let mc' := extract_handler_x30_pre mc in
  xr mc' 27 = slot_of (S i) ∧ xr mc' 30 = target (S i) ∧ mem mc' = mem mc.
Proof.
  intros Hc H27 Hi. destruct (lookup_lt_is_Some_2 _ _ Hi) as [w Hw].
  assert (wrap64 (xr mc 27 + 8) = slot_of (S i)) as Ha.
  { rewrite H27. unfold slot_of. rewrite (wrap_small 64); unfold fits; lia. }
  cbv zeta. unfold extract_handler_x30_pre, target. rewrite Ha, Hw. cbn [set_x xr mem default from_option id].
  split_and!; [|rewrite upd_same, (Hc _ _ Hw); apply wrap_59_64|done].
  by rewrite upd_other, upd_same.
Qed.

(** Instructions that leave the chain alone. *)
Fixpoint keeps (l : list a64_insn) (m : a64_machine) : Prop :=
  match l with
  | [] => True
  | i :: l' => let m' := a64_exec native_opcode m i in
               (∀ a, in_chain a -> get8 (mem m') a = get8 (mem m) a) ∧ keeps l' m'
  end.

Lemma keeps_app l l' m : keeps (l ++ l') m <-> keeps l m ∧ keeps l' (run l m).
Proof.
  revert m. induction l as [|i l IH]; intros m; cbn [keeps app]; [tauto|]. rewrite IH, a64_run_cons. tauto.
Qed.

Lemma keeps_run l m : keeps l m -> ∀ a, in_chain a -> get8 (mem (run l m)) a = get8 (mem m) a.
Proof.
  revert m. induction l as [|i l IH]; intros m Hk a Ha; [done|]. destruct Hk as [Hi Hk].
  rewrite a64_run_cons, (IH _ Hk a Ha). by apply Hi.
Qed.

(** An instruction leaves the pointer into the chain alone. *)
Lemma apart_27 i m : apart i = true -> xr (a64_exec native_opcode m i) 27 = xr m 27.
Proof.
  intros Hi. destruct i as [t|t|t|t|d n|t n o|t n o|t n o|t n o| | | | |]; try done; cbn [apart] in Hi; bsplit;
    cbn [a64_exec]; cbv zeta; cbn [set_mem set_sp set_v set_x xr]; try done;
    apply upd_other; intros <-; done.
Qed.

(** The chain's machine at slot [i], next to a machine that runs the plain
    instructions. *)
Definition tracks (i : nat) (m mc : a64_machine) : Prop :=
  like m mc ∧ chain_in (mem m) ∧ xr mc 27 = slot_of i ∧ (i < length chain)%nat.

Lemma tracks_chain i m mc : tracks i m mc -> chain_in (mem mc).
Proof. intros ((_ & _ & _ & Hm) & Hc & _). by apply (chain_in_ext (mem m)). Qed.

Lemma target_piece i p : chain !! i = Some (address_of p) -> known p ->
  piece_at (target i) = Some p ∧ (target i =? wrap 59 finish_emulation) = false.
Proof.
  intros Hi Hp. unfold target. rewrite Hi. cbn [default from_option id].
  pose proof (piece_at_address p (known_piece p Hp)) as Hat. split; [done|].
  apply Z.eqb_neq. intros He. rewrite He, finish_not_piece in Hat. done.
Qed.

Lemma run_one p insn i m mc : piece_insn p = Some insn -> known p -> apart insn = true ->
  tracks i m mc -> chain !! i = Some (address_of p) -> (S i < length chain)%nat ->
  (∀ a, in_chain a -> get8 (mem (a64_exec native_opcode m insn)) a = get8 (mem m) a) ->
  ∃ mc', (∀ f, run_chain native_opcode (S f) (target i) mc = run_chain native_opcode f (target (S i)) mc') ∧
    tracks (S i) (a64_exec native_opcode m insn) mc'.
Proof.
  intros Hp Hk Ha Ht Hi Hlen Hkeep. destruct (target_piece i p Hi Hk) as [Hat Hfin].
  pose proof Ht as (Hl & Hc & H27 & _).
  pose proof (exec_like insn m mc Ha Hl) as Hl'. set (mc1 := a64_exec native_opcode mc insn) in *.
  assert (chain_in (mem (a64_exec native_opcode m insn))) as Hc' by by apply (chain_in_ext (mem m)).
  assert (chain_in (mem mc1)) as Hc1 by (apply (chain_in_ext (mem (a64_exec native_opcode m insn))); [intros; apply Hl'|done]).
  assert (xr mc1 27 = slot_of i) as H271 by (unfold mc1; by rewrite apart_27).
  destruct (dispatch_next mc1 i Hc1 H271 Hlen) as (D1 & D2 & _).
  exists (extract_handler_x30_pre mc1). split; [|split_and!; [by apply dispatch_like|done..]].
  intros f. cbn [run_chain]. rewrite Hfin, Hat.
  assert (run_piece native_opcode p mc = Ret (extract_handler_x30_pre mc1)) as ->.
  { destruct p; try done; cbn [run_piece]; rewrite Hp; done. }
  cbn [mbind exec_bind]. by rewrite D2.
Qed.

Lemma run_segment ps : ∀ insns i m mc, piece_insn <$> ps = Some <$> insns -> Forall known ps ->
  forallb apart insns = true -> tracks i m mc ->
  (∀ j p, ps !! j = Some p -> chain !! (i + j)%nat = Some (address_of p)) ->
  (i + length ps < length chain)%nat -> keeps insns m ->
  ∃ mc', (∀ f, run_chain native_opcode (length ps + f) (target i) mc =
               run_chain native_opcode f (target (i + length ps)) mc') ∧
    tracks (i + length ps) (run insns m) mc'.
Proof.
  induction ps as [|p ps IH]; intros insns i m mc He Hk Ha Ht Hch Hlen Hkeep.
  { destruct insns; [|done]. exists mc. cbn [length]. rewrite Nat.add_0_r. done. }
  destruct insns as [|insn insns]; [done|]. rewrite !fmap_cons in He. injection He as Hp He.
  apply Forall_cons in Hk as [Hk Hks]. cbn [forallb] in Ha. bsplit. destruct Hkeep as [Hkeep Hkeeps].
  cbn [length] in Hlen |- *.
  destruct (run_one p insn i m mc) as (mc1 & Hr1 & Ht1); try done.
  { specialize (Hch 0%nat p eq_refl). by rewrite Nat.add_0_r in Hch. }
  { lia. }
  destruct (IH insns (S i) (a64_exec native_opcode m insn) mc1) as (mc' & Hr & Ht'); try done.
  { intros j q Hq. rewrite Nat.add_succ_comm. by apply Hch. }
  { lia. }
  exists mc'. rewrite <- Nat.add_succ_comm, a64_run_cons. split; [|done].
  intros f. rewrite <- Hr. apply Hr1.
Qed.
End Follow.

(** * A chain does what a native handler does *)

Lemma forallb_mjoin {A B} (f : B -> bool) (g : A -> list B) l : (∀ r, r ∈ l -> forallb f (g r) = true) ->
  forallb f (mjoin (g <$> l)) = true.
Proof.
  induction l as [|r l IH]; intros Hg; [done|]. rewrite fmap_cons. cbn [mjoin list_join]. rewrite forallb_app.
  rewrite Hg by apply list_elem_of_here. apply IH. intros x Hx. by apply Hg, list_elem_of_further.
Qed.

(** Instructions that do not write memory. *)
Definition quiet (i : a64_insn) : bool :=
  match i with STRx_pre _ | STRd_pre _ | STRx _ _ _ | STRq _ _ _ | OPCODE _ => false | _ => true end.

Section Correct.
Context `{A64Layout} `{ChainCode}.
Variable native_opcode : list Z -> a64_machine -> a64_machine.
Abbreviation run := (a64_run native_opcode).
Variables (regs opcode : list Z) (bound : Z) (m0 : a64_machine) (prebuilt : Z) (chain : list Z).
Let cpu : Z := xr m0 26.
Let base : Z := xr m0 27.
Let c : Z := cpu_register regs.

(** How a chain is entered: it lies in memory apart from the state and the
    stack, the opcode does not write to it, and the opcode is where the chain
    says. *)
Record chain_ok : Prop := {
  ch_set : setup_chains regs prebuilt = Ret chain;
  ch_low : 0 <= base;
  ch_high : base + 8 * Z.of_nat (length chain) <= 2 ^ 64;
  ch_in : chain_in base chain (mem m0);
  ch_apart a : in_chain base chain a -> ~ private regs bound m0 a;
  ch_op m a : in_chain base chain a -> get8 (mem (native_opcode opcode m)) a = get8 (mem m) a;
  ch_code : opcode_at (wrap 59 prebuilt) = Some opcode
}.

(** The instruction uses none of the chain's registers, and leaves x26 free or
    one of x0 and x1 to stand in for it: x2, the next to be tried, is the
    chain's. *)
Record registers_ok : Prop := {
  rg_regs n : chain_owned n = true -> n ∉ xregs regs;
  rg_free : Register.X26 ∉ regs \/ Register.X0 ∉ regs \/ Register.X0 + 1 ∉ regs
}.

Hypothesis entry : entry_ok regs bound m0.
Hypothesis opcode_fine : opcode_ok native_opcode regs opcode bound m0.
Hypothesis placed : chain_ok.
Hypothesis registers : registers_ok.

Let cells : list Z := ((address_of <$> pieces_before regs c) ++ [address_of execute_prebuilt; prebuilt] ++
  (address_of <$> pieces_after regs c) ++ [address_of finish_opchain; finish_emulation])%list.

Lemma standin : c = 26 \/ c = 0 \/ c = 1.
Proof.
  subst c. unfold cpu_register. case_bool_decide as H26.
  - right. destruct (rg_free registers) as [|[Hx0|Hx1]]; [done| |].
    + left. rewrite (first_unused_unique _ _ Register.X0); [lia|lia|done|intros; lia].
    + destruct (decide (Register.X0 ∈ regs)).
      * right. rewrite (first_unused_unique _ _ (Register.X0 + 1)); [lia|lia|done|]. intros x Hx. by replace x with Register.X0 by lia.
      * left. rewrite (first_unused_unique _ _ Register.X0); [lia|lia|done|intros; lia].
  - left. rewrite (first_unused_unique _ _ Register.X26); [done|lia|done|intros; lia].
Qed.
Lemma rg_column : has_column c.
Proof. pose proof standin as Hc. unfold has_column. lia. Qed.
Lemma rg_cpu : chain_owned c = false.
Proof. pose proof standin as Hc. unfold chain_owned. lia. Qed.

Lemma chain_cells : chain = cells.
Proof.
  pose proof (ch_set placed) as Hs. rewrite setup_chains_ret in Hs by apply rg_column.
  injection Hs as Hs. exact (eq_sym Hs).
Qed.

Lemma column_free : temporary_free regs.
Proof.
  destruct (rg_free registers) as [|[Hx0|Hx1]]; [by left|right; exists 0|right; exists 1]; (split; [lia|]); [|done].
  by rewrite Z.add_0_r.
Qed.

Lemma x_apart r : r ∈ regs -> is_x r = true -> chain_owned (r - Register.X0) = false.
Proof.
  intros Hr Hx. destruct (chain_owned _) eqn:Ho; [|done]. exfalso. apply (rg_regs registers _ Ho), xregs_elem.
  rewrite Zplus_minus. split; [done|]. unfold is_x in Hx. bsplit. change Register.X30 with (Register.X0 + 30) in *. lia.
Qed.

Lemma host_apart r (fx fd : Z -> a64_insn) : (∀ t, chain_owned t = false -> apart (fx t) = true) -> (∀ t, apart (fd t) = true) ->
  r ∈ regs -> forallb apart (if (Register.X19 <=? r) && (r <=? Register.X30) then [fx (19 + r - Register.X19)]
    else if (Register.Q8 <=? r) && (r <=? Register.Q15) then [fd (8 + r - Register.Q8)] else []) = true.
Proof.
  intros Hfx Hfd Hr. destruct ((_ <=? r) && _) eqn:E; [|clear E; destruct (_ && _); cbn [forallb]; by rewrite ?Hfd].
  cbn [forallb]. rewrite Hfx; [done|]. change Register.X19 with (Register.X0 + 19) in *.
  replace (19 + r - (Register.X0 + 19)) with (r - Register.X0) by lia.
  apply x_apart; [done|]. bsplit. unfold is_x.
  rewrite !(proj2 (Z.leb_le _ _)) by lia. done.
Qed.

Lemma before_apart : forallb apart (mjoin (save_host <$> regs) ++ (if c =? 26 then [] else [MOV c 26]) ++
  mjoin (load1 c <$> regs))%list = true.
Proof.
  pose proof rg_cpu as Hc. rewrite !forallb_app, !forallb_mjoin; [zcase; [done|cbn; by rewrite Hc]|..].
  - intros r Hr. unfold load1. destruct (is_x r) eqn:E; [cbn; by rewrite x_apart, Hc|]. destruct (is_q r); cbn; by rewrite ?Hc.
  - intros r Hr. apply (host_apart r STRx_pre STRd_pre); [intros t Ht; cbn; by rewrite Ht|done..].
Qed.

Lemma after_apart : forallb apart (mjoin (store1 c <$> regs) ++ (if c =? 26 then [] else [MOV 26 c]) ++
  mjoin (restore_host <$> reverse regs))%list = true.
Proof.
  pose proof rg_cpu as Hc. rewrite !forallb_app, !forallb_mjoin; [zcase; [done|cbn; by rewrite Hc]|..].
  - intros r Hr. apply (host_apart r LDRx_post LDRd_post); [intros t Ht; cbn; by rewrite Ht|done|]. exact (proj1 (elem_of_reverse _ _) Hr).
  - intros r Hr. unfold store1. destruct (is_x r) eqn:E; [cbn; by rewrite x_apart, Hc|]. destruct (is_q r); cbn; by rewrite ?Hc.
Qed.

(** The instructions of a chain leave it alone. *)
Abbreviation keeps := (keeps native_opcode base chain).

Lemma keeps_quiet l : ∀ m, forallb quiet l = true -> keeps l m.
Proof.
  induction l as [|i l IH]; intros m Hq; [done|]. cbn [forallb] in Hq. bsplit. split; [|by apply IH].
  intros a _. by destruct i.
Qed.

Lemma keeps_saves l : ∀ m, 16 * Z.of_nat (length (saved l)) <= sp m < 2 ^ 64 ->
  (∀ a, in_chain base chain a -> ~ (sp m - 16 * Z.of_nat (length (saved l)) <= a < sp m)) ->
  keeps (mjoin (save_host <$> l)) m.
Proof.
  induction l as [|r l IH]; intros m Hsp Hout; [done|]. rewrite fmap_cons. cbn [mjoin list_join].
  rewrite save_host_saved. rewrite saved_cons in *. destruct (saved1 r) as [it|]; [|by apply IH].
  cbn [from_option app length] in *. apply keeps_app.
  assert (sp (run (push1 it) m) = sp m - 16) as Hs.
  { unfold push1. destruct it.1; cbn; apply wrap_small; unfold fits; lia. }
  split; [|apply IH; rewrite Hs; [lia|intros a Ha; specialize (Hout a Ha); lia]].
  unfold push1. destruct it.1; (split; [|done]); intros a Ha; cbn [a64_exec]; cbv zeta; cbn [set_mem mem];
    rewrite (wrap_small 64) by (unfold fits; lia);
    unfold store; rewrite get8_store_bytes, le_bytes_length, decide_False; try done; specialize (Hout a Ha); lia.
Qed.

Lemma keeps_stores l : ∀ m, xr m c = cpu -> keeps (mjoin (store1 c <$> l)) m.
Proof.
  induction l as [|r l IH]; intros m Hc; [done|]. rewrite fmap_cons. cbn [mjoin list_join]. apply keeps_app.
  destruct (run_store1 native_opcode cpu (field_placed regs bound m0 entry) c r m Hc) as (S1 & _ & _ & _ & S5).
  split; [|apply IH; by rewrite S1].
  assert (∀ a, in_chain base chain a -> get8 (mem (run (store1 c r) m)) a = get8 (mem m) a) as Ha.
  { intros a Ha. apply S5. intros f Hf. apply guest_field_ok in Hf.
    destruct (Z.lt_ge_cases a (cpu + off f)); [by left|]. destruct (Z.le_gt_cases (cpu + off f + a64_size f) a); [by right|].
    exfalso. apply (ch_apart placed a Ha). left. apply (field_in_state regs bound m0 entry f); [done|]. unfold cpu in *. lia. }
  revert Ha. unfold store1. destruct (is_x r); [done|]. by destruct (is_q r).
Qed.

Lemma before_keeps : keeps (mjoin (save_host <$> regs) ++ (if c =? 26 then [] else [MOV c 26]) ++
  mjoin (load1 c <$> regs))%list m0.
Proof.
  rewrite !keeps_app. split_and!.
  - apply keeps_saves; [apply (en_stack _ _ _ entry)|]. intros a Ha Hs. apply (ch_apart placed a Ha). by right.
  - apply keeps_quiet. by zcase.
  - apply keeps_quiet, forallb_mjoin. intros r _. unfold load1. destruct (is_x r); [done|]. by destruct (is_q r).
Qed.

Lemma after_keeps m : xr m c = cpu -> keeps (mjoin (store1 c <$> regs) ++ (if c =? 26 then [] else [MOV 26 c]) ++
  mjoin (restore_host <$> reverse regs))%list m.
Proof.
  intros Hc. rewrite !keeps_app. split_and!; [by apply keeps_stores|apply keeps_quiet; by zcase|].
  apply keeps_quiet, forallb_mjoin. intros r _. unfold restore_host. destruct (_ && _); [done|]. by destruct (_ && _).
Qed.
(** The opcode on machines that are alike. *)
Lemma opcode_like m mc : like m mc -> like (native_opcode opcode m) (native_opcode opcode mc).
Proof.
  intros (Hx & Hv & Hs & Hm). destruct (op_agree _ _ _ _ _ opcode_fine m mc) as (G1 & G2 & G3).
  { split_and!; [|by intros n _; rewrite Hv|by intros a _; rewrite Hm]. intros n Hn. symmetry. apply Hx.
    destruct (chain_owned n) eqn:Ho; [|done]. by apply (rg_regs registers) in Hn. }
  split_and!.
  - intros n Hn. destruct (decide (n ∈ xregs regs)) as [Hin|Hin]; [symmetry; by apply G1|].
    rewrite !(op_x _ _ _ _ _ opcode_fine) by done. by apply Hx.
  - intros n. destruct (decide (n ∈ qregs regs)) as [Hin|Hin]; [symmetry; by apply G2|].
    rewrite !(op_v _ _ _ _ _ opcode_fine) by done. apply Hv.
  - by rewrite !(op_sp _ _ _ _ _ opcode_fine).
  - intros a. destruct (decide (private regs bound m0 a)) as [Hp|Hp]; [|symmetry; by apply G3].
    rewrite !(op_mem _ _ _ _ _ opcode_fine) by done. apply Hm.
Qed.

Abbreviation tracks := (tracks base chain).
Abbreviation chain_run := (run_chain native_opcode).

(** The call of the opcode takes two slots. *)
Lemma run_call i m mc : tracks i m mc -> chain !! i = Some (address_of execute_prebuilt) ->
  chain !! S i = Some prebuilt -> (S (S i) < length chain)%nat ->
  ∃ mc', (∀ f, chain_run (S f) (target chain i) mc = chain_run f (target chain (S (S i))) mc') ∧
    tracks (S (S i)) (native_opcode opcode m) mc'.
Proof.
  intros Ht Hi Hpre Hlen. pose proof Ht as (Hl & _ & H27 & _).
  pose proof (ch_low placed) as Hlow. pose proof (ch_high placed) as Hhigh.
  destruct (target_piece chain i execute_prebuilt Hi I) as [Hat Hfin].
  pose proof (tracks_chain base chain i m mc Ht) as Hcin.
  destruct (dispatch_next base chain Hlow Hhigh mc i Hcin H27 ltac:(lia)) as (D1 & D2 & D3).
  pose proof (dispatch_like m mc Hl) as Hl1. set (mc1 := extract_handler_x30_pre mc) in *.
  pose proof (opcode_like m _ (like_owned m mc1 30 blr_return eq_refl Hl1)) as Hl2.
  set (mc2 := native_opcode opcode (set_x mc1 30 blr_return)) in *.
  assert (∀ n, n = 27 \/ n = 30 -> xr mc2 n = xr (set_x mc1 30 blr_return) n) as Hown.
  { intros n Hn. apply (op_x _ _ _ _ _ opcode_fine), (rg_regs registers). by destruct Hn as [-> | ->]. }
  assert (call_prebuilt native_opcode mc1 = Ret mc2) as Hcall.
  { unfold call_prebuilt. rewrite D2. unfold target. rewrite Hpre. cbn [default from_option id].
    rewrite (ch_code placed). cbn [of_option mbind exec_bind]. fold mc2.
    rewrite Hown by by right. cbn [set_x xr]. by rewrite upd_same, Z.eqb_refl. }
  assert (∀ a, in_chain base chain a -> get8 (mem (native_opcode opcode m)) a = get8 (mem m) a) as Hop
    by (intros a Ha; by apply (ch_op placed)).
  assert (chain_in base chain (mem (native_opcode opcode m))) as Hcm by (apply (chain_in_ext _ _ (mem m)); [done|apply Ht]).
  assert (chain_in base chain (mem mc2)) as Hc2 by (apply (chain_in_ext _ _ (mem (native_opcode opcode m))); [intros; apply Hl2|done]).
  assert (xr mc2 27 = slot_of base (S i)) as H272.
  { rewrite Hown by by left. cbn [set_x xr]. by rewrite upd_other. }
  destruct (dispatch_next base chain Hlow Hhigh mc2 (S i) Hc2 H272 Hlen) as (E1 & E2 & _).
  exists (a64_exec native_opcode (extract_handler_x30_pre mc2) (MOV 2 27)). split.
  - intros f. cbn [run_chain]. rewrite Hfin, Hat. cbn [run_piece]. fold mc1. rewrite Hcall.
    cbn [mbind exec_bind a64_exec set_x xr]. rewrite upd_other by done. by rewrite E2.
  - split_and!; [|done| |done].
    + apply like_owned; [done|]. by apply dispatch_like.
    + cbn [a64_exec set_x xr]. by rewrite upd_other.
Qed.
(** The instructions that update the pc. *)
Lemma finish_regs m : xr m 26 = cpu -> load 8 (mem m) (cpu - 0x10) = cpu + off gpr_pc ->
  let m' := run finish_insns m in
  let pc := wrap64 (load 8 (mem m) (cpu + off gpr_pc) + 4) in
  mem m' = store 8 (mem m) (cpu + off gpr_pc) pc ∧ vr m' = vr m ∧ sp m' = sp m ∧
  xr m' 0 = cpu ∧ xr m' 1 = pc ∧ ∀ n, n <> 0 -> n <> 1 -> n <> 2 -> xr m' n = xr m n.
Proof.
  intros H26 Hpcp. pose proof (en_low _ _ _ entry). pose proof (en_high _ _ _ entry).
  pose proof (field_placed regs bound m0 entry gpr_pc eq_refl) as Hpc. cbn [a64_size] in Hpc.
  pose proof (en_fields _ _ _ entry gpr_pc eq_refl) as Hb. cbn [a64_size] in Hb.
  assert (wrap64 (cpu + -0x10) = cpu - 0x10) as Hw1 by (rewrite (wrap_small 64) by (unfold fits, cpu in *; lia); lia).
  assert (wrap64 (cpu + off gpr_pc + 0) = cpu + off gpr_pc) as Hw2
    by (rewrite (wrap_small 64) by (unfold fits, cpu in *; lia); lia).
  destruct m as [x v s b]. cbn [xr mem vr sp] in *. unfold finish_insns.
  cbn [a64_run fold_left a64_exec set_x set_mem xr mem vr sp]. unfold address.
  cbn [set_x set_mem xr mem vr sp default from_option id]. unfold upd. cbn [Z.eqb Pos.eqb].
  rewrite H26, Hw1, Hpcp, Hw2. cbv zeta. split_and!; try done.
  intros n H0' H1' H2'. by rewrite !(proj2 (Z.eqb_neq n _)) by done.
Qed.

(** The machine when [finish_emulation] is entered. *)
Definition chain_handled (m' : a64_machine) : Prop :=
  guest_handled native_opcode regs opcode bound m0 m' ∧
  (∀ n, 19 <= n <= 29 -> n <> 27 -> xr m' n = xr m0 n) ∧
  xr m' 0 = cpu ∧ xr m' 1 = next_pc m0 ∧ xr m' 2 = xr m' 27 ∧
  xr m' 27 = base + 8 * (Z.of_nat (length chain) - 1).

Lemma run_finish i m mc : tracks i m mc -> after_opcode native_opcode regs opcode bound m0 m ->
  chain !! i = Some (address_of finish_opchain) -> chain !! S i = Some finish_emulation -> length chain = S (S i) ->
  ∃ mc', (∀ f, chain_run (S (S f)) (target chain i) mc = Ret mc') ∧ chain_handled mc'.
Proof.
  intros Ht Ha Hi Hfe Hlen. pose proof Ht as (Hl & _ & H27 & _). pose proof Hl as (Lx & Lv & Ls & Lm).
  pose proof (ch_low placed) as Hlow. pose proof (ch_high placed) as Hhigh.
  destruct (target_piece chain i finish_opchain Hi I) as [Hat Hfin].
  pose proof Ha as (_ & _ & _ & _ & A5 & _).
  destruct (finish_regs mc) as (F1 & F2 & F3 & F4 & F5 & F6).
  { by rewrite Lx, A5. }
  { rewrite (like_load m mc) by done. apply (after_pcptr native_opcode regs opcode bound m0 entry m Ha). }
  rewrite (like_load m mc) in F1, F5 by done.
  pose proof (after_frame native_opcode regs opcode bound m0 entry m gpr_pc Ha eq_refl (fun F => F)) as Hpc.
  change (load 8 (mem m) (cpu + off gpr_pc) = load 8 (mem m0) (cpu + off gpr_pc)) in Hpc. rewrite Hpc in F1, F5.
  change (wrap64 (load 8 (mem m0) (cpu + off gpr_pc) + 4)) with (next_pc m0) in F1, F5. set (mc1 := run finish_insns mc) in *.
  assert (chain_in base chain (mem mc1)) as Hc1.
  { apply (chain_in_ext _ _ (mem mc)); [|by apply (tracks_chain _ _ i m)]. intros a Hain. rewrite F1.
    unfold store. rewrite get8_store_bytes, le_bytes_length. case_decide as Hx; [|done].
    exfalso. apply (ch_apart placed a Hain). left. by apply (field_in_state regs bound m0 entry gpr_pc). }
  assert (xr mc1 27 = slot_of base i) as H271 by by rewrite F6.
  destruct (dispatch_next base chain Hlow Hhigh mc1 i Hc1 H271 ltac:(lia)) as (D1 & D2 & D3).
  set (mc2 := extract_handler_x30_pre mc1) in *.
  assert (∀ n, n <> 27 -> n <> 30 -> xr mc2 n = xr mc1 n) as Hx2.
  { intros n H1' H2'. unfold mc2, extract_handler_x30_pre. cbn [set_x xr]. by rewrite !upd_other. }
  exists (a64_exec native_opcode mc2 (MOV 2 27)). split.
  - intros f. cbn [run_chain]. rewrite Hfin, Hat. cbn [run_piece]. fold mc1 mc2.
    cbn [mbind exec_bind a64_exec set_x xr]. rewrite upd_other, D2 by done. unfold target. rewrite Hfe.
    cbn [default from_option id]. by rewrite Z.eqb_refl.
  - unfold chain_handled. cbn [a64_exec set_x xr]. rewrite upd_same, !upd_other, D1 by done. rewrite !Hx2, F4, F5 by done.
    split_and!; [|..|done|done|done|unfold slot_of; lia].
    + apply (pc_handled native_opcode regs opcode bound m0 entry m _ Ha).
      * intros a. change (get8 (mem mc1) a = get8 (store 8 (mem m) (cpu + off gpr_pc) (next_pc m0)) a). rewrite F1. unfold store. rewrite !get8_store_bytes. case_decide; [done|apply Lm].
      * intros n. change (vr mc1 n = vr m n). by rewrite F2.
      * change (sp mc1 = sp m). by rewrite F3.
    + intros n Hn Hn27. rewrite upd_other, Hx2, F6 by lia. rewrite Lx; [apply A5; lia|].
      unfold chain_owned. by rewrite !(proj2 (Z.eqb_neq n _)) by lia.
Qed.

(** Where the parts of the chain are. *)
Abbreviation A := (pieces_before regs c).
Abbreviation B := (pieces_after regs c).

Lemma cells_length : length chain = (length A + S (length B + 3))%nat.
Proof. rewrite chain_cells. unfold cells. rewrite !length_app, !length_fmap. cbn [length]. lia. Qed.

Lemma cells_before j p : A !! j = Some p -> chain !! j = Some (address_of p).
Proof. intros Hj. rewrite chain_cells. apply lookup_app_l_Some. rewrite list_lookup_fmap. by rewrite Hj. Qed.

Lemma cells_from k x : ([address_of execute_prebuilt; prebuilt] ++ (address_of <$> B) ++
  [address_of finish_opchain; finish_emulation])%list !! k = Some x -> chain !! (length A + k)%nat = Some x.
Proof.
  intros Hk. rewrite chain_cells. unfold cells. rewrite lookup_app_r, length_fmap by (rewrite length_fmap; lia).
  by replace (length A + k - length A)%nat with k by lia.
Qed.

Lemma cells_after j p : B !! j = Some p -> chain !! (S (S (length A)) + j)%nat = Some (address_of p).
Proof.
  intros Hj. replace (S (S (length A)) + j)%nat with (length A + (2 + j))%nat by lia. apply cells_from.
  cbn [app lookup list_lookup Nat.add]. apply lookup_app_l_Some. rewrite list_lookup_fmap. by rewrite Hj.
Qed.

Lemma cells_end k x : [address_of finish_opchain; finish_emulation] !! k = Some x ->
  chain !! (S (S (length A)) + length B + k)%nat = Some x.
Proof.
  intros Hk. replace (S (S (length A)) + length B + k)%nat with (length A + (2 + (length B + k)))%nat by lia.
  apply cells_from.
  change (((address_of <$> B) ++ [address_of finish_opchain; finish_emulation])%list !! (length B + k)%nat = Some x).
  rewrite lookup_app_r, length_fmap by (rewrite length_fmap; lia). by replace (length B + k - length B)%nat with k by lia.
Qed.

Lemma first_target : wrap 59 (load 8 (mem m0) (xr m0 27)) = target chain 0.
Proof.
  destruct (lookup_lt_is_Some_2 chain 0) as [w Hw]; [rewrite cells_length; lia|].
  pose proof (ch_in placed 0%nat w Hw) as Hl. unfold slot_of in Hl. cbn [Z.of_nat] in Hl. rewrite Z.mul_0_r, Z.add_0_r in Hl.
  fold base. rewrite Hl. unfold target. rewrite Hw. apply wrap_59_64.
Qed.

(** From the first slot to [finish_emulation]. *)
Lemma chain_handles : ∃ m', execPrebuilt native_opcode (length chain) m0 = Ret m' ∧ chain_handled m'.
Proof.
  pose proof (ch_low placed) as Hlow. pose proof (ch_high placed) as Hhigh. pose proof rg_column as Hcol.
  pose proof cells_length as Hlen.
  destruct (run_segment native_opcode base chain Hlow Hhigh A _ 0%nat m0 m0 (pieces_before_insns regs c)
    (known_before regs c Hcol) before_apart) as (mc3 & R3 & T3);
    [split_and!; [done|apply (ch_in placed)|unfold slot_of; lia|lia]|exact cells_before|lia|exact before_keeps|].
  cbn [Nat.add] in R3, T3.
  pose proof (run_before native_opcode regs bound m0 entry column_free) as Hb. fold c in Hb.
  set (m3 := run _ m0) in *. clearbody m3.
  destruct (run_call (length A) m3 mc3 T3) as (mc4 & R4 & T4);
    [rewrite <- (Nat.add_0_r (length A)); by apply cells_from|rewrite <- Nat.add_1_r; by apply cells_from|lia|].
  pose proof (run_after native_opcode regs opcode bound m0 entry opcode_fine column_free m3 Hb) as Ha. fold c in Ha.
  rewrite a64_run_app in Ha. change (run [OPCODE opcode] m3) with (native_opcode opcode m3) in Ha.
  assert (xr (native_opcode opcode m3) c = cpu) as Hc4.
  { destruct (cpu_register_spec regs column_free) as [Hc _]. rewrite (op_x _ _ _ _ _ opcode_fine) by done. apply Hb. }
  destruct (run_segment native_opcode base chain Hlow Hhigh B _ (S (S (length A))) (native_opcode opcode m3) mc4
    (pieces_after_insns regs c) (known_after regs c Hcol) after_apart T4) as (mc7 & R7 & T7);
    [exact cells_after|lia|by apply after_keeps|].
  destruct (run_finish (S (S (length A)) + length B) _ mc7 T7 Ha) as (m' & R' & Hm');
    [rewrite <- (Nat.add_0_r (_ + _)); by apply cells_end|rewrite <- Nat.add_1_r; by apply cells_end|lia|].
  exists m'. split; [|done]. unfold execPrebuilt. rewrite first_target, Hlen, R3, R4, R7. apply R'.
Qed.
End Correct.

(** * [callable] *)

Section Callable.
Context `{LlvmNumbers} `{ChainCode}.

Definition table_ok : Prop := aetherext <> [] ∧ StronglySorted Z.lt aetherext.

Lemma table_sorted : table_ok -> key_sorted (fun opc : Z => opc) aetherext ∧
  ∀ i j : nat, ∀ x y, (i < j)%nat -> aetherext !! i = Some x -> aetherext !! j = Some y -> x < y.
Proof.
  intros [_ Hs]. assert (∀ i j : nat, ∀ x y, (i < j)%nat -> aetherext !! i = Some x -> aetherext !! j = Some y -> x < y) as Hlt.
  { induction Hs as [|x l Hs IH Hx]; intros i j a b Hij Ha Hb; [done|].
    destruct j as [|j]; [lia|]. destruct i as [|i]; cbn in Ha, Hb; [|apply (IH i j); [lia|done..]].
    simplify_eq. rewrite Forall_forall in Hx. apply Hx. by eapply list_elem_of_lookup_2. }
  split; [|done]. by apply (strict_sorted (fun opc : Z => opc)).
Qed.

Lemma opcode_at_impl i opc : aetherext !! i = Some opc -> opcode_at (impl_address i) = Some (le_bytes 4 opc).
Proof.
  intros Hi. unfold opcode_at, impl_address. cbv zeta.
  replace (aetherext_start + 8 * Z.of_nat i - aetherext_start) with (Z.of_nat i * 8) by lia.
  rewrite Z.mod_mul, Z.div_mul by lia. rewrite (proj2 (Z.leb_le 0 _)) by lia. cbn [andb Z.eqb].
  by rewrite Nat2Z.id, Hi.
Qed.
End Callable.

(** * Properties *)

(** C99: [callable] finds exactly the opcodes of the table: it answers with an
    address at which the opcode's own bytes are, or with nothing because the
    opcode is not in the table or one of its operands is x26, x27 or lr. *)
Theorem callable_finds `{LlvmNumbers} `{ChainCode} inst opc : table_ok ->
  ∃ found, callable inst opc = Ret found ∧
    (found = None <-> opc ∉ aetherext \/ existsb chain_register inst = true) ∧
    (∀ a, found = Some a -> opcode_at a = Some (le_bytes 4 opc)).
Proof.
  intros Ht. pose proof (table_sorted Ht) as [Hs Hlt]. destruct Ht as [Hne _]. unfold callable.
  destruct (existsb chain_register inst); [eexists; split; [reflexivity|]; split; [tauto|done]|].
  rewrite binary_search_rank by done. cbn [mbind exec_bind]. unfold is_exact, arr_rd.
  set (r := rank (fun opc : Z => opc) aetherext opc).
  destruct (Nat.eqb_spec r (length aetherext)) as [Hr|Hr]; cbn [mbind exec_bind].
  - eexists. split; [reflexivity|]. split; [split; [|done]|done]. intros _. left.
    intros (i & Hi)%list_elem_of_lookup. pose proof (rank_found _ _ i opc Hlt Hi) as Hri. apply lookup_lt_Some in Hi.
    cbn beta in Hri. fold r in Hri. lia.
  - pose proof (rank_le (fun opc : Z => opc) aetherext opc) as Hle. fold r in Hle.
    destruct (lookup_lt_is_Some_2 aetherext r) as [x Hx]; [lia|]. rewrite Hx. cbn [of_option mbind exec_bind].
    unfold key_eqb. destruct (Z.eqb_spec x opc) as [->|Hxo]; (eexists; split; [reflexivity|]; split).
    + split; [done|]. intros [Hn|]; [|done]. exfalso. apply Hn. by eapply list_elem_of_lookup_2.
    + intros a [= <-]. by apply opcode_at_impl.
    + split; [|done]. intros _. left. intros (i & Hi)%list_elem_of_lookup.
      pose proof (rank_found _ _ i opc Hlt Hi) as Hri. cbn beta in Hri. fold r in Hri. subst i. congruence.
    + done.
Qed.

(** C8: a chain, entered with the state in x26 and itself in x27, reaches
    [finish_emulation] in as many steps as it has slots and has then done what
    a native handler does: the registers the instruction names are in the state
    as the opcode leaves them, the guest's other registers and other memory as
    they were or as the opcode leaves it, the pc four further; the host has its
    callee-saved registers but x27 and x30 and its stack, and the arguments are
    the state, the pc and the slot. The instruction must not use x2, x27 or x30,
    and must leave x26, x0 or x1 free ([standin_overwritten] is one that does
    not). The chain is entered with the opcode's code where it says. *)
Theorem chain_runs_opcode `{A64Layout} `{LlvmNumbers} `{ChainCode} native_opcode inst opcode bound m0 prebuilt chain :
  let regused := parse_regused inst in
  entry_ok regused bound m0 -> opcode_ok native_opcode regused opcode bound m0 ->
  chain_ok native_opcode regused opcode bound m0 prebuilt chain -> registers_ok regused ->
  ∃ m', execPrebuilt native_opcode (length chain) m0 = Ret m' ∧
    chain_handled native_opcode regused opcode bound m0 chain m'.
Proof. intros regused. apply chain_handles. Qed.

(** ** A program with one opcode *)

Definition sample_address (p : piece) : Z :=
  0x100000 + 0x10 * Z.of_nat (default 0%nat (index_of p all_pieces)).
Definition sample_piece_at (a : Z) : option piece :=
  let i := a - 0x100000 in if (0 <=? i) && (i mod 0x10 =? 0) then all_pieces !! Z.to_nat (i / 0x10) else None.

Lemma sample_pieces p : p ∈ all_pieces -> sample_piece_at (wrap 59 (sample_address p)) = Some p.
Proof.
  assert (forallb (fun p => bool_decide (sample_piece_at (wrap 59 (sample_address p)) = Some p)) all_pieces = true) as Ha
    by by vm_compute.
  intros Hp. rewrite forallb_forall in Ha. apply (bool_decide_eq_true_1 _), Ha. by apply list_elem_of_In.
Qed.

Definition sample_code : ChainCode.
Proof.
  exact {| address_of := sample_address; piece_at := sample_piece_at; finish_emulation := 0x80000; blr_return := 0x90000;
    aetherext_start := 0xa0000; aetherext := [0xAB]; piece_at_address := sample_pieces; finish_not_piece := eq_refl |}.
Defined.

(** A machine with a chain at 0x30000. *)
Definition chain_bytes (chain : list Z) : list Z := mjoin (le_bytes 8 <$> chain).
Definition chain_machine (chain : list Z) : a64_machine :=
  mkA64 (fun n => if n =? 26 then 0x10000 else if n =? 27 then 0x30000 else n) (fun n => n) 0x1000
    (store_bytes (store 8 ∅ 0xfff0 0x10448) 0x30000 (chain_bytes chain)).

Definition chain_of (e : exec (list Z)) : list Z := match e with Ret l => l | _ => [] end.
Definition sample_chain : list Z :=
  chain_of (@setup_chains sample_code (@parse_regused sample_numbers sample_inst) 0xa0000).

Lemma sample_chain_ok : @chain_ok sample_code sample_opcode (@parse_regused sample_numbers sample_inst)
  [0xAB; 0; 0; 0] 0x1000 (chain_machine sample_chain) 0xa0000 sample_chain.
Proof.
  assert (length sample_chain = 18%nat) as Hlen by by vm_compute.
  constructor.
  - by vm_compute.
  - done.
  - by vm_compute.
  - assert (forallb (fun i => bool_decide (load 8 (mem (chain_machine sample_chain)) (slot_of 0x30000 i) =
      wrap64 (default 0 (sample_chain !! i)))) (seq 0 18) = true) as Hall by by vm_compute.
    intros i w Hi. rewrite forallb_forall in Hall. specialize (Hall i).
    rewrite bool_decide_eq_true, Hi in Hall. apply Hall. apply in_seq. apply lookup_lt_Some in Hi. lia.
  - intros a Ha. unfold in_chain in Ha. rewrite Hlen in Ha. change (xr (chain_machine sample_chain) 27) with 0x30000 in Ha.
    unfold private, in_state, in_saves. change (xr (chain_machine sample_chain) 26) with 0x10000.
    change (sp (chain_machine sample_chain)) with 0x1000. lia.
  - done.
  - by vm_compute.
Qed.

Theorem chain_runs_opcode_witness : ∃ m',
  @execPrebuilt a64_sample sample_code sample_opcode (length sample_chain) (chain_machine sample_chain) = Ret m' ∧
  @chain_handled a64_sample sample_opcode (@parse_regused sample_numbers sample_inst) [0xAB; 0; 0; 0] 0x1000
    (chain_machine sample_chain) sample_chain m'.
Proof.
  apply (@chain_runs_opcode a64_sample sample_numbers sample_code) with (prebuilt := 0xa0000).
  - apply sample_entry_of; [done|done|by vm_compute|]. intros n Hn. unfold chain_machine, fits. cbn [xr].
    destruct (n =? 26); [lia|]. destruct (n =? 27); lia.
  - apply sample_opcode_ok.
  - apply sample_chain_ok.
  - constructor; [|right; left; apply (bool_decide_unpack _); by vm_compute]. intros n Hn.
    assert (n = 2 \/ n = 27 \/ n = 30) as Hcases by (unfold chain_owned in Hn; lia).
    apply (bool_decide_unpack (n ∉ _)). by destruct Hcases as [Hc | [Hc | Hc]]; rewrite Hc; vm_compute.
Defined.

Theorem callable_finds_witness : ∃ found, @callable sample_code sample_numbers sample_inst 0xAB = Ret found ∧
  (found = None <-> 0xAB ∉ @aetherext sample_code \/ existsb (@chain_register sample_numbers) sample_inst = true) ∧
  (∀ a, found = Some a -> @opcode_at sample_code a = Some (le_bytes 4 0xAB)).
Proof.
  apply (@callable_finds sample_numbers sample_code). split; [done|]. cbn. by repeat constructor.
Defined.

(** [execute_prebuilt] puts the slot into x2 before the guest's registers are
    saved: whatever an opcode makes of x2, the guest gets the address of the
    slot behind the opcode. *)
Definition x2_inst : list mc_operand := [OReg (@num sample_numbers (Nth CX 2)); OReg (@num sample_numbers (Nth CX 3))].
Definition x2_chain : list Z := chain_of (@setup_chains sample_code (@parse_regused sample_numbers x2_inst) 0xa0000).

Theorem x2_overwritten :
  let r := @execPrebuilt a64_sample sample_code (fun _ m => set_x m 2 7) (length x2_chain) (chain_machine x2_chain) in
  match r with
  | Ret m' => load 8 (mem m') (0x10000 + @off _ _ _ (@a64_state a64_sample) (gpr_x 2)) = 0x30000 + 8 * 4
  | _ => False
  end.
Proof. by vm_compute. Qed.

(** An instruction that uses x26, x0 and x1 has x2 stand in for x26, which
    [execute_prebuilt] overwrites: the guest's registers are written behind the
    slot, and the result in x0 is lost. *)
Definition standin_inst : list mc_operand :=
  [OReg (@num sample_numbers (Nth CX 26)); OReg (@num sample_numbers (Nth CX 0)); OReg (@num sample_numbers (Nth CX 1))].
Definition standin_chain : list Z :=
  chain_of (@setup_chains sample_code (@parse_regused sample_numbers standin_inst) 0xa0000).

Theorem standin_overwritten :
  let m := chain_machine standin_chain in
  cpu_register (@parse_regused sample_numbers standin_inst) = 2 ∧
  match @execPrebuilt a64_sample sample_code (fun _ m => set_x m 0 7) (length standin_chain) m with
  | Ret m' => load 8 (mem m') (0x10000 + @off _ _ _ (@a64_state a64_sample) (gpr_x 0)) =
              load 8 (mem m) (0x10000 + @off _ _ _ (@a64_state a64_sample) (gpr_x 0)) ∧
              load 8 (mem m') (0x10000 + @off _ _ _ (@a64_state a64_sample) (gpr_x 0)) <> 7
  | _ => False
  end.
Proof. by vm_compute. Qed.
