(* ===== verification/IosHandler.v ===== *)
(** The prebuilt handlers of ios/OpcodeEngine.cpp and how src/OpcodeEngine.cpp
    runs them: an opcode that is part of the program runs through a chain of
    its own (IosChain); any other runs as one that is, with its registers
    renamed, between loops that move the guest's values over and back. *)
From Stdlib Require Import ZArith Lia List Sorting.Sorted.
From stdpp Require Import base list gmap sorting.
From S2P Require Import Prelude Utils Registers StateMem CPUState AArch64 OpcodeCache UtilsAArch64 Emit NativeA64 IosChain.
#[local] Open Scope Z_scope.

(** * Handlers *)

(** The members [initPrebuilt] fills. *)
Record prebuilt_handler := mkPrebuilt {
  pb_type : Z; pb_impl : Z; pb_chains : list Z; pb_gpr : list (Z * Z); pb_fpu : list (Z * Z)
}.

(** The pairs of a [std::map] in the order of its keys. *)
Definition le_key (p q : Z * Z) : Prop := p.1 <= q.1.
#[export] Instance le_key_dec : RelDecision le_key.
Proof. intros p q. unfold le_key. apply _. Defined.
Definition map_pairs (m : gmap Z Z) : list (Z * Z) := merge_sort le_key (map_to_list m).

Section Handlers.
Context `{LlvmNumbers} `{ChainCode}.
(** The disassembler, the assembler, whether the instruction goes to the
    interpreter of src/OpcodeAArch64.cpp (MCInst), and where [abort] is. *)
Variable disassemble : Z -> option (Z * list mc_operand).
Variable assemble : Z -> list mc_operand -> option Z.
Variable initMCInst : Z -> list mc_operand -> bool.
Variable abort_address : Z.

(** Nothing is known to be used: [opregs] is new. *)
Definition no_opregs : OpcodeRegisters := mkOpregs [] [] [] ∅ ∅ [].

Definition initPrebuilt (opcode : Z) : exec (option prebuilt_handler) :=
  let decoded := disassemble opcode in
  let '(opc, inst) := default (0, []) decoded in
  if initMCInst opc inst then Ret None
  else match decoded with
  | None => Ret (Some (mkPrebuilt OHT_Prebuilt abort_address [] [] []))
  | Some _ =>
      direct ← callable inst opcode;
      match direct with
      | Some impl =>
          chains ← setup_chains (parse_regused inst) impl;
          Ret (Some (mkPrebuilt OHT_Prebuilt impl chains [] []))
      | None =>
          r ← normalize_opcode assemble opc inst opcode no_opregs;
          let '(opc', inst', opregs) := r in
          found ← callable inst' opc';
          impl ← of_option Abort found;
          chains ← setup_chains (parse_regused inst') impl;
          Ret (Some (mkPrebuilt OHT_PrebuiltMapped impl chains
            (prod_map (Z.add Register.X0) (Z.add Register.X0) <$> map_pairs (regmaps opregs))
            (prod_map (Z.add Register.Q0) (Z.add Register.Q0) <$> map_pairs (fpumaps opregs))))
      end
  end.
End Handlers.

(** * [execPrebuiltMapped] *)

Section Mapped.
Context `{A64Layout}.

(** The registers of a kind, as the loops read and write them. *)
Record reg_access (V : Type) := mkAccess {
  acc_get : Z -> bytes -> exec (V * bytes); acc_set : Z -> V -> bytes -> exec bytes
}.
Arguments acc_get {V}. Arguments acc_set {V}.

(** [*CPU.getRegisterAArch64(r)] and [CPU.setRegisterAArch64(r, v)]. *)
Definition gpr_access : reg_access Z := {|
  acc_get r m := let '(p, m') := getRegisterAArch64 r m in p ← of_option Undef p; Ret (load 8 m' p, m');
  acc_set r v m := Ret (setRegisterAArch64 r v m).2
|}.

(** The same with 128 bits and [CPU.setRegisterNEON]. *)
Definition fpu_access : reg_access RegisterValueSIMD := {|
  acc_get r m := let '(p, m') := getRegisterAArch64 r m in
                 p ← of_option Undef p; Ret (SIMD (load 8 m' p) (load 8 m' (p + 8)), m');
  acc_set r v m := b ← setRegisterNEON r v m; Ret b.2
|}.

(** Saves the mappers ([mapper] has eight entries) and gives them the values
    of the mappees. *)
Fixpoint save_mappers {V} (A : reg_access V) (l : list (Z * Z)) (i : Z) (m : bytes) : exec (list V * bytes) :=
  match l with
  | [] => Ret ([], m)
  | (mappee, mapper) :: l' =>
      if 8 <=? i then Undef
      else
        s ← acc_get A mapper m;
        v ← acc_get A mappee s.2;
        m1 ← acc_set A mapper v.1 v.2;
        r ← save_mappers A l' (i + 1) m1;
        Ret (s.1 :: r.1, r.2)
  end.

(** Gives the mappees the values of the mappers, and those theirs back. *)
Fixpoint restore_mappers {V} (A : reg_access V) (l : list (Z * Z)) (saved : list V) (m : bytes) : exec bytes :=
  match l, saved with
  | (mappee, mapper) :: l', s :: saved' =>
      v ← acc_get A mapper m;
      m1 ← acc_set A mappee v.1 v.2;
      m2 ← acc_set A mapper s m1;
      restore_mappers A l' saved' m2
  | _, _ => Ret m
  end.

Definition execPrebuiltMapped (exec_prebuilt : bytes -> exec bytes) (h : prebuilt_handler) (m : bytes) : exec bytes :=
  g ← save_mappers gpr_access (pb_gpr h) 0 m;
  f ← save_mappers fpu_access (pb_fpu h) 0 g.2;
  m ← exec_prebuilt f.2;
  m ← restore_mappers gpr_access (pb_gpr h) g.1 m;
  restore_mappers fpu_access (pb_fpu h) f.1 m.
End Mapped.


(** * Registers of the two kinds *)

Section MappedLemmas.
Context `{A64Layout}.

(** What the loops rely on: a register is a field, read and written as a
    whole. *)
Record access_laws {V} (A : reg_access V) (fld : Z -> a64_field) (valid : Z -> Prop) (good : V -> Prop)
    (rd : Z -> bytes -> V) : Prop := {
  al_field r : valid r -> a64_ok (fld r) = true;
  al_inj r r' : valid r -> valid r' -> fld r = fld r' -> r = r';
  al_get r m : valid r -> acc_get V A r m = Ret (rd r m, m);
  al_good r m : byte_store m -> good (rd r m);
  al_set r v m : valid r -> good v -> byte_store m -> ∃ m', acc_set V A r v m = Ret m' ∧ rd r m' = v ∧ byte_store m' ∧
    (∀ a, a < off (fld r) \/ off (fld r) + a64_size (fld r) <= a -> get8 m' a = get8 m a);
  al_ext r m m' : valid r -> (∀ a, off (fld r) <= a < off (fld r) + a64_size (fld r) -> get8 m a = get8 m' a) ->
    rd r m = rd r m'
}.

Definition gpr_valid (r : Z) : Prop := Register.X0 <= r <= Register.X30.
Definition fpu_valid (r : Z) : Prop := Register.Q0 <= r <= Register.Q31.
Definition gpr_field (r : Z) : a64_field := gpr_x (r - Register.X0).
Definition fpu_field (r : Z) : a64_field := simd_v (r - Register.Q0).
Definition gpr_read (r : Z) (m : bytes) : Z := load 8 m (off (gpr_field r)).
Definition fpu_read (r : Z) (m : bytes) : RegisterValueSIMD :=
  SIMD (load 8 m (off (fpu_field r))) (load 8 m (off (fpu_field r) + 8)).

Lemma gpr_switch r : gpr_valid r -> switch r aarch64_cases = Some (gpr_field r) ∧ (r =? Register.NZCV) = false.
Proof.
  intros Hr. unfold gpr_valid, gpr_field in *. change Register.X30 with (Register.X0 + 30) in Hr.
  assert (∃ i : nat, r = Register.X0 + Z.of_nat i ∧ (i < 31)%nat) as (i & -> & Hi)
    by (exists (Z.to_nat (r - Register.X0)); lia).
  clear Hr.
  do 31 (destruct i as [|i]; [done|]). lia.
Qed.

Lemma fpu_switch r : fpu_valid r -> switch r aarch64_cases = Some (fpu_field r) ∧ (r =? Register.NZCV) = false.
Proof.
  intros Hr. split; [by apply switch_q|]. apply Z.eqb_neq. unfold fpu_valid in Hr. intros ->. by destruct Hr as [Hr _].
Qed.

Lemma gpr_laws : access_laws gpr_access gpr_field gpr_valid u64 gpr_read.
Proof.
  constructor.
  - intros r Hr. apply (x_ok r). unfold is_x, gpr_valid in *. by rewrite !(proj2 (Z.leb_le _ _)) by lia.
  - intros r r' _ _ [= He]. lia.
  - intros r m Hr. destruct (gpr_switch r Hr) as [Hs Hn]. cbn [acc_get acc_set gpr_access]. unfold getRegisterAArch64, table_get. by rewrite Hs, Hn.
  - intros r m Hm. by apply (load_fits 8).
  - intros r v m Hr Hv Hm. destruct (gpr_switch r Hr) as [Hs Hn]. cbn [acc_get acc_set gpr_access]. unfold setRegisterAArch64, table_set, table_get.
    rewrite Hs, Hn. cbn [fmap option_fmap option_map]. eexists. split; [reflexivity|]. cbn [snd]. split_and!; [by apply load8_same|by apply byte_store_store|].
    intros a Ha. unfold store. rewrite get8_store_bytes, le_bytes_length, decide_False; [done|]. cbn in Ha. lia.
  - intros r m m' _ He. apply load_ext. intros x Hx. apply He. cbn in *. lia.
Qed.

Definition simd_good (v : RegisterValueSIMD) : Prop := u64 (simd_low v) ∧ u64 (simd_high v).

Lemma fpu_laws : access_laws fpu_access fpu_field fpu_valid simd_good fpu_read.
Proof.
  constructor.
  - intros r Hr. apply (q_ok r). unfold is_q, fpu_valid in *. by rewrite !(proj2 (Z.leb_le _ _)) by lia.
  - intros r r' _ _ [= He]. lia.
  - intros r m Hr. destruct (fpu_switch r Hr) as [Hs Hn]. cbn [acc_get acc_set fpu_access]. unfold getRegisterAArch64, table_get. by rewrite Hs, Hn.
  - intros r m Hm. split; by apply (load_fits 8).
  - intros r v m Hr [Hl Hh] Hm. destruct (fpu_switch r Hr) as [Hs Hn]. destruct v as [lo hi]. cbn in Hl, Hh. cbn [acc_set fpu_access].
    unfold setRegisterNEON, table_set_simd, table_get. rewrite Hs, Hn.
    rewrite !(proj2 (Z.leb_le _ _)) by apply Hr. cbn [andb fmap option_fmap option_map mbind exec_bind snd].
    eexists. split; [reflexivity|].
    split_and!; [|by do 2 apply byte_store_store|].
    + unfold fpu_read. rewrite load_store, load_store_disjoint, load_store by lia.
      f_equal; apply Z.mod_small; unfold fits in *; lia.
    + intros a Ha. cbn in Ha. unfold store. rewrite !get8_store_bytes, !le_bytes_length, !decide_False by lia. done.
  - intros r m m' _ He. unfold fpu_read. cbn in He. f_equal; apply load_ext; intros x Hx; apply He; lia.
Qed.

(** ** The loops *)

Section Loops.
Context {V : Type} (A : reg_access V) (fld : Z -> a64_field) (valid : Z -> Prop) (good : V -> Prop) (rd : Z -> bytes -> V).
Hypothesis laws : access_laws A fld valid good rd.

(** Byte [a] is in the register of none of [l]. *)
Definition outside (l : list Z) (a : Z) : Prop :=
  ∀ r, r ∈ l -> a < off (fld r) \/ off (fld r) + a64_size (fld r) <= a.

Definition pairs_ok (l : list (Z * Z)) : Prop := NoDup (l.*1 ++ l.*2)%list ∧ Forall valid (l.*1 ++ l.*2)%list.

Lemma pairs_cons a b l : pairs_ok ((a, b) :: l) ->
  pairs_ok l ∧ valid a ∧ valid b ∧ a <> b ∧ a ∉ l.*1 ∧ a ∉ l.*2 ∧ b ∉ l.*1 ∧ b ∉ l.*2.
Proof.
  intros [Hn Hv]. cbn [fmap list_fmap fst snd app] in *. apply NoDup_cons in Hn as [Ha Hn].
  apply Forall_cons in Hv as [Hva Hv]. apply Forall_app in Hv as [Hv1 [Hvb Hv2]%Forall_cons].
  rewrite not_elem_of_app, not_elem_of_cons in Ha. destruct Ha as (Ha1 & Hab & Ha2).
  apply NoDup_app in Hn as (Hn1 & Hn12 & [Hb Hn2]%NoDup_cons).
  split; [split|split_and!; try done].
  - apply NoDup_app. split_and!; [done| |done]. intros x Hx Hx2. apply (Hn12 x Hx). by apply list_elem_of_further.
  - by apply Forall_app.
  - intros Hb1. apply (Hn12 b Hb1), list_elem_of_here.
Qed.

(** A register not written reads as before. *)
Lemma read_outside r l m m' : valid r -> Forall valid l -> r ∉ l ->
  (∀ a, outside l a -> get8 m' a = get8 m a) -> rd r m' = rd r m.
Proof.
  intros Hr Hl Hn Hm. apply (al_ext _ _ _ _ _ laws); [done|]. intros a Ha. apply Hm. intros s Hs.
  rewrite Forall_forall in Hl. assert (fld r <> fld s) as Hne.
  { intros He. apply (al_inj _ _ _ _ _ laws) in He; [congruence|done|by apply Hl]. }
  pose proof (off_disjoint _ _ (al_field _ _ _ _ _ laws r Hr) (al_field _ _ _ _ _ laws s (Hl s Hs)) Hne). lia.
Qed.

Lemma outside_one r a : outside [r] a <-> a < off (fld r) \/ off (fld r) + a64_size (fld r) <= a.
Proof. unfold outside. split; [intros Ho; apply Ho, list_elem_of_here|]. intros Ho s Hs. apply list_elem_of_singleton in Hs. by subst. Qed.

Lemma outside_cons r l a : outside (r :: l) a <-> outside [r] a ∧ outside l a.
Proof.
  rewrite outside_one. unfold outside. split.
  - intros Ho. split; [apply Ho, list_elem_of_here|]. intros s Hs. by apply Ho, list_elem_of_further.
  - intros [Hr Ho] s [->|Hs]%elem_of_cons; [done|by apply Ho].
Qed.

(** After saving, each mapper holds its mappee's value. *)
Lemma save_mappers_spec l : ∀ i m, pairs_ok l -> 0 <= i -> i + Z.of_nat (length l) <= 8 -> byte_store m ->
  ∃ m', save_mappers A l i m = Ret ((fun p => rd p.2 m) <$> l, m') ∧ byte_store m' ∧
    (∀ p, p ∈ l -> rd p.2 m' = rd p.1 m) ∧ (∀ a, outside l.*2 a -> get8 m' a = get8 m a).
Proof.
  induction l as [|[a b] l IH]; intros i m Hl Hi Hlen Hm.
  { exists m. split_and!; [done|done| |done]. intros p Hp. by apply elem_of_nil in Hp. }
  destruct (pairs_cons a b l Hl) as (Hl' & Ha & Hb & Hab & Ha1 & Ha2 & Hb1 & Hb2). cbn [length] in Hlen.
  cbn [save_mappers]. rewrite (proj2 (Z.leb_gt 8 i)) by lia.
  rewrite (al_get _ _ _ _ _ laws b m Hb). cbn [mbind exec_bind snd].
  rewrite (al_get _ _ _ _ _ laws a m Ha). cbn [mbind exec_bind fst snd].
  destruct (al_set _ _ _ _ _ laws b (rd a m) m Hb (al_good _ _ _ _ _ laws a m Hm) Hm) as (m1 & -> & Hr & Hm1 & Hf).
  cbn [mbind exec_bind]. destruct (IH (i + 1) m1 Hl') as (m' & -> & Hm' & Hs & Hfr); [lia..|done|].
  assert (∀ r, valid r -> r <> b -> rd r m1 = rd r m) as Hkeep.
  { intros r Hrv Hne. apply (read_outside r [b]); [done|by apply Forall_singleton|by rewrite list_elem_of_singleton|].
    intros x Hx%outside_one. by apply Hf. }
  destruct Hl' as [_ Hv]. apply Forall_app in Hv as [Hv1 Hv2]. rewrite Forall_forall in Hv1.
  cbn [mbind exec_bind fst snd]. exists m'. split_and!.
  - rewrite fmap_cons. cbn [snd]. do 3 f_equal. apply list_fmap_ext. intros k p Hp. apply Hkeep.
    + rewrite Forall_forall in Hv2. apply Hv2, list_elem_of_fmap. exists p. split; [done|]. by eapply list_elem_of_lookup_2.
    + intros He. apply Hb2, list_elem_of_fmap. exists p. split; [done|]. by eapply list_elem_of_lookup_2.
  - done.
  - intros p [->|Hp]%elem_of_cons; cbn [fst snd]; [by rewrite (read_outside b l.*2 m1)|].
    assert (p.1 ∈ l.*1) as Hp1 by (apply list_elem_of_fmap; by exists p).
    rewrite (Hs p Hp). apply Hkeep; [by apply Hv1|congruence].
  - intros x Hx. cbn [fmap list_fmap snd] in Hx. apply outside_cons in Hx as [Hxb Hx]. rewrite Hfr by done.
    by apply Hf, outside_one.
Qed.

(** After restoring, each mappee holds what its mapper held, and each mapper
    what was saved. *)
Lemma restore_mappers_spec l : ∀ (saved : Z -> V) m, pairs_ok l -> (∀ r, good (saved r)) -> byte_store m ->
  ∃ m', restore_mappers A l ((fun p => saved p.2) <$> l) m = Ret m' ∧ byte_store m' ∧
    (∀ p, p ∈ l -> rd p.1 m' = rd p.2 m ∧ rd p.2 m' = saved p.2) ∧
    (∀ a, outside (l.*1 ++ l.*2)%list a -> get8 m' a = get8 m a).
Proof.
  induction l as [|[a b] l IH]; intros saved m Hl Hg Hm.
  { exists m. split_and!; [done|done| |done]. intros p Hp. by apply elem_of_nil in Hp. }
  destruct (pairs_cons a b l Hl) as (Hl' & Ha & Hb & Hab & Ha1 & Ha2 & Hb1 & Hb2). rewrite fmap_cons. cbn [restore_mappers snd].
  rewrite (al_get _ _ _ _ _ laws b m Hb). cbn [mbind exec_bind fst snd].
  destruct (al_set _ _ _ _ _ laws a (rd b m) m Ha (al_good _ _ _ _ _ laws b m Hm) Hm) as (m1 & -> & Hr1 & Hm1 & Hf1).
  cbn [mbind exec_bind].
  destruct (al_set _ _ _ _ _ laws b (saved b) m1 Hb (Hg b) Hm1) as (m2 & -> & Hr2 & Hm2 & Hf2).
  cbn [mbind exec_bind]. destruct (IH saved m2 Hl' Hg Hm2) as (m' & -> & Hm' & Hs & Hfr).
  assert (∀ x, outside [a; b] x -> get8 m2 x = get8 m x) as Hf.
  { intros x [Hxa Hxb]%outside_cons. rewrite Hf2 by by apply outside_one. by apply Hf1, outside_one. }
  assert (∀ r, r = a \/ r = b -> rd r m' = rd r m2) as Hlast.
  { intros r Hr. apply (read_outside r (l.*1 ++ l.*2)%list); [by destruct Hr as [-> | ->]|apply Hl'| |done].
    rewrite not_elem_of_app. by destruct Hr as [-> | ->]. }
  destruct Hl' as [_ Hv]. rewrite Forall_forall in Hv. exists m'. split_and!; [done|done|..].
  - intros p [->|Hp]%elem_of_cons; cbn [fst snd].
    + rewrite !Hlast by tauto. split; [|done]. rewrite <- Hr1.
      apply (read_outside a [b]); [done|by apply Forall_singleton|by rewrite list_elem_of_singleton|].
      intros x Hx%outside_one. by apply Hf2.
    + destruct (Hs p Hp) as [-> ->]. split; [|done].
      assert (p.2 ∈ l.*2) as Hp2 by (apply list_elem_of_fmap; by exists p).
      apply (read_outside p.2 [a; b]); [apply Hv, elem_of_app; by right|by repeat constructor| |exact Hf].
      rewrite !not_elem_of_cons. split_and!; [congruence|congruence|apply not_elem_of_nil].
  - intros x Hx. cbn [fmap list_fmap fst snd app] in Hx. rewrite Hfr, Hf; [done|..]; intros r Hr; apply Hx.
    + rewrite !elem_of_cons, elem_of_nil in Hr. rewrite elem_of_cons, elem_of_app, elem_of_cons. tauto.
    + rewrite elem_of_app in Hr. rewrite elem_of_cons, elem_of_app, elem_of_cons. tauto.
Qed.
End Loops.

(** The kinds do not touch each other. *)
Lemma gpr_cross r l m m' : gpr_valid r -> Forall fpu_valid l -> (∀ a, outside fpu_field l a -> get8 m' a = get8 m a) ->
  gpr_read r m' = gpr_read r m.
Proof.
  intros Hr Hl Hm. apply (al_ext _ _ _ _ _ gpr_laws); [done|]. intros a Ha. apply Hm. intros s Hs.
  rewrite Forall_forall in Hl.
  pose proof (off_disjoint _ _ (al_field _ _ _ _ _ gpr_laws r Hr) (al_field _ _ _ _ _ fpu_laws s (Hl s Hs)) ltac:(done)). lia.
Qed.

Lemma fpu_cross r l m m' : fpu_valid r -> Forall gpr_valid l -> (∀ a, outside gpr_field l a -> get8 m' a = get8 m a) ->
  fpu_read r m' = fpu_read r m.
Proof.
  intros Hr Hl Hm. apply (al_ext _ _ _ _ _ fpu_laws); [done|]. intros a Ha. apply Hm. intros s Hs.
  rewrite Forall_forall in Hl.
  pose proof (off_disjoint _ _ (al_field _ _ _ _ _ fpu_laws r Hr) (al_field _ _ _ _ _ gpr_laws s (Hl s Hs)) ltac:(done)). lia.
Qed.

(** The registers of a handler: none is a mapper and a mappee, or either twice. *)
Record renames_ok (h : prebuilt_handler) : Prop := {
  rn_gpr : pairs_ok gpr_valid (pb_gpr h); rn_gpr_room : (length (pb_gpr h) <= 8)%nat;
  rn_fpu : pairs_ok fpu_valid (pb_fpu h); rn_fpu_room : (length (pb_fpu h) <= 8)%nat
}.

(** The state an opcode with renamed registers is to find, and what is to
    become of the one it leaves. *)
Definition renamed_in (h : prebuilt_handler) (m m1 : bytes) : Prop :=
  (∀ p, p ∈ pb_gpr h -> gpr_read p.2 m1 = gpr_read p.1 m) ∧ (∀ p, p ∈ pb_fpu h -> fpu_read p.2 m1 = fpu_read p.1 m) ∧
  (∀ a, outside gpr_field (pb_gpr h).*2 a -> outside fpu_field (pb_fpu h).*2 a -> get8 m1 a = get8 m a).
Definition renamed_back (h : prebuilt_handler) (m m2 m' : bytes) : Prop :=
  (∀ p, p ∈ pb_gpr h -> gpr_read p.1 m' = gpr_read p.2 m2 ∧ gpr_read p.2 m' = gpr_read p.2 m) ∧
  (∀ p, p ∈ pb_fpu h -> fpu_read p.1 m' = fpu_read p.2 m2 ∧ fpu_read p.2 m' = fpu_read p.2 m) ∧
  (∀ a, outside gpr_field ((pb_gpr h).*1 ++ (pb_gpr h).*2)%list a ->
     outside fpu_field ((pb_fpu h).*1 ++ (pb_fpu h).*2)%list a -> get8 m' a = get8 m2 a).

Lemma pairs_valid (valid : Z -> Prop) l p : pairs_ok valid l -> p ∈ l -> valid p.1 ∧ valid p.2.
Proof.
  intros [_ Hv] Hp. rewrite Forall_forall in Hv. split; apply Hv, elem_of_app; [left|right];
    (apply list_elem_of_fmap; by exists p).
Qed.

Lemma mapped_runs h m : renames_ok h -> byte_store m ->
  ∃ m1, byte_store m1 ∧ renamed_in h m m1 ∧
    ∀ exec_prebuilt m2, exec_prebuilt m1 = Ret m2 -> byte_store m2 ->
      ∃ m', execPrebuiltMapped exec_prebuilt h m = Ret m' ∧ renamed_back h m m2 m'.
Proof.
  intros [Hg Hgl Hf Hfl] Hm.
  assert (Forall gpr_valid ((pb_gpr h).*1 ++ (pb_gpr h).*2)%list ∧ Forall fpu_valid ((pb_fpu h).*1 ++ (pb_fpu h).*2)%list)
    as [Hgv Hfv] by (split; [apply Hg|apply Hf]).
  pose proof Hgv as [_ Hgv2]%Forall_app. pose proof Hfv as [_ Hfv2]%Forall_app.
  destruct (save_mappers_spec gpr_access _ _ _ _ gpr_laws (pb_gpr h) 0 m Hg) as (mg & Eg & Hmg & Sg & Fg); [lia..|done|].
  destruct (save_mappers_spec fpu_access _ _ _ _ fpu_laws (pb_fpu h) 0 mg Hf) as (m1 & Ef & Hm1 & Sf & Ff); [lia..|done|].
  exists m1. split; [done|]. split.
  - split_and!.
    + intros p Hp. rewrite (gpr_cross p.2 (pb_fpu h).*2 mg m1); [by apply Sg|by apply (pairs_valid _ _ p Hg)|done|done].
    + intros p Hp. rewrite (Sf p Hp). apply (fpu_cross p.1 (pb_gpr h).*2); [by apply (pairs_valid _ _ p Hf)|done|done].
    + intros a Hag Haf. rewrite Ff by done. by apply Fg.
  - intros run m2 Hrun Hm2. unfold execPrebuiltMapped. rewrite Eg. cbn [mbind exec_bind fst snd]. rewrite Ef.
    cbn [mbind exec_bind fst snd]. rewrite Hrun. cbn [mbind exec_bind].
    destruct (restore_mappers_spec gpr_access _ _ _ _ gpr_laws (pb_gpr h) (fun r => gpr_read r m) m2 Hg) as (m3 & E3 & Hm3 & S3 & F3);
      [intros r; by apply (al_good _ _ _ _ _ gpr_laws)|done|].
    destruct (restore_mappers_spec fpu_access _ _ _ _ fpu_laws (pb_fpu h) (fun r => fpu_read r mg) m3 Hf) as (m4 & E4 & _ & S4 & F4);
      [intros r; by apply (al_good _ _ _ _ _ fpu_laws)|done|].
    rewrite E3. cbn [mbind exec_bind]. exists m4. split; [exact E4|]. split_and!.
    + intros p Hp. destruct (pairs_valid _ _ p Hg Hp).
      rewrite !(gpr_cross _ ((pb_fpu h).*1 ++ (pb_fpu h).*2)%list m3 m4) by done. by apply S3.
    + intros p Hp. destruct (pairs_valid _ _ p Hf Hp). destruct (S4 p Hp) as [-> ->].
      split; [apply (fpu_cross _ ((pb_gpr h).*1 ++ (pb_gpr h).*2)%list)|apply (fpu_cross _ (pb_gpr h).*2)]; done.
    + intros a Hag Haf. rewrite F4 by done. by apply F3.
Qed.
End MappedLemmas.

(** * Properties *)

(** C22: an opcode that runs with renamed registers: it is run on a state whose
    mappers have the values of the registers they stand for and that is
    otherwise the guest's; afterwards those registers have the values the
    opcode left in their mappers, the mappers the guest's own, and everything
    else is as the opcode left it. This is for handlers whose pairs are
    [renames_ok]: the registers renamed and those borrowed are valid and all
    different, and there is room for eight pairs of each kind. [initPrebuilt]
    does not see to that (its [usedregs] are empty): [renamed_to_itself] is an
    ordinary instruction of x0 and x5 whose result is lost. *)
Theorem mapped_runs_renamed `{A64Layout} h m : renames_ok h -> byte_store m ->
  ∃ m1, byte_store m1 ∧ renamed_in h m m1 ∧
    ∀ exec_prebuilt m2, exec_prebuilt m1 = Ret m2 -> byte_store m2 ->
      ∃ m', execPrebuiltMapped exec_prebuilt h m = Ret m' ∧ renamed_back h m m2 m'.
Proof. apply mapped_runs. Qed.

Definition sample_handler : prebuilt_handler :=
  mkPrebuilt OHT_PrebuiltMapped 0xa0000 [] [(Register.X4, Register.X0); (Register.X9, Register.X1)] [(Register.Q7, Register.Q0)].

Theorem mapped_runs_renamed_witness :
  ∃ m1, byte_store m1 ∧ @renamed_in a64_sample sample_handler ∅ m1 ∧
    ∀ exec_prebuilt m2, exec_prebuilt m1 = Ret m2 -> byte_store m2 ->
      ∃ m', @execPrebuiltMapped a64_sample exec_prebuilt sample_handler ∅ = Ret m' ∧ @renamed_back a64_sample sample_handler ∅ m2 m'.
Proof.
  apply (@mapped_runs_renamed a64_sample); [|apply byte_store_empty].
  constructor; try (cbn; lia); (split; [by apply (bool_decide_unpack _); vm_compute|]);
    cbn [sample_handler pb_gpr pb_fpu fmap list_fmap fst snd app]; repeat constructor; done.
Defined.

(** ** Registers renamed to themselves *)

Section Lost.
Context {V : Type} (A : reg_access V) (fld : Z -> a64_field) (valid : Z -> Prop) (good : V -> Prop) (rd : Z -> bytes -> V).
Context `{A64Layout}.
Hypothesis laws : access_laws A fld valid good rd.

(** A register renamed to itself is restored to what it was before. *)
Lemma restore_itself r s l saved m m' : valid r -> good s -> (∀ x, good (saved x)) -> pairs_ok valid l ->
  r ∉ (l.*1 ++ l.*2)%list -> byte_store m ->
  restore_mappers A ((r, r) :: l) (s :: ((fun p => saved p.2) <$> l)) m = Ret m' -> rd r m' = s.
Proof.
  intros Hr Hs Hg Hl Hn Hm. cbn [restore_mappers]. rewrite (al_get _ _ _ _ _ laws r m Hr). cbn [mbind exec_bind fst snd].
  destruct (al_set _ _ _ _ _ laws r (rd r m) m Hr (al_good _ _ _ _ _ laws r m Hm) Hm) as (m1 & -> & _ & Hm1 & _).
  cbn [mbind exec_bind]. destruct (al_set _ _ _ _ _ laws r s m1 Hr Hs Hm1) as (m2 & -> & Hr2 & Hm2 & _).
  cbn [mbind exec_bind]. destruct (restore_mappers_spec A fld valid good rd laws l saved m2 Hl Hg Hm2) as (m3 & -> & _ & _ & Hf).
  intros [= <-]. rewrite <- Hr2. by apply (read_outside A fld valid good rd laws r (l.*1 ++ l.*2)%list); [|apply Hl|..].
Qed.
End Lost.

(** With x0 renamed to itself and x5 to x1, x0 keeps its value. *)
Lemma x0_kept `{A64Layout} h exec_prebuilt m m' : pb_gpr h = [(Register.X0, Register.X0); (Register.X5, Register.X1)] ->
  pb_fpu h = [] -> byte_store m -> (∀ b b', byte_store b -> exec_prebuilt b = Ret b' -> byte_store b') ->
  execPrebuiltMapped exec_prebuilt h m = Ret m' -> gpr_read Register.X0 m' = gpr_read Register.X0 m.
Proof.
  intros Hg Hf Hm Hexec. unfold execPrebuiltMapped. rewrite Hg, Hf. cbn [save_mappers Z.leb Z.compare Z.add Pos.compare].
  assert (∀ r, r = Register.X0 \/ r = Register.X1 \/ r = Register.X5 -> gpr_valid r) as Hv
    by (intros r [-> | [-> | ->]]; done).
  assert (∀ r m, r = Register.X0 \/ r = Register.X1 \/ r = Register.X5 -> acc_get _ gpr_access r m = Ret (gpr_read r m, m)) as Hget
    by (intros; by apply (al_get _ _ _ _ _ gpr_laws), Hv).
  pose proof (al_good _ _ _ _ _ gpr_laws) as Hgood.
  rewrite !Hget by tauto. cbn [mbind exec_bind fst snd]. rewrite Hget by tauto. cbn [mbind exec_bind fst snd].
  destruct (al_set _ _ _ _ _ gpr_laws Register.X0 (gpr_read Register.X0 m) m) as (m1 & -> & _ & Hm1 & _); [by apply Hv; tauto|by apply Hgood|done|].
  cbn [mbind exec_bind fst snd]. rewrite !Hget by tauto. cbn [mbind exec_bind fst snd]. rewrite Hget by tauto. cbn [mbind exec_bind fst snd].
  destruct (al_set _ _ _ _ _ gpr_laws Register.X1 (gpr_read Register.X5 m1) m1) as (m2 & -> & _ & Hm2 & _); [by apply Hv; tauto|by apply Hgood|done|].
  change (8 <=? 0 + 1) with false. cbn [mbind exec_bind fst snd].
  destruct (exec_prebuilt m2) as [m3| |] eqn:He; cbn [mbind exec_bind]; [|done..].
  intros Hr. destruct (restore_mappers gpr_access _ _ m3) as [m4| |] eqn:Hres; cbn [mbind exec_bind] in Hr; [|done..].
  injection Hr as ->.
  apply (restore_itself gpr_access gpr_field gpr_valid u64 gpr_read gpr_laws Register.X0 _ [(Register.X5, Register.X1)]
    (fun _ => gpr_read Register.X1 m1) m3 m'); try done; [by apply Hgood|intros; by apply Hgood| | |by eapply Hexec].
  - split; [by apply (bool_decide_unpack _); vm_compute|]. cbn. repeat constructor; done.
  - by apply (bool_decide_unpack _); vm_compute.
Qed.

(** [initPrebuilt] renames without telling which registers are used: an
    instruction of x0 and x5 becomes one of x0 and x1, and x0 stands for
    itself. Whatever the opcode leaves in x0, the guest has its old value. *)
Theorem renamed_to_itself `{A64Layout} `{LlvmNumbers} assemble opc opcode w :
  let inst := [OReg (num (Nth CX 0)); OReg (num (Nth CX 5))] in
  (∀ inst', assemble opc inst' = Some w) ->
  ∃ inst' opregs, normalize_opcode assemble opc inst opcode no_opregs = Ret (w, inst', opregs) ∧
    map_pairs (regmaps opregs) = [(0, 0); (5, 1)] ∧ map_pairs (fpumaps opregs) = [] ∧
    ∀ type impl chains exec_prebuilt m m',
      let h := mkPrebuilt type impl chains
        (prod_map (Z.add Register.X0) (Z.add Register.X0) <$> map_pairs (regmaps opregs))
        (prod_map (Z.add Register.Q0) (Z.add Register.Q0) <$> map_pairs (fpumaps opregs)) in
      byte_store m -> (∀ b b', byte_store b -> exec_prebuilt b = Ret b' -> byte_store b') ->
      execPrebuiltMapped exec_prebuilt h m = Ret m' -> gpr_read Register.X0 m' = gpr_read Register.X0 m.
Proof.
  intros inst Hasm. set (o := mkOpregs [] [0; 5] [] (<[5 := 1]> (<[0 := 0]> ∅)) ∅ []).
  assert (fill_maps (fold_left note_operand inst no_opregs) = o) as Hnote.
  { unfold inst. rewrite note_operands. unfold no_opregs, numbers. cbn [omap list_omap operand_reg mbind option_bind usedregs regused fpuused].
    by rewrite !reg_number_num. }
  destruct (rename_all o inst) as (inst' & Hren & _).
  { intros x Hx g n Hn. unfold inst in Hx. rewrite !elem_of_cons, elem_of_nil in Hx.
    destruct Hx as [-> | [-> | []]]; cbn [operand_reg mbind option_bind] in Hn; rewrite reg_number_num in Hn by done;
      injection Hn as <- <-; by eexists. }
  exists inst', o. split_and!; [|by vm_compute|by vm_compute|].
  - unfold normalize_opcode. cbn [asmerropcs no_opregs]. rewrite bool_decide_false by apply not_elem_of_nil. cbv zeta.
    rewrite Hnote, Hren. cbn [mbind exec_bind]. by rewrite Hasm.
  - intros type impl chains exec_prebuilt m m' h. apply x0_kept; by vm_compute.
Qed.
