(* ===== verification/Trampolines.v ===== *)
(** The assembly of src/AArch64.cpp: the way into the handlers and out
    ([aether_vm_entry] with [vm_enter_aarch64]), the trampoline of an event,
    and [call_host], which calls a function of the host with the guest's
    registers. The functions they call obey the procedure call standard. *)
From Stdlib Require Import ZArith Lia List.
From stdpp Require Import base list gmap.
From S2P Require Import Prelude StateMem CPUState Emit NativeA64.
#[local] Open Scope Z_scope.

(** * Instructions *)

(** Those of NativeA64, pairs of registers, and the stack pointer as an
    operand: "stp x, x, [sp, #off]", "stp q, q, [x, #off]", "add fp, sp, #i". *)
Inductive t_insn :=
| Insn (i : a64_insn) | MOVi (d imm : Z)
| SUBsp (imm : Z) | ADDsp (imm : Z) | ADDfp (imm : Z) | MOVfromsp (d : Z) | MOVtosp (n : Z)
| STPx (t u off : Z) | LDPx (t u off : Z) | STRsp (t off : Z) | LDRsp (t off : Z)
| STPq (t u n off : Z) | LDPq (t u n off : Z).

Section Run.
Definition at_sp (m : a64_machine) (o : Z) : Z := wrap64 (sp m + o).
Definition at_x (m : a64_machine) (n o : Z) : Z := wrap64 (xr m n + o).

Definition t_exec (m : a64_machine) (i : t_insn) : a64_machine :=
  match i with
  | Insn i => a64_exec (fun _ m => m) m i
  | MOVi d imm => set_x m d imm
  | SUBsp imm => set_sp m (wrap64 (sp m - imm))
  | ADDsp imm => set_sp m (wrap64 (sp m + imm))
  | ADDfp imm => set_x m 29 (wrap64 (sp m + imm))
  | MOVfromsp d => set_x m d (sp m)
  | MOVtosp n => set_sp m (xr m n)
  | STPx t u o => set_mem m (store 8 (store 8 (mem m) (at_sp m o) (xr m t)) (at_sp m (o + 8)) (xr m u))
  | LDPx t u o => set_x (set_x m t (load 8 (mem m) (at_sp m o))) u (load 8 (mem m) (at_sp m (o + 8)))
  | STRsp t o => set_mem m (store 8 (mem m) (at_sp m o) (xr m t))
  | LDRsp t o => set_x m t (load 8 (mem m) (at_sp m o))
  | STPq t u n o => set_mem m (store 16 (store 16 (mem m) (at_x m n o) (vr m t)) (at_x m n (o + 16)) (vr m u))
  | LDPq t u n o => set_v (set_v m t (load 16 (mem m) (at_x m n o))) u (load 16 (mem m) (at_x m n (o + 16)))
  end.

Definition t_run (l : list t_insn) (m : a64_machine) : a64_machine := fold_left t_exec l m.
End Run.

(** [extract_handler_x16] and the branch behind it. *)
Definition extract_handler_x16 : list t_insn := [Insn (LDRx 16 27 None); Insn (UBFX59 16); Insn (BR 16)].

(** * [call_host] *)

Definition call_host_save : list t_insn :=
  [SUBsp 0x30; STPx 19 20 0; STRsp 21 0x10; STPx 29 30 0x20; ADDfp 0x20;
   Insn (MOV 19 0); Insn (MOV 20 1); MOVfromsp 21; Insn (MOV 16 2)].
Definition call_host_guest : list t_insn :=
  [LDPq 0 1 20 0; LDPq 2 3 20 0x20; LDPq 4 5 20 0x40; LDPq 6 7 20 0x60;
   Insn (LDRx 0 19 None); Insn (LDRx 1 19 (Some 0x10)); Insn (LDRx 2 19 (Some 0x20)); Insn (LDRx 3 19 (Some 0x30));
   Insn (LDRx 4 19 (Some 0x40)); Insn (LDRx 5 19 (Some 0x50)); Insn (LDRx 6 19 (Some 0x60));
   Insn (LDRx 7 19 (Some 0x70)); Insn (LDRx 8 19 (Some 0x80)); Insn (LDRx 9 19 (Some 0x1f0)); MOVtosp 9].
Definition call_host_results : list t_insn :=
  [MOVtosp 21; STPq 0 1 20 0; STPq 2 3 20 0x20; Insn (STRx 0 19 None); Insn (STRx 1 19 (Some 0x10))].
Definition call_host_restore : list t_insn := [LDPx 29 30 0x20; LDRsp 21 0x10; LDPx 19 20 0; ADDsp 0x30].

(** * Entering and leaving the handlers *)

Definition vm_entry_save : list t_insn :=
  [SUBsp 0x30; STPx 26 27 0x10; STPx 29 30 0x20; ADDfp 0x20; Insn (MOV 26 0); Insn (MOV 27 2); STPx 1 3 0].
Definition vm_entry_args : list t_insn := [Insn (MOV 4 0); Insn (MOV 0 26); Insn (MOV 2 27); LDPx 1 3 0].
Definition vm_enter : list t_insn := Insn (STRx 30 3 None) :: Insn (STRx 30 4 None) :: extract_handler_x16.
Definition vm_entry_restore : list t_insn := [LDPx 29 30 0x20; LDPx 26 27 0x10; ADDsp 0x30].

(** The trampoline of an event, before and behind the call. *)
Definition event_args : list t_insn := [Insn (MOV 0 26); MOVi 1 0; Insn (MOV 2 27)].
Definition event_next : list t_insn :=
  [Insn (MOV 27 0); Insn (MOV 0 26); Insn (LDRx 1 0 (Some (-0x10))); Insn (LDRx 1 1 None); Insn (MOV 2 27)] ++
  extract_handler_x16.

Section Calls.
(** What the code at an address does until it returns, the address behind a
    call, and the one behind the call of [vm_enter_aarch64]. *)
Variable function : Z -> a64_machine -> a64_machine.
Variables call_return vm_return : Z.

(** "blr n", "bl": with the return address in lr. *)
Definition call (target : Z) (m : a64_machine) : a64_machine := function target (set_x m 30 call_return).

(** The machine [call_host] calls the function with. *)
Definition call_host_entry (m : a64_machine) : a64_machine := t_run call_host_guest (t_run call_host_save m).
Definition call_host (m : a64_machine) : a64_machine :=
  let e := call_host_entry m in
  t_run call_host_restore (t_run call_host_results (call (xr e 16) e)).

(** The machine the first handler is entered with; it is at x16. *)
Definition vm_entry_start (m : a64_machine) : a64_machine :=
  let e := t_run vm_entry_save m in
  t_run vm_enter (set_x (t_run vm_entry_args (call (xr e 4) e)) 30 vm_return).
(** [handlers]: the handlers until one goes to the address in lr. *)
Definition aether_vm_entry (handlers : Z -> a64_machine -> a64_machine) (m : a64_machine) : a64_machine :=
  let e := vm_entry_start m in t_run vm_entry_restore (handlers (xr e 16) e).

(** The trampoline of the event whose host function is at [host_n]; the next
    handler is at x16. *)
Definition event_vm (host_n : Z) (m : a64_machine) : a64_machine :=
  t_run event_next (call host_n (t_run event_args m)).
End Calls.

(** * The procedure call standard *)

(** A function gives back the callee-saved registers and the stack pointer,
    and does not write what is its callers' own. *)
Record aapcs (keep : Z -> Prop) (f : a64_machine -> a64_machine) : Prop := {
  ab_saved m n : 19 <= n <= 29 -> xr (f m) n = xr m n;
  ab_sp m : sp (f m) = sp m;
  ab_mem m a : keep a -> get8 (mem (f m)) a = get8 (mem m) a
}.

(** The frame both routines make. *)
Definition in_frame (m : a64_machine) (a : Z) : Prop := sp m - 0x30 <= a < sp m.

Ltac frame_loads := rewrite ?load_store_disjoint by lia; rewrite load_store; apply Z.mod_small.

(** Runs of loads. *)
Lemma t_run_app l l' m : t_run (l ++ l') m = t_run l' (t_run l m).
Proof. apply fold_left_app. Qed.
Lemma t_run_cons i l m : t_run (i :: l) m = t_run l (t_exec m i).
Proof. done. Qed.

Definition load_one (base : Z) (p : Z * Z) : t_insn := Insn (LDRx p.1 base (if p.2 =? 0 then None else Some p.2)).
Definition load_pair (base : Z) (t : Z) : t_insn := LDPq t (t + 1) base (0x10 * t).
Definition gpr_loads : list (Z * Z) :=
  [(0, 0); (1, 0x10); (2, 0x20); (3, 0x30); (4, 0x40); (5, 0x50); (6, 0x60); (7, 0x70); (8, 0x80); (9, 0x1f0)].
Definition simd_loads : list Z := [0; 2; 4; 6].
Lemma guest_parts : call_host_guest = ((load_pair 20 <$> simd_loads) ++ (load_one 19 <$> gpr_loads) ++ [MOVtosp 9])%list.
Proof. done. Qed.
Lemma gpr_loads_base : 19 ∉ gpr_loads.*1.
Proof. apply (bool_decide_unpack _). by vm_compute. Qed.
Lemma gpr_loads_nodup : NoDup gpr_loads.*1.
Proof. apply (bool_decide_unpack _). by vm_compute. Qed.

Lemma run_load_ones base l : ∀ s g, base ∉ l.*1 -> NoDup l.*1 -> g = t_run (load_one base <$> l) s ->
  mem g = mem s ∧ sp g = sp s ∧ vr g = vr s ∧
  (∀ p, p ∈ l -> xr g p.1 = load 8 (mem s) (wrap64 (xr s base + p.2))) ∧ (∀ n, n ∉ l.*1 -> xr g n = xr s n).
Proof.
  induction l as [|p l IH]; intros s g Hb Hn Hg.
  { subst g. split_and!; try done. intros p Hp. by apply elem_of_nil in Hp. }
  rewrite fmap_cons in Hb, Hn. apply not_elem_of_cons in Hb as [Hbp Hb]. apply NoDup_cons in Hn as [Hp Hn].
  rewrite fmap_cons, t_run_cons in Hg.
  assert (t_exec s (load_one base p) = set_x s p.1 (load 8 (mem s) (wrap64 (xr s base + p.2)))) as Hs1.
  { unfold load_one, t_exec. cbn [a64_exec]. unfold address. zcase; [by rewrite e|done]. }
  rewrite Hs1 in Hg. destruct (IH _ g Hb Hn Hg) as (I1 & I2 & I3 & I4 & I5).
  split_and!; [done..| |].
  - intros q [->|Hq]%elem_of_cons; [rewrite I5 by done; apply upd_same|]. rewrite (I4 q Hq). cbn [set_x xr mem]. by rewrite upd_other.
  - intros n [Hnp Hnl]%not_elem_of_cons. rewrite I5 by done. by apply upd_other.
Qed.

(** The pairs, in one step each. *)
Lemma run_load_pairs base s g : g = t_run (load_pair base <$> simd_loads) s ->
  mem g = mem s ∧ xr g = xr s ∧ sp g = sp s ∧
  (∀ n, 0 <= n <= 7 -> vr g n = load 16 (mem s) (wrap64 (xr s base + 0x10 * n))).
Proof.
  intros ->. destruct s as [x v s b]. unfold simd_loads, load_pair. cbn [fmap list_fmap t_run fold_left t_exec set_v xr sp mem vr].
  unfold at_x. cbn [xr]. split_and!; [done..|]. intros n Hn. unfold upd.
  assert (n = 0 \/ n = 1 \/ n = 2 \/ n = 3 \/ n = 4 \/ n = 5 \/ n = 6 \/ n = 7) as Hc by lia.
  repeat (destruct Hc as [-> | Hc]; [done|]). by subst.
Qed.

Section CallHost.
Context `{A64Layout}.
Variables (cpu : Z) (m : a64_machine).

(** The arguments [CallHost] of src/InterpMetaData.cpp passes, and a stack with
    room that is not in the state. *)
Record call_ok : Prop := {
  co_gpr : xr m 0 = cpu + off (gpr_x 0);
  co_simd : xr m 1 = cpu + off (simd_v 0);
  co_placed f : a64_ok f = true -> 0 <= cpu + off f ∧ cpu + off f + a64_size f <= 2 ^ 64;
  co_stack : 0x30 <= sp m < 2 ^ 64;
  co_apart f a : a64_ok f = true -> cpu + off f <= a < cpu + off f + a64_size f -> ~ in_frame m a;
  co_regs n : 19 <= n <= 30 -> u64 (xr m n)
}.
Hypothesis ok : call_ok.

Let top : Z := sp m - 0x30.

(** With the caller's registers in the frame. *)
Definition framed (b : bytes) : Prop :=
  load 8 b top = xr m 19 ∧ load 8 b (top + 8) = xr m 20 ∧ load 8 b (top + 0x10) = xr m 21 ∧
  load 8 b (top + 0x20) = xr m 29 ∧ load 8 b (top + 0x28) = xr m 30.

Lemma framed_ext b b' : (∀ a, in_frame m a -> get8 b' a = get8 b a) -> framed b -> framed b'.
Proof.
  intros Hb (F1 & F2 & F3 & F4 & F5). unfold framed.
  assert (∀ k, 0 <= k <= 0x28 -> load 8 b' (top + k) = load 8 b (top + k)) as Hl.
  { intros k Hk. apply load_ext. intros x Hx. apply Hb. unfold in_frame, top in *. lia. }
  pose proof (Hl 0) as H0. rewrite Z.add_0_r in H0. rewrite !Hl, H0 by lia. done.
Qed.

Lemma save_others s n : s = t_run call_host_save m -> 22 <= n <= 28 -> xr s n = xr m n.
Proof.
  intros -> Hn. unfold call_host_save. cbn [t_run fold_left t_exec a64_exec set_x set_mem set_sp xr]. unfold upd.
  by rewrite !(proj2 (Z.eqb_neq n _)) by lia.
Qed.

Lemma save_spec s : s = t_run call_host_save m ->
  sp s = top ∧ xr s 19 = xr m 0 ∧ xr s 20 = xr m 1 ∧ xr s 21 = top ∧ xr s 16 = xr m 2 ∧
  framed (mem s) ∧ (∀ a, ~ in_frame m a -> get8 (mem s) a = get8 (mem m) a).
Proof.
  intros ->. pose proof (co_stack ok) as Hsp. pose proof (co_regs ok) as Hregs. unfold framed, in_frame, top.
  destruct m as [x v s b]. cbn [xr sp vr mem] in *.
  unfold call_host_save. cbn [t_run fold_left t_exec a64_exec set_x set_mem set_sp xr sp mem vr]. unfold at_sp.
  cbn [set_x set_mem set_sp xr sp mem vr]. unfold upd. cbn [Z.eqb Pos.eqb]. cbn [Z.add].
  rewrite !(wrap_small 64) by (unfold fits; rewrite ?(wrap_small 64) by (unfold fits; lia); lia).
  rewrite !Z.add_0_r. split_and!; try done.
  - frame_loads. by apply (Hregs 19).
  - frame_loads. by apply (Hregs 20).
  - frame_loads. by apply (Hregs 21).
  - frame_loads. by apply (Hregs 29).
  - frame_loads. by apply (Hregs 30).
  - intros a Ha. unfold store. rewrite !get8_store_bytes, !le_bytes_length, !decide_False by lia. done.
Qed.

(** Offsets of the assembly are those of the fields. *)
Lemma gpr_address n : 0 <= n <= 30 -> wrap64 (xr m 0 + 0x10 * n) = cpu + off (gpr_x n).
Proof.
  intros Hn. rewrite (co_gpr ok). pose proof (co_placed ok (gpr_x n)) as Hp. rewrite (a64_x_stride n) in * by done.
  cbn [a64_ok a64_size] in Hp. rewrite !(proj2 (Z.leb_le _ _)) in Hp by lia. specialize (Hp eq_refl).
  rewrite (wrap_small 64); unfold fits; lia.
Qed.
Lemma sp_address : wrap64 (xr m 0 + 0x1f0) = cpu + off gpr_sp.
Proof.
  rewrite (co_gpr ok). pose proof (co_placed ok gpr_sp eq_refl) as Hp. rewrite a64_sp_stride in *. cbn [a64_size] in Hp.
  rewrite (wrap_small 64); unfold fits; lia.
Qed.
Lemma simd_address n : 0 <= n <= 31 -> wrap64 (xr m 1 + 0x10 * n) = cpu + off (simd_v n).
Proof.
  intros Hn. rewrite (co_simd ok). pose proof (co_placed ok (simd_v n)) as Hp. rewrite (a64_v_stride n) in * by done.
  cbn [a64_ok a64_size] in Hp. rewrite !(proj2 (Z.leb_le _ _)) in Hp by lia. specialize (Hp eq_refl).
  rewrite (wrap_small 64); unfold fits; lia.
Qed.

Lemma guest_spec s g : xr s 19 = xr m 0 -> xr s 20 = xr m 1 -> g = t_run call_host_guest s ->
  (∀ n, 0 <= n <= 8 -> xr g n = load 8 (mem s) (cpu + off (gpr_x n))) ∧
  (∀ n, 0 <= n <= 7 -> vr g n = load 16 (mem s) (cpu + off (simd_v n))) ∧
  sp g = load 8 (mem s) (cpu + off gpr_sp) ∧ mem g = mem s ∧ ∀ n, 10 <= n -> xr g n = xr s n.
Proof.
  intros H19 H20 Heq. pose proof gpr_address as Hg. pose proof simd_address as Hv.
  rewrite guest_parts, !t_run_app in Heq. remember (t_run (load_pair 20 <$> simd_loads) s) as s1 eqn:E1.
  remember (t_run (load_one 19 <$> gpr_loads) s1) as s2 eqn:E2.
  destruct (run_load_pairs 20 s s1 E1) as (Q1 & Q2 & Q3 & Q4).
  destruct (run_load_ones 19 gpr_loads s1 s2 gpr_loads_base gpr_loads_nodup E2) as (X1 & X2 & X3 & X4 & X5).
  clear E1 E2. subst g. cbn [t_run fold_left t_exec set_sp xr vr sp mem]. rewrite X1, Q1. rewrite Q1, Q2, H19 in X4. rewrite H20 in Q4.
  split_and!; [|..|done|].
  - intros n Hn. rewrite <- Hg by lia. assert ((n, 0x10 * n) ∈ gpr_loads) as Hin.
    { assert (n = 0 \/ n = 1 \/ n = 2 \/ n = 3 \/ n = 4 \/ n = 5 \/ n = 6 \/ n = 7 \/ n = 8) as Hc by lia.
      repeat (destruct Hc as [-> | Hc]; [unfold gpr_loads; in_list|]). subst. unfold gpr_loads; in_list. }
    apply (X4 _ Hin).
  - intros n Hn. rewrite <- Hv by lia. rewrite X3. by apply Q4.
  - rewrite <- sp_address. apply (X4 (9, 0x1f0)). unfold gpr_loads. in_list.
  - intros n Hn. rewrite X5, Q2; [done|]. unfold gpr_loads. cbn [fmap list_fmap fst]. rewrite !not_elem_of_cons.
    split_and!; try lia. apply not_elem_of_nil.
Qed.

(** The fields of the results. *)
Definition result_field (f : a64_field) : Prop :=
  match f with gpr_x n => 0 <= n <= 1 | simd_v n => 0 <= n <= 3 | _ => False end.
Lemma result_ok f : result_field f -> a64_ok f = true.
Proof. destruct f; cbn; try done; intros Hn; by rewrite !(proj2 (Z.leb_le _ _)) by lia. Qed.

(** What storing a machine's results makes of memory. *)
Definition stores_results (r : a64_machine) (b : bytes) : Prop :=
  (∀ f, result_field f -> load (size_nat f) b (cpu + off f) = reg_value r f mod 2 ^ (8 * a64_size f)) ∧
  (∀ a, (∀ f, result_field f -> a < cpu + off f \/ cpu + off f + a64_size f <= a) -> get8 b a = get8 (mem r) a).

Lemma results_spec r q : xr r 19 = xr m 0 -> xr r 20 = xr m 1 -> q = t_run call_host_results r ->
  xr q = xr r ∧ vr q = vr r ∧ sp q = xr r 21 ∧ stores_results r (mem q).
Proof.
  intros H19 H20 ->. destruct r as [x v s b]. cbn [xr] in H19, H20.
  unfold call_host_results. cbn [t_run fold_left t_exec a64_exec set_x set_v set_mem set_sp xr sp mem vr].
  unfold at_x, address. cbn [set_x set_v set_mem set_sp xr sp mem vr default from_option id]. rewrite H19, H20.
  pose proof (gpr_address 0 ltac:(lia) : wrap64 (xr m 0 + 0) = _) as G0.
  pose proof (gpr_address 1 ltac:(lia) : wrap64 (xr m 0 + 0x10) = _) as G1.
  pose proof (simd_address 0 ltac:(lia) : wrap64 (xr m 1 + 0) = _) as V0.
  pose proof (simd_address 1 ltac:(lia) : wrap64 (xr m 1 + (0 + 16)) = _) as V1.
  pose proof (simd_address 2 ltac:(lia) : wrap64 (xr m 1 + 0x20) = _) as V2.
  pose proof (simd_address 3 ltac:(lia) : wrap64 (xr m 1 + (0x20 + 16)) = _) as V3.
  rewrite G0, G1, V0, V1, V2, V3. clear G0 G1 V0 V1 V2 V3. split_and!; try done.
  assert (∀ f g, result_field f -> result_field g -> f <> g -> off f + a64_size f <= off g \/ off g + a64_size g <= off f) as Hd.
  { intros f g Hf Hg. by apply off_disjoint; apply result_ok. }
  assert (∀ n k, 0 <= n <= 1 -> 0 <= k <= 3 -> off (gpr_x n) + 8 <= off (simd_v k) \/ off (simd_v k) + 16 <= off (gpr_x n)) as Dxv.
  { intros n k Hn Hk. by apply (Hd (gpr_x n) (simd_v k)). }
  assert (off (gpr_x 0) + 8 <= off (gpr_x 1) \/ off (gpr_x 1) + 8 <= off (gpr_x 0)) as Dxx by by apply (Hd (gpr_x 0) (gpr_x 1)).
  assert (∀ n k, 0 <= n <= 3 -> 0 <= k <= 3 -> n <> k -> off (simd_v n) + 16 <= off (simd_v k) \/ off (simd_v k) + 16 <= off (simd_v n)) as Dvv.
  { intros n k Hn Hk Hne. by apply (Hd (simd_v n) (simd_v k)); [done|done|congruence]. }
  assert (∀ n k, 0 <= n <= 1 -> 0 <= k <= 3 -> off (simd_v k) + 16 <= off (gpr_x n) \/ off (gpr_x n) + 8 <= off (simd_v k)) as Dvx.
  { intros n k Hn Hk. specialize (Dxv n k Hn Hk). tauto. }
  split.
  - intros f Hf. destruct f as [n| | | | |n| | | | |]; cbn [result_field] in Hf; try done; cbn [a64_size reg_value].
    + change (size_nat (gpr_x n)) with 8%nat. assert (n = 0 \/ n = 1) as [-> | ->] by lia.
      * rewrite load_store_disjoint by lia. by rewrite load_store.
      * by rewrite load_store.
    + change (size_nat (simd_v n)) with 16%nat.
      pose proof (Dvx 0 n). pose proof (Dvx 1 n). rewrite load_store_disjoint, load_store_disjoint by lia.
      assert (n = 0 \/ n = 1 \/ n = 2 \/ n = 3) as Hc by lia.
      destruct Hc as [-> | [-> | [-> | ->]]].
      * pose proof (Dvv 0 1). pose proof (Dvv 0 2). pose proof (Dvv 0 3). rewrite !load_store_disjoint by lia. by rewrite load_store.
      * pose proof (Dvv 1 2). pose proof (Dvv 1 3). rewrite !load_store_disjoint by lia. by rewrite load_store.
      * pose proof (Dvv 2 3). rewrite !load_store_disjoint by lia. by rewrite load_store.
      * by rewrite load_store.
  - intros a Ha. pose proof (Ha (gpr_x 0)) as A0. pose proof (Ha (gpr_x 1)) as A1. pose proof (Ha (simd_v 0)) as B0.
    pose proof (Ha (simd_v 1)) as B1. pose proof (Ha (simd_v 2)) as B2. pose proof (Ha (simd_v 3)) as B3.
    cbn [result_field a64_size] in *. unfold store. rewrite !get8_store_bytes, !le_bytes_length.
    rewrite !decide_False by lia. done.
Qed.

Lemma restore_spec r e : sp r = top -> framed (mem r) -> e = t_run call_host_restore r ->
  (∀ n, n = 19 \/ n = 20 \/ n = 21 \/ n = 29 \/ n = 30 -> xr e n = xr m n) ∧
  (∀ n, n ∉ [19; 20; 21; 29; 30] -> xr e n = xr r n) ∧ vr e = vr r ∧ sp e = sp m ∧ mem e = mem r.
Proof.
  intros Hsp (F1 & F2 & F3 & F4 & F5) ->. pose proof (co_stack ok) as Hst. destruct r as [x v s b]. cbn [sp mem] in *.
  unfold call_host_restore. cbn [t_run fold_left t_exec set_x set_sp xr sp mem vr]. unfold at_sp.
  cbn [set_x set_sp xr sp mem vr]. rewrite Hsp. unfold top in *. cbn [Z.add].
  rewrite !(wrap_small 64) by (unfold fits; lia). rewrite !Z.add_0_r in *. cbn [Pos.add Pos.succ].
  change (0 + 8) with 8. change (0x20 + 8) with 0x28. rewrite F1, F2, F3, F4, F5. unfold upd. split_and!; [|..|done|lia|done].
  - intros n [-> | [-> | [-> | [-> | ->]]]]; done.
  - intros n Hn. rewrite !not_elem_of_cons in Hn. destruct Hn as (? & ? & ? & ? & ? & _).
    by rewrite !(proj2 (Z.eqb_neq n _)) by done.
Qed.

(** The machine the function is called with, and what [call_host] leaves of
    the machine it returned with. *)
Definition host_called (e : a64_machine) : Prop :=
  (∀ n, 0 <= n <= 8 -> xr e n = load 8 (mem m) (cpu + off (gpr_x n))) ∧
  (∀ n, 0 <= n <= 7 -> vr e n = load 16 (mem m) (cpu + off (simd_v n))) ∧
  sp e = load 8 (mem m) (cpu + off gpr_sp) ∧ xr e 16 = xr m 2 ∧
  (∀ a, ~ in_frame m a -> get8 (mem e) a = get8 (mem m) a).
Definition host_returned (r m' : a64_machine) : Prop :=
  stores_results r (mem m') ∧ (∀ n, 19 <= n <= 30 -> xr m' n = xr m n) ∧ sp m' = sp m ∧ vr m' = vr r.

(** The host's pointers and frame while the function runs. *)
Definition host_kept (e : a64_machine) : Prop :=
  xr e 19 = xr m 0 ∧ xr e 20 = xr m 1 ∧ xr e 21 = top ∧ (∀ n, 22 <= n <= 28 -> xr e n = xr m n) ∧ framed (mem e).

Lemma entry_spec e : e = call_host_entry m -> host_called e ∧ host_kept e.
Proof.
  intros He. unfold call_host_entry in He. remember (t_run call_host_save m) as s eqn:Es.
  destruct (save_spec s Es) as (S1 & S2 & S3 & S4 & S5 & S6 & S8). pose proof (fun n => save_others s n Es) as S7.
  destruct (guest_spec s e S2 S3 He) as (G1 & G2 & G3 & G4 & G5). clear Es He.
  assert (∀ f, a64_ok f = true -> load (size_nat f) (mem s) (cpu + off f) = load (size_nat f) (mem m) (cpu + off f)) as Hf.
  { intros f Hf. apply load_ext. intros x Hx. rewrite size_of_nat in Hx. apply S8. by apply (co_apart ok f). }
  unfold host_called, host_kept. rewrite G4. split_and!; try (by rewrite G5); try done.
  - intros n Hn. rewrite G1 by done. apply (Hf (gpr_x n)). cbn. by rewrite !(proj2 (Z.leb_le _ _)) by lia.
  - intros n Hn. rewrite G2 by done. apply (Hf (simd_v n)). cbn. by rewrite !(proj2 (Z.leb_le _ _)) by lia.
  - rewrite G3. by apply (Hf gpr_sp).
  - intros n Hn. rewrite G5 by lia. by apply S7.
Qed.

Lemma return_spec r m' : host_kept r -> m' = t_run call_host_restore (t_run call_host_results r) -> host_returned r m'.
Proof.
  intros (H19 & H20 & H21 & Hmid & Hfr) Hm'. remember (t_run call_host_results r) as q eqn:Eq.
  destruct (results_spec r q H19 H20 Eq) as (Q1 & Q2 & Q3 & Q4). clear Eq.
  destruct (restore_spec q m') as (R1 & R2 & R3 & R4 & R5); [by rewrite Q3| |done|].
  { apply (framed_ext (mem r)); [|done]. intros a Ha. apply Q4. intros f Hff. apply result_ok in Hff.
    destruct (Z.lt_ge_cases a (cpu + off f)); [by left|]. destruct (Z.le_gt_cases (cpu + off f + a64_size f) a); [by right|].
    exfalso. by apply (co_apart ok f a). }
  clear Hm'. unfold host_returned. rewrite R5, R3, R4. split_and!; [exact Q4| |done|done].
  intros n Hn. destruct (decide (n ∈ [19; 20; 21; 29; 30])) as [Hin|Hin].
  - apply R1. rewrite !elem_of_cons, elem_of_nil in Hin. tauto.
  - rewrite R2 by done. rewrite !not_elem_of_cons in Hin. destruct Hin as (? & ? & ? & ? & ? & _).
    rewrite Q1. apply Hmid. lia.
Qed.

Lemma call_kept function call_return target e : aapcs (in_frame m) (function target) -> host_kept e ->
  host_kept (call function call_return target e).
Proof.
  intros [A1 A2 A3] (K1 & K2 & K3 & K4 & K5). unfold call.
  assert (∀ n, 19 <= n <= 29 -> xr (function target (set_x e 30 call_return)) n = xr e n) as Hr.
  { intros n Hn. rewrite A1 by done. cbn [set_x xr]. by rewrite upd_other by lia. }
  unfold host_kept. rewrite !Hr by lia. split_and!; [done..| |].
  - intros n Hn. rewrite Hr by lia. by apply K4.
  - apply (framed_ext (mem e)); [|done]. intros a Ha. by rewrite A3.
Qed.

Lemma call_host_spec function call_return e m' : (∀ target, aapcs (in_frame m) (function target)) ->
  e = call_host_entry m -> m' = call_host function call_return m ->
  host_called e ∧ host_returned (call function call_return (xr e 16) e) m'.
Proof.
  intros Habi He Hm'. unfold call_host in Hm'. rewrite <- He in Hm'. destruct (entry_spec e He) as [Hc Hk]. clear He.
  split; [exact Hc|]. apply return_spec; [|exact Hm']. by apply call_kept.
Qed.
End CallHost.

(** * [aether_vm_entry] *)

Section VmEntry.
Variable m : a64_machine.
Hypothesis stack : 0x30 <= sp m < 2 ^ 64.
Hypothesis values : ∀ n, n = 1 \/ n = 3 \/ 19 <= n <= 30 -> u64 (xr m n).

Let top : Z := sp m - 0x30.

(** The caller's registers and the two saved arguments. *)
Definition entry_frame (b : bytes) : Prop :=
  load 8 b top = xr m 1 ∧ load 8 b (top + 8) = xr m 3 ∧ load 8 b (top + 0x10) = xr m 26 ∧
  load 8 b (top + 0x18) = xr m 27 ∧ load 8 b (top + 0x20) = xr m 29 ∧ load 8 b (top + 0x28) = xr m 30.

Lemma entry_frame_ext b b' : (∀ a, in_frame m a -> get8 b' a = get8 b a) -> entry_frame b -> entry_frame b'.
Proof.
  intros Hb (F1 & F2 & F3 & F4 & F5 & F6). unfold entry_frame.
  assert (∀ k, 0 <= k <= 0x28 -> load 8 b' (top + k) = load 8 b (top + k)) as Hl.
  { intros k Hk. apply load_ext. intros x Hx. apply Hb. unfold in_frame, top in *. lia. }
  pose proof (Hl 0) as H0. rewrite Z.add_0_r in H0. rewrite !Hl, H0 by lia. done.
Qed.

(** The registers the routine leaves to its callees. *)
Definition kept_reg (n : Z) : Prop := 19 <= n <= 25 \/ n = 28.

Lemma vm_save_others s n : s = t_run vm_entry_save m -> kept_reg n \/ n = 4 -> xr s n = xr m n.
Proof.
  intros -> Hn. unfold vm_entry_save. cbn [t_run fold_left t_exec a64_exec set_x set_mem set_sp xr]. unfold upd, kept_reg in *.
  by rewrite !(proj2 (Z.eqb_neq n _)) by lia.
Qed.

Lemma vm_save_spec s : s = t_run vm_entry_save m ->
  sp s = top ∧ xr s 26 = xr m 0 ∧ xr s 27 = xr m 2 ∧ entry_frame (mem s) ∧
  (∀ a, ~ in_frame m a -> get8 (mem s) a = get8 (mem m) a).
Proof.
  intros ->. pose proof stack as Hsp. pose proof values as Hv. unfold entry_frame, in_frame, top.
  destruct m as [x v s b]. cbn [xr sp vr mem] in *.
  unfold vm_entry_save. cbn [t_run fold_left t_exec a64_exec set_x set_mem set_sp xr sp mem vr]. unfold at_sp.
  cbn [set_x set_mem set_sp xr sp mem vr]. unfold upd. cbn [Z.eqb Pos.eqb]. cbn [Z.add].
  rewrite !(wrap_small 64) by (unfold fits; rewrite ?(wrap_small 64) by (unfold fits; lia); lia).
  rewrite !Z.add_0_r. split_and!; try done.
  - frame_loads. apply (Hv 1). lia.
  - frame_loads. apply (Hv 3). lia.
  - frame_loads. apply (Hv 26). lia.
  - frame_loads. apply (Hv 27). lia.
  - frame_loads. apply (Hv 29). lia.
  - frame_loads. apply (Hv 30). lia.
  - intros a Ha. unfold store. rewrite !get8_store_bytes, !le_bytes_length, !decide_False by lia. done.
Qed.

(** What is so from the save to the end. *)
Definition entered (e : a64_machine) : Prop :=
  sp e = top ∧ xr e 26 = xr m 0 ∧ xr e 27 = xr m 2 ∧ (∀ n, kept_reg n -> xr e n = xr m n) ∧ entry_frame (mem e).

Lemma vm_args_spec r e : entered r -> e = t_run vm_entry_args r ->
  entered e ∧ xr e 0 = xr m 0 ∧ xr e 1 = xr m 1 ∧ xr e 2 = xr m 2 ∧ xr e 3 = xr m 3 ∧ xr e 4 = xr r 0 ∧ mem e = mem r.
Proof.
  intros (E1 & E2 & E3 & E4 & E5) ->. pose proof E5 as (F1 & F2 & _). unfold entered. destruct r as [x v s b]. cbn [xr sp mem] in *.
  unfold vm_entry_args. cbn [t_run fold_left t_exec a64_exec set_x xr sp mem vr]. unfold at_sp. cbn [set_x xr sp mem vr].
  rewrite E1. pose proof stack as Hsp. unfold top in *. rewrite !(wrap_small 64) by (unfold fits; lia).
  change (0 + 8) with 8. rewrite Z.add_0_r, F1, F2. unfold upd. cbn [Z.eqb Pos.eqb]. split_and!; try done.
  intros n Hn. rewrite <- (E4 n Hn). unfold kept_reg in Hn. by rewrite !(proj2 (Z.eqb_neq n _)) by lia.
Qed.

Lemma vm_enter_spec e e' : e' = t_run vm_enter e ->
  mem e' = store 8 (store 8 (mem e) (wrap64 (xr e 3 + 0)) (xr e 30)) (wrap64 (xr e 4 + 0)) (xr e 30) ∧
  xr e' 16 = wrap 59 (load 8 (mem e') (wrap64 (xr e 27 + 0))) ∧ (∀ n, n <> 16 -> xr e' n = xr e n) ∧ sp e' = sp e.
Proof.
  intros ->. unfold vm_enter, extract_handler_x16. cbn [t_run fold_left t_exec a64_exec set_x set_mem xr sp mem]. unfold address.
  cbn [set_x set_mem xr sp mem default from_option id]. split_and!; try done. intros n Hn. unfold upd. by rewrite (proj2 (Z.eqb_neq n 16)).
Qed.

Lemma vm_restore_spec r e : sp r = top -> entry_frame (mem r) -> (∀ n, kept_reg n -> xr r n = xr m n) ->
  e = t_run vm_entry_restore r -> (∀ n, 19 <= n <= 30 -> xr e n = xr m n) ∧ sp e = sp m ∧ mem e = mem r ∧ vr e = vr r.
Proof.
  intros Hsp (F1 & F2 & F3 & F4 & F5 & F6) Hk ->. pose proof stack as Hst. destruct r as [x v s b]. cbn [xr sp mem] in *.
  unfold vm_entry_restore. cbn [t_run fold_left t_exec set_x set_sp xr sp mem vr]. unfold at_sp. cbn [set_x set_sp xr sp mem vr].
  rewrite Hsp. unfold top in *. rewrite !(wrap_small 64) by (unfold fits; lia).
  change (0x10 + 8) with 0x18. change (0x20 + 8) with 0x28. rewrite F3, F4, F5, F6. unfold upd. split_and!; [|lia|done|done].
  intros n Hn. destruct (Z.eqb_spec n 27) as [->|]; [done|]. destruct (Z.eqb_spec n 26) as [->|]; [done|].
  destruct (Z.eqb_spec n 30) as [->|]; [done|]. destruct (Z.eqb_spec n 29) as [->|]; [done|]. apply Hk. unfold kept_reg. lia.
Qed.

Section Whole.
Variable function : Z -> a64_machine -> a64_machine.
Variables call_return vm_return : Z.
Hypothesis abi : ∀ target, aapcs (in_frame m) (function target).

(** What [vm_retaddr] returns with, and where the return address goes. *)
Definition retaddr_called : a64_machine :=
  call function call_return (xr m 4) (t_run vm_entry_save m).
Hypothesis slots : ∀ a p, p = xr m 3 \/ p = xr retaddr_called 0 -> 0 <= p ∧ p + 8 <= 2 ^ 64 ∧ (p <= a < p + 8 -> ~ in_frame m a).

(** The first handler is entered with the CPU, the address and the
    instruction, and the way back in lr, [*host_retaddr] and the slot
    [vm_retaddr] gave. *)
Definition handler_entered (e : a64_machine) : Prop :=
  xr e 0 = xr m 0 ∧ xr e 1 = xr m 1 ∧ xr e 2 = xr m 2 ∧ xr e 26 = xr m 0 ∧ xr e 27 = xr m 2 ∧ xr e 30 = vm_return ∧
  mem e = store 8 (store 8 (mem retaddr_called) (xr m 3) vm_return) (xr retaddr_called 0) vm_return ∧
  xr e 16 = wrap 59 (load 8 (mem e) (wrap64 (xr m 2))).

Lemma vm_start_spec e : e = vm_entry_start function call_return vm_return m -> handler_entered e ∧ entered e.
Proof.
  intros He. unfold vm_entry_start in He. remember (t_run vm_entry_save m) as s eqn:Es.
  pose proof (vm_save_others s 4 Es (or_intror eq_refl)) as H4. destruct (vm_save_spec s Es) as (S1 & S2 & S3 & S4 & S5).
  pose proof (fun n Hn => vm_save_others s n Es (or_introl Hn)) as S6. cbv zeta in He. rewrite H4 in He.
  assert (retaddr_called = call function call_return (xr m 4) s) as Hret by (unfold retaddr_called; by rewrite <- Es).
  rewrite <- Hret in He. destruct (abi (xr m 4)) as [A1 A2 A3].
  assert (∀ n, 19 <= n <= 29 -> xr retaddr_called n = xr s n) as Hr.
  { intros n Hn. rewrite Hret. unfold call. rewrite A1 by done. cbn [set_x xr]. by rewrite upd_other by lia. }
  assert (entered retaddr_called) as Hentered.
  { unfold entered. rewrite !Hr by lia. split_and!; try done.
    - rewrite Hret. unfold call. by rewrite A2.
    - intros n Hn. rewrite Hr by (unfold kept_reg in Hn; lia). by apply S6.
    - apply (entry_frame_ext (mem s)); [|done]. intros a Ha. rewrite Hret. unfold call. by rewrite A3. }
  clear Hret Es H4 Hr. remember (t_run vm_entry_args retaddr_called) as g eqn:Eg.
  destruct (vm_args_spec retaddr_called g Hentered Eg) as (G0 & G1 & G2 & G3 & G4 & G5 & G6). clear Eg.
  destruct (vm_enter_spec _ e He) as (V1 & V2 & V3 & V4). clear He. cbn [set_x xr sp mem] in V1, V2, V3, V4.
  rewrite upd_same, !upd_other, G4, G5, G6 in V1 by done. destruct G0 as (E1 & E2 & E3 & E4 & E5).
  rewrite upd_other, E3, Z.add_0_r in V2 by done.
  pose proof (slots 0 (xr m 3) ltac:(tauto)) as (P1 & P2 & _). pose proof (slots 0 (xr retaddr_called 0) ltac:(tauto)) as (P3 & P4 & _).
  rewrite !Z.add_0_r, (wrap_small 64 (xr m 3)), (wrap_small 64 (xr retaddr_called 0)) in V1 by (unfold fits; lia).
  split; [unfold handler_entered|unfold entered]; rewrite ?V3, ?V4 by done; cbn [set_x xr sp]; rewrite ?upd_same, ?upd_other by done;
    split_and!; try done.
  - intros n Hn. unfold kept_reg in Hn. rewrite V3 by lia. cbn [set_x xr]. rewrite upd_other by lia. by apply E4.
  - rewrite V1. apply (entry_frame_ext (mem g)); [|done]. intros a Ha. rewrite G6. unfold store. rewrite !get8_store_bytes, !le_bytes_length.
    rewrite !decide_False; [done|..]; intros Hx; [apply (slots a (xr m 3) ltac:(tauto))|apply (slots a (xr retaddr_called 0) ltac:(tauto))]; done.
Qed.

Lemma vm_entry_spec handlers e m' :
  (∀ a x n, kept_reg n -> xr (handlers a x) n = xr x n) -> (∀ a x, sp (handlers a x) = sp x) ->
  (∀ a x b, in_frame m b -> get8 (mem (handlers a x)) b = get8 (mem x) b) ->
  e = vm_entry_start function call_return vm_return m -> m' = aether_vm_entry function call_return vm_return handlers m ->
  handler_entered e ∧ (∀ n, 19 <= n <= 30 -> xr m' n = xr m n) ∧ sp m' = sp m ∧
  mem m' = mem (handlers (xr e 16) e) ∧ vr m' = vr (handlers (xr e 16) e).
Proof.
  intros Hx Hs Hm He Hm'. destruct (vm_start_spec e He) as [Hent (E1 & _ & _ & E4 & E5)].
  unfold aether_vm_entry in Hm'. rewrite <- He in Hm'. clear He. split; [done|].
  destruct (vm_restore_spec (handlers (xr e 16) e) m') as (R1 & R2 & R3 & R4); [by rewrite Hs| | |done|done].
  - apply (entry_frame_ext (mem e)); [|done]. intros a Ha. by apply Hm.
  - intros n Hn. rewrite Hx by done. by apply E4.
Qed.
End Whole.
End VmEntry.

(** * Properties *)

(** C26: [call_host] calls the function with the guest's x0 to x8, q0 to q7 and
    stack pointer and otherwise unchanged memory but for its own frame; when the
    function returns, its x0, x1 and q0 to q3 are the guest's, all other memory
    is as the function left it, and the host has x19 to x30 and its stack
    pointer. The function obeys the procedure call standard. *)
Theorem call_host_abi `{A64Layout} cpu m function call_return : call_ok cpu m ->
  (∀ target, aapcs (in_frame m) (function target)) ->
  let e := call_host_entry m in
  host_called cpu m e ∧ host_returned cpu m (call function call_return (xr e 16) e) (call_host function call_return m).
Proof. intros Hok Habi e. by apply call_host_spec. Qed.

(** C23: [aether_vm_entry] enters the first handler with the CPU, the address
    and the instruction as arguments, the return address in lr, in the slot it
    was given and in the guest's; and when the handlers have come back there it
    returns with the caller's x19 to x30 and stack pointer and the handlers'
    memory, whatever they did to x26, x27, x29 and x30. *)
Theorem vm_entry_returns m function call_return vm_return handlers :
  0x30 <= sp m < 2 ^ 64 -> (∀ n, n = 1 \/ n = 3 \/ 19 <= n <= 30 -> u64 (xr m n)) ->
  (∀ target, aapcs (in_frame m) (function target)) ->
  (∀ a p, p = xr m 3 \/ p = xr (retaddr_called m function call_return) 0 ->
     0 <= p ∧ p + 8 <= 2 ^ 64 ∧ (p <= a < p + 8 -> ~ in_frame m a)) ->
  (∀ a x n, kept_reg n -> xr (handlers a x) n = xr x n) -> (∀ a x, sp (handlers a x) = sp x) ->
  (∀ a x b, in_frame m b -> get8 (mem (handlers a x)) b = get8 (mem x) b) ->
  let e := vm_entry_start function call_return vm_return m in
  let m' := aether_vm_entry function call_return vm_return handlers m in
  handler_entered m function call_return vm_return e ∧ (∀ n, 19 <= n <= 30 -> xr m' n = xr m n) ∧ sp m' = sp m ∧
  mem m' = mem (handlers (xr e 16) e) ∧ vr m' = vr (handlers (xr e 16) e).
Proof. intros Hst Hv Habi Hsl Hx Hs Hm e m'. by apply vm_entry_spec. Qed.

(** The trampoline of an event goes to the instruction its host function
    returns: that is x27 and the third argument, the CPU and the guest's pc are
    the others, the handler's address is the low 59 bits of the word there, and
    the callee-saved registers and the stack pointer are as before. *)
Theorem event_trampoline function call_return host_n keep m : aapcs keep (function host_n) ->
  let r := call function call_return host_n (t_run event_args m) in
  let e := event_vm function call_return host_n m in
  xr e 27 = xr r 0 ∧ xr e 0 = xr m 26 ∧ xr e 2 = xr r 0 ∧
  xr e 1 = load 8 (mem r) (wrap64 (load 8 (mem r) (wrap64 (xr m 26 - 0x10)))) ∧
  xr e 16 = wrap 59 (load 8 (mem r) (wrap64 (xr r 0))) ∧ mem e = mem r ∧ sp e = sp m ∧
  ∀ n, 19 <= n <= 29 -> n <> 27 -> xr e n = xr m n.
Proof.
  intros [A1 A2 A3]. cbv zeta. unfold event_vm. remember (call function call_return host_n (t_run event_args m)) as r eqn:Er.
  assert (∀ n, 19 <= n <= 29 -> xr r n = xr m n) as Hr.
  { intros n Hn. rewrite Er. unfold call. rewrite A1 by done. unfold event_args. cbn [t_run fold_left t_exec a64_exec set_x xr].
    by rewrite !upd_other by lia. }
  assert (sp r = sp m) as Hsp by (rewrite Er; unfold call; by rewrite A2).
  clear Er A1 A2 A3. rewrite <- (Hr 26), <- Hsp by lia. destruct r as [x v s b]. cbn [xr sp mem] in *.
  unfold event_next, extract_handler_x16. cbn [app t_run fold_left t_exec a64_exec set_x xr sp mem]. unfold address.
  cbn [set_x xr sp mem default from_option id]. unfold upd. cbn [Z.eqb Pos.eqb].
  replace (x 26 + -16) with (x 26 - 0x10) by lia. rewrite !Z.add_0_r. split_and!; try done.
  intros n Hn Hn27. rewrite !(proj2 (Z.eqb_neq n _)) by lia. by apply Hr.
Qed.

(** ** Closed instances *)

(** A function that returns a number, and handlers that write the registers
    they may. *)
Definition sample_function (v target : Z) (m : a64_machine) : a64_machine := set_x (set_v m 2 target) 0 v.
Definition sample_handlers (a : Z) (m : a64_machine) : a64_machine := set_x (set_x (set_x m 27 a) 29 5) 30 6.
Definition sample_host : a64_machine :=
  mkA64 (fun n => if n =? 0 then 0x10248 else if n =? 1 then 0x10000 else if n =? 3 then 0x20000 else n) (fun n => n)
    0x1000 (store 8 ∅ 0x10438 0x70000).

Lemma sample_call_ok : @call_ok a64_sample 0x10000 sample_host.
Proof.
  assert (∀ s, 0 <= a64_sr_index s <= 11 ∧ a64_size (f_sr s) <= 8) as Hi by (intros []; cbn; lia).
  assert (∀ s, 0 <= a64_sleigh_index s <= 4) as Hj by (intros []; cbn; lia).
  assert (∀ f, a64_ok f = true -> 0 <= a64_sample_off f ∧ a64_sample_off f + a64_size f <= 0x1000) as Hf.
  { intros f Hf. destruct f as [n| | |n| |n| | | |s|s]; try (pose proof (Hi s)); try (pose proof (Hj s)); unfold a64_ok in Hf; bsplit;
      unfold a64_sample_off; cbn [a64_size] in *; lia. }
  constructor; try done.
  - intros f Hok. specialize (Hf f Hok). change (@off _ _ _ (@a64_state a64_sample)) with a64_sample_off. lia.
  - intros f a Hok. specialize (Hf f Hok). change (@off _ _ _ (@a64_state a64_sample)) with a64_sample_off.
    unfold in_frame. change (sp sample_host) with 0x1000. lia.
  - intros n Hn. unfold sample_host, fits. cbn [xr]. rewrite !(proj2 (Z.eqb_neq n _)) by lia. lia.
Qed.

Lemma sample_aapcs keep v target : aapcs keep (sample_function v target).
Proof. constructor; [|done|done]. intros m n Hn. unfold sample_function. cbn [set_x set_v xr]. by rewrite upd_other by lia. Qed.

Theorem call_host_abi_witness : let e := call_host_entry sample_host in
  @host_called a64_sample 0x10000 sample_host e ∧
  @host_returned a64_sample 0x10000 sample_host (call (sample_function 7) 0x90000 (xr e 16) e)
    (call_host (sample_function 7) 0x90000 sample_host).
Proof. apply (@call_host_abi a64_sample); [apply sample_call_ok|apply sample_aapcs]. Defined.

Theorem vm_entry_returns_witness :
  let e := vm_entry_start (sample_function 0x30000) 0x90000 0x91000 sample_host in
  let m' := aether_vm_entry (sample_function 0x30000) 0x90000 0x91000 sample_handlers sample_host in
  handler_entered sample_host (sample_function 0x30000) 0x90000 0x91000 e ∧
  (∀ n, 19 <= n <= 30 -> xr m' n = xr sample_host n) ∧ sp m' = sp sample_host ∧
  mem m' = mem (sample_handlers (xr e 16) e) ∧ vr m' = vr (sample_handlers (xr e 16) e).
Proof.
  apply vm_entry_returns.
  - done.
  - intros n Hn. unfold sample_host, fits. cbn [xr]. destruct (n =? 0); [lia|]. destruct (n =? 1); [lia|]. destruct (n =? 3); lia.
  - intros target. apply sample_aapcs.
  - intros a p Hp. assert (p = 0x20000 \/ p = 0x30000) as Hp' by done. unfold in_frame. change (sp sample_host) with 0x1000. lia.
  - intros a x n Hn. unfold sample_handlers, kept_reg in *. cbn [set_x xr]. by rewrite !upd_other by lia.
  - done.
  - done.
Defined.

Theorem event_trampoline_witness :
  let r := call (sample_function 0x30000) 0x90000 0x80000 (t_run event_args sample_host) in
  let e := event_vm (sample_function 0x30000) 0x90000 0x80000 sample_host in
  xr e 27 = xr r 0 ∧ xr e 0 = xr sample_host 26 ∧ xr e 2 = xr r 0 ∧
  xr e 1 = load 8 (mem r) (wrap64 (load 8 (mem r) (wrap64 (xr sample_host 26 - 0x10)))) ∧
  xr e 16 = wrap 59 (load 8 (mem r) (wrap64 (xr r 0))) ∧ mem e = mem r ∧ sp e = sp sample_host ∧
  ∀ n, 19 <= n <= 29 -> n <> 27 -> xr e n = xr sample_host n.
Proof. apply (event_trampoline _ _ _ (fun _ => True)). apply sample_aapcs. Defined.
