(* ===== verification/NativeX64.v ===== *)
(** The native handlers of src/Lifter.cpp for x86_64, on both calling
    conventions: which registers an instruction uses, the code that swaps them
    with the guest's, its text, and what it does to registers, stack and
    memory. Flags are not modelled: no handler moves them. *)
From Stdlib Require Import ZArith Lia List String Ascii Sorting.Sorted.
From stdpp Require Import base list gmap pretty strings.
From S2P Require Import Prelude Registers StateMem CPUState AArch64 X86 UtilsAArch64 Emit.
#[local] Open Scope string_scope.
#[local] Open Scope Z_scope.

(** * LLVM's registers *)

(** The cases of [canonicalize]: the parts of each general register. *)
Definition sub_registers : list (Z * list string) :=
  [(Register.RAX, ["RAX"; "EAX"; "AX"; "AL"; "AH"]); (Register.RBX, ["RBX"; "EBX"; "BX"; "BL"; "BH"]);
   (Register.RCX, ["RCX"; "ECX"; "CX"; "CL"; "CH"]); (Register.RDX, ["RDX"; "EDX"; "DX"; "DL"; "DH"]);
   (Register.RDI, ["RDI"; "EDI"; "DI"; "DIL"]); (Register.RSI, ["RSI"; "ESI"; "SI"; "SIL"]);
   (Register.RBP, ["RBP"; "EBP"; "BP"; "BPL"]); (Register.RSP, ["RSP"; "ESP"; "SP"; "SPL"]);
   (Register.R8, ["R8"; "R8D"; "R8W"; "R8B"]); (Register.R9, ["R9"; "R9D"; "R9W"; "R9B"]);
   (Register.R10, ["R10"; "R10D"; "R10W"; "R10B"]); (Register.R11, ["R11"; "R11D"; "R11W"; "R11B"]);
   (Register.R12, ["R12"; "R12D"; "R12W"; "R12B"]); (Register.R13, ["R13"; "R13D"; "R13W"; "R13B"]);
   (Register.R14, ["R14"; "R14D"; "R14W"; "R14B"]); (Register.R15, ["R15"; "R15D"; "R15W"; "R15B"])].

(** The rows of vector registers that LLVM numbers one after another. *)
Definition vector_rows : list (string * Z * Z) :=
  [("XMM", 0, 15); ("XMM", 16, 31); ("YMM", 0, 15); ("YMM", 16, 31); ("ZMM", 0, 31)].

Definition row_names (row : string * Z * Z) : list string :=
  let '(p, first, last) := row in numbered p <$> seqZ first (last - first + 1).
Definition gpr_names : list string := mjoin (snd <$> sub_registers).
Definition x86_names : list string := ("NoRegister" :: gpr_names ++ mjoin (row_names <$> vector_rows))%list.

(** The generated enumeration of X86GenRegisterInfo.inc. *)
Class X86Numbers := {
  x86_num : string -> Z;
  x86_num_inj s s' : s ∈ x86_names -> s' ∈ x86_names -> x86_num s = x86_num s' -> s = s';
  x86_num_row p first last n : (p, first, last) ∈ vector_rows -> first <= n <= last ->
    x86_num (numbered p n) = x86_num (numbered p first) + (n - first)
}.

(** * [parse_regused] *)

Section Used.
Context `{X86Numbers}.

Definition canonicalize (reg : Z) : exec Z :=
  match switch reg (mjoin ((fun c => (fun s => (x86_num s, c.1)) <$> c.2) <$> sub_registers)) with
  | Some r => Ret r
  | None => Abort
  end.

Fixpoint parse_row (reg : Z) (rows : list (string * Z * Z)) : option Z :=
  match rows with
  | [] => None
  | (p, first, last) :: rows' =>
      if (x86_num (numbered p first) <=? reg) && (reg <=? x86_num (numbered p last))
      then Some (Register.XMM0 + first + (reg - x86_num (numbered p first)))
      else parse_row reg rows'
  end.

Definition parse_reg (reg : Z) : exec (list Z) :=
  if reg =? x86_num "NoRegister" then Ret []
  else match parse_row reg vector_rows with
       | Some r => Ret [r]
       | None => r ← canonicalize reg; Ret [r]
       end.

Definition parse_regused (inst : list mc_operand) : exec (list Z) :=
  regs ← mapE parse_reg (omap operand_reg inst); Ret (reg_set (mjoin regs)).
End Used.

(** * The instructions of a handler *)

(** Operands in the order of the text: source, destination. *)
Inductive x64_insn :=
| PUSH (r : Z) | POP (r : Z)
| SUB (imm r : Z) | ADD (imm r : Z) | ADD8 (r : Z)
| MOV (src dst : Z)
| LOAD (disp : option Z) (base dst : Z) | STORE (src : Z) (disp : option Z) (base : Z)
| LOADDQU (disp : option Z) (base dst : Z) | STOREDQU (src : Z) (disp : option Z) (base : Z)
| SHL (k r : Z) | SHR (k r : Z) | JMP (r : Z)
| OPCODE (opcode : list Z).

Definition gprs64 : list (Z * string) :=
  [(Register.RAX, "rax"); (Register.RBX, "rbx"); (Register.RCX, "rcx"); (Register.RDX, "rdx");
   (Register.RDI, "rdi"); (Register.RSI, "rsi"); (Register.RSP, "rsp"); (Register.RBP, "rbp");
   (Register.R8, "r8"); (Register.R9, "r9"); (Register.R10, "r10"); (Register.R11, "r11");
   (Register.R12, "r12"); (Register.R13, "r13"); (Register.R14, "r14"); (Register.R15, "r15")].

Definition is_gpr64 (r : Z) : bool := match switch r gprs64 with Some _ => true | None => false end.
Definition gpr_name64 (r : Z) : string := default "?" (switch r gprs64).
Definition xmm_name (r : Z) : string := "xmm" ++ dec (r - Register.XMM0).

Definition disp_text (disp : option Z) : string :=
  match disp with
  | None => ""
  | Some o => if o <? 0 then ("-" ++ hex (- o))%string else hex o
  end.

(** [constprefix] is doubled in LLVM's inline assembly. *)
Definition x64_text (constprefix : string) (i : x64_insn) : string :=
  match i with
  | PUSH r => "push %" ++ gpr_name64 r ++ nl
  | POP r => "pop %" ++ gpr_name64 r ++ nl
  | SUB imm r => "sub " ++ constprefix ++ hex imm ++ ", %" ++ gpr_name64 r ++ nl
  | ADD imm r => "add " ++ constprefix ++ hex imm ++ ", %" ++ gpr_name64 r ++ nl
  | ADD8 r => "add " ++ constprefix ++ "8, %" ++ gpr_name64 r ++ nl
  | MOV s d => "mov %" ++ gpr_name64 s ++ ", %" ++ gpr_name64 d ++ nl
  | LOAD o b d => "mov " ++ disp_text o ++ "(%" ++ gpr_name64 b ++ "), %" ++ gpr_name64 d ++ nl
  | STORE s o b => "mov %" ++ gpr_name64 s ++ ", " ++ disp_text o ++ "(%" ++ gpr_name64 b ++ ")" ++ nl
  | LOADDQU o b d => "movdqu " ++ disp_text o ++ "(%" ++ gpr_name64 b ++ "), %" ++ xmm_name d ++ nl
  | STOREDQU s o b => "movdqu %" ++ xmm_name s ++ ", " ++ disp_text o ++ "(%" ++ gpr_name64 b ++ ")" ++ nl
  | SHL k r => "shl " ++ constprefix ++ dec k ++ ", %" ++ gpr_name64 r ++ nl
  | SHR k r => "shr " ++ constprefix ++ dec k ++ ", %" ++ gpr_name64 r ++ nl
  | JMP r => "jmp *%" ++ gpr_name64 r ++ nl
  | OPCODE opcode => emit_opcode opcode
  end%string.

(** * [nativeHandlerX64] *)

Section Generate.
Context `{X86Layout}.
(** Whether the host has Microsoft's calling convention, or System V's. *)
Variable windows : bool.

Definition callee_saved_gprs : list Z :=
  if windows
  then [Register.RBX; Register.RBP; Register.RDI; Register.RSI;
        Register.R12; Register.R13; Register.R14; Register.R15]
  else [Register.RBX; Register.RBP; Register.R12; Register.R13; Register.R14; Register.R15].
Definition is_callee_saved_gpr (r : Z) : bool := existsb (Z.eqb r) callee_saved_gprs.
Definition is_callee_saved_xmm (r : Z) : bool :=
  windows && ((Register.XMM6 <=? r) && (r <=? Register.XMM15)).

Definition kCpuCandidates : list Z :=
  if windows
  then [Register.RAX; Register.RCX; Register.RDX; Register.R8; Register.R9; Register.R10; Register.R11]
  else [Register.RAX; Register.RCX; Register.RDX; Register.RSI; Register.RDI;
        Register.R8; Register.R9; Register.R10; Register.R11].
Definition kArgState : Z := if windows then Register.RCX else Register.RDI.
Definition kArgVmAddr : Z := if windows then Register.RDX else Register.RSI.
Definition kArgInsn : Z := if windows then Register.R8 else Register.RDX.

Definition push_gpr (r : Z) : list x64_insn := if is_callee_saved_gpr r then [PUSH r] else [].
Definition push_xmm (r : Z) : list x64_insn :=
  if is_callee_saved_xmm r then [SUB 0x10 Register.RSP; STOREDQU r None Register.RSP] else [].
Definition pop_xmm (r : Z) : list x64_insn :=
  if is_callee_saved_xmm r then [LOADDQU None Register.RSP r; ADD 0x10 Register.RSP] else [].
Definition pop_gpr (r : Z) : list x64_insn := if is_callee_saved_gpr r then [POP r] else [].

(** [kCpuCandidates[candidx++]] until one is not used; [cands] is what is left
    of the array, behind which nothing may be read. *)
Fixpoint candidate (regused cands : list Z) : exec (Z * list Z) :=
  match cands with
  | [] => Undef
  | cand :: cands' => if bool_decide (cand ∈ regused) then candidate regused cands' else Ret (cand, cands')
  end.

Definition cpu_and_rsp (regused : list Z) : exec (Z * Z) :=
  c ← (if bool_decide (Register.R12 ∈ regused) then candidate regused kCpuCandidates
       else Ret (Register.R12, kCpuCandidates));
  s ← (if bool_decide (Register.RSP ∈ regused) then candidate regused c.2 else Ret (Register.RSP, c.2));
  Ret (c.1, s.1).

Definition is_xmm (r : Z) : bool := (Register.XMM0 <=? r) && (r <=? Register.XMM15).

Definition load_guest (regcpu r : Z) : exec (list x64_insn) :=
  if is_gpr64 r then o ← x86.offset_reg r; Ret [LOAD (Some o) regcpu r]
  else if is_xmm r then o ← x86.offset_reg r; Ret [LOADDQU (Some o) regcpu r]
  else Ret [].
Definition save_guest (regcpu r : Z) : exec (list x64_insn) :=
  if is_gpr64 r then o ← x86.offset_reg r; Ret [STORE r (Some o) regcpu]
  else if is_xmm r then o ← x86.offset_reg r; Ret [STOREDQU r (Some o) regcpu]
  else Ret [].

(** Updates the pc and goes to the next instruction. *)
Definition x64_advance (size : Z) : list x64_insn :=
  [MOV Register.R12 Register.RAX; LOAD (Some (-0x10)) Register.RAX Register.RCX;
   LOAD None Register.RCX Register.RDX; ADD size Register.RDX; STORE Register.RDX None Register.RCX;
   MOV Register.RAX kArgState; MOV Register.RDX kArgVmAddr; ADD8 Register.R13; MOV Register.R13 kArgInsn;
   LOAD (Some 0) Register.R13 Register.R10; SHL 5 Register.R10; SHR 5 Register.R10; JMP Register.R10].

Definition handler_insns (regused opcode : list Z) : exec (list x64_insn) :=
  c ← cpu_and_rsp regused;
  let '(regcpu, regrsp) := c in
  loads ← mapE (load_guest regcpu) regused;
  saves ← mapE (save_guest regcpu) regused;
  Ret (mjoin (push_gpr <$> regused) ++ mjoin (push_xmm <$> regused) ++
       (if regcpu =? Register.R12 then [] else [MOV Register.R12 regcpu]) ++
       (if regrsp =? Register.RSP then [] else [MOV Register.RSP regrsp]) ++
       mjoin loads ++ [OPCODE opcode] ++ mjoin saves ++
       (if regcpu =? Register.R12 then [] else [MOV regcpu Register.R12]) ++
       (if regrsp =? Register.RSP then [] else [MOV regrsp Register.RSP]) ++
       mjoin (pop_xmm <$> reverse regused) ++ mjoin (pop_gpr <$> reverse regused) ++
       x64_advance (Z.of_nat (length opcode)))%list.

Definition nativeHandlerX64 (regused opcode : list Z) (llvm : bool) : exec string :=
  insns ← handler_insns regused opcode;
  Ret (String.concat "" (x64_text (if llvm then "$$" else "$") <$> insns)).
End Generate.

(** * What the instructions do *)

(** General and vector registers by their [Register], and memory. *)
Record x64_machine := mkX64 { rg : Z -> Z; mem : bytes }.

Definition set_r (m : x64_machine) (r v : Z) := mkX64 (upd (rg m) r v) (mem m).
Definition set_mem (m : x64_machine) (b : bytes) := mkX64 (rg m) b.

Section Execute.
(** The processor executing the raw opcode. *)
Variable native_opcode : list Z -> x64_machine -> x64_machine.

Definition address (m : x64_machine) (b : Z) (disp : option Z) : Z := wrap64 (rg m b + default 0 disp).

Definition x64_exec (m : x64_machine) (i : x64_insn) : x64_machine :=
  match i with
  | PUSH r => let a := wrap64 (rg m Register.RSP - 8) in
      set_mem (set_r m Register.RSP a) (store 8 (mem m) a (rg m r))
  | POP r => set_r (set_r m Register.RSP (wrap64 (rg m Register.RSP + 8))) r (load 8 (mem m) (rg m Register.RSP))
  | SUB imm r => set_r m r (wrap64 (rg m r - imm))
  | ADD imm r => set_r m r (wrap64 (rg m r + imm))
  | ADD8 r => set_r m r (wrap64 (rg m r + 8))
  | MOV s d => set_r m d (rg m s)
  | LOAD o b d => set_r m d (load 8 (mem m) (address m b o))
  | STORE s o b => set_mem m (store 8 (mem m) (address m b o) (rg m s))
  | LOADDQU o b d => set_r m d (load 16 (mem m) (address m b o))
  | STOREDQU s o b => set_mem m (store 16 (mem m) (address m b o) (rg m s))
  | SHL k r => set_r m r (wrap64 (Z.shiftl (rg m r) k))
  | SHR k r => set_r m r (Z.shiftr (wrap64 (rg m r)) k)
  | JMP _ => m
  | OPCODE opcode => native_opcode opcode m
  end.

Definition x64_run (insns : list x64_insn) (m : x64_machine) : x64_machine := fold_left x64_exec insns m.

Lemma x64_run_app l l' m : x64_run (l ++ l') m = x64_run l' (x64_run l m).
Proof. apply fold_left_app. Qed.
Lemma x64_run_cons i l m : x64_run (i :: l) m = x64_run l (x64_exec m i).
Proof. done. Qed.
End Execute.

(** Shifting five bits out and back. *)
Lemma drop_tag x : Z.shiftr (wrap64 (wrap64 (Z.shiftl x 5))) 5 = wrap 59 x.
Proof.
  rewrite wrap_wrap. unfold wrap. rewrite Z.shiftl_mul_pow2, Z.shiftr_div_pow2 by lia.
  change (2 ^ 64) with (2 ^ 59 * 2 ^ 5). rewrite Z.mul_mod_distr_r by done. by apply Z.div_mul.
Qed.

(** * Registers *)

(** Those a handler moves, how many bytes it moves of one and where in the
    state it is. *)
Definition moved (r : Z) : bool := is_gpr64 r || is_xmm r.
Definition width (r : Z) : nat := if is_xmm r then 16 else 8.
Definition gpr_fields : list (Z * x86_field) :=
  [(Register.RAX, gpr_g g_rax); (Register.RBX, gpr_g g_rbx); (Register.RCX, gpr_g g_rcx);
   (Register.RDX, gpr_g g_rdx); (Register.RDI, gpr_g g_rdi); (Register.RSI, gpr_g g_rsi);
   (Register.RSP, gpr_g g_rsp); (Register.RBP, gpr_g g_rbp); (Register.R8, gpr_r 8);
   (Register.R9, gpr_r 9); (Register.R10, gpr_r 10); (Register.R11, gpr_r 11); (Register.R12, gpr_r 12);
   (Register.R13, gpr_r 13); (Register.R14, gpr_r 14); (Register.R15, gpr_r 15)].
Definition field (r : Z) : x86_field := default (x86_vec (r - Register.XMM0)) (switch r gpr_fields).

(** The general registers are sixteen. *)
Lemma gpr_elem r : is_gpr64 r = true <-> r ∈ gprs64.*1.
Proof.
  unfold is_gpr64. destruct (switch r gprs64) eqn:E; split; intros Hr; try done.
  - apply switch_Some in E. apply list_elem_of_fmap. by exists (r, s).
  - by apply switch_None in E.
Qed.

Lemma gpr_cases (P : Z -> Prop) : Forall P gprs64.*1 -> ∀ r, is_gpr64 r = true -> P r.
Proof. intros HP r Hr%gpr_elem. by apply (proj1 (Forall_forall _ _) HP). Qed.

(** Decides a property of every general register. *)
Ltac each_gpr := apply gpr_cases; repeat (apply Forall_cons; split; [by vm_compute|]); by constructor.

Lemma gpr_not_xmm : ∀ r, is_gpr64 r = true -> is_xmm r = false.
Proof. each_gpr. Qed.

Lemma xmm_field r : is_xmm r = true -> field r = x86_vec (r - Register.XMM0).
Proof.
  intros Hr. unfold field. destruct (switch r gpr_fields) eqn:E; [|done]. apply switch_Some in E.
  assert (is_gpr64 r = true) as Hg.
  { apply gpr_elem. apply (list_elem_of_fmap_2 fst) in E. exact E. }
  apply gpr_not_xmm in Hg. congruence.
Qed.

Lemma field_ok r : moved r = true -> x86_ok (field r) = true ∧ Z.of_nat (width r) <= x86_size (field r).
Proof.
  unfold moved. destruct (is_gpr64 r) eqn:Hg; cbn [orb]; intros Hr.
  - clear Hr. revert r Hg. apply gpr_cases.
    repeat (apply Forall_cons; split; [by vm_compute|]). by constructor.
  - rewrite (xmm_field r Hr). unfold width. rewrite Hr. unfold is_xmm in Hr. bsplit.
    change Register.XMM15 with (Register.XMM0 + 15) in *. cbn [x86_ok x86_size].
    rewrite !(proj2 (Z.leb_le _ _)) by lia. split; [done|lia].
Qed.

Lemma offset_moved `{X86Layout} r : moved r = true -> x86.offset_reg r = Ret (off (field r)).
Proof.
  unfold moved. destruct (is_gpr64 r) eqn:Hg; cbn [orb]; intros Hr.
  - clear Hr. revert r Hg. each_gpr.
  - rewrite (xmm_field r Hr). unfold is_xmm in Hr. bsplit. change Register.XMM15 with (Register.XMM0 + 15) in *.
    rewrite x86_vec_stride by lia.
    assert (∀ n, 0 <= n < 32 -> x86.offset_reg (Register.XMM0 + n) = Ret (off (x86_vec 0) + 0x40 * n)) as Ho
      by each_number 32%nat.
    rewrite <- (Ho (r - Register.XMM0)) by lia. f_equal. lia.
Qed.

Lemma field_inj r r' : moved r = true -> moved r' = true -> field r = field r' -> r = r'.
Proof.
  assert (∀ s, is_gpr64 s = true -> ∀ n, field s <> x86_vec n) as Hv.
  { apply (gpr_cases (fun s => ∀ n, field s <> x86_vec n)). repeat (apply Forall_cons; split; [intros n; vm_compute; congruence|]). by constructor. }
  unfold moved. destruct (is_gpr64 r) eqn:Hg, (is_gpr64 r') eqn:Hg'; cbn [orb]; intros Hr Hr' He.
  - clear Hr Hr'. revert r' Hg' He. revert r Hg.
    apply (gpr_cases (fun r => ∀ r', is_gpr64 r' = true -> field r = field r' -> r = r')).
    repeat (apply Forall_cons; split;
      [match goal with |- ∀ r', _ -> field ?r = _ -> _ => apply (gpr_cases (fun r' => field r = field r' -> r = r')) end;
       repeat (apply Forall_cons; split; [vm_compute; congruence|]); by constructor|]). by constructor.
  - rewrite (xmm_field r' Hr') in He. by destruct (Hv r Hg _ He).
  - rewrite (xmm_field r Hr) in He. by destruct (Hv r' Hg' _ (eq_sym He)).
  - rewrite !xmm_field in He by done. injection He. lia.
Qed.

(** * Saving and restoring the host's registers *)

(** What of a register is on the stack. *)
Definition value (m : x64_machine) (r : Z) : Z := rg m r mod 2 ^ (8 * Z.of_nat (width r)).

Fixpoint stack_size (l : list Z) : Z :=
  match l with [] => 0 | r :: l' => Z.of_nat (width r) + stack_size l' end.
Fixpoint on_stack (b : bytes) (top : Z) (l : list Z) (f : Z -> Z) : Prop :=
  match l with
  | [] => True
  | r :: l' => load (width r) b (top - Z.of_nat (width r)) = f r ∧ on_stack b (top - Z.of_nat (width r)) l' f
  end.

Lemma stack_size_nonneg l : 0 <= stack_size l.
Proof. induction l; cbn [stack_size]; lia. Qed.

Lemma on_stack_ext b b' f l : ∀ top, (∀ a, top - stack_size l <= a < top -> get8 b a = get8 b' a) ->
  on_stack b top l f -> on_stack b' top l f.
Proof.
  induction l as [|r l IH]; intros top Hb; [done|]. cbn [on_stack stack_size] in *. pose proof (stack_size_nonneg l).
  intros [Hr Hl]. split; [|apply IH; [|done]; intros a Ha; apply Hb; lia].
  rewrite <- Hr. apply load_ext. intros x Hx. symmetry. apply Hb. lia.
Qed.

Section Stack.
Variable native_opcode : list Z -> x64_machine -> x64_machine.
Abbreviation run := (x64_run native_opcode).

Definition push1 (r : Z) : list x64_insn :=
  if is_xmm r then [SUB 0x10 Register.RSP; STOREDQU r None Register.RSP] else [PUSH r].
Definition pop1 (r : Z) : list x64_insn :=
  if is_xmm r then [LOADDQU None Register.RSP r; ADD 0x10 Register.RSP] else [POP r].

Lemma run_push r m : r <> Register.RSP -> Z.of_nat (width r) <= rg m Register.RSP < 2 ^ 64 ->
  let a := rg m Register.RSP - Z.of_nat (width r) in
  run (push1 r) m = mkX64 (upd (rg m) Register.RSP a) (store (width r) (mem m) a (rg m r)).
Proof.
  intros Hr Hsp. unfold push1, width in *. destruct (is_xmm r) eqn:Hx; cbn [x64_run fold_left x64_exec].
  - unfold address, set_mem, set_r. cbn [rg mem default from_option id].
    rewrite upd_same, (upd_other _ Register.RSP _ r) by done. change (Z.of_nat 16) with 0x10.
    rewrite (wrap_small 64 (rg m Register.RSP - 0x10)) by (unfold fits; lia).
    by rewrite Z.add_0_r, (wrap_small 64) by (unfold fits; lia).
  - by rewrite (wrap_small 64) by (unfold fits; lia).
Qed.

Lemma x64_run_pop r m : r <> Register.RSP -> 0 <= rg m Register.RSP ->
  rg m Register.RSP + Z.of_nat (width r) < 2 ^ 64 ->
  let m' := run (pop1 r) m in
  mem m' = mem m ∧ rg m' Register.RSP = rg m Register.RSP + Z.of_nat (width r) ∧
  rg m' r = load (width r) (mem m) (rg m Register.RSP) ∧
  ∀ s, s <> r -> s <> Register.RSP -> rg m' s = rg m s.
Proof.
  intros Hr Hsp Htop. unfold pop1, width in *. destruct (is_xmm r) eqn:Hx; cbn [x64_run fold_left x64_exec].
  - unfold address, set_r. cbn [rg mem default from_option id].
    rewrite Z.add_0_r, (wrap_small 64 (rg m Register.RSP)) by (unfold fits; lia).
    rewrite upd_same, (upd_other _ r _ Register.RSP) by done. change (Z.of_nat 16) with 0x10 in *.
    rewrite (wrap_small 64) by (unfold fits; lia). split_and!; [done|done| |].
    + rewrite upd_other by done. apply upd_same.
    + intros s Hs1 Hs2. by rewrite !upd_other.
  - unfold set_r. cbn [rg mem]. rewrite (wrap_small 64) by (unfold fits; lia).
    rewrite upd_same, (upd_other _ r _ Register.RSP), upd_same by done. split_and!; [done|done|done|].
    intros s Hs1 Hs2. by rewrite !upd_other.
Qed.

Lemma run_pushes l : ∀ m, Forall (fun r => r <> Register.RSP) l -> stack_size l <= rg m Register.RSP < 2 ^ 64 ->
  let m' := run (mjoin (push1 <$> l)) m in
  rg m' Register.RSP = rg m Register.RSP - stack_size l ∧
  (∀ r, r <> Register.RSP -> rg m' r = rg m r) ∧
  (∀ a, a < rg m' Register.RSP \/ rg m Register.RSP <= a -> get8 (mem m') a = get8 (mem m) a) ∧
  on_stack (mem m') (rg m Register.RSP) l (value m).
Proof.
  induction l as [|r l IH]; intros m Hl Hsp; cbv zeta.
  { cbn in *. split_and!; [lia|done..]. }
  apply Forall_cons in Hl as [Hr Hl].
  change (mjoin (push1 <$> r :: l)) with (push1 r ++ mjoin (push1 <$> l))%list. rewrite x64_run_app.
  cbn [stack_size] in *. pose proof (stack_size_nonneg l). rewrite run_push by (done || lia).
  set (m1 := mkX64 _ _). destruct (IH m1 Hl) as (I1 & I2 & I3 & I4); [unfold m1; cbn [rg]; rewrite upd_same; lia|].
  assert (rg m1 Register.RSP = rg m Register.RSP - Z.of_nat (width r)) as Hsp1 by apply upd_same.
  assert (∀ s, s <> Register.RSP -> rg m1 s = rg m s) as Hm1 by (intros s Hs; by apply upd_other).
  assert (mem m1 = store (width r) (mem m) (rg m Register.RSP - Z.of_nat (width r)) (rg m r)) as Hmem by done.
  clearbody m1. rewrite Hsp1 in *. split_and!.
  - lia.
  - intros s Hs. by rewrite I2, Hm1.
  - intros a Ha. rewrite I3 by lia. rewrite Hmem. unfold store.
    rewrite get8_store_bytes, le_bytes_length, decide_False by lia. done.
  - cbn [on_stack]. split.
    + rewrite (load_ext _ (mem m1)) by (intros x Hx; apply I3; lia). rewrite Hmem, load_store. done.
    + clear - I4 Hm1 Hl. revert I4. generalize (rg m Register.RSP - Z.of_nat (width r)).
      generalize (mem (run (mjoin (push1 <$> l)) m1)). intros b.
      induction l as [|s l IH]; intros top; [done|]. apply Forall_cons in Hl as [Hs Hl]. cbn [on_stack].
      intros [H1 H2]. split; [|by apply IH]. rewrite H1. unfold value. by rewrite Hm1.
Qed.

Lemma run_pops (f : Z -> Z) l : ∀ m top, Forall (fun r => r <> Register.RSP) l ->
  rg m Register.RSP = top - stack_size l -> 0 <= rg m Register.RSP -> top < 2 ^ 64 ->
  on_stack (mem m) top l f ->
  let m' := run (mjoin (pop1 <$> reverse l)) m in
  rg m' Register.RSP = top ∧ mem m' = mem m ∧
  ∀ r, r <> Register.RSP -> rg m' r = if bool_decide (r ∈ l) then f r else rg m r.
Proof.
  induction l as [|r l IH]; intros m top Hl Hsp Hpos Htop Hon; cbv zeta.
  { cbn in *. split_and!; [lia|done|done]. }
  apply Forall_cons in Hl as [Hr Hl]. cbn [stack_size on_stack] in *. destruct Hon as [Hf Hon].
  rewrite reverse_cons, fmap_app, join_app, x64_run_app. cbn [fmap list_fmap mjoin list_join]. rewrite app_nil_r.
  destruct (IH m (top - Z.of_nat (width r)) Hl) as (I1 & I2 & I3); [lia|done|lia|done|].
  set (m1 := run (mjoin (pop1 <$> reverse l)) m) in *. clearbody m1. pose proof (stack_size_nonneg l).
  destruct (x64_run_pop r m1 Hr) as (P1 & P2 & P3 & P4); [lia|lia|]. rewrite I1, I2, Hf in *. split_and!; [lia|done|].
  intros s Hs. destruct (decide (s = r)) as [->|Hne]; [by rewrite P3, bool_decide_true by apply list_elem_of_here|].
  rewrite P4, I3 by done. rewrite (bool_decide_ext (s ∈ r :: l) (s ∈ l)) by (rewrite elem_of_cons; tauto). done.
Qed.
End Stack.

(** * Loading and saving the guest's registers *)

Section Swap.
Context `{X86Layout}.
Variable native_opcode : list Z -> x64_machine -> x64_machine.
Abbreviation run := (x64_run native_opcode).

(** The registers of a list that are moved. *)
Definition swapped (l : list Z) (r : Z) : Prop := r ∈ l ∧ moved r = true.
#[local] Instance swapped_dec l r : Decision (swapped l r).
Proof. unfold swapped. apply _. Defined.

Lemma swapped_cons r l s : swapped (r :: l) s <-> swapped [r] s \/ swapped l s.
Proof. unfold swapped. rewrite !elem_of_cons. pose proof (not_elem_of_nil s). tauto. Qed.
Lemma swapped_one r s : swapped [r] s <-> s = r ∧ moved r = true.
Proof. unfold swapped. rewrite list_elem_of_singleton. split; intros [-> ?]; done. Qed.

(** The instructions with the offsets of the fields. *)
Definition load1 (b r : Z) : list x64_insn :=
  if is_gpr64 r then [LOAD (Some (off (field r))) b r]
  else if is_xmm r then [LOADDQU (Some (off (field r))) b r] else [].
Definition store1 (b r : Z) : list x64_insn :=
  if is_gpr64 r then [STORE r (Some (off (field r))) b]
  else if is_xmm r then [STOREDQU r (Some (off (field r))) b] else [].

Lemma x64_load_guest_ret b r : load_guest b r = Ret (load1 b r).
Proof.
  unfold load_guest, load1. pose proof (offset_moved r) as Ho. unfold moved in Ho.
  destruct (is_gpr64 r), (is_xmm r); try done; by rewrite Ho.
Qed.
Lemma x64_save_guest_ret b r : save_guest b r = Ret (store1 b r).
Proof.
  unfold save_guest, store1. pose proof (offset_moved r) as Ho. unfold moved in Ho.
  destruct (is_gpr64 r), (is_xmm r); try done; by rewrite Ho.
Qed.

(** The state lies at [cpu]; its fields do not wrap around. *)
Variable cpu : Z.
Hypothesis placed : ∀ f, x86_ok f = true -> 0 <= cpu + off f ∧ cpu + off f + x86_size f <= 2 ^ 64.

(** The bytes of the state a register is moved from and to. *)
Definition place (r : Z) : Z := cpu + off (field r).
Definition in_place (r a : Z) : Prop := place r <= a < place r + Z.of_nat (width r).

Lemma width_cases r : width r = if is_xmm r then 16%nat else 8%nat.
Proof. done. Qed.

Lemma address_place m b r : rg m b = cpu -> moved r = true -> address m b (Some (off (field r))) = place r.
Proof.
  intros Hb Hr. unfold address, place. cbn [default from_option id]. rewrite Hb. apply wrap_small.
  destruct (field_ok r Hr) as [Hf Hw]. pose proof (placed _ Hf). rewrite width_cases in Hw.
  assert (0 < Z.of_nat (if is_xmm r then 16 else 8)%nat) by by destruct (is_xmm r). unfold fits. lia.
Qed.

Lemma places_disjoint r s a : moved r = true -> moved s = true -> r <> s -> in_place r a -> ~ in_place s a.
Proof.
  intros Hr Hs Hne. destruct (field_ok r Hr) as [Fr Wr], (field_ok s Hs) as [Fs Ws].
  assert (field r <> field s) as Hf by (intros He; by apply Hne, field_inj).
  pose proof (off_disjoint (field r) (field s) Fr Fs Hf). unfold in_place, place. lia.
Qed.

Lemma moved_exec r b : moved r = true -> ∃ k : bool,
  load1 b r = [if k then LOADDQU (Some (off (field r))) b r else LOAD (Some (off (field r))) b r] ∧
  store1 b r = [if k then STOREDQU r (Some (off (field r))) b else STORE r (Some (off (field r))) b] ∧
  width r = if k then 16%nat else 8%nat.
Proof.
  unfold moved, load1, store1, width. destruct (is_gpr64 r) eqn:Hg; cbn [orb]; intros Hx.
  - exists false. by rewrite (gpr_not_xmm r Hg).
  - exists true. by rewrite Hx.
Qed.

Lemma not_moved_exec r b : moved r = false -> load1 b r = [] ∧ store1 b r = [].
Proof. unfold moved, load1, store1. by destruct (is_gpr64 r), (is_xmm r). Qed.

(** What loading the registers of [l] makes of [m]. *)
Definition loaded (l : list Z) (m m' : x64_machine) : Prop :=
  mem m' = mem m ∧
  ∀ r, rg m' r = if decide (swapped l r) then load (width r) (mem m) (place r) else rg m r.

Lemma x64_run_load1 b r m : rg m b = cpu -> loaded [r] m (run (load1 b r) m).
Proof.
  intros Hb. destruct (moved r) eqn:Hr.
  - destruct (moved_exec r b Hr) as (k & -> & _ & Hw).
    assert (run [if k then LOADDQU (Some (off (field r))) b r else LOAD (Some (off (field r))) b r] m =
      set_r m r (load (width r) (mem m) (place r))) as ->.
    { rewrite Hw, <- (address_place m b r Hb Hr). by destruct k. }
    split; [done|]. intros s. cbn [set_r rg]. unfold upd. destruct (Z.eqb_spec s r) as [->|Hne].
    + rewrite decide_True; [done|]. by apply swapped_one.
    + rewrite decide_False; [done|]. intros [? _]%swapped_one. done.
  - destruct (not_moved_exec r b Hr) as [-> _]. split; [done|]. intros s.
    rewrite decide_False; [done|]. intros [_ Hs]%swapped_one. congruence.
Qed.

Lemma x64_run_loads b l : ∀ m, rg m b = cpu -> b ∉ l -> loaded l m (run (mjoin (load1 b <$> l)) m).
Proof.
  induction l as [|r l IH]; intros m Hb Hnb.
  { split; [done|]. intros r. rewrite decide_False; [done|]. by intros [?%elem_of_nil _]. }
  change (mjoin (load1 b <$> r :: l)) with (load1 b r ++ mjoin (load1 b <$> l))%list. rewrite x64_run_app.
  apply not_elem_of_cons in Hnb as [Hbr Hnb]. destruct (x64_run_load1 b r m Hb) as [L1 L2].
  set (m1 := run (load1 b r) m) in *. clearbody m1.
  destruct (IH m1) as [I1 I2]; [|done|].
  { rewrite L2, decide_False; [done|]. intros [? _]%swapped_one. done. }
  split; [by rewrite I1|]. intros s. rewrite I2, L2, L1. pose proof (swapped_cons r l s).
  destruct (decide (swapped l s)), (decide (swapped [r] s)), (decide (swapped (r :: l) s)); done || tauto.
Qed.

(** What saving the registers of [l] makes of memory. *)
Definition stored (l : list Z) (m : x64_machine) (b : bytes) : Prop :=
  (∀ r, swapped l r -> load (width r) b (place r) = value m r) ∧
  (∀ a, (∀ r, swapped l r -> ~ in_place r a) -> get8 b a = get8 (mem m) a).

Lemma x64_run_store1 b r m : rg m b = cpu ->
  let m' := run (store1 b r) m in rg m' = rg m ∧ stored [r] m (mem m').
Proof.
  intros Hb. cbv zeta. destruct (moved r) eqn:Hr.
  - destruct (moved_exec r b Hr) as (k & _ & -> & Hw).
    assert (run [if k then STOREDQU r (Some (off (field r))) b else STORE r (Some (off (field r))) b] m =
      set_mem m (store (width r) (mem m) (place r) (rg m r))) as ->.
    { rewrite Hw, <- (address_place m b r Hb Hr). by destruct k. }
    split; [done|]. split.
    + intros s [-> _]%swapped_one. apply load_store.
    + intros a Ha. specialize (Ha r). unfold in_place in Ha. cbn [set_mem mem]. unfold store.
      rewrite get8_store_bytes, le_bytes_length, decide_False; [done|]. apply Ha. by apply swapped_one.
  - destruct (not_moved_exec r b Hr) as [_ ->]. split; [done|]. split; [|done].
    intros s [_ Hs]%swapped_one. congruence.
Qed.

Lemma x64_run_stores b l : ∀ m, rg m b = cpu ->
  let m' := run (mjoin (store1 b <$> l)) m in rg m' = rg m ∧ stored l m (mem m').
Proof.
  induction l as [|r l IH]; intros m Hb; cbv zeta.
  { split; [done|]. split; [|done]. by intros r [?%elem_of_nil _]. }
  change (mjoin (store1 b <$> r :: l)) with (store1 b r ++ mjoin (store1 b <$> l))%list.
  rewrite x64_run_app. destruct (x64_run_store1 b r m Hb) as (L1 & L2 & L3).
  set (m1 := run (store1 b r) m) in *. clearbody m1.
  destruct (IH m1) as (I1 & I2 & I3); [by rewrite L1|]. rewrite I1, L1. split; [done|].
  assert (∀ s, value m1 s = value m s) as Hval by (intros s; unfold value; by rewrite L1).
  split.
  - intros s Hs. destruct (decide (swapped l s)) as [Hl|Hl]; [by rewrite I2, Hval|].
    apply swapped_cons in Hs as [Hs|]; [|done]. rewrite <- (L2 s Hs). apply load_ext. intros x Hx.
    apply I3. intros t Ht. apply (places_disjoint s t); [apply Hs|apply Ht| |exact Hx].
    intros ->. done.
  - intros a Ha. rewrite I3 by (intros s Hs; apply Ha, swapped_cons; by right).
    apply L3. intros s Hs. apply Ha, swapped_cons. by left.
Qed.
End Swap.

(** * The registers that stand in for r12 and rsp *)

Section Stand_ins.
Variable windows : bool.

Lemma candidate_found regused cands : (∃ r, r ∈ cands ∧ r ∉ regused) -> ∃ c cands',
  candidate regused cands = Ret (c, cands') ∧ c ∈ cands ∧ c ∉ regused ∧
  ∃ skipped, cands = (skipped ++ c :: cands')%list ∧ ∀ r, r ∈ skipped -> r ∈ regused.
Proof.
  induction cands as [|x cands IH]; intros (r & Hr & Hn); [by apply elem_of_nil in Hr|]. cbn [candidate].
  case_bool_decide as Hx.
  - destruct IH as (c & cands' & -> & Hc & Hcn & sk & Hsk & Hu).
    { exists r. split; [|done]. apply elem_of_cons in Hr as [->|]; done. }
    exists c, cands'. split_and!; [done|by right|done|]. exists (x :: sk). subst cands. split; [done|].
    intros y Hy. apply elem_of_cons in Hy as [->|]; [done|by apply Hu].
  - exists x, cands. split_and!; [done|left|done|]. exists []. split; [done|]. by intros y ?%elem_of_nil.
Qed.

(** More candidates than used registers leave one. *)
Lemma candidate_free (regused cands : list Z) : NoDup cands -> (length regused < length cands)%nat ->
  ∃ r, r ∈ cands ∧ r ∉ regused.
Proof.
  intros Hnd Hlt. destruct (decide (Exists (fun r => r ∉ regused) cands)) as [He|He].
  - by apply Exists_exists in He.
  - exfalso. assert (cands ⊆ regused) as Hs.
    { intros r Hr. destruct (decide (r ∈ regused)); [done|]. exfalso. apply He, Exists_exists. by exists r. }
    pose proof (NoDup_incl_length (l := cands) (l' := regused)) as Hl.
    rewrite <- NoDup_ListNoDup in Hl. specialize (Hl Hnd). enough (length cands <= length regused)%nat by lia.
    apply Hl. intros r Hr. apply list_elem_of_In, Hs, list_elem_of_In, Hr.
Qed.

(** A list without one of its elements. *)
Definition without (r : Z) (l : list Z) : list Z := filter (fun x => x <> r) l.

Lemma without_length r l : r ∈ l -> (length (without r l) < length l)%nat.
Proof. intros Hr. apply length_filter_lt with r; [done|]. tauto. Qed.

Lemma without_elem x r l : x <> r -> x ∈ without r l <-> x ∈ l.
Proof. intros Hx. unfold without. rewrite list_elem_of_filter. tauto. Qed.

(** When only [rest] of the used registers are candidates at all. *)
Lemma candidate_spec regused rest cands : NoDup cands -> (∀ x, x ∈ cands -> x ∈ rest <-> x ∈ regused) ->
  (length rest < length cands)%nat -> ∃ c cands',
    candidate regused cands = Ret (c, cands') ∧ c ∈ cands ∧ c ∉ regused ∧ c ∉ cands' ∧ cands' ⊆ cands ∧
    ((S (length rest) < length cands)%nat -> ∃ q, q ∈ cands' ∧ q ∉ regused).
Proof.
  intros Hnd Hrest Hlen. destruct (candidate_free rest cands Hnd Hlen) as (r & Hr & Hrn).
  destruct (candidate_found regused cands) as (c & cands' & He & Hc & Hcn & sk & -> & Hu).
  { exists r. split; [done|]. by rewrite <- Hrest. }
  exists c, cands'. apply NoDup_app in Hnd as Hnd'. destruct Hnd' as (_ & _ & Hn2). apply NoDup_cons in Hn2 as [Hcc _].
  split_and!; try done.
  - intros x Hx. apply elem_of_app. right. by right.
  - intros Hlt. destruct (candidate_free (c :: rest) _ Hnd Hlt) as (q & Hq & Hqn).
    apply not_elem_of_cons in Hqn as [Hqc Hqn]. rewrite (Hrest q Hq) in Hqn. exists q. split; [|done].
    apply elem_of_app in Hq as [Hq|Hq]; [by apply Hu in Hq|]. by apply elem_of_cons in Hq as [->|].
Qed.

Definition stand_ins (regs : list Z) (c s : Z) : Prop :=
  c ∉ regs ∧ s ∉ regs ∧ c <> s ∧ c <> Register.RSP ∧
  (c = Register.R12 \/ c ∈ kCpuCandidates windows) ∧ (s = Register.RSP \/ s ∈ kCpuCandidates windows).

Lemma candidates_volatile r : r ∈ kCpuCandidates windows -> r <> Register.R12 ∧ r <> Register.R13 ∧
  r <> Register.RSP ∧ is_callee_saved_gpr windows r = false ∧ is_callee_saved_xmm windows r = false.
Proof. revert r. apply Forall_forall. destruct windows; apply (bool_decide_unpack _); by vm_compute. Qed.

(** Seven registers leave enough candidates on either convention: those that
    r12 and rsp need are among the seven themselves. *)
Lemma cpu_and_rsp_spec regs : (length regs <= 7)%nat ->
  ∃ c s, cpu_and_rsp windows regs = Ret (c, s) ∧ stand_ins regs c s.
Proof.
  intros Hlen. unfold cpu_and_rsp.
  assert (NoDup (kCpuCandidates windows)) as Hc by (destruct windows; apply (bool_decide_unpack _); by vm_compute).
  assert (7 <= length (kCpuCandidates windows))%nat as Hcl by (destruct windows; cbn; lia).
  pose proof candidates_volatile as Hne.
  assert (∀ x, x ∈ kCpuCandidates windows -> x ∈ without Register.R12 regs <-> x ∈ regs) as Hw12.
  { intros x Hx. apply without_elem. by apply Hne. }
  assert (∀ l x, x ∈ kCpuCandidates windows -> x ∈ without Register.RSP l <-> x ∈ l) as HwS.
  { intros l x Hx. apply without_elem. by apply Hne. }
  destruct (decide (Register.R12 ∈ regs)) as [H12|H12], (decide (Register.RSP ∈ regs)) as [HS|HS];
    rewrite ?(bool_decide_true (Register.R12 ∈ _)), ?(bool_decide_false (Register.R12 ∈ _)) by done;
    rewrite ?(bool_decide_true (Register.RSP ∈ _)), ?(bool_decide_false (Register.RSP ∈ _)) by done.
  - set (rest := without Register.RSP (without Register.R12 regs)).
    pose proof (without_length Register.R12 regs H12) as Hl1.
    assert (length rest < length (without Register.R12 regs))%nat as Hl2 by by apply without_length, without_elem.
    destruct (candidate_spec regs rest (kCpuCandidates windows)) as (c & cs & -> & C1 & C2 & C3 & C4 & C5);
      [done|intros x Hx; unfold rest; by rewrite HwS, Hw12|lia|].
    destruct (candidate_found regs cs) as (s & cs' & He & S1 & S2 & _); [apply C5; lia|].
    cbn [mbind exec_bind fst snd]. rewrite He. exists c, s. split; [done|].
    split_and!; [done|done|by intros ->|by apply Hne|by right|right; by apply C4].
  - destruct (candidate_spec regs (without Register.R12 regs) (kCpuCandidates windows)) as (c & cs & -> & C1 & C2 & _);
      [done|done|pose proof (without_length _ _ H12); lia|].
    exists c, Register.RSP. split; [done|]. split_and!; try done; [by apply Hne..|by right|by left].
  - destruct (candidate_spec regs (without Register.RSP regs) (kCpuCandidates windows)) as (s & cs & He & C1 & C2 & _);
      [done|by apply HwS|pose proof (without_length _ _ HS); lia|].
    cbn [mbind exec_bind fst snd]. rewrite He. exists Register.R12, s. split; [done|].
    split_and!; try done; [by apply not_eq_sym, Hne|by left|by right].
  - exists Register.R12, Register.RSP. split; [done|]. split_and!; try done; by left.
Qed.
End Stand_ins.

(** * The registers a callee saves *)

Section Callee_saved.
Variable windows : bool.
Abbreviation callee_gpr := (is_callee_saved_gpr windows).
Abbreviation callee_xmm := (is_callee_saved_xmm windows).

(** The pushes and pops are those of the filtered list. *)
Lemma join_filter {A} (p : Z -> bool) (f g : Z -> list A) l : (∀ r, p r = true -> f r = g r) ->
  mjoin ((fun r => if p r then f r else []) <$> l) = mjoin (g <$> filter (fun r => p r = true) l).
Proof.
  intros Hf. induction l as [|r l IH]; [done|]. rewrite filter_cons.
  change (mjoin ((fun r => if p r then f r else []) <$> r :: l))
    with ((if p r then f r else []) ++ mjoin ((fun r => if p r then f r else []) <$> l))%list.
  rewrite IH. destruct (p r) eqn:Hp; [|by rewrite decide_False by done].
  rewrite decide_True, (Hf r Hp) by done. done.
Qed.

Lemma callee_gpr_facts r : callee_gpr r = true -> is_gpr64 r = true ∧ r <> Register.RSP.
Proof.
  unfold is_callee_saved_gpr. intros (x & Hx & ->%Z.eqb_eq)%existsb_exists. apply list_elem_of_In in Hx. revert x Hx.
  apply Forall_forall. destruct windows; apply (bool_decide_unpack _); by vm_compute.
Qed.

Lemma callee_xmm_facts r : callee_xmm r = true -> is_xmm r = true ∧ r <> Register.RSP.
Proof.
  unfold is_callee_saved_xmm, is_xmm. intros Hr. bsplit. change Register.XMM6 with (Register.XMM0 + 6) in *.
  assert (Register.RSP < Register.XMM0) by done. rewrite !(proj2 (Z.leb_le _ _)) by lia. split; [done|lia].
Qed.

Lemma pushes_saved l : (mjoin (push_gpr windows <$> l) ++ mjoin (push_xmm windows <$> l) =
  mjoin (push1 <$> (filter (fun r => callee_gpr r = true) l ++ filter (fun r => callee_xmm r = true) l)))%list.
Proof.
  rewrite fmap_app, join_app. f_equal; apply join_filter; intros r Hr; unfold push1.
  - destruct (callee_gpr_facts r Hr) as [Hg _]. by rewrite (gpr_not_xmm r Hg).
  - by destruct (callee_xmm_facts r Hr) as [-> _].
Qed.

Lemma pops_saved l : (mjoin (pop_xmm windows <$> reverse l) ++ mjoin (pop_gpr windows <$> reverse l) =
  mjoin (pop1 <$> reverse (filter (fun r => callee_gpr r = true) l ++ filter (fun r => callee_xmm r = true) l)))%list.
Proof.
  rewrite reverse_app, fmap_app, join_app, <- !filter_reverse.
  f_equal; apply join_filter; intros r Hr; unfold pop1.
  - by destruct (callee_xmm_facts r Hr) as [-> _].
  - destruct (callee_gpr_facts r Hr) as [Hg _]. by rewrite (gpr_not_xmm r Hg).
Qed.

End Callee_saved.

(** * The whole handler *)

Section Handler.
Context `{X86Layout}.
Variable native_opcode : list Z -> x64_machine -> x64_machine.
Abbreviation run := (x64_run native_opcode).
Variables (windows : bool) (regs opcode : list Z) (bound : Z) (m0 : x64_machine).
Let cpu : Z := rg m0 Register.R12.
Abbreviation callee_gpr := (is_callee_saved_gpr windows).
Abbreviation callee_xmm := (is_callee_saved_xmm windows).

(** What is saved, in the order of the pushes. *)
Definition saved : list Z :=
  (filter (fun r => callee_gpr r = true) regs ++ filter (fun r => callee_xmm r = true) regs)%list.

(** The state in memory with the CPU fields before it, and the stack the
    handler saves to. *)
Definition in_state (a : Z) : Prop := cpu - 0x10 <= a < cpu + bound.
Definition in_saves (a : Z) : Prop := rg m0 Register.RSP - stack_size saved <= a < rg m0 Register.RSP.
Definition private (a : Z) : Prop := in_state a \/ in_saves a.

(** How a handler is entered: r12 holds the state, whose pc pointer points to
    its own pc; there is room on the stack. *)
Record entry_ok : Prop := {
  en_low : 0x10 <= cpu; en_high : cpu + bound <= 2 ^ 64;
  en_fields f : x86_ok f = true -> 0 <= off f ∧ off f + x86_size f <= bound;
  en_stack : stack_size saved <= rg m0 Register.RSP < 2 ^ 64;
  en_disjoint a : in_state a -> ~ in_saves a;
  en_pcptr : load 8 (mem m0) (cpu - 0x10) = cpu + off (gpr_g g_rip);
  en_regs r : callee_gpr r = true -> u64 (rg m0 r)
}.

(** The opcode reads and writes the registers it names and memory that is not
    the handler's own. *)
Definition agree (m m' : x64_machine) : Prop :=
  (∀ r, swapped regs r -> rg m r = rg m' r) ∧ (∀ a, ~ private a -> get8 (mem m) a = get8 (mem m') a).
Record opcode_ok : Prop := {
  op_reg m r : ~ swapped regs r -> rg (native_opcode opcode m) r = rg m r;
  op_mem m a : private a -> get8 (mem (native_opcode opcode m)) a = get8 (mem m) a;
  op_agree m m' : agree m m' -> agree (native_opcode opcode m) (native_opcode opcode m')
}.

(** The machine with the guest's registers in the processor. *)
Definition guest_view : x64_machine := mkX64 (fun r => load (width r) (mem m0) (place cpu r)) (mem m0).

Hypothesis entry : entry_ok.
Hypothesis opcode_fine : opcode_ok.
Variables c s : Z.
Hypothesis chosen : stand_ins windows regs c s.

Lemma x64_field_placed f : x86_ok f = true -> 0 <= cpu + off f ∧ cpu + off f + x86_size f <= 2 ^ 64.
Proof. intros Hf. pose proof (en_fields entry f Hf). pose proof (en_low entry). pose proof (en_high entry). lia. Qed.

Lemma place_in_state r a : moved r = true -> in_place cpu r a -> in_state a.
Proof.
  intros Hr Ha. destruct (field_ok r Hr) as [Hf Hw]. pose proof (en_fields entry _ Hf).
  unfold in_place, place, in_state in *. lia.
Qed.

Lemma x64_saved_elem r : r ∈ saved <-> r ∈ regs ∧ (callee_gpr r = true \/ callee_xmm r = true).
Proof. unfold saved. rewrite elem_of_app, !list_elem_of_filter. tauto. Qed.

Lemma saved_not_rsp : Forall (fun r => r <> Register.RSP) saved.
Proof.
  apply Forall_forall. intros r (_ & Hr)%x64_saved_elem.
  destruct Hr as [Hr|Hr]; [by apply (callee_gpr_facts windows)|by apply (callee_xmm_facts windows)].
Qed.

(** A conditional move between a register and its stand-in. *)
Lemma run_swap (b : bool) x y m : (if b then x = y else True) ->
  let m' := run (if b then [] else [MOV x y]) m in
  mem m' = mem m ∧ rg m' y = rg m x ∧ ∀ r, r <> y -> rg m' r = rg m r.
Proof.
  intros Hb. destruct b; cbn; [by subst|]. split_and!; [done|apply upd_same|]. intros r Hr. by apply upd_other.
Qed.

Lemma eqb_cond x y : if x =? y then y = x else True.
Proof. by destruct (Z.eqb_spec x y). Qed.
Lemma eqb_cond' x y : if x =? y then x = y else True.
Proof. by destruct (Z.eqb_spec x y). Qed.

Let sp : Z := rg m0 Register.RSP - stack_size saved.

(** Up to the opcode: the host's registers are on the stack, the guest's in
    the processor, the state untouched. *)
Definition before_opcode (m : x64_machine) : Prop :=
  agree m guest_view ∧ rg m c = cpu ∧ rg m s = sp ∧
  (∀ r, ~ swapped regs r -> r <> c -> r <> s -> r <> Register.RSP -> rg m r = rg m0 r) ∧
  (∀ a, ~ in_saves a -> get8 (mem m) a = get8 (mem m0) a) ∧
  on_stack (mem m) (rg m0 Register.RSP) saved (value m0).

Lemma x64_run_before : before_opcode (run (mjoin (push1 <$> saved) ++
  (if c =? Register.R12 then [] else [MOV Register.R12 c]) ++
  (if s =? Register.RSP then [] else [MOV Register.RSP s]) ++ mjoin (load1 c <$> regs))%list m0).
Proof.
  destruct chosen as (Hc & Hs & Hcs & HcS & _ & Hs'). rewrite !x64_run_app.
  destruct (run_pushes native_opcode saved m0 saved_not_rsp (en_stack entry)) as (S1 & S2 & S3 & S4). fold sp in S1.
  set (m1 := run (mjoin (push1 <$> saved)) m0) in *. clearbody m1.
  destruct (run_swap (c =? Register.R12) Register.R12 c m1 (eqb_cond _ _)) as (A1 & A2 & A3).
  set (m2 := run (if c =? Register.R12 then [] else [MOV Register.R12 c]) m1) in *. clearbody m2.
  destruct (run_swap (s =? Register.RSP) Register.RSP s m2 (eqb_cond _ _)) as (B1 & B2 & B3).
  set (m2' := run (if s =? Register.RSP then [] else [MOV Register.RSP s]) m2) in *. clearbody m2'.
  assert (rg m2' c = cpu) as Hcpu.
  { rewrite B3, A2, S2 by done. done. }
  destruct (x64_run_loads native_opcode cpu x64_field_placed c regs m2' Hcpu Hc) as [L1 L2].
  set (m3 := run (mjoin (load1 c <$> regs)) m2') in *. clearbody m3.
  assert (mem m3 = mem m1) as HM by by rewrite L1, B1, A1.
  assert (∀ a, ~ in_saves a -> get8 (mem m3) a = get8 (mem m0) a) as Hmem.
  { intros a Ha. rewrite HM. apply S3. unfold in_saves in Ha. lia. }
  assert (∀ r, r ∉ regs -> ~ swapped regs r) as Hns by (intros r Hr [? _]; done).
  unfold before_opcode. split_and!.
  - split; [|intros a Ha; apply Hmem; intros Hin; apply Ha; by right].
    intros r Hr. rewrite L2, decide_True by done. cbn [guest_view rg]. apply load_ext. intros x Hx.
    rewrite <- L1. apply Hmem, (en_disjoint entry), (place_in_state r); [apply Hr|exact Hx].
  - by rewrite L2, decide_False by auto.
  - rewrite L2, decide_False by auto. rewrite B2, A3 by done. done.
  - intros r Hr Hrc Hrs HrS. by rewrite L2, decide_False, B3, A3, S2.
  - done.
  - by rewrite HM.
Qed.

(** Behind the opcode: the guest's results are in the state, the host has its
    registers and stack back. *)
Definition after_opcode (m : x64_machine) : Prop :=
  let g := native_opcode opcode guest_view in
  (∀ r, swapped regs r -> load (width r) (mem m) (place cpu r) = value g r) ∧
  (∀ a, in_state a -> (∀ r, swapped regs r -> ~ in_place cpu r a) -> get8 (mem m) a = get8 (mem m0) a) ∧
  (∀ a, ~ private a -> get8 (mem m) a = get8 (mem g) a) ∧
  (∀ r, callee_gpr r = true -> rg m r = rg m0 r) ∧
  (∀ r, callee_xmm r = true -> value m r = value m0 r) ∧
  rg m Register.RSP = rg m0 Register.RSP.

Lemma restored m6 m7 : (∀ r, r <> Register.RSP -> rg m7 r = if bool_decide (r ∈ saved) then value m0 r else rg m6 r) ->
  (∀ r, ~ swapped regs r -> r <> c -> r <> s -> r <> Register.RSP -> r <> Register.R12 -> rg m6 r = rg m0 r) ->
  rg m6 Register.R12 = cpu ->
  (∀ r, callee_gpr r = true -> rg m7 r = rg m0 r) ∧ (∀ r, callee_xmm r = true -> value m7 r = value m0 r).
Proof.
  intros H7 H6 H12. destruct chosen as (Hc & Hs & Hcs & HcS & Hc' & Hs'). split; intros r Hr.
  - destruct (callee_gpr_facts windows r Hr) as [Hg HrS]. rewrite H7 by done. case_bool_decide as Hin.
    + unfold value, width. rewrite (gpr_not_xmm r Hg). apply Z.mod_small, (en_regs entry r Hr).
    + rewrite x64_saved_elem in Hin. destruct (decide (r = Register.R12)) as [->|H12']; [done|].
      apply H6; [intros [? _]; tauto|intros ->..|done|done].
      * destruct Hc' as [->|Hc']; [done|]. apply candidates_volatile in Hc' as (_ & _ & _ & Hf & _). congruence.
      * destruct Hs' as [->|Hs']; [done|]. apply candidates_volatile in Hs' as (_ & _ & _ & Hf & _). congruence.
  - destruct (callee_xmm_facts windows r Hr) as [Hx HrS]. unfold value at 1. rewrite H7 by done. case_bool_decide as Hin.
    + unfold value. apply Z.mod_mod. lia.
    + rewrite x64_saved_elem in Hin. rewrite H6; [done|intros [? _]; tauto|intros ->..|done|intros ->].
      * destruct Hc' as [->|Hc']; [by vm_compute in Hx|]. apply candidates_volatile in Hc' as (_ & _ & _ & _ & Hf). congruence.
      * destruct Hs' as [->|Hs']; [by vm_compute in Hx|]. apply candidates_volatile in Hs' as (_ & _ & _ & _ & Hf). congruence.
      * by vm_compute in Hx.
Qed.

Lemma x64_run_after m3 : before_opcode m3 -> after_opcode (run ([OPCODE opcode] ++ mjoin (store1 c <$> regs) ++
  (if c =? Register.R12 then [] else [MOV c Register.R12]) ++
  (if s =? Register.RSP then [] else [MOV s Register.RSP]) ++ mjoin (pop1 <$> reverse saved))%list m3).
Proof.
  intros (Ha & Hc3 & Hs3 & Hx3 & Hm3 & Hon). destruct chosen as (Hc & Hs & Hcs & HcS & Hc' & Hs').
  rewrite !x64_run_app. change (run [OPCODE opcode] m3) with (native_opcode opcode m3).
  pose proof (op_agree opcode_fine _ _ Ha) as [G1 G2]. set (g := native_opcode opcode guest_view) in *.
  pose proof (op_reg opcode_fine m3) as O1. pose proof (op_mem opcode_fine m3) as O2.
  set (m4 := native_opcode opcode m3) in *. clearbody m4.
  assert (∀ r, r ∉ regs -> rg m4 r = rg m3 r) as O3 by (intros r Hr; apply O1; intros [? _]; done).
  destruct (x64_run_stores native_opcode cpu x64_field_placed c regs m4) as (T1 & T2 & T3); [by rewrite O3|].
  set (m5 := run (mjoin (store1 c <$> regs)) m4) in *. clearbody m5.
  destruct (run_swap (c =? Register.R12) c Register.R12 m5 (eqb_cond' _ _)) as (A1 & A2 & A3).
  set (m5' := run (if c =? Register.R12 then [] else [MOV c Register.R12]) m5) in *. clearbody m5'.
  destruct (run_swap (s =? Register.RSP) s Register.RSP m5' (eqb_cond' _ _)) as (B1 & B2 & B3).
  set (m6 := run (if s =? Register.RSP then [] else [MOV s Register.RSP]) m5') in *. clearbody m6.
  assert (s <> Register.R12) as Hs12.
  { destruct Hs' as [->|Hs']; [done|]. by apply (candidates_volatile windows s). }
  assert (mem m6 = mem m5) as HM by by rewrite B1, A1.
  assert (rg m6 Register.RSP = sp) as HSP by by rewrite B2, A3, T1, O3.
  assert (rg m6 Register.R12 = cpu) as H12 by by rewrite B3, A2, T1, O3.
  assert (∀ a, ~ in_state a -> get8 (mem m5) a = get8 (mem m4) a) as Hout.
  { intros a Hna. apply T3. intros r Hr Hp. apply Hna, (place_in_state r); [apply Hr|done]. }
  pose proof (en_stack entry) as Hst. pose proof (stack_size_nonneg saved).
  assert (on_stack (mem m6) (rg m0 Register.RSP) saved (value m0)) as Hon6.
  { revert Hon. apply on_stack_ext. intros a Has. rewrite HM, Hout; [symmetry; apply O2; by right|].
    intros Hin. by apply (en_disjoint entry a). }
  destruct (run_pops native_opcode (value m0) saved m6 (rg m0 Register.RSP)) as (R1 & R2 & R3);
    [apply saved_not_rsp|by rewrite HSP|rewrite HSP; unfold sp; lia|lia|done|].
  set (m7 := run (mjoin (pop1 <$> reverse saved)) m6) in *. clearbody m7.
  destruct (restored m6 m7 R3) as [E1 E2]; [|done|].
  { intros r Hr Hrc Hrs HrS Hr12. by rewrite B3, A3, T1, O1, Hx3. }
  unfold after_opcode. fold g. rewrite R2, HM. split_and!; try done.
  - intros r Hr. rewrite T2 by done. unfold value. by rewrite G1.
  - intros a Hin Hnp. rewrite T3, O2, Hm3; [done|by apply (en_disjoint entry)|by left|done].
  - intros a Hp. rewrite Hout by (intros Hin; apply Hp; by left). by apply G2.
Qed.
(** The machine behind [x64_advance]. *)
Definition advanced (size : Z) (m m' : x64_machine) : Prop :=
  let rcx := load 8 (mem m) (wrap64 (rg m Register.R12 + -0x10)) in
  let pc := wrap64 (load 8 (mem m) (wrap64 (rcx + 0)) + size) in
  let b := store 8 (mem m) (wrap64 (rcx + 0)) pc in
  let r13 := wrap64 (rg m Register.R13 + 8) in
  mem m' = b ∧ rg m' (kArgState windows) = rg m Register.R12 ∧ rg m' (kArgVmAddr windows) = pc ∧
  rg m' (kArgInsn windows) = r13 ∧ rg m' Register.R13 = r13 ∧
  rg m' Register.R10 = wrap 59 (load 8 b (wrap64 (r13 + 0))) ∧
  ∀ r, r ∉ [Register.RAX; Register.RCX; Register.RDX; Register.R13; Register.R10;
            kArgState windows; kArgVmAddr windows; kArgInsn windows] -> rg m' r = rg m r.

Lemma x64_run_upd (P : x64_machine -> Prop) l x d w b :
  (∀ x', x' d = w -> (∀ r, r <> d -> x' r = x r) -> P (run l (mkX64 x' b))) -> P (run l (mkX64 (upd x d w) b)).
Proof. exact (upd_abstract (fun x' => P (run l (mkX64 x' b))) x d w). Qed.

Ltac x64_step Q y Y F :=
  rewrite x64_run_cons; cbn [x64_exec]; unfold set_r at 1; apply (x64_run_upd Q); intros y Y F;
  unfold address in Y; cbn [rg mem default from_option id] in Y, F |- *.

Lemma x64_advance_regs size m : advanced size m (run (x64_advance windows size) m).
Proof.
  destruct m as [x b]. unfold advanced. cbn [rg mem].
  set (rcx := load 8 b (wrap64 (x Register.R12 + -0x10))).
  set (pc := wrap64 (load 8 b (wrap64 (rcx + 0)) + size)). set (r13 := wrap64 (x Register.R13 + 8)).
  set (b' := store 8 b (wrap64 (rcx + 0)) pc).
  pattern (run (x64_advance windows size) (mkX64 x b)). match goal with |- ?P _ => set (Q := P) end.
  unfold x64_advance.
  x64_step Q y0 Y0 F0.
  x64_step Q y1 Y1 F1. rewrite Y0 in Y1. fold rcx in Y1.
  x64_step Q y2 Y2 F2. rewrite Y1 in Y2.
  x64_step Q y3 Y3 F3. rewrite Y2 in Y3. fold pc in Y3.
  rewrite x64_run_cons. cbn [x64_exec]. unfold set_mem, address. cbn [rg mem default from_option id].
  rewrite Y3, F3, F2, Y1 by done. fold b'.
  x64_step Q y4 Y4 F4. rewrite F3, F2, F1, Y0 in Y4 by done.
  x64_step Q y5 Y5 F5. rewrite F4, Y3 in Y5 by by unfold kArgState; destruct windows.
  x64_step Q y6 Y6 F6.
  rewrite F5, F4, F3, F2, F1, F0 in Y6 by (unfold kArgState, kArgVmAddr; by destruct windows). fold r13 in Y6.
  x64_step Q y7 Y7 F7. rewrite Y6 in Y7.
  x64_step Q y8 Y8 F8. rewrite F7, Y6 in Y8 by (unfold kArgInsn; by destruct windows).
  x64_step Q y9 Y9 F9. rewrite Y8 in Y9.
  x64_step Q y10 Y10 F10. rewrite Y9, drop_tag in Y10.
  unfold Q. cbn [x64_run fold_left x64_exec rg mem].
  assert (kArgState windows <> kArgVmAddr windows ∧ kArgState windows <> kArgInsn windows ∧
    kArgVmAddr windows <> kArgInsn windows ∧
    Forall (fun r => r <> Register.R10 ∧ r <> Register.R13) [kArgState windows; kArgVmAddr windows; kArgInsn windows])
    as (N1 & N2 & N3 & N4) by (unfold kArgState, kArgVmAddr, kArgInsn; destruct windows;
      split_and!; try done; repeat (apply Forall_cons; split; [done|]); by constructor).
  rewrite !Forall_cons in N4. destruct N4 as ((? & ?) & (? & ?) & (? & ?) & _).
  split_and!; try done.
  - by rewrite F10, F9, F8, F7, F6, F5, Y4 by done.
  - by rewrite F10, F9, F8, F7, F6, Y5 by done.
  - by rewrite F10, F9, F8, Y7 by done.
  - rewrite F10, F9, F8, F7, Y6 by done. done.
  - intros r Hr. rewrite !not_elem_of_cons in Hr. destruct Hr as (? & ? & ? & ? & ? & ? & ? & ? & _).
    by rewrite F10, F9, F8, F7, F6, F5, F4, F3, F2, F1, F0 by done.
Qed.
(** What a native handler does. *)
Definition handled (m' : x64_machine) : Prop :=
  let g := native_opcode opcode guest_view in
  let pc_at := cpu + off (gpr_g g_rip) in
  let pc := wrap64 (load 8 (mem m0) pc_at + Z.of_nat (length opcode)) in
  (* the guest *)
  (∀ r, swapped regs r -> load (width r) (mem m') (place cpu r) = value g r) ∧
  load 8 (mem m') pc_at = pc ∧
  (∀ a, in_state a -> ~ (pc_at <= a < pc_at + 8) -> (∀ r, swapped regs r -> ~ in_place cpu r a) ->
     get8 (mem m') a = get8 (mem m0) a) ∧
  (∀ a, ~ private a -> get8 (mem m') a = get8 (mem g) a) ∧
  (* the host *)
  (∀ r, callee_gpr r = true -> r <> Register.R13 -> rg m' r = rg m0 r) ∧
  (∀ r, callee_xmm r = true -> value m' r = value m0 r) ∧
  rg m' Register.RSP = rg m0 Register.RSP ∧
  (* the next handler *)
  rg m' Register.R13 = wrap64 (rg m0 Register.R13 + 8) ∧
  rg m' (kArgState windows) = cpu ∧ rg m' (kArgVmAddr windows) = pc ∧
  rg m' (kArgInsn windows) = rg m' Register.R13 ∧
  rg m' Register.R10 = wrap 59 (load 8 (mem m') (rg m' Register.R13)).

(** The registers [x64_advance] writes are free on either convention. *)
Lemma advance_frame r : callee_gpr r = true ∧ r <> Register.R13 \/ callee_xmm r = true \/ r = Register.RSP ->
  r ∉ [Register.RAX; Register.RCX; Register.RDX; Register.R13; Register.R10;
       kArgState windows; kArgVmAddr windows; kArgInsn windows].
Proof.
  set (l := [_; _; _; _; _; _; _; _]).
  assert (Forall (fun x => (x = Register.R13 \/ callee_gpr x = false) ∧ is_xmm x = false ∧ x <> Register.RSP) l) as Hl
    by (unfold l; destruct windows; apply (bool_decide_unpack _); by vm_compute).
  clearbody l. intros Hr Hin. apply (proj1 (Forall_forall _ _) Hl) in Hin as (H1 & H2 & H3).
  destruct Hr as [[Hg Hn]|[Hx|]]; [destruct H1; congruence| |done].
  apply (callee_xmm_facts windows) in Hx as [Hx _]. congruence.
Qed.

Lemma rip_not_place r a : moved r = true -> in_place cpu r a ->
  ~ (cpu + off (gpr_g g_rip) <= a < cpu + off (gpr_g g_rip) + 8).
Proof.
  intros Hr Ha. destruct (field_ok r Hr) as [Hf Hw].
  assert (field r <> gpr_g g_rip) as Hne.
  { unfold moved in Hr. destruct (is_gpr64 r) eqn:Hg; cbn [orb] in Hr; [|by rewrite (xmm_field r Hr)].
    clear -Hg. revert r Hg. apply (gpr_cases (fun r => field r <> gpr_g g_rip)).
    repeat (apply Forall_cons; split; [vm_compute; congruence|]). by constructor. }
  pose proof (off_disjoint (field r) (gpr_g g_rip) Hf eq_refl Hne) as Hd. cbn [x86_size] in Hd.
  unfold in_place, place in Ha. lia.
Qed.

Lemma handled_advance m7 : after_opcode m7 ->
  handled (run (x64_advance windows (Z.of_nat (length opcode))) m7).
Proof.
  intros (A1 & A2 & A3 & A4 & A5 & A6). pose proof (en_low entry). pose proof (en_high entry).
  destruct (en_fields entry (gpr_g g_rip) eq_refl) as [Hlo Hhi]. cbn [x86_size] in Hhi.
  assert (rg m7 Register.R12 = cpu) as H12 by (apply A4; by destruct windows).
  assert (rg m7 Register.R13 = rg m0 Register.R13) as H13 by (apply A4; by destruct windows).
  pose proof (x64_advance_regs (Z.of_nat (length opcode)) m7) as Hadv.
  set (m' := run _ m7) in *. clearbody m'. unfold advanced in Hadv. rewrite H12, H13 in Hadv.
  replace (cpu + -0x10) with (cpu - 0x10) in Hadv by lia.
  rewrite (wrap_small 64 (cpu - 0x10)) in Hadv by (unfold fits; lia).
  set (pc_at := cpu + off (gpr_g g_rip)) in *.
  assert (∀ r a, swapped regs r -> in_place cpu r a -> ~ (pc_at <= a < pc_at + 8)) as Hrip
    by (intros r a [_ Hr]; by apply rip_not_place).
  assert (load 8 (mem m7) (cpu - 0x10) = pc_at) as Hpcp.
  { etransitivity; [|exact (en_pcptr entry)]. apply load_ext. intros x Hx. apply A2; [unfold in_state; lia|].
    intros r [_ Hr] Hp. destruct (field_ok r Hr) as [Hf _]. pose proof (en_fields entry _ Hf).
    unfold in_place, place in Hp. lia. }
  assert (load 8 (mem m7) pc_at = load 8 (mem m0) pc_at) as Hpc.
  { apply load_ext. intros x Hx. apply A2; [unfold in_state, pc_at in *; lia|]. intros r Hr Hp. by apply (Hrip r x). }
  rewrite Hpcp, Z.add_0_r, (wrap_small 64 pc_at), Hpc in Hadv by (unfold fits, pc_at; lia).
  destruct Hadv as (M & F1 & F2 & F3 & F4 & F5 & Ff). unfold handled. fold pc_at.
  set (pc := wrap64 (load 8 (mem m0) pc_at + _)) in *.
  assert (∀ a, ~ (pc_at <= a < pc_at + 8) -> get8 (mem m') a = get8 (mem m7) a) as Hm'.
  { intros a Ha. rewrite M. unfold store. by rewrite get8_store_bytes, le_bytes_length, decide_False. }
  split_and!.
  - intros r Hr. rewrite <- (A1 r Hr). apply load_ext. intros x Hx. apply Hm', (Hrip r); done.
  - rewrite M, load_store. apply wrap_wrap.
  - intros a Hs Hnp Hnr. by rewrite Hm', A2.
  - intros a Hp. rewrite Hm'; [by apply A3|]. intros Hx. apply Hp. left. unfold in_state, pc_at in *. lia.
  - intros r Hr Hne. rewrite Ff by (apply advance_frame; by left). by apply A4.
  - intros r Hr. rewrite <- (A5 r Hr). unfold value. rewrite Ff by (apply advance_frame; right; by left). done.
  - rewrite Ff by (apply advance_frame; right; by right). done.
  - done.
  - done.
  - done.
  - by rewrite F3, F4.
  - rewrite F5, F4, <- M, Z.add_0_r, wrap_wrap. done.
Qed.
End Handler.

(** Generation and execution together. *)
Lemma x64_handler_handles `{X86Layout} native_opcode windows regs opcode bound m0 :
  entry_ok windows regs bound m0 -> opcode_ok native_opcode windows regs opcode bound m0 -> (length regs <= 7)%nat ->
  ∃ insns, handler_insns windows regs opcode = Ret insns ∧
    handled native_opcode windows regs opcode bound m0 (x64_run native_opcode insns m0).
Proof.
  intros He Ho Hlen. destruct (cpu_and_rsp_spec windows regs Hlen) as (c & s & Hcs & Hst).
  unfold handler_insns. rewrite Hcs. cbn [mbind exec_bind].
  rewrite (mapE_Ret (load_guest c) (load1 c)) by apply x64_load_guest_ret. cbn [mbind exec_bind].
  rewrite (mapE_Ret (save_guest c) (store1 c)) by apply x64_save_guest_ret. cbn [mbind exec_bind].
  eexists. split; [reflexivity|].
  rewrite (app_assoc (mjoin (push_gpr windows <$> regs))), pushes_saved.
  rewrite (app_assoc (mjoin (pop_xmm windows <$> reverse regs))), pops_saved.
  fold (saved windows regs).
  pose proof (x64_run_before native_opcode windows regs bound m0 He c s Hst) as Hb.
  pose proof (x64_run_after native_opcode windows regs opcode bound m0 He Ho c s Hst _ Hb) as Ha.
  apply (handled_advance native_opcode windows regs opcode bound m0 He c s Hst) in Ha.
  rewrite <- !x64_run_app, <- !app_assoc in Ha. exact Ha.
Qed.

(** * Which registers an instruction uses *)

(** Every name with the register it is a part of. *)
Definition parts : list (string * Z) :=
  (mjoin ((fun c => (fun s => (s, c.1)) <$> c.2) <$> sub_registers) ++
   mjoin ((fun row => let '(p, first, last) := row in
     (fun n => (numbered p n, Register.XMM0 + n)) <$> seqZ first (last - first + 1)) <$> vector_rows))%list.
Definition part_of (name : string) (r : Z) : Prop := (name, r) ∈ parts.

Lemma parts_once : NoDup parts.*1.
Proof. apply (bool_decide_unpack _). by vm_compute. Qed.

Lemma part_of_unique name r r' : part_of name r -> part_of name r' -> r = r'.
Proof.
  unfold part_of. intros H H'. pose proof parts_once as Hnd. revert Hnd H H'. generalize parts. intros l.
  induction l as [|[s q] l IH]; [by intros _ ?%elem_of_nil|]. cbn. intros [Hs Hl]%NoDup_cons H H'.
  assert (∀ x, (s, x) ∉ l) as Hs' by (intros x Hx; apply Hs, list_elem_of_fmap; by exists (s, x)).
  apply elem_of_cons in H as [H|H]; apply elem_of_cons in H' as [H'|H']; simplify_eq; [done|..|by apply IH].
  - by destruct (Hs' r').
  - by destruct (Hs' r).
Qed.

Lemma part_of_vector p first last n : (p, first, last) ∈ vector_rows -> first <= n <= last ->
  part_of (numbered p n) (Register.XMM0 + n).
Proof.
  intros Hrow Hn. apply elem_of_app. right. apply list_elem_of_join.
  exists ((fun n => (numbered p n, Register.XMM0 + n)) <$> seqZ first (last - first + 1)). split.
  - apply list_elem_of_fmap. exists n. split; [done|]. apply elem_of_seqZ. lia.
  - apply list_elem_of_fmap. by exists (p, first, last).
Qed.

Section Parts.
Context `{X86Numbers}.

Lemma row_name_known p first last n : (p, first, last) ∈ vector_rows -> first <= n <= last -> numbered p n ∈ x86_names.
Proof.
  intros Hrow Hn. apply list_elem_of_further, elem_of_app. right. apply list_elem_of_join.
  exists (row_names (p, first, last)). split; [|apply list_elem_of_fmap; by exists (p, first, last)].
  apply list_elem_of_fmap. exists n. split; [done|]. apply elem_of_seqZ. lia.
Qed.

Lemma row_bounds p first last : (p, first, last) ∈ vector_rows -> first <= last.
Proof.
  assert (Forall (fun row => row.1.2 <= row.2) vector_rows) as Hf
    by (apply (bool_decide_unpack _); by vm_compute).
  intros Hrow. by apply (proj1 (Forall_forall _ _) Hf (p, first, last)).
Qed.

(** Which row the number of a name falls into. *)
Lemma parse_row_spec name rows : name ∈ x86_names -> rows ⊆ vector_rows ->
  match parse_row (x86_num name) rows with
  | Some r => part_of name r
  | None => ∀ p first last n, (p, first, last) ∈ rows -> first <= n <= last -> name <> numbered p n
  end.
Proof.
  intros Hname. induction rows as [|[[p first] last] rows IH]; intros Hrows; cbn [parse_row].
  { intros p first last n Hin. by apply elem_of_nil in Hin. }
  assert ((p, first, last) ∈ vector_rows) as Hrow by (apply Hrows; by left).
  pose proof (row_bounds _ _ _ Hrow) as Hb.
  pose proof (fun n => x86_num_row p first last n Hrow) as Hnum.
  destruct (_ && _) eqn:E; [bsplit|].
  - rewrite (Hnum last) in * by lia. set (n := first + (x86_num name - x86_num (numbered p first))).
    assert (name = numbered p n) as Hn.
    { apply x86_num_inj; [done|apply (row_name_known p first last); [done|lia]|]. rewrite (Hnum n) by lia. lia. }
    replace (Register.XMM0 + first + _) with (Register.XMM0 + n) by lia. rewrite Hn.
    apply (part_of_vector p first last); [done|lia].
  - specialize (IH ltac:(intros x Hx; apply Hrows; by right)).
    destruct (parse_row (x86_num name) rows); [done|].
    intros p' first' last' n Hin Hn. apply elem_of_cons in Hin as [[= -> -> ->]|Hin]; [|by apply (IH p' first' last')].
    intros ->. rewrite (Hnum n), (Hnum last) in E by lia. apply andb_false_iff in E as [E|E]; bsplit; lia.
Qed.

Lemma canonicalize_spec name : name ∈ gpr_names ->
  ∃ r, canonicalize (x86_num name) = Ret r ∧ part_of name r.
Proof.
  intros Hname. unfold canonicalize.
  set (cases := mjoin ((fun c => (fun s => (x86_num s, c.1)) <$> c.2) <$> sub_registers)).
  assert (∀ k r, (k, r) ∈ cases <-> ∃ c s, c ∈ sub_registers ∧ s ∈ c.2 ∧ k = x86_num s ∧ r = c.1) as Hcases.
  { intros k r. unfold cases. rewrite list_elem_of_join. setoid_rewrite list_elem_of_fmap. split.
    - intros (l & Hl & c & -> & Hc). apply list_elem_of_fmap in Hl as (s & [= -> ->] & Hs). by exists c, s.
    - intros (c & s & Hc & Hs & -> & ->). eexists. split; [|by exists c]. apply list_elem_of_fmap. by exists s. }
  unfold gpr_names in Hname. apply list_elem_of_join in Hname as (l & Hl & Hc). apply list_elem_of_fmap in Hc as (c & -> & Hc).
  assert (∀ c s, c ∈ sub_registers -> s ∈ c.2 -> s ∈ x86_names) as Hknown.
  { intros c' s Hc' Hs. apply list_elem_of_further, elem_of_app. left. apply list_elem_of_join.
    exists c'.2. split; [done|]. apply list_elem_of_fmap. by exists c'. }
  destruct (switch (x86_num name) cases) as [r|] eqn:E.
  - exists r. split; [done|]. apply switch_Some, Hcases in E as (c' & s & Hc' & Hs & He & ->).
    apply x86_num_inj in He; [subst|by apply (Hknown c)|by apply (Hknown c')].
    apply elem_of_app. left. apply list_elem_of_join. eexists. split; [|apply list_elem_of_fmap; by exists c'].
    apply list_elem_of_fmap. by exists s.
  - exfalso. apply switch_None in E. apply E, list_elem_of_fmap. exists (x86_num name, c.1). split; [done|].
    apply Hcases. by exists c, name.
Qed.

Lemma no_register_part r : ~ part_of "NoRegister" r.
Proof.
  intros Hp. assert ("NoRegister" ∉ parts.*1) as Hn by (apply (bool_decide_unpack _); by vm_compute).
  apply Hn, list_elem_of_fmap. by exists ("NoRegister", r).
Qed.

Lemma parse_reg_spec name : name ∈ x86_names ->
  ∃ l, parse_reg (x86_num name) = Ret l ∧ (length l <= 1)%nat ∧ ∀ r, r ∈ l <-> part_of name r.
Proof.
  intros Hname. unfold parse_reg. destruct (Z.eqb_spec (x86_num name) (x86_num "NoRegister")) as [He|He].
  - apply x86_num_inj in He; [subst|done|by left]. exists []. split_and!; [done|cbn; lia|].
    intros r. split; [by intros ?%elem_of_nil|by intros ?%no_register_part].
  - assert (∀ r, part_of name r -> ∀ q, q ∈ [r] <-> part_of name q) as Hone.
    { intros r Hr q. rewrite list_elem_of_singleton. split; [by intros ->|]. intros Hq. by apply (part_of_unique name). }
    pose proof (parse_row_spec name vector_rows Hname (fun _ Hx => Hx)) as Hp.
    destruct (parse_row (x86_num name) vector_rows) as [r|]; [exists [r]; by split_and!; [|cbn; lia|apply Hone]|].
    destruct (canonicalize_spec name) as (r & -> & Hr); [|exists [r]; by split_and!; [|cbn; lia|apply Hone]].
    apply elem_of_cons in Hname as [->|Hname]; [done|]. apply elem_of_app in Hname as [Hg|Hv]; [done|]. exfalso.
    apply list_elem_of_join in Hv as (l & Hl & Hrow). apply list_elem_of_fmap in Hrow as ([[p first] last] & -> & Hrow).
    apply list_elem_of_fmap in Hl as (n & -> & Hn). apply elem_of_seqZ in Hn. by apply (Hp p first last n); [|lia|].
Qed.

Lemma x64_parse_regused_elem names : Forall (fun s => s ∈ x86_names) names -> ∃ l,
  parse_regused ((fun s => OReg (x86_num s)) <$> names) = Ret l ∧ (length l <= length names)%nat ∧
  ∀ r, r ∈ l <-> ∃ s, s ∈ names ∧ part_of s r.
Proof.
  intros Hnames. unfold parse_regused.
  assert (omap operand_reg ((fun s => OReg (x86_num s)) <$> names) = x86_num <$> names) as ->.
  { clear. induction names as [|s names IH]; [done|]. cbn. by f_equal. }
  enough (∃ ls, mapE parse_reg (x86_num <$> names) = Ret ls ∧ (length (mjoin ls) <= length names)%nat ∧
    ∀ r, r ∈ mjoin ls <-> ∃ s, s ∈ names ∧ part_of s r) as (ls & -> & Hlen & Hls).
  { exists (reg_set (mjoin ls)). split; [done|]. split; [pose proof (reg_set_length (mjoin ls)); lia|].
    intros r. by rewrite reg_set_elem. }
  induction Hnames as [|s names Hs Hnames IH].
  - exists []. split_and!; [done|cbn; lia|]. intros r. split; [by intros ?%elem_of_nil|by intros (s & ?%elem_of_nil & _)].
  - destruct (parse_reg_spec s Hs) as (l & Hl & Hlen & Hin), IH as (ls & Hls & Hlens & Hins).
    exists (l :: ls). cbn [fmap list_fmap mapE]. rewrite Hl. cbn [mbind exec_bind]. rewrite Hls. split; [done|].
    change (mjoin (l :: ls)) with (l ++ mjoin ls)%list. rewrite length_app. cbn [length]. split; [lia|].
    intros r. rewrite elem_of_app, Hin, Hins. split.
    + intros [Hr|(s' & Hs' & Hr)]; [exists s|exists s']; (split; [|done]); [by left|by right].
    + intros (s' & Hs' & Hr). apply elem_of_cons in Hs' as [->|Hs']; [by left|right; by exists s'].
Qed.
End Parts.

(** * Properties *)

(** For operands that are general or vector registers, [parse_regused]
    returns, in order and once, exactly the registers they are parts of. *)
Theorem x86_parse_regused_spec `{X86Numbers} names : Forall (fun s => s ∈ x86_names) names -> ∃ l,
  parse_regused ((fun s => OReg (x86_num s)) <$> names) = Ret l ∧ StronglySorted Z.lt l ∧
  ∀ r, r ∈ l <-> ∃ s, s ∈ names ∧ part_of s r.
Proof.
  intros Hn. destruct (x64_parse_regused_elem names Hn) as (l & Hl & _ & Hr). exists l. split; [done|]. split; [|done].
  unfold parse_regused in Hl. destruct (mapE _ _); [|done..]. injection Hl as <-. apply reg_set_sorted.
Qed.

(** C5: a native handler of x86_64, entered with the state in r12, runs the
    opcode on the guest's registers, on either calling convention: the
    registers the instruction names end up in the state as the opcode leaves
    them, the rest of the state and other memory as it should be, the pc behind
    the opcode; the host gets back its callee-saved registers and its stack;
    and the next handler is entered with r12, r13 and the arguments as this one
    was. Up to seven registers may be used, r12 and rsp among them: generation
    then finds their stand-ins. *)
Theorem x64_native_handler_correct `{X86Layout} `{X86Numbers} native_opcode windows llvm names opcode bound m0 regused :
  Forall (fun s => s ∈ x86_names) names -> (length names <= 7)%nat ->
  parse_regused ((fun s => OReg (x86_num s)) <$> names) = Ret regused ->
  entry_ok windows regused bound m0 -> opcode_ok native_opcode windows regused opcode bound m0 ->
  ∃ insns, nativeHandlerX64 windows regused opcode llvm =
      Ret (String.concat "" (x64_text (if llvm then "$$" else "$") <$> insns)) ∧
    handled native_opcode windows regused opcode bound m0 (x64_run native_opcode insns m0).
Proof.
  intros Hn Hlen Hused He Ho. destruct (x64_parse_regused_elem names Hn) as (l & Hl & Hll & _).
  rewrite Hused in Hl. injection Hl as <-.
  destruct (x64_handler_handles native_opcode windows regused opcode bound m0 He Ho) as (insns & Hi & Hh); [lia|].
  exists insns. split; [|done]. unfold nativeHandlerX64. by rewrite Hi.
Qed.

(** A numbering: the positions in the list of names. *)
Fixpoint index_of (s : string) (l : list string) : Z :=
  match l with [] => 0 | x :: l' => if String.eqb s x then 0 else 1 + index_of s l' end.

Lemma index_of_nonneg s l : 0 <= index_of s l.
Proof. induction l as [|x l IH]; cbn; [done|]. destruct (String.eqb s x); lia. Qed.

Lemma index_of_inj l s s' : s ∈ l -> s' ∈ l -> index_of s l = index_of s' l -> s = s'.
Proof.
  induction l as [|x l IH]; intros Hs Hs'; [by apply elem_of_nil in Hs|]. cbn.
  pose proof (index_of_nonneg s l). pose proof (index_of_nonneg s' l).
  destruct (String.eqb_spec s x), (String.eqb_spec s' x); subst; try done; try lia.
  intros He. apply IH; [by apply elem_of_cons in Hs as [|]|by apply elem_of_cons in Hs' as [|]|lia].
Qed.

Definition x86_sample_numbers : X86Numbers.
Proof.
  refine {| x86_num := fun s => index_of s x86_names |}; [apply index_of_inj|].
  assert (Forall (fun row => Forall (fun n => index_of (numbered row.1.1 n) x86_names =
    index_of (numbered row.1.1 row.1.2) x86_names + (n - row.1.2)) (seqZ row.1.2 (row.2 - row.1.2 + 1))) vector_rows) as Hf
    by (apply (bool_decide_unpack _); by vm_compute).
  intros p first last n Hrow Hn. apply (proj1 (Forall_forall _ _) Hf) in Hrow. cbn [fst snd] in Hrow.
  apply (proj1 (Forall_forall _ _) Hrow). apply elem_of_seqZ. lia.
Defined.

(** The handler of an instruction of r12, rsp, rbx and ymm7. *)
Definition x64_sample_names : list string := ["R12D"; "RSP"; "BH"; "YMM7"].
Definition x64_sample_used : list Z := [Register.RSP; Register.RBX; Register.R12; Register.XMM7].
Definition x64_sample_opcode (_ : list Z) (m : x64_machine) : x64_machine :=
  set_r (set_r m Register.R12 (wrap64 (rg m Register.R12 + rg m Register.RBX))) Register.XMM7 (rg m Register.RSP).
Definition x64_sample_machine : x64_machine :=
  mkX64 (fun r => if r =? Register.R12 then 0x10000 else if r =? Register.RSP then 0x1000 else r)
    (store 8 ∅ 0xfff0 0x10c80).

Lemma x64_sample_parsed : @parse_regused x86_sample_numbers
  ((fun s => OReg (@x86_num x86_sample_numbers s)) <$> x64_sample_names) = Ret x64_sample_used.
Proof. by vm_compute. Qed.

Lemma x64_sample_entry : @entry_ok x86_sample true x64_sample_used 0x1000 x64_sample_machine.
Proof.
  constructor; try done.
  - intros f Hf. change (@off _ _ _ (@x86_state x86_sample)) with x86_sample_off.
    assert (∀ s, 0 <= x86_gpr_index s <= 8) as I1 by (intros []; simpl; lia).
    assert (∀ s, 0 <= x86_flag_index s <= 6) as I2 by (intros []; simpl; lia).
    assert (∀ s, 0 <= x86_seg_index s <= 5) as I3 by (intros []; simpl; lia).
    assert (∀ s, 0 <= x86_sw_index s <= 10) as I4 by (intros []; simpl; lia).
    destruct f as [g|n|n| |s|s|s|s|n|n|n|n]; try pose proof (I1 g); try pose proof (I2 s); try pose proof (I3 s);
      try pose proof (I4 s); unfold x86_ok in Hf; bsplit; unfold x86_sample_off; cbn [x86_size] in *; lia.
  - unfold in_state, in_saves. change (rg x64_sample_machine Register.R12) with 0x10000.
    change (rg x64_sample_machine Register.RSP) with 0x1000. intros a Ha. pose proof (stack_size_nonneg (saved true x64_sample_used)). lia.
  - intros r Hr. unfold is_callee_saved_gpr in Hr. apply existsb_exists in Hr as (x & Hx & ->%Z.eqb_eq).
    apply list_elem_of_In in Hx. revert x Hx. apply Forall_forall. apply (bool_decide_unpack _). by vm_compute.
Qed.

Lemma x64_sample_opcode_ok opcode : opcode_ok x64_sample_opcode true x64_sample_used opcode 0x1000 x64_sample_machine.
Proof.
  assert (∀ r, r ∈ x64_sample_used -> swapped x64_sample_used r) as Hs.
  { intros r Hr. split; [done|]. revert r Hr. apply Forall_forall, (bool_decide_unpack _). by vm_compute. }
  unfold x64_sample_opcode. constructor; cbn [set_r rg mem]; try done.
  - intros m r Hr. rewrite !upd_other; [done|intros ->..]; apply Hr, Hs; apply (proj1 (bool_decide_eq_true _)); by vm_compute.
  - intros m m' [Hr Hm]. split; [|exact Hm]. intros r Hin. cbn [set_r rg]. unfold upd.
    rewrite (Hr Register.RSP), (Hr Register.R12), (Hr Register.RBX)
      by (apply Hs; apply (proj1 (bool_decide_eq_true _)); by vm_compute).
    destruct (r =? Register.XMM7); [done|]. destruct (r =? Register.R12); [done|]. by apply Hr.
Qed.

Theorem x64_native_handler_correct_witness :
  ∃ insns, @nativeHandlerX64 x86_sample true x64_sample_used [0xAB] true =
      Ret (String.concat "" (x64_text "$$" <$> insns)) ∧
    @handled x86_sample x64_sample_opcode true x64_sample_used [0xAB] 0x1000 x64_sample_machine
      (x64_run x64_sample_opcode insns x64_sample_machine).
Proof.
  apply (@x64_native_handler_correct x86_sample x86_sample_numbers x64_sample_opcode true true x64_sample_names).
  - apply (bool_decide_unpack _). by vm_compute.
  - cbn. lia.
  - apply x64_sample_parsed.
  - apply x64_sample_entry.
  - apply x64_sample_opcode_ok.
Defined.

Theorem x86_parse_regused_spec_witness : ∃ l,
  @parse_regused x86_sample_numbers ((fun s => OReg (@x86_num x86_sample_numbers s)) <$> x64_sample_names) = Ret l ∧
  StronglySorted Z.lt l ∧ ∀ r, r ∈ l <-> ∃ s, s ∈ x64_sample_names ∧ part_of s r.
Proof.
  apply (@x86_parse_regused_spec x86_sample_numbers). apply (bool_decide_unpack _). by vm_compute.
Defined.

(** The text of the smallest handler. *)
Example x64_text_sample : @nativeHandlerX64 x86_sample false [Register.RBX] [0x0f; 0xa2] false = Ret (String.concat nl
  ["push %rbx"; "mov 0xc10(%r12), %rbx"; ".byte 0xf"; ".byte 0xa2"; "mov %rbx, 0xc10(%r12)"; "pop %rbx";
   "mov %r12, %rax"; "mov -0x10(%rax), %rcx"; "mov (%rcx), %rdx"; "add $0x2, %rdx"; "mov %rdx, (%rcx)";
   "mov %rax, %rdi"; "mov %rdx, %rsi"; "add $8, %r13"; "mov %r13, %rdx"; "mov 0x0(%r13), %r10"; "shl $5, %r10";
   "shr $5, %r10"; "jmp *%r10"; ""]).
Proof. by vm_compute. Qed.

(** The vector registers from XMM16 on are neither brought from the state nor
    taken back: an instruction that names one too gets the handler it gets
    without. *)
Theorem wide_vectors_ignored `{X86Layout} windows r regused opcode : Register.XMM16 <= r <= Register.XMM31 ->
  handler_insns windows (reg_insert r regused) opcode = handler_insns windows regused opcode.
Proof.
  intros Hr. assert (is_xmm r = false) as Hx.
  { unfold is_xmm. apply andb_false_iff. right. apply Z.leb_gt. change Register.XMM16 with (Register.XMM15 + 1) in Hr. lia. }
  assert (is_gpr64 r = false) as Hg.
  { destruct (is_gpr64 r) eqn:Hg; [|done]. exfalso. revert r Hg Hr Hx.
    apply (gpr_cases (fun r => Register.XMM16 <= r <= Register.XMM31 -> is_xmm r = false -> False)).
    repeat (apply Forall_cons; split; [intros [Hlo _]; by vm_compute in Hlo|]). by constructor. }
  assert (is_callee_saved_gpr windows r = false) as Hcg.
  { destruct (is_callee_saved_gpr windows r) eqn:E; [|done]. apply callee_gpr_facts in E as [E _]. congruence. }
  assert (is_callee_saved_xmm windows r = false) as Hcx.
  { destruct (is_callee_saved_xmm windows r) eqn:E; [|done]. apply callee_xmm_facts in E as [E _]. congruence. }
  assert (∀ x, is_gpr64 x = true -> bool_decide (x ∈ reg_insert r regused) = bool_decide (x ∈ regused)) as Hin.
  { intros x Hgx. apply bool_decide_ext. rewrite reg_insert_elem. split; [intros [->|]; [congruence|done]|by right]. }
  assert (∀ cands, Forall (fun x => is_gpr64 x = true) cands ->
    candidate (reg_insert r regused) cands = candidate regused cands) as Hcand.
  { intros cands. induction 1 as [|x cands Hx' _ IH]; [done|]. cbn [candidate]. by rewrite Hin, IH. }
  assert (cpu_and_rsp windows (reg_insert r regused) = cpu_and_rsp windows regused) as Hcs.
  { unfold cpu_and_rsp. rewrite !Hin by done.
    assert (Forall (fun x => is_gpr64 x = true) (kCpuCandidates windows)) as Hk
      by (destruct windows; apply (bool_decide_unpack _); by vm_compute).
    rewrite Hcand by done.
    destruct (bool_decide (Register.R12 ∈ regused)); cbn [mbind exec_bind fst snd]; [|by rewrite Hcand].
    destruct (candidate regused _) as [[c cands]| |] eqn:Ec; cbn [mbind exec_bind fst snd]; [|done..].
    rewrite Hcand; [done|]. clear -Hk Ec. revert Ec. induction Hk as [|x l Hx Hk IH]; [done|]. cbn [candidate].
    case_bool_decide; [done|]. intros [= _ <-]. done. }
  unfold handler_insns. rewrite Hcs. destruct (cpu_and_rsp windows regused) as [[c s]| |]; cbn [mbind exec_bind]; [|done..].
  rewrite !(mapE_Ret (load_guest c) (load1 c)) by apply x64_load_guest_ret. cbn [mbind exec_bind].
  rewrite !(mapE_Ret (save_guest c) (store1 c)) by apply x64_save_guest_ret. cbn [mbind exec_bind].
  rewrite !(join_reg_insert _ r) by (unfold push_gpr, push_xmm, load1, store1; by rewrite ?Hcg, ?Hcx, ?Hg, ?Hx).
  by rewrite !(join_reverse_insert _ r) by (unfold pop_gpr, pop_xmm; by rewrite ?Hcg, ?Hcx).
Qed.
