(* ===== verification/CodePages.v ===== *)
(** The pages that hold dynamic handlers: the end of [initDynamic] in
    src/OpcodeEngine.cpp, which places the code of a handler behind the others
    of the current page, with the page writable meanwhile; and the threads that
    run handlers of these pages while others add more, under the mutex of their
    engine or, prefetching, under none. *)
From Stdlib Require Import ZArith Lia List.
From stdpp Require Import base list gmap.
From S2P Require Import Prelude.
#[local] Open Scope Z_scope.

(** * Pages *)

(** What [page_commit] allows. *)
Record prot := mkProt { p_read : bool; p_write : bool; p_exec : bool }.
#[export] Instance prot_eq_dec : EqDecision prot.
Proof. solve_decision. Defined.
Definition rw : prot := mkProt true true false.
Definition rx : prot := mkProt true false true.

(** [dynhandlers], [pagestart] and [pagecur], 0 for null, with the memory of
    the process and the protection of its pages, by their start. *)
Record code_state := mkCode {
  dynhandlers : list Z; pagestart : Z; pagecur : Z;
  code_mem : bytes; code_prot : gmap Z prot
}.

Definition code_init (m : bytes) : code_state := mkCode [] 0 0 m ∅.

(** What the operating system answers during one placement: the page it gives
    when asked for one, 0 when it has none, and whether it changes the
    protections as asked. *)
Record os_answer := mkOs { os_page : Z; os_rw : bool; os_rx : bool }.

Section Place.
(** [page_size()]. *)
Variable pagesz : Z.

Definition page_commit (granted : bool) (page : Z) (p : prot) (s : code_state) : code_state :=
  if granted
  then mkCode (dynhandlers s) (pagestart s) (pagecur s) (code_mem s) (<[page := p]> (code_prot s))
  else s.

(** A page with room for [binsz] bytes. *)
Definition room (page binsz : Z) (s : code_state) : code_state :=
  if (pagestart s =? 0) || (pagestart s + pagesz - pagecur s <? binsz)
  then mkCode (dynhandlers s ++ [page]) page page (code_mem s) (code_prot s)
  else s.

(** The page is writable from here ... *)
Definition place_begin (os : os_answer) (bin : list Z) (s : code_state) : code_state :=
  let s := room (os_page os) (Z.of_nat (length bin)) s in
  page_commit (os_rw os) (pagestart s) rw s.

(** ... to here. Writing to a page that is not is a fault. *)
Definition place_end (os : os_answer) (bin : list Z) (s : code_state) : exec (Z * code_state) :=
  match bin, p_write <$> code_prot s !! pagestart s with
  | _ :: _, (None | Some false) => Undef
  | _, _ =>
      let s' := mkCode (dynhandlers s) (pagestart s) (pagecur s + Z.of_nat (length bin))
                  (store_bytes (code_mem s) (pagecur s) bin) (code_prot s) in
      Ret (pagecur s, page_commit (os_rx os) (pagestart s') rx s')
  end.

Definition place (os : os_answer) (bin : list Z) (s : code_state) : exec (Z * code_state) :=
  place_end os bin (place_begin os bin s).

(** [~OpcodeEngine] of the engine itself. *)
Definition free_code (s : code_state) : code_state :=
  mkCode [] 0 0 (code_mem s) (foldr delete (code_prot s) (dynhandlers s)).

(** * Threads *)

(** A handler that was made: where it is, and its code. *)
Abbreviation handler := (Z * list Z)%type.

(** What a thread is about to place, and whether it holds its engine's mutex:
    [emulate] takes it ([OpcodeHandler::init]), [prefetch] does not. *)
Record placing := mkPlacing { locked : bool; p_os : os_answer; p_bin : list Z }.

(** The threads that execute a handler, by its address, and those that place
    one. The pages are the process's, whichever engine a thread runs. *)
Record threads := mkThreads {
  code : code_state; made : list handler; running : gmap nat Z; placers : gmap nat placing
}.

Definition on_page (page a : Z) : Prop := page <= a < page + pagesz.

(** A page the operating system gives lies in the address space, away from the
    ones it gave before. *)
Definition fresh_page (page : Z) (s : code_state) : Prop :=
  0 < page ∧ page + pagesz <= 2 ^ 64 ∧
  Forall (fun p => page + pagesz <= p \/ p + pagesz <= page) (dynhandlers s).

(** The engine of a thread. *)
Variable engine_of : nat -> nat.
Definition mutex_free (engine : nat) (st : threads) : Prop :=
  ∀ t p, placers st !! t = Some p -> locked p = true -> engine_of t <> engine.

(** A thread enters and leaves handlers, and makes one. *)
Inductive t_step : threads -> threads -> Prop :=
| enter t h st : h ∈ made st -> running st !! t = None -> placers st !! t = None ->
    t_step st (mkThreads (code st) (made st) (<[t := h.1]> (running st)) (placers st))
| leave t st : t_step st (mkThreads (code st) (made st) (delete t (running st)) (placers st))
| begin t b page bin st : (b = true -> mutex_free (engine_of t) st) ->
    running st !! t = None -> placers st !! t = None -> bin <> [] ->
    Z.of_nat (length bin) <= pagesz -> Forall u8 bin -> fresh_page page (code st) ->
    t_step st (mkThreads (place_begin (mkOs page true true) bin (code st)) (made st) (running st)
                 (<[t := mkPlacing b (mkOs page true true) bin]> (placers st)))
| finish t p impl s st : placers st !! t = Some p -> place_end (p_os p) (p_bin p) (code st) = Ret (impl, s) ->
    t_step st (mkThreads s (made st ++ [(impl, p_bin p)]) (running st) (delete t (placers st))).

Inductive t_reachable (ok : threads -> Prop) (m : bytes) : threads -> Prop :=
| t_start : t_reachable ok m (mkThreads (code_init m) [] ∅ ∅)
| t_next st st' : t_reachable ok m st -> t_step st st' -> ok st' -> t_reachable ok m st'.

(** No two threads place a handler at a time. *)
Definition one_placer (st : threads) : Prop :=
  ∀ t t', is_Some (placers st !! t) -> is_Some (placers st !! t') -> t = t'.
(** All that place a handler hold their mutex: nobody prefetches. *)
Definition all_locked (st : threads) : Prop := ∀ t p, placers st !! t = Some p -> locked p = true.

(** A thread executes from a page that cannot be executed. *)
Definition faults (st : threads) : Prop :=
  ∃ t a page, running st !! t = Some a ∧ page ∈ dynhandlers (code st) ∧ on_page page a ∧
    (p_exec <$> code_prot (code st) !! page) <> Some true.

(** * The invariant *)

(** A handler lies in a page, below what is free of the current one, as it was
    placed. *)
Definition handler_ok (s : code_state) (h : handler) : Prop :=
  (∃ page, page ∈ dynhandlers s ∧ page <= h.1 ∧ h.1 + Z.of_nat (length h.2) <= page + pagesz ∧
     (page = pagestart s -> h.1 + Z.of_nat (length h.2) <= pagecur s)) ∧
  h.2 <> [] ∧ load_bytes (code_mem s) h.1 (length h.2) = h.2.

Definition apart (h h' : handler) : Prop :=
  h.1 + Z.of_nat (length h.2) <= h'.1 \/ h'.1 + Z.of_nat (length h'.2) <= h.1.

(** The pages do not overlap; the current one is the last. *)
Record pages_ok (s : code_state) : Prop := {
  pages_placed : Forall (fun p => 0 < p ∧ p + pagesz <= 2 ^ 64) (dynhandlers s);
  pages_apart i j p q : dynhandlers s !! i = Some p -> dynhandlers s !! j = Some q -> i <> j ->
    p + pagesz <= q \/ q + pagesz <= p;
  page_current : (dynhandlers s = [] ∧ pagestart s = 0) \/
    (last (dynhandlers s) = Some (pagestart s) ∧ pagestart s <= pagecur s <= pagestart s + pagesz)
}.

(** Every page can be executed, but for one. *)
Definition prot_but (page : option Z) (s : code_state) : Prop :=
  ∀ p, p ∈ dynhandlers s -> Some p <> page -> code_prot s !! p = Some rx.

Definition handlers_ok (s : code_state) (hs : list handler) : Prop :=
  Forall (handler_ok s) hs ∧ ∀ i j h h', hs !! i = Some h -> hs !! j = Some h' -> i <> j -> apart h h'.

Record t_inv (st : threads) : Prop := {
  inv_pages : pages_ok (code st);
  inv_handlers : handlers_ok (code st) (made st);
  inv_running t a : running st !! t = Some a -> a ∈ (made st).*1;
  inv_prot : prot_but (if decide (placers st = ∅) then None else Some (pagestart (code st))) (code st);
  inv_placer t p : placers st !! t = Some p ->
    p_bin p <> [] ∧ Forall u8 (p_bin p) ∧ os_rx (p_os p) = true ∧ running st !! t = None ∧
    dynhandlers (code st) <> [] ∧ code_prot (code st) !! pagestart (code st) = Some rw ∧
    pagecur (code st) + Z.of_nat (length (p_bin p)) <= pagestart (code st) + pagesz
}.
End Place.

(** * Lemmas *)

Section Lemmas.
Variable pagesz : Z.
Abbreviation room := (room pagesz).
Abbreviation pages_ok := (pages_ok pagesz).
Abbreviation handler_ok := (handler_ok pagesz).
Abbreviation handlers_ok := (handlers_ok pagesz).

Lemma current_page s : pages_ok s -> dynhandlers s <> [] ->
  pagestart s ∈ dynhandlers s ∧ 0 < pagestart s ∧ pagestart s <= pagecur s.
Proof.
  intros Hs Hne. destruct (page_current _ _ Hs) as [[He _]|[Hl Hc]]; [done|].
  assert (pagestart s ∈ dynhandlers s) as Hin by (apply last_Some in Hl as [l ->]; apply elem_of_app; right; by left).
  split_and!; [done| |lia]. pose proof (proj1 (Forall_forall _ _) (pages_placed _ _ Hs) _ Hin). cbn in *. lia.
Qed.

(** Making room keeps the pages apart and the handlers where they are. *)
Lemma room_pages page n s : pages_ok s -> fresh_page pagesz page s -> 0 < n <= pagesz ->
  pages_ok (room page n s) ∧ dynhandlers (room page n s) <> [] ∧
  pagecur (room page n s) + n <= pagestart (room page n s) + pagesz.
Proof.
  intros Hs (Hp & Hb & Hf) Hn. unfold CodePages.room.
  destruct ((_ =? 0) || _) eqn:E; cbn [dynhandlers pagestart pagecur].
  - split_and!; [|by destruct (dynhandlers s)|lia]. constructor; cbn [dynhandlers pagestart pagecur].
    + apply Forall_app. split; [apply Hs|by apply Forall_singleton].
    + intros i j p q Hi Hj Hij. rewrite Forall_forall in Hf.
      apply lookup_snoc_Some in Hi as [[Hi Hip]|[-> <-]], Hj as [[Hj Hjq]|[-> <-]]; [|..|done].
      * by apply (pages_apart _ _ Hs i j).
      * apply list_elem_of_lookup_2, Hf in Hip. lia.
      * apply list_elem_of_lookup_2, Hf in Hjq. lia.
    + right. split; [by rewrite last_snoc|lia].
  - bsplit. split_and!; [done| |lia]. destruct (page_current _ _ Hs) as [[_ ?]|[Hl _]]; [done|].
    by intros Hnil; rewrite Hnil in Hl.
Qed.

Lemma room_handler page n s h : fresh_page pagesz page s -> handler_ok s h -> handler_ok (room page n s) h.
Proof.
  intros (_ & _ & Hf) ((q & Hq & H1 & H2 & H3) & Hne & Hl). unfold CodePages.room.
  destruct ((_ =? 0) || _); [|by repeat split; try exists q].
  split; [|done]. exists q. cbn [dynhandlers pagestart pagecur]. split; [apply elem_of_app; by left|]. split_and!; [done..|].
  intros ->. apply (proj1 (Forall_forall _ _) Hf) in Hq. destruct h as [a [|]]; [done|]. cbn in *. lia.
Qed.

(** Two handlers on two pages, or on one, one behind the other. *)
Lemma same_or_apart s p q : pages_ok s -> p ∈ dynhandlers s -> q ∈ dynhandlers s ->
  p = q \/ p + pagesz <= q \/ q + pagesz <= p.
Proof.
  intros Hs [i Hi]%list_elem_of_lookup [j Hj]%list_elem_of_lookup.
  destruct (decide (i = j)) as [->|Hij]; [left; congruence|right]. by apply (pages_apart _ _ Hs i j).
Qed.

Definition written (s : code_state) (bin : list Z) (p : gmap Z prot) : code_state :=
  mkCode (dynhandlers s) (pagestart s) (pagecur s + Z.of_nat (length bin)) (store_bytes (code_mem s) (pagecur s) bin) p.

Lemma below_current s h : pages_ok s -> handler_ok s h -> dynhandlers s <> [] ->
  h.1 + Z.of_nat (length h.2) <= pagecur s \/ pagestart s + pagesz <= h.1.
Proof.
  intros Hs ((q & Hq & H1 & H2 & H3) & _) Hne. destruct (current_page _ Hs Hne) as (Hin & Hpos & Hcur).
  destruct (same_or_apart s q (pagestart s) Hs Hq Hin) as [->|[|]]; [left; by apply H3|left; lia|right; lia].
Qed.

Lemma written_handlers s hs bin p : pages_ok s -> handlers_ok s hs -> dynhandlers s <> [] -> bin <> [] ->
  pagecur s + Z.of_nat (length bin) <= pagestart s + pagesz ->
  handlers_ok (written s bin p) (hs ++ [(pagecur s, bin)]).
Proof.
  intros Hs [Hh Ha] Hne Hbin Hroom. destruct (current_page _ Hs Hne) as (Hin & Hpos & Hcur).
  assert (∀ h, h ∈ hs -> apart h (pagecur s, bin)) as Hnew.
  { intros h Hhs. apply (proj1 (Forall_forall _ _) Hh) in Hhs. unfold apart. cbn [fst snd].
    destruct (below_current s h Hs Hhs Hne); lia. }
  split.
  - apply Forall_app. split.
    + apply Forall_forall. intros h Hhs. pose proof (Hnew h Hhs) as Hap.
      apply (proj1 (Forall_forall _ _) Hh) in Hhs as ((q & Hq & H1 & H2 & H3) & Hn & Hl).
      split; [|split; [done|]].
      * exists q. cbn [written dynhandlers pagestart pagecur]. split_and!; [done..|]. intros He. specialize (H3 He). lia.
      * cbn [written code_mem]. rewrite load_store_bytes_disjoint; [done|]. unfold apart in Hap. cbn [fst snd] in Hap. lia.
    + apply Forall_singleton. split; [|split; [done|]].
      * exists (pagestart s). cbn. split_and!; [done|lia..].
      * cbn. apply load_store_bytes.
  - intros i j h h' Hi Hj Hij.
    apply lookup_snoc_Some in Hi as [[Hi Hip]|[-> <-]], Hj as [[Hj Hjq]|[-> <-]]; [|..|done].
    + by apply (Ha i j).
    + apply Hnew. by eapply list_elem_of_lookup_2.
    + apply list_elem_of_lookup_2, Hnew in Hjq. unfold apart in *. tauto.
Qed.
End Lemmas.

(** A placement that the operating system grants. *)
Lemma place_spec pagesz page bin s : pages_ok pagesz s -> fresh_page pagesz page s -> bin <> [] ->
  Z.of_nat (length bin) <= pagesz -> ∃ impl s', place pagesz (mkOs page true true) bin s = Ret (impl, s') ∧
    load_bytes (code_mem s') impl (length bin) = bin ∧ pages_ok pagesz s' ∧
    ∃ p, p ∈ dynhandlers s' ∧ p <= impl ∧ impl + Z.of_nat (length bin) <= p + pagesz ∧ code_prot s' !! p = Some rx.
Proof.
  intros Hs Hf Hbin Hlen. set (n := Z.of_nat (length bin)) in *.
  assert (0 < n) as Hn by (destruct bin; [done|]; subst n; cbn; lia).
  destruct (room_pages pagesz page n s Hs Hf) as (Hp & Hne & Hroom); [lia|].
  destruct (current_page _ _ Hp Hne) as (Hin & Hpos & Hcur).
  unfold place, place_begin, place_end, page_commit. cbn [os_page os_rw os_rx]. fold n.
  cbn [code_prot pagestart pagecur dynhandlers code_mem]. rewrite lookup_insert_eq. destruct bin as [|b bin]; [done|]. cbn [fmap option_fmap option_map p_write rw].
  eexists _, _. split; [reflexivity|]. split_and!.
  - cbn [code_mem pagecur]. apply load_store_bytes.
  - constructor; cbn [dynhandlers pagestart pagecur]; [apply Hp|apply Hp|].
    right. destruct (page_current _ _ Hp) as [[Hnil _]|[Hl _]]; [done|]. split; [done|]. fold n. lia.
  - exists (pagestart (room pagesz page n s)). cbn [dynhandlers pagestart pagecur code_prot].
    split_and!; [done|lia|fold n; lia|]. apply lookup_insert_eq.
Qed.

(** * The invariant, while one thread at a time places a handler *)

Section Threads.
Variable pagesz : Z.
Variable engine_of : nat -> nat.
Abbreviation t_inv := (t_inv pagesz).
Abbreviation t_step := (t_step pagesz engine_of).
Abbreviation t_reachable := (t_reachable pagesz engine_of).

Lemma inv_init m : t_inv (mkThreads (code_init m) [] ∅ ∅).
Proof.
  constructor; cbn.
  - constructor; cbn; [constructor|done|by left].
  - by split; [constructor|].
  - done.
  - intros p Hp. by apply elem_of_nil in Hp.
  - done.
Qed.

Lemma inv_running_steps st st' : t_inv st -> code st' = code st -> made st' = made st -> placers st' = placers st ->
  (∀ t a, running st' !! t = Some a -> a ∈ (made st).*1 ∧ (running st !! t = Some a \/ placers st !! t = None)) ->
  t_inv st'.
Proof.
  intros Hi Hc Hm Hh Hr. constructor; rewrite ?Hc, ?Hm, ?Hh; [apply Hi..| |apply Hi|].
  - intros t a Ht. by apply Hr in Ht as [].
  - intros t p Ho. destruct (inv_placer _ _ Hi t p Ho) as (? & ? & ? & Hn & ?). split_and!; try tauto.
    destruct (running st' !! t) as [a|] eqn:E; [|done]. apply Hr in E as [_ [E|E]]; congruence.
Qed.

(** A thread that begins is alone, and one that is alone leaves nobody. *)
Lemma alone_begin st t p c : placers st !! t = None ->
  one_placer (mkThreads c (made st) (running st) (<[t := p]> (placers st))) -> placers st = ∅.
Proof.
  intros Ht H1. apply map_empty. intros t'. destruct (placers st !! t') as [q|] eqn:E; [|done].
  assert (t = t') as <-; [|congruence]. apply H1; cbn [placers]; [rewrite lookup_insert_eq; by eexists|].
  destruct (decide (t = t')) as [->|]; [rewrite lookup_insert_eq|rewrite lookup_insert_ne, E by done]; by eexists.
Qed.

Lemma alone_finish st t p : placers st !! t = Some p -> one_placer st -> delete t (placers st) = ∅.
Proof.
  intros Ht H1. apply map_empty. intros t'. destruct (decide (t = t')) as [->|Hne]; [by rewrite lookup_delete_eq|].
  rewrite lookup_delete_ne by done. destruct (placers st !! t') as [q|] eqn:E; [|done].
  destruct Hne. apply H1; by eexists.
Qed.

Lemma inv_begin t b page bin st : t_inv st -> placers st = ∅ -> running st !! t = None -> bin <> [] ->
  Z.of_nat (length bin) <= pagesz -> Forall u8 bin -> fresh_page pagesz page (code st) ->
  t_inv (mkThreads (place_begin pagesz (mkOs page true true) bin (code st)) (made st) (running st)
           (<[t := mkPlacing b (mkOs page true true) bin]> (placers st))).
Proof.
  intros Hi Hh Hr Hbin Hlen Hu Hf. set (n := Z.of_nat (length bin)) in *.
  assert (0 < n) as Hpos by (destruct bin; [done|]; subst n; cbn; lia).
  destruct (room_pages pagesz page n (code st) (inv_pages _ _ Hi) Hf) as (Hp & Hne & Hroom); [lia|].
  assert (prot_but (Some (pagestart (room pagesz page n (code st)))) (room pagesz page n (code st))) as Hprot.
  { pose proof (inv_prot _ _ Hi) as Hold. rewrite decide_True in Hold by done. unfold room in *. destruct (_ || _); cbn in *.
    - intros p Hin Hother. apply elem_of_app in Hin as [Hin| ->%list_elem_of_singleton]; [|done]. by apply Hold.
    - intros p Hin _. by apply Hold. }
  unfold place_begin, page_commit. cbn [os_page os_rw]. fold n. constructor; cbn [code made running placers].
  - constructor; cbn; apply Hp.
  - destruct (inv_handlers _ _ Hi) as [Hall Hap]. split; [|done]. apply (Forall_impl _ _ _ Hall).
    intros h Hok. exact (room_handler pagesz page n (code st) h Hf Hok).
  - apply Hi.
  - rewrite decide_False by apply insert_non_empty. intros p Hin Hother. cbn in *.
    rewrite lookup_insert_ne by congruence. by apply Hprot.
  - intros t' q. rewrite Hh, insert_empty. intros [<- <-]%lookup_singleton_Some. cbn. rewrite lookup_insert_eq. by split_and!.
Qed.

Lemma inv_finish t p impl s st : t_inv st -> placers st !! t = Some p -> delete t (placers st) = ∅ ->
  place_end (p_os p) (p_bin p) (code st) = Ret (impl, s) ->
  t_inv (mkThreads s (made st ++ [(impl, p_bin p)]) (running st) (delete t (placers st))).
Proof.
  intros Hi Hh Hnone He. destruct (inv_placer _ _ Hi t p Hh) as (Hbin & Hu & Hrx & Hrun & Hne & Hrw & Hroom).
  destruct p as [lk os bin]. cbn [p_os p_bin] in *. rewrite Hnone.
  pose proof (inv_prot _ _ Hi) as Hprot. rewrite decide_False in Hprot by (intros E; by rewrite E, lookup_empty in Hh).
  unfold place_end in He. rewrite Hrw in He. cbn in He. destruct bin as [|b bin]; [done|]. unfold page_commit in He.
  rewrite Hrx in He. injection He as <- <-.
  destruct (current_page _ _ (inv_pages _ _ Hi) Hne) as (Hin & Hpos & Hcur).
  constructor; cbn [code made running placers].
  - pose proof (inv_pages _ _ Hi) as Hp. constructor; cbn [dynhandlers pagestart pagecur]; try apply Hp.
    right. destruct (page_current _ _ Hp) as [[Hnil _]|[Hl _]]; [done|]. split; [done|].
    cbn [length] in *. clear -Hroom Hcur. lia.
  - by apply (written_handlers pagesz (code st) (made st) (b :: bin) (<[pagestart (code st) := rx]> (code_prot (code st)))); try apply Hi.
  - intros t' a Ha. apply (inv_running _ _ Hi) in Ha. rewrite fmap_app. apply elem_of_app. by left.
  - rewrite decide_True by done. intros q Hq _. cbn in *.
    destruct (decide (q = pagestart (code st))) as [->|Hd]; [by rewrite lookup_insert_eq|].
    rewrite lookup_insert_ne by done. apply Hprot; congruence.
  - intros t' q Hq. by rewrite lookup_empty in Hq.
Qed.

Lemma inv_step st st' : t_inv st -> one_placer st -> t_step st st' -> one_placer st' -> t_inv st'.
Proof.
  intros Hi H1 Hs H2. destruct Hs as [t h st Hm Hr Hh|t st|t b page bin st Hmx Hr Hh|t p impl s st Hh He].
  - apply (inv_running_steps st); try done. cbn. intros t' a Ha. apply lookup_insert_Some in Ha as [[-> <-]|[_ Ha]].
    + split; [by apply list_elem_of_fmap_2|by right].
    + split; [by apply (inv_running _ _ Hi) in Ha|by left].
  - apply (inv_running_steps st); try done. cbn. intros t' a [_ Ha]%lookup_delete_Some.
    split; [by apply (inv_running _ _ Hi) in Ha|by left].
  - apply inv_begin; try done. by eapply alone_begin.
  - apply inv_finish; try done. by eapply alone_finish.
Qed.

Lemma reachable_ok ok m st : ok (mkThreads (code_init m) [] ∅ ∅) -> t_reachable ok m st -> ok st.
Proof. by intros ? []. Qed.

Lemma reachable_inv m st : t_reachable one_placer m st -> t_inv st.
Proof.
  induction 1 as [|st st' Hr IH Hs H1]; [apply inv_init|]. apply (inv_step st); [done| |done..].
  apply (reachable_ok _ m); [|done]. by intros t t' [? [=]].
Qed.

Lemma fault_needs_placer st : t_inv st -> faults pagesz st ->
  ∃ t p, placers st !! t = Some p ∧
    ∃ t' a, t' <> t ∧ running st !! t' = Some a ∧ on_page pagesz (pagestart (code st)) a.
Proof.
  intros Hi (t' & a & page & Hr & Hin & Hon & Hx). pose proof (inv_prot _ _ Hi) as Hprot.
  case_decide as Hnone; [by rewrite (Hprot page Hin) in Hx|].
  destruct (decide (page = pagestart (code st))) as [->|Hd].
  - apply map_choose in Hnone as (t & p & Ht). exists t, p. split; [done|]. exists t', a. split_and!; [|done..]. intros ->.
    destruct (inv_placer _ _ Hi t p Ht) as (_ & _ & _ & Hn & _). congruence.
  - rewrite (Hprot page Hin) in Hx; [done|congruence].
Qed.

(** The mutex sees to it for threads of one engine that do not prefetch. *)
Lemma mutex_one_placer m st : (∀ t t', engine_of t = engine_of t') -> t_reachable all_locked m st ->
  t_reachable one_placer m st.
Proof.
  intros He. induction 1 as [|st st' Hr IH Hs Hl]; [apply t_start|]. apply (t_next _ _ _ _ st); [done..|].
  assert (one_placer st) as H1 by (apply (reachable_ok _ m); [by intros ? ? [? [=]]|done]).
  assert (all_locked st) as Hlock by (apply (reachable_ok _ m); [by intros ? ? [=]|done]).
  destruct Hs as [| |t b page bin st Hmx Hr' Hh|t p impl s st Hh _]; [done..| |].
  - assert (b = true) as ->.
    { specialize (Hl t _ (lookup_insert_eq _ _ _)). done. }
    assert (placers st = ∅) as Hnone.
    { apply map_empty. intros t'. destruct (placers st !! t') as [q|] eqn:E; [|done].
      destruct (Hmx eq_refl t' q E (Hlock _ _ E)). apply He. }
    intros t1 t2 [? E1] [? E2]. cbn [placers] in *. rewrite Hnone, insert_empty in E1, E2.
    apply lookup_singleton_Some in E1 as [<- _], E2 as [<- _]. done.
  - intros t1 t2 [? E1] [? E2]. cbn [placers] in *. apply lookup_delete_Some in E1 as [_ E1], E2 as [_ E2].
    apply H1; by eexists.
Qed.
End Threads.

(** * Properties *)

(** C14: however threads interleave entering handlers and making new ones, as
    long as one thread at a time makes one, the handlers made so far lie in
    pages of the process, do not overlap and hold the code they were made of;
    and a thread can fault in one only while another thread writes to the same
    page. That holds of all threads of one engine that make handlers by
    emulating, since they take its mutex; prefetching takes none, and engines
    share the pages but not the mutex ([unlocked_placement_faults]). *)
Theorem dynamic_handlers_safe pagesz engine_of m st :
  t_reachable pagesz engine_of one_placer m st \/
    ((∀ t t', engine_of t = engine_of t') ∧ t_reachable pagesz engine_of all_locked m st) ->
  handlers_ok pagesz (code st) (made st) ∧
  (faults pagesz st -> ∃ t p, placers st !! t = Some p ∧
    ∃ t' a, t' <> t ∧ running st !! t' = Some a ∧ on_page pagesz (pagestart (code st)) a).
Proof.
  intros Hr. assert (t_reachable pagesz engine_of one_placer m st) as Hi%reachable_inv.
  { destruct Hr as [Hr|[He Hr]]; [done|by apply mutex_one_placer]. }
  split; [apply Hi|]. by apply fault_needs_placer.
Qed.

(** Two threads: the second makes a handler while the first runs one. *)
Definition sample_os : os_answer := mkOs 0x10000 true true.
Definition sample_threads (n : nat) : threads :=
  let s1 := place_begin 4096 sample_os [0x90] (code_init ∅) in
  let s2 := match place_end sample_os [0x90] s1 with Ret (_, s) => s | _ => s1 end in
  let s3 := place_begin 4096 (mkOs 0x20000 true true) [0xc3] s2 in
  match n with
  | 0%nat => mkThreads (code_init ∅) [] ∅ ∅
  | 1%nat => mkThreads s1 [] ∅ {[1%nat := mkPlacing true sample_os [0x90]]}
  | 2%nat => mkThreads s2 [(0x10000, [0x90])] ∅ ∅
  | 3%nat => mkThreads s2 [(0x10000, [0x90])] {[1%nat := 0x10000]} ∅
  | _ => mkThreads s3 [(0x10000, [0x90])] {[1%nat := 0x10000]} {[2%nat := mkPlacing true (mkOs 0x20000 true true) [0xc3]]}
  end.

Lemma sample_reachable : t_reachable 4096 (fun _ => 0%nat) all_locked ∅ (sample_threads 4).
Proof.
  assert (∀ t p, all_locked (mkThreads (code_init ∅) [] ∅ {[t := mkPlacing true p.1 p.2]})) as Hone.
  { intros t p t' q. cbn [placers]. by intros [<- <-]%lookup_singleton_Some. }
  apply (t_next _ _ _ _ (sample_threads 3)).
  2:{ apply (begin 4096 _ 2 true 0x20000 [0xc3] (sample_threads 3)); try done; [by repeat constructor|].
      repeat split; cbn; [lia|]. apply Forall_singleton. lia. }
  2:{ exact (Hone 2%nat (_, _)). }
  apply (t_next _ _ _ _ (sample_threads 2)); [|by apply (enter 4096 _ 1 (0x10000, [0x90]) (sample_threads 2)); [left|..]|done].
  apply (t_next _ _ _ _ (sample_threads 1)); [|by apply (finish 4096 _ 1 (mkPlacing true sample_os [0x90]) 0x10000 _ (sample_threads 1))|done].
  apply (t_next _ _ _ _ (sample_threads 0)); [apply t_start| |exact (Hone 1%nat (_, _))].
  apply (begin 4096 _ 1 true 0x10000 [0x90] (sample_threads 0)); try done; by repeat constructor.
Qed.

Theorem dynamic_handlers_safe_witness :
  handlers_ok 4096 (code (sample_threads 4)) (made (sample_threads 4)).
Proof.
  exact (proj1 (dynamic_handlers_safe 4096 (fun _ => 0%nat) ∅ (sample_threads 4)
    (or_intror (conj (fun _ _ => eq_refl) sample_reachable)))).
Defined.

(** The mutex does not keep threads from running: one of them can be in a
    handler of the very page that is being made writable, and faults. *)
Theorem running_handler_faults : ∃ st, t_reachable 4096 (fun _ => 0%nat) all_locked ∅ st ∧ faults 4096 st.
Proof.
  exists (sample_threads 4). split; [apply sample_reachable|]. exists 1%nat, 0x10000, 0x10000.
  split_and!; [done|by left|unfold on_page; lia|by vm_compute].
Qed.

(** Two placements at a time: the first to finish takes the page's permission to
    be written from the other, which faults. They can be those of a thread that
    prefetches, or of two engines under a mutex each. *)
Definition both (b : bool) : threads :=
  let s1 := place_begin 4096 sample_os [0x90] (code_init ∅) in
  let s2 := place_begin 4096 (mkOs 0x20000 true true) [0xc3] s1 in
  mkThreads s2 [] ∅ (<[2%nat := mkPlacing b (mkOs 0x20000 true true) [0xc3]]> {[1%nat := mkPlacing true sample_os [0x90]]}).
Definition first_done (b : bool) : threads :=
  let s := match place_end sample_os [0x90] (code (both b)) with Ret (_, s) => s | _ => code (both b) end in
  mkThreads s [(0x10000, [0x90])] ∅ (delete 1%nat (placers (both b))).

Lemma both_reachable engine_of ok b : (b = true -> engine_of 1%nat <> engine_of 2%nat) ->
  ok (sample_threads 1) -> ok (both b) -> ok (first_done b) -> t_reachable 4096 engine_of ok ∅ (first_done b).
Proof.
  intros Hb Hok1 Hok2 Hok3. apply (t_next _ _ _ _ (both b)); [| |exact Hok3].
  2:{ apply (finish 4096 _ 1 (mkPlacing true sample_os [0x90]) 0x10000 _ (both b)); by destruct b. }
  apply (t_next _ _ _ _ (sample_threads 1)); [| |exact Hok2].
  2:{ apply (begin 4096 _ 2 b 0x20000 [0xc3] (sample_threads 1)); try done; [|by repeat constructor|].
      - intros Hbt t p Ht _. cbn in Ht. apply lookup_singleton_Some in Ht as [<- <-]. by apply Hb.
      - repeat split; cbn; [lia|]. apply Forall_singleton. lia. }
  apply (t_next _ _ _ _ (sample_threads 0)); [apply t_start| |exact Hok1].
  apply (begin 4096 _ 1 true 0x10000 [0x90] (sample_threads 0)); try done; by repeat constructor.
Qed.

Theorem unlocked_placement_faults : 
  (∀ engine_of, t_reachable 4096 engine_of (fun _ => True) ∅ (first_done false)) ∧
  t_reachable 4096 (fun t => t) all_locked ∅ (first_done true) ∧
  ∀ b, place_end (mkOs 0x20000 true true) [0xc3] (code (first_done b)) = Undef.
Proof.
  split_and!; [intros; by apply both_reachable| |by intros []]. apply both_reachable; [done| | |].
  - intros t p. cbn [placers sample_threads]. by intros [<- <-]%lookup_singleton_Some.
  - intros t p. cbn [placers both]. intros [[<- <-]|[_ [<- <-]%lookup_singleton_Some]]%lookup_insert_Some; done.
  - intros t p. cbn [placers both first_done]. intros [_ [[<- <-]|[_ [<- <-]%lookup_singleton_Some]]%lookup_insert_Some]%lookup_delete_Some; done.
Qed.

(** C33: what a placement makes of the operating system's answers. If the page
    it uses can be written, having been made so now or left so before, the code
    lies there, behind the others of the page, all handlers are as they were,
    and the page ends executable exactly when that was granted: otherwise the
    handler is returned all the same, and its page stays as the write needed it.
    If it cannot be written, the copy faults. *)
Theorem place_outcomes pagesz os bin s hs :
  pages_ok pagesz s -> handlers_ok pagesz s hs -> fresh_page pagesz (os_page os) s ->
  bin <> [] -> Z.of_nat (length bin) <= pagesz ->
  let s1 := room pagesz (os_page os) (Z.of_nat (length bin)) s in
  let page := pagestart s1 in
  let before := if os_rw os then Some rw else code_prot s1 !! page in
  if default false (p_write <$> before)
  then ∃ s', place pagesz os bin s = Ret (pagecur s1, s') ∧
    pages_ok pagesz s' ∧ handlers_ok pagesz s' (hs ++ [(pagecur s1, bin)]) ∧
    code_prot s' !! page = (if os_rx os then Some rx else before) ∧
    ∀ p, p <> page -> code_prot s' !! p = code_prot s !! p
  else place pagesz os bin s = Undef.
Proof.
  intros Hs Hh Hf Hbin Hlen s1 page before. set (n := Z.of_nat (length bin)) in *.
  assert (0 < n) as Hn by (destruct bin; [done|]; subst n; cbn; lia).
  destruct (room_pages pagesz (os_page os) n s Hs Hf) as (Hp & Hne & Hroom); [lia|]. fold s1 in Hp, Hne, Hroom.
  assert (handlers_ok pagesz s1 hs) as Hh1.
  { destruct Hh as [Hall Hap]. split; [|done]. apply (Forall_impl _ _ _ Hall). intros h. by apply room_handler. }
  assert (∀ p, code_prot s1 !! p = code_prot s !! p) as Hprot by (intros p; unfold s1, room; by destruct (_ || _)).
  destruct (current_page _ _ Hp Hne) as (Hin & Hpos & Hcur).
  assert (∀ pr, pages_ok pagesz (written s1 bin pr)) as Hw.
  { intros pr. constructor; cbn [written dynhandlers pagestart pagecur]; [apply Hp|apply Hp|].
    right. destruct (page_current _ _ Hp) as [[Hnil _]|[Hl _]]; [done|]. split; [done|]. fold n. lia. }
  assert (place_begin pagesz os bin s =
    mkCode (dynhandlers s1) page (pagecur s1) (code_mem s1) (if os_rw os then <[page := rw]> (code_prot s1) else code_prot s1))
    as Hbegin by (unfold place_begin, page_commit; fold n; fold s1; fold page; by destruct (os_rw os), s1).
  set (pr := if os_rw os then _ else _) in Hbegin.
  assert (pr !! page = before) as Hpr by (unfold pr, before; destruct (os_rw os); [apply lookup_insert_eq|done]).
  assert (∀ p, p <> page -> pr !! p = code_prot s !! p) as Hother.
  { intros p Hne'. unfold pr. destruct (os_rw os); [rewrite lookup_insert_ne by done|]; apply Hprot. }
  unfold place, place_end. rewrite Hbegin. cbn [pagestart code_prot pagecur dynhandlers code_mem]. rewrite Hpr.
  destruct (p_write <$> before) as [[]|]; cbn [default from_option id]; destruct bin as [|b bin]; try done.
  unfold page_commit. cbn [pagestart code_prot pagecur dynhandlers code_mem].
  exists (written s1 (b :: bin) (if os_rx os then <[page := rx]> pr else pr)). split_and!.
  - by destruct (os_rx os).
  - apply Hw.
  - by apply written_handlers.
  - cbn [written code_prot]. destruct (os_rx os); [apply lookup_insert_eq|done].
  - intros p Hne'. cbn [written code_prot]. rewrite <- Hother by done.
    destruct (os_rx os); [by rewrite lookup_insert_ne|done].
Qed.

(** The second handler of a page that could not be made executable again. *)
Theorem place_outcomes_witness :
  let s := written (room 4096 0x10000 1 (code_init ∅)) [0x90] {[0x10000 := rw]} in
  ∃ s', place 4096 (mkOs 0x20000 false false) [0xc3] s = Ret (0x10001, s') ∧ code_prot s' !! 0x10000 = Some rw.
Proof.
  intros s.
  destruct (place_outcomes 4096 (mkOs 0x20000 false false) [0xc3] s [(0x10000, [0x90])]) as (s' & Hp & _ & _ & Hx & _).
  - constructor; cbn.
    + apply Forall_singleton. lia.
    + intros [|i] [|j] p q Hi Hj Hij; by simplify_eq.
    + right. split; [done|lia].
  - split.
    + apply Forall_singleton. split; [|by split; [|vm_compute]]. exists 0x10000. cbn. split_and!; [left|lia..].
    + intros [|i] [|j] h h' Hi Hj Hij; by simplify_eq.
  - repeat split; cbn; [lia|]. apply Forall_singleton. lia.
  - done.
  - done.
  - exists s'. split; [exact Hp|exact Hx].
Defined.
