(* ===== verification/DynHandler.v ===== *)
(** Dynamic handlers of opcodes remill cannot lift, for the interpreter:
    [OpcodeHandler::init] and [initDynamic] of src/OpcodeEngine.cpp. The text of
    a native handler is taken apart line by line, assembled, and placed in a
    page of CodePages. *)
From Stdlib Require Import ZArith Lia List String Ascii.
From stdpp Require Import base list gmap pretty strings.
From S2P Require Import Prelude Utils Registers StateMem CPUState AArch64 X86 OpcodeCache UtilsAArch64 MCInst Emit.
From S2P Require Import NativeA64 NativeX64 CodePages.
#[local] Open Scope string_scope.
#[local] Open Scope Z_scope.

(** * Numbers in text *)

Abbreviation chars := (list ascii).
Abbreviation chars_of := String.list_ascii_of_string.

Definition is_space (c : ascii) : bool :=
  let n := Z.of_nat (nat_of_ascii c) in (n =? 32) || ((9 <=? n) && (n <=? 13)).

(** The value of a digit in base 16. *)
Definition digit16 (c : ascii) : option Z :=
  let n := Z.of_nat (nat_of_ascii c) in
  if (48 <=? n) && (n <=? 57) then Some (n - 48)
  else if (65 <=? n) && (n <=? 70) then Some (n - 55)
  else if (97 <=? n) && (n <=? 102) then Some (n - 87)
  else None.

Fixpoint skip_spaces (s : chars) : chars :=
  match s with
  | c :: s' => if is_space c then skip_spaces s' else s
  | [] => []
  end.

Fixpoint digits16 (s : chars) (acc : Z) : Z :=
  match s with
  | c :: s' => match digit16 c with Some d => digits16 s' (16 * acc + d) | None => acc end
  | [] => acc
  end.

(** [std::stol(s, nullptr, 16)]: spaces, a sign, "0x" when a digit follows, and
    digits, as many as there are. Without any it throws, and so it does when
    the number does not fit. *)
Definition stol16 (s : chars) : exec Z :=
  let s := skip_spaces s in
  let '(neg, s) := match s with
                   | "-"%char :: s' => (true, s')
                   | "+"%char :: s' => (false, s')
                   | _ => (false, s)
                   end in
  let s := match s with
           | "0"%char :: x :: d :: s' =>
               if (Ascii.eqb x "x" || Ascii.eqb x "X") && bool_decide (is_Some (digit16 d)) then d :: s' else s
           | _ => s
           end in
  match s with
  | c :: _ =>
      match digit16 c with
      | None => Abort
      | Some _ =>
          let v := if neg : bool then - digits16 s 0 else digits16 s 0 in
          if (- 2 ^ 63 <=? v) && (v <? 2 ^ 63) then Ret v else Abort
      end
  | [] => Abort
  end.

(** * [initDynamic] *)

Definition nlc : ascii := ascii_of_nat 10.

Section InitDynamic.
(** What the assembler makes of one line, nothing when it fails; the
    disassembler, with 0 bytes when it fails; the host's convention; the size of
    a page, and where [abort] is. *)
Variable assemble : chars -> list Z.
Variable disassemble : list Z -> mcinst * nat.
Variable windows : bool.
Variables pagesz abort_address : Z.

(** The code of a line: a raw byte, or what the assembler makes of it. *)
Definition newopc (insn : chars) : exec (list Z) :=
  if bool_decide (take 5 insn = chars_of ".byte") then
    if (List.length insn <? 6)%nat then Undef
    else v ← stol16 (drop 6 insn); Ret [wrap8 v]
  else match assemble insn with [] => Abort | code => Ret code end.

(** The loop; nothing stops it at the end of [asmbin]. *)
Definition asmbin_size : nat := 256.
Fixpoint assemble_lines (lines : list chars) (asmbin : list Z) : exec (list Z) :=
  match lines with
  | [] => Ret asmbin
  | [] :: lines' => assemble_lines lines' asmbin
  | insn :: lines' =>
      code ← newopc insn;
      if (List.length (asmbin ++ code) <=? asmbin_size)%nat then assemble_lines lines' (asmbin ++ code)%list
      else Undef
  end.
Definition assembled (asmbody : chars) : exec (list Z) :=
  assemble_lines (string_view_split asmbody nlc) [].

Context `{A64Layout} `{X86Layout} `{LlvmNumbers} `{X86Numbers}.

Definition initMCInst (arm64 : bool) (opcode : Z) (inst : mcinst) (c : mc_cache) : option nat * mc_cache :=
  if arm64 then initMCInstARM64 (wrap32 opcode) inst c else (None, c).

Definition native_text (arm64 : bool) (inst : mcinst) (opcode : list Z) : exec string :=
  if arm64 then nativeHandlerAArch64 (UtilsAArch64.parse_regused (mc_operands inst)) opcode
  else used ← NativeX64.parse_regused (mc_operands inst); nativeHandlerX64 windows used opcode false.

(** [sz] is [sizeof(opcode)]. *)
Definition initDynamic (arm64 : bool) (sz : nat) (os : os_answer) (h : OpcodeHandler) (c : mc_cache)
    (s : code_state) : exec (OpcodeHandler * mc_cache * code_state) :=
  let opcode := le_bytes sz (oh_opcode h) in
  let '(inst, oplen) := disassemble opcode in
  let len := wrap8 (Z.of_nat oplen) in
  match initMCInst arm64 (oh_opcode h) inst c with
  | (Some i, c) =>
      Ret (mkOH (oh_opcode h) len OHT_MCInst (oh_implsize h)
             (oh_args h ++ [(wrap 31 (Z.of_nat i), false)])%list (oh_impl h), c, s)
  | (None, c) =>
      if (oplen =? 0)%nat then Ret (mkOH (oh_opcode h) len OHT_Dynamic 0 (oh_args h) abort_address, c, s)
      else
        asmbody ← native_text arm64 inst (take oplen opcode);
        bin ← assembled (chars_of asmbody);
        '(impl, s) ← place pagesz os bin s;
        Ret (mkOH (oh_opcode h) len OHT_Dynamic (wrap16 (Z.of_nat (List.length bin))) (oh_args h) impl, c, s)
  end.
End InitDynamic.

(** [OpcodeHandler::init]: remill's handler when it has one ([init_remill] is
    [initRemill]: nothing when the opcode is not valid for remill or has no
    semantic function), a dynamic one otherwise. Nothing when not a byte of the
    opcode could be decoded ([decoded]). *)
Definition init {S} (init_remill : OpcodeHandler -> S -> exec (option OpcodeHandler * S))
    (init_dynamic : OpcodeHandler -> S -> exec (OpcodeHandler * S)) (decoded : bool)
    (h : OpcodeHandler) (s : S) : exec (option OpcodeHandler * S) :=
  if decoded then
    '(r, s) ← init_remill h s;
    match r with
    | Some h' => Ret (Some h', s)
    | None => '(h', s) ← init_dynamic h s; Ret (Some h', s)
    end
  else Ret (None, s).

(** * Lines *)

(** A line the assembler gets: not empty, not a raw byte, no line break. *)
Definition plain (l : chars) : Prop := nlc ∉ l ∧ l <> [] ∧ take 5 l <> chars_of ".byte".

Lemma chars_app s s' : chars_of (s ++ s') = (chars_of s ++ chars_of s')%list.
Proof.
  induction s as [|c s IH]; [done|]. change (String c s ++ s')%string with (String c (s ++ s')). cbn. by rewrite IH.
Qed.

Lemma append_assoc s s' s'' : (s ++ s') ++ s'' = s ++ (s' ++ s'').
Proof.
  induction s as [|c s IH]; [done|]. change (String c ((s ++ s') ++ s'') = String c (s ++ s' ++ s'')). by rewrite IH.
Qed.

Lemma concat_cons s l : String.concat "" (s :: l) = (s ++ String.concat "" l)%string.
Proof.
  destruct l; [|done]. cbn. induction s as [|c s IH]; [done|].
  change (String c s ++ "")%string with (String c (s ++ "")). by rewrite <- IH.
Qed.

(** Pieces without the delimiter are determined by their join. *)
Lemma first_piece (d : ascii) (a b x y : chars) : d ∉ a -> d ∉ b -> (a ++ d :: x = b ++ d :: y)%list -> a = b ∧ x = y.
Proof.
  revert b. induction a as [|c a IH]; intros [|c' b] Ha Hb He; simplify_eq/=.
  - done.
  - by destruct Hb; left.
  - by destruct Ha; left.
  - rewrite not_elem_of_cons in Ha, Hb. match goal with H : _ = _ |- _ => apply IH in H as [-> ->]; tauto end.
Qed.

Lemma join_inj (d : ascii) (ps : list chars) : ∀ qs, ps <> [] -> qs <> [] ->
  Forall (fun p => d ∉ p) ps -> Forall (fun p => d ∉ p) qs -> join d ps = join d qs -> ps = qs.
Proof.
  assert (∀ p q qs, d ∉ p -> p = join d (q :: qs) -> qs = [] ∧ p = q) as Hone.
  { intros p q [|q' qs] Hp He; [done|]. destruct Hp. rewrite He. cbn [join]. rewrite elem_of_app. right. by left. }
  induction ps as [|p ps IH]; intros [|q qs] Hp Hq Hdp Hdq He; [done..|].
  apply Forall_cons in Hdp as [Hdp Hdps], Hdq as [Hdq Hdqs].
  destruct ps as [|p' ps].
  - destruct (Hone p q qs Hdp He) as [-> ->]. done.
  - destruct qs as [|q' qs].
    + symmetry in He. destruct (Hone q p (p' :: ps) Hdq He) as [? _]. done.
    + change (join d (p :: p' :: ps)) with (p ++ d :: join d (p' :: ps))%list in He.
      change (join d (q :: q' :: qs)) with (q ++ d :: join d (q' :: qs))%list in He.
      apply first_piece in He as [-> He]; [|done..]. f_equal. by apply IH.
Qed.

Lemma concat_app l l' : String.concat "" (l ++ l') = (String.concat "" l ++ String.concat "" l')%string.
Proof.
  induction l as [|s l IH]; [done|]. change ((s :: l) ++ l')%list with (s :: (l ++ l'))%list.
  by rewrite !concat_cons, IH, append_assoc.
Qed.

(** Splitting takes off the first line. *)
Lemma split_rest (d : ascii) (l rest : chars) : d ∉ l ->
  string_view_split (l ++ d :: rest) d = l :: string_view_split rest d.
Proof.
  intros Hl. pose proof (split_loop_spec d) as Hspec. unfold string_view_split.
  destruct (Hspec (l ++ d :: rest)%list (List.length (l ++ d :: rest)) [] 0%nat) as (ps & -> & Hne & Hj & Hd); [lia|].
  destruct (Hspec rest (List.length rest) [] 0%nat) as (qs & -> & Hneq & Hjq & Hdq); [lia|].
  cbn [app]. rewrite drop_0 in Hj, Hjq. subst rest. clear Hspec.
  apply (join_inj d); [done|done|done|by constructor|].
  rewrite Hj. destruct qs; [done|]. reflexivity.
Qed.

(** * Text without line breaks *)

Definition no_nl (s : string) : Prop := nlc ∉ chars_of s.
Create HintDb text.

Lemma no_nl_app s s' : no_nl s -> no_nl s' -> no_nl (s ++ s').
Proof. unfold no_nl. rewrite chars_app, elem_of_app. tauto. Qed.
Lemma no_nl_decide s : bool_decide (nlc ∈ chars_of s) = false -> no_nl s.
Proof. intros H. by apply bool_decide_eq_false in H. Qed.

Lemma digit_no_nl d : 0 <= d < 16 -> no_nl (hex_digit d).
Proof.
  assert (Forall (fun d => bool_decide (nlc ∈ chars_of (hex_digit d)) = false) (seqZ 0 16)) as Hf
    by (apply (bool_decide_unpack _); by vm_compute).
  intros Hd. apply no_nl_decide, (proj1 (Forall_forall _ _) Hf), elem_of_seqZ. lia.
Qed.

Lemma hex_digits_no_nl fuel : ∀ n acc, no_nl acc -> no_nl (hex_digits fuel n acc).
Proof.
  induction fuel as [|fuel IH]; intros n acc Ha; [done|]. cbn [hex_digits].
  assert (no_nl (hex_digit (n mod 16) ++ acc)) as Hacc
    by (apply no_nl_app; [apply digit_no_nl, Z.mod_pos_bound; lia|done]).
  destruct (n / 16 =? 0); auto.
Qed.

Lemma hex_no_nl n : no_nl (hex n).
Proof. apply no_nl_app; [by apply no_nl_decide|]. apply hex_digits_no_nl. by apply no_nl_decide. Qed.

Lemma no_nl_all s : all_chars (fun c => negb (Ascii.eqb c nlc)) s = true -> no_nl s.
Proof.
  unfold no_nl. induction s as [|c s IH]; [intros _; apply not_elem_of_nil|]. cbn [all_chars String.list_ascii_of_string].
  rewrite andb_true_iff, negb_true_iff, Ascii.eqb_neq. intros [Hc Hs]. apply not_elem_of_cons. auto.
Qed.

Lemma dec_no_nl n : no_nl (dec n).
Proof. by apply no_nl_all, dec_chars. Qed.

Lemma switch_no_nl v (l : list (Z * string)) dflt :
  Forall (fun s => bool_decide (nlc ∈ chars_of s) = false) (dflt :: l.*2) -> no_nl (default dflt (switch v l)).
Proof.
  intros [Hd Hl]%Forall_cons. induction l as [|[k s] l IH]; cbn in *; [by apply no_nl_decide|].
  apply Forall_cons in Hl as [Hs Hl]. destruct (v =? k); [by apply no_nl_decide|auto].
Qed.

Lemma gpr_name_no_nl r : no_nl (gpr_name64 r).
Proof. apply switch_no_nl. apply (bool_decide_unpack _). by vm_compute. Qed.
Lemma xmm_name_no_nl r : no_nl (xmm_name r).
Proof. apply no_nl_app; [by apply no_nl_decide|apply dec_no_nl]. Qed.
Lemma offset_no_nl o : no_nl (offset_text o).
Proof.
  unfold offset_text. destruct o as [o|]; [destruct (o <? 0)|]; try (apply no_nl_app; [|apply hex_no_nl]);
    by apply no_nl_decide.
Qed.
Lemma disp_no_nl o : no_nl (disp_text o).
Proof.
  unfold disp_text. destruct o as [o|]; [destruct (o <? 0)|]; [|apply hex_no_nl|by apply no_nl_decide].
  apply no_nl_app; [by apply no_nl_decide|apply hex_no_nl].
Qed.
#[export] Hint Resolve no_nl_app hex_no_nl dec_no_nl gpr_name_no_nl xmm_name_no_nl offset_no_nl disp_no_nl : text.
#[export] Hint Extern 5 (no_nl _) => (apply no_nl_decide; reflexivity) : text.

(** What an instruction is, as text: a line with its end. *)
Definition one_line (text : string) : Prop := ∃ l, plain l ∧ chars_of text = (l ++ [nlc])%list.

Definition ends (s : string) : Prop := ∃ l, nlc ∉ l ∧ chars_of s = (l ++ [nlc])%list.
Definition starts_plain (s : string) : bool :=
  match s with String c _ => negb (Ascii.eqb c ".") && negb (Ascii.eqb c nlc) | EmptyString => false end.

Lemma ends_nl : ends nl.
Proof. exists []. split; [apply not_elem_of_nil|done]. Qed.
Lemma ends_app s s' : no_nl s -> ends s' -> ends (s ++ s').
Proof.
  intros Hs (l & Hl & He). exists (chars_of s ++ l)%list. rewrite chars_app, He, app_assoc.
  split; [|done]. rewrite elem_of_app. unfold no_nl in Hs. tauto.
Qed.
#[export] Hint Resolve ends_nl ends_app : text.

Lemma plain_start s l rest : starts_plain s = true -> chars_of s = (l ++ rest)%list -> nlc ∉ l ->
  rest = [] \/ rest = [nlc] -> plain l.
Proof.
  intros Hs He Hl Hrest. split; [done|]. destruct s as [|c s]; [done|]. cbn in Hs, He.
  destruct (Ascii.eqb_spec c "."), (Ascii.eqb_spec c nlc); try done. destruct l as [|c' l].
  - destruct Hrest as [-> | ->]; simplify_eq/=.
  - injection He as <- He. split; [done|]. intros Hb. cbn in Hb. by injection Hb.
Qed.

Lemma one_line_of s : starts_plain s = true -> ends s -> one_line s.
Proof. intros Hs (l & Hl & He). exists l. split; [|done]. apply (plain_start s l [nlc]); auto. Qed.

Definition is_opcode (i : a64_insn) : bool := match i with NativeA64.OPCODE _ => true | _ => false end.

Lemma a64_one_line i : is_opcode i = false -> (∀ n, i <> BR n) -> one_line (a64_text i).
Proof.
  intros Ho Hb. destruct i; try done; try (by destruct (Hb n));
    (apply one_line_of; [reflexivity|unfold a64_text; eauto 12 with text]).
Qed.

Lemma br_plain n : plain (chars_of (a64_text (BR n))).
Proof.
  apply (plain_start (a64_text (BR n)) _ []); [done|by rewrite app_nil_r| |by left].
  change (no_nl ("br x" ++ dec n)). auto with text.
Qed.

Definition is_opcode_x64 (i : x64_insn) : bool := match i with OPCODE _ => true | _ => false end.

Lemma x64_one_line i : is_opcode_x64 i = false -> one_line (x64_text "$" i).
Proof.
  intros Ho. destruct i; try done; (apply one_line_of; [reflexivity|unfold x64_text; eauto 12 with text]).
Qed.

(** * Assembling a text is assembling its instructions *)

Section Assemble.
Variable assemble : chars -> list Z.
Abbreviation newopc := (newopc assemble).
Abbreviation assemble_lines := (assemble_lines assemble).

Lemma byte_line b : u8 b ->
  newopc (chars_of (".byte " ++ hex b)) = Ret [b] ∧ no_nl (".byte " ++ hex b) ∧ chars_of (".byte " ++ hex b) <> [].
Proof.
  intros Hb. split_and!; [|apply no_nl_app; auto with text|done].
  unfold DynHandler.newopc. rewrite chars_app. rewrite bool_decide_true by done.
  assert (Forall (fun b => stol16 (chars_of (hex b)) = Ret b) (seqZ 0 256)) as Hf
    by (repeat (apply Forall_cons; split; [by vm_compute|]); apply Forall_nil; done).
  replace (List.length _ <? 6)%nat with false by done. replace (drop 6 _) with (chars_of (hex b)) by done.
  rewrite (proj1 (Forall_forall _ _) Hf b) by (apply elem_of_seqZ; unfold fits in Hb; lia).
  cbn. by rewrite wrap_small.
Qed.

Lemma plain_line l acc rest : plain l -> assemble l <> [] -> (List.length (acc ++ assemble l) <= asmbin_size)%nat ->
  assemble_lines (l :: rest) acc = assemble_lines rest (acc ++ assemble l)%list.
Proof.
  intros (_ & Hne & Hb) Ha Hlen. destruct l as [|c l]; [done|]. cbn [DynHandler.assemble_lines].
  unfold DynHandler.newopc. rewrite bool_decide_false by done. destruct (assemble (c :: l)) as [|b code]; [done|].
  cbn. by rewrite (proj2 (Nat.leb_le _ _) Hlen).
Qed.

Lemma raw_line b acc rest : u8 b -> (List.length (acc ++ [b]) <= asmbin_size)%nat ->
  assemble_lines (chars_of (".byte " ++ hex b) :: rest) acc = assemble_lines rest (acc ++ [b])%list.
Proof.
  intros Hb Hlen. destruct (byte_line b Hb) as (Hn & _ & Hne). destruct (chars_of _) as [|c l] eqn:E; [done|].
  cbn [DynHandler.assemble_lines]. rewrite Hn. cbn. by rewrite (proj2 (Nat.leb_le _ _) Hlen).
Qed.

Lemma raw_lines op rest : ∀ acc, Forall u8 op -> (List.length (acc ++ op) <= asmbin_size)%nat ->
  assemble_lines (string_view_split (chars_of (emit_opcode op) ++ rest) nlc) acc =
  assemble_lines (string_view_split rest nlc) (acc ++ op)%list.
Proof.
  unfold emit_opcode. induction op as [|b op IH]; intros acc Hu Hlen; [by rewrite app_nil_r|].
  apply Forall_cons in Hu as [Hb Hu]. rewrite fmap_cons, concat_cons, chars_app, <- app_assoc.
  rewrite <- append_assoc, chars_app, <- app_assoc. change (chars_of nl) with [nlc]. cbn [app].
  destruct (byte_line b Hb) as (_ & Hn & _). rewrite split_rest by exact Hn.
  replace (acc ++ b :: op)%list with ((acc ++ [b]) ++ op)%list in * by (by rewrite <- app_assoc).
  rewrite raw_line; [|done|rewrite !length_app in *; lia]. by apply IH.
Qed.

(** A kind of instruction: its text, and its bytes when it is written as raw
    bytes. [encode] is the code of one. *)
Context {I : Type}.
Variables (text : I -> string) (raw : I -> option (list Z)).
Definition line (s : string) : chars := hd [] (string_view_split (chars_of s) nlc).
Definition encode (i : I) : list Z :=
  match raw i with Some op => op | None => assemble (line (text i)) end.

Definition insn_ok (i : I) : Prop :=
  match raw i with
  | Some op => text i = emit_opcode op ∧ Forall u8 op
  | None => one_line (text i) ∧ encode i <> []
  end.

Lemma line_plain s l : plain l -> chars_of s = (l ++ [nlc])%list \/ chars_of s = l -> line s = l.
Proof.
  intros (Hn & _) [He|He]; unfold line; rewrite He; [by rewrite split_rest|].
  pose proof (split_loop_spec nlc l (List.length l) [] 0%nat) as (ps & Hs & Hne & Hj & Hd); [lia|].
  unfold string_view_split. rewrite Hs. cbn [app]. rewrite drop_0 in Hj.
  rewrite (join_inj nlc ps [l]); [done|done|done|done|by apply Forall_singleton|done].
Qed.

Lemma assemble_insn i rest acc : insn_ok i -> (List.length (acc ++ encode i) <= asmbin_size)%nat ->
  assemble_lines (string_view_split (chars_of (text i) ++ rest) nlc) acc =
  assemble_lines (string_view_split rest nlc) (acc ++ encode i)%list.
Proof.
  unfold insn_ok, encode. destruct (raw i) as [op|].
  - intros [-> Hu] Hlen. by apply raw_lines.
  - intros [(l & Hl & He) Hne] Hlen. rewrite (line_plain (text i) l Hl (or_introl He)) in *.
    rewrite He, <- app_assoc. cbn [app]. rewrite split_rest by apply Hl. by apply plain_line.
Qed.

Lemma assemble_insns insns rest : ∀ acc, Forall insn_ok insns ->
  (List.length (acc ++ mjoin (encode <$> insns)) <= asmbin_size)%nat ->
  assemble_lines (string_view_split (chars_of (String.concat "" (text <$> insns)) ++ rest) nlc) acc =
  assemble_lines (string_view_split rest nlc) (acc ++ mjoin (encode <$> insns))%list.
Proof.
  induction insns as [|i insns IH]; intros acc Hok Hlen; [by rewrite app_nil_r|].
  apply Forall_cons in Hok as [Hi Hok]. rewrite fmap_cons, concat_cons, chars_app, <- app_assoc.
  rewrite fmap_cons in *. cbn [mjoin list_join] in *. rewrite app_assoc in Hlen.
  rewrite assemble_insn; [rewrite IH; [by rewrite <- app_assoc|done|done]|done|]. rewrite length_app in Hlen. lia.
Qed.
(** The last line needs no line break. *)
Lemma assemble_last i acc : plain (chars_of (text i)) -> raw i = None -> encode i <> [] ->
  (List.length (acc ++ encode i) <= asmbin_size)%nat ->
  assemble_lines (string_view_split (chars_of (text i)) nlc) acc = Ret (acc ++ encode i)%list.
Proof.
  unfold encode. intros Hp -> Hne Hlen. rewrite (line_plain _ _ Hp (or_intror eq_refl)) in *.
  pose proof (line_plain _ _ Hp (or_intror eq_refl)) as Hl. unfold line in Hl.
  pose proof (split_loop_spec nlc (chars_of (text i)) (List.length (chars_of (text i))) [] 0%nat) as (ps & Hs & Hn & Hj & Hd); [lia|].
  unfold string_view_split in *. rewrite Hs in *. cbn [app] in *. rewrite drop_0 in Hj.
  rewrite (join_inj nlc ps [chars_of (text i)]); [|done|done|done|apply Forall_singleton, Hp|done].
  by rewrite plain_line.
Qed.
End Assemble.

(** * Native handlers of aarch64 *)

Section A64.
Context `{A64Layout}.
Variable assemble : chars -> list Z.

Definition raw_a64 (i : a64_insn) : option (list Z) :=
  match i with NativeA64.OPCODE op => Some op | _ => None end.
Definition encode_a64 : a64_insn -> list Z := encode assemble a64_text raw_a64.

(** An instruction of the code around the opcode. *)
Definition around (i : a64_insn) : Prop := is_opcode i = false ∧ ∀ n, i <> BR n.

Definition short_code (l : list a64_insn) : Prop := Forall around l ∧ (List.length l <= 1)%nat.

Lemma short_nil : short_code [].
Proof. split; [constructor|cbn; lia]. Qed.
Lemma short_one i : around i -> short_code [i].
Proof. split; [by apply Forall_singleton|done]. Qed.
Lemma short_mjoin {B} (f : B -> list a64_insn) l : (∀ x, short_code (f x)) ->
  Forall around (mjoin (f <$> l)) ∧ (List.length (mjoin (f <$> l)) <= List.length l)%nat.
Proof.
  intros Hf. induction l as [|x l [IH1 IH2]]; [by split|]. destruct (Hf x) as [H1 H2]. change (mjoin (f <$> x :: l)) with (f x ++ mjoin (f <$> l))%list.
  split; [by apply Forall_app|]. rewrite length_app. cbn [List.length]. lia.
Qed.

Ltac short_cases :=
  intros; repeat match goal with |- short_code (if ?b then _ else _) => destruct b end;
  first [apply short_nil | by apply short_one].

Lemma save_host_short r : short_code (NativeA64.save_host r).
Proof. unfold NativeA64.save_host. short_cases. Qed.
Lemma restore_host_short r : short_code (NativeA64.restore_host r).
Proof. unfold NativeA64.restore_host. short_cases. Qed.
Lemma load1_short c r : short_code (NativeA64.load1 c r).
Proof. unfold NativeA64.load1. short_cases. Qed.
Lemma store1_short c r : short_code (NativeA64.store1 c r).
Proof. unfold NativeA64.store1. short_cases. Qed.
Lemma mov_short (b : bool) d n : short_code (if b then [] else [NativeA64.MOV d n]).
Proof. short_cases. Qed.

(** The opcode is in the middle, the jump at the end, and the code between
    grows by at most four instructions for a register. *)
Lemma handler_shape regs opcode : ∃ front back,
  NativeA64.handler_insns regs opcode = Ret (front ++ NativeA64.OPCODE opcode :: back ++ [BR 16])%list ∧
  Forall around (front ++ back) ∧ (List.length (front ++ back) <= 4 * List.length regs + 12)%nat.
Proof.
  rewrite NativeA64.handler_insns_ret. set (c := NativeA64.cpu_register regs).
  destruct (short_mjoin NativeA64.save_host regs save_host_short) as [F1 L1].
  destruct (short_mjoin (NativeA64.load1 c) regs (load1_short c)) as [F2 L2].
  destruct (short_mjoin (NativeA64.store1 c) regs (store1_short c)) as [F3 L3].
  destruct (short_mjoin NativeA64.restore_host (reverse regs) restore_host_short) as [F4 L4].
  rewrite length_reverse in L4.
  destruct (mov_short (c =? 26) c 26) as [F5 L5], (mov_short (c =? 26) 26 c) as [F6 L6].
  set (saves := mjoin (NativeA64.save_host <$> regs)) in *. set (loads := mjoin (NativeA64.load1 c <$> regs)) in *.
  set (stores := mjoin (NativeA64.store1 c <$> regs)) in *.
  set (restores := mjoin (NativeA64.restore_host <$> reverse regs)) in *.
  set (to := if c =? 26 then [] else [NativeA64.MOV c 26]) in *. set (back := if c =? 26 then [] else [NativeA64.MOV 26 c]) in *.
  clearbody saves loads stores restores to back.
  exists (saves ++ to ++ loads)%list, (stores ++ back ++ restores ++ removelast NativeA64.a64_advance)%list. split; [|split].
  - by rewrite <- !app_assoc.
  - rewrite !Forall_app. split_and!; try done. cbn. repeat (apply Forall_cons; split; [done|]). by apply Forall_nil.
  - rewrite !length_app. cbn [removelast NativeA64.a64_advance List.length]. lia.
Qed.
(** The assembler knows the instructions of a handler: each is a word. *)
Definition assembles (insns : list a64_insn) : Prop :=
  Forall (fun i => List.length (encode_a64 i) = 4%nat) insns.

Lemma code_length insns : assembles insns -> List.length (mjoin (encode_a64 <$> insns)) = (4 * List.length insns)%nat.
Proof.
  induction 1 as [|i insns Hi _ IH]; [done|].
  change (mjoin (encode_a64 <$> i :: insns)) with (encode_a64 i ++ mjoin (encode_a64 <$> insns))%list.
  rewrite length_app, Hi, IH. cbn [List.length]. lia.
Qed.

Lemma arounds_ok l : Forall around l -> assembles l -> Forall (insn_ok assemble a64_text raw_a64) l.
Proof.
  intros Ha Hl. apply Forall_forall. intros i Hi. apply (proj1 (Forall_forall _ _) Ha) in Hi as Ho.
  apply (proj1 (Forall_forall _ _) Hl) in Hi. destruct Ho as [Ho Hb]. unfold insn_ok, encode_a64 in *.
  destruct (raw_a64 i) eqn:E; [by destruct i|]. split; [by apply a64_one_line|]. by intros Hn; rewrite Hn in Hi.
Qed.

(** The text of a handler assembles to the code of its instructions, the opcode
    among them as it is, and fits the buffer. *)
Lemma native_a64_assembled regs opcode insns : NativeA64.handler_insns regs opcode = Ret insns ->
  Forall u8 opcode -> (List.length regs <= 12)%nat -> assembles insns ->
  (∃ text, nativeHandlerAArch64 regs opcode = Ret text ∧
    assembled assemble (chars_of text) = Ret (mjoin (encode_a64 <$> insns))) ∧
  (0 < List.length (mjoin (encode_a64 <$> insns)) <= asmbin_size)%nat.
Proof.
  intros Hi Hu Hregs Has. destruct (handler_shape regs opcode) as (front & back & Hs & Ha & Hl).
  pose proof (code_length insns Has) as Hlen. unfold nativeHandlerAArch64. rewrite Hs in *. injection Hi as Hi.
  set (init := (front ++ NativeA64.OPCODE opcode :: back)%list).
  assert (insns = init ++ [BR 16])%list as -> by (rewrite <- Hi; unfold init; by rewrite <- app_assoc).
  assert (List.length (init ++ [BR 16]) <= 64)%nat as Hn
    by (unfold init in *; rewrite !length_app in *; cbn [List.length]; lia).
  split; [|unfold asmbin_size; rewrite length_app in *; cbn in *; lia]. rewrite Hi. eexists. split; [reflexivity|].
  apply Forall_app in Has as [Has Hbr], Ha as [Ha1 Ha2]. apply (proj1 (Forall_singleton _ _)) in Hbr.
  assert (Forall (insn_ok assemble a64_text raw_a64) init) as Hok.
  { unfold init in *. apply Forall_app in Has as [Has1 [_ Has2]%Forall_cons]. apply Forall_app.
    split; [by apply arounds_ok|]. apply Forall_cons. split; [done|by apply arounds_ok]. }
  clearbody init. rewrite fmap_app, concat_app, chars_app. unfold assembled.
  assert (mjoin (encode_a64 <$> init ++ [BR 16]) = mjoin (encode_a64 <$> init) ++ encode_a64 (BR 16))%list as Hj.
  { rewrite fmap_app, join_app. f_equal. cbn. by rewrite app_nil_r. }
  rewrite Hj in *. rewrite assemble_insns with (raw := raw_a64); [|done|].
  - apply (assemble_last assemble a64_text raw_a64 (BR 16)); [apply br_plain|done| |].
    + intros Hnil. change (encode_a64 (BR 16) = []) in Hnil. cbv beta in Hbr. by rewrite Hnil in Hbr.
    + cbn [app]. fold encode_a64. unfold asmbin_size. lia.
  - cbn [app]. fold encode_a64. unfold asmbin_size. rewrite length_app in Hlen. lia.
Qed.
End A64.

(** * Native handlers of x86_64 *)

Section X64.
Context `{X86Layout}.
Variable assemble : chars -> list Z.

Definition raw_x64 (i : x64_insn) : option (list Z) := match i with OPCODE op => Some op | _ => None end.
Definition encode_x64 : x64_insn -> list Z := encode assemble (x64_text "$") raw_x64.

Lemma plain_mjoin {B} (f : B -> list x64_insn) l : (∀ x, Forall (fun i => is_opcode_x64 i = false) (f x)) ->
  Forall (fun i => is_opcode_x64 i = false) (mjoin (f <$> l)).
Proof. intros Hf. apply Forall_join, Forall_fmap, Forall_forall. intros x _. apply Hf. Qed.

Ltac plain_cases :=
  intros; cbn; repeat match goal with |- Forall _ (if ?b then _ else _) => destruct b end;
  repeat (apply Forall_cons; split; [done|]); by apply Forall_nil.

Lemma x64_shape windows regs opcode : (List.length regs <= 7)%nat -> ∃ front back,
  handler_insns windows regs opcode = Ret (front ++ OPCODE opcode :: back)%list ∧
  Forall (fun i => is_opcode_x64 i = false) (front ++ back).
Proof.
  intros Hlen. destruct (cpu_and_rsp_spec windows regs Hlen) as (c & s & Hcs & _).
  unfold handler_insns. rewrite Hcs. cbn [mbind exec_bind].
  rewrite (mapE_Ret (load_guest c) (load1 c)) by apply x64_load_guest_ret. cbn [mbind exec_bind].
  rewrite (mapE_Ret (save_guest c) (store1 c)) by apply x64_save_guest_ret. cbn [mbind exec_bind].
  set (ps := mjoin (push_gpr windows <$> regs)). set (px := mjoin (push_xmm windows <$> regs)).
  set (qs := mjoin (pop_gpr windows <$> reverse regs)). set (qx := mjoin (pop_xmm windows <$> reverse regs)).
  set (ls := mjoin (load1 c <$> regs)). set (ss := mjoin (store1 c <$> regs)).
  exists (ps ++ px ++ (if c =? Register.R12 then [] else [MOV Register.R12 c]) ++
    (if s =? Register.RSP then [] else [MOV Register.RSP s]) ++ ls)%list,
   (ss ++ (if c =? Register.R12 then [] else [MOV c Register.R12]) ++
    (if s =? Register.RSP then [] else [MOV s Register.RSP]) ++ qx ++ qs ++ x64_advance windows (Z.of_nat (List.length opcode)))%list.
  split; [by rewrite <- !app_assoc|].
  rewrite !Forall_app. split_and!; try (apply plain_mjoin; intros x);
    unfold push_gpr, push_xmm, pop_gpr, pop_xmm, load1, store1; plain_cases.
Qed.

Lemma native_x64_assembled windows regs opcode insns : handler_insns windows regs opcode = Ret insns ->
  Forall u8 opcode -> (List.length regs <= 7)%nat -> Forall (fun i => encode_x64 i <> []) insns ->
  (List.length (mjoin (encode_x64 <$> insns)) <= asmbin_size)%nat ->
  ∃ text, nativeHandlerX64 windows regs opcode false = Ret text ∧
    assembled assemble (chars_of text) = Ret (mjoin (encode_x64 <$> insns)).
Proof.
  intros Hi Hu Hregs Has Hlen. destruct (x64_shape windows regs opcode Hregs) as (front & back & Hs & Ha).
  unfold nativeHandlerX64. rewrite Hs in *. injection Hi as <-. eexists. split; [reflexivity|].
  apply Forall_app in Ha as [Ha1 Ha2]. pose proof Has as [Has1 [_ Has2]%Forall_cons]%Forall_app.
  assert (∀ l, Forall (fun i => is_opcode_x64 i = false) l -> Forall (fun i => encode_x64 i <> []) l ->
    Forall (insn_ok assemble (x64_text "$") raw_x64) l) as Hok.
  { intros l Hl He. apply Forall_forall. intros i Hin. apply (proj1 (Forall_forall _ _) Hl) in Hin as Ho.
    apply (proj1 (Forall_forall _ _) He) in Hin. unfold insn_ok. destruct (raw_x64 i) eqn:E; [by destruct i|].
    split; [by apply x64_one_line|done]. }
  unfold assembled. rewrite <- (app_nil_r (chars_of _)). rewrite assemble_insns with (raw := raw_x64); [done| |done].
  apply Forall_app. split; [by apply Hok|]. apply Forall_cons. split; [done|by apply Hok].
Qed.
End X64.

(** * The handler that is made *)

Section Made.
Context `{A64Layout} `{X86Layout} `{LlvmNumbers} `{X86Numbers}.
Variables (assemble : chars -> list Z) (disassemble : list Z -> mcinst * nat) (windows : bool).
Variables pagesz abort_address : Z.

(** The handler of [h] with its code: where it is, and that it can run. *)
Definition code_made (h h' : OpcodeHandler) (len : nat) (code : list Z) (s' : code_state) : Prop :=
  oh_opcode h' = oh_opcode h ∧ oh_type h' = OHT_Dynamic ∧ oh_oplen h' = Z.of_nat len ∧ oh_implsize h' <= 256 ∧
  load_bytes (code_mem s') (oh_impl h') (Z.to_nat (oh_implsize h')) = code ∧
  (∃ p, p ∈ dynhandlers s' ∧ p <= oh_impl h' ∧ oh_impl h' + oh_implsize h' <= p + pagesz ∧
     code_prot s' !! p = Some rx) ∧ pages_ok pagesz s'.

Lemma initDynamic_placed arm64 sz page h c s inst oplen text code :
  disassemble (le_bytes sz (oh_opcode h)) = (inst, oplen) -> (arm64 = true -> uses_sp inst = false) ->
  (0 < oplen < 256)%nat -> native_text windows arm64 inst (take oplen (le_bytes sz (oh_opcode h))) = Ret text ->
  assembled assemble (chars_of text) = Ret code -> (0 < List.length code <= asmbin_size)%nat ->
  pages_ok pagesz s -> fresh_page pagesz page s -> 256 <= pagesz ->
  ∃ h' s', initDynamic assemble disassemble windows pagesz abort_address arm64 sz (mkOs page true true) h c s =
      Ret (h', c, s') ∧ code_made h h' oplen code s'.
Proof.
  intros Hd Hsp Hol Ht Ha Hlen Hp Hf Hpage. unfold asmbin_size in Hlen.
  destruct (place_spec pagesz page code s Hp Hf) as (impl & s' & Hplace & Hload & Hok & Hat); [by intros ->; cbn in Hlen; lia|lia|].
  assert (wrap16 (Z.of_nat (List.length code)) = Z.of_nat (List.length code)) as Hw by (apply wrap_small; unfold fits; lia).
  eexists _, s'. split.
  { unfold initDynamic. rewrite Hd.
    assert (initMCInst arm64 (oh_opcode h) inst c = (None, c)) as ->
      by (destruct arm64; [unfold initMCInst, initMCInstARM64; by rewrite Hsp|done]).
    rewrite (proj2 (Nat.eqb_neq oplen 0)) by lia. rewrite Ht. cbn [mbind exec_bind]. rewrite Ha. cbn [mbind exec_bind].
    rewrite Hplace. reflexivity. }
  unfold code_made. cbn [oh_opcode oh_type oh_oplen oh_implsize oh_impl]. rewrite Hw, Nat2Z.id.
  split_and!; try done; [apply wrap_small; unfold fits; lia|lia].
Qed.
End Made.

(** * Properties *)

(** C9: making the dynamic handler of an aarch64 opcode that does not name the
    stack pointer: it is assembled within the 256 bytes the code has for it and
    placed in a page that can be executed, where it is the code of a list of
    instructions with the opcode in the middle; and these, entered with the
    state in x26, run the opcode on the guest's registers and give the host back
    its own. *)
Theorem dynamic_handler_made `{A64Layout} `{X86Layout} `{LlvmNumbers} `{X86Numbers}
    assemble disassemble windows pagesz abort_address page h c s inst insns :
  let opcode := le_bytes 4 (oh_opcode h) in
  let regs := UtilsAArch64.parse_regused (mc_operands inst) in
  disassemble opcode = (inst, 4%nat) -> uses_sp inst = false ->
  NativeA64.temporary_free regs -> (List.length regs <= 12)%nat ->
  NativeA64.handler_insns regs opcode = Ret insns -> assembles assemble insns ->
  pages_ok pagesz s -> fresh_page pagesz page s -> 256 <= pagesz ->
  ∃ h' s', initDynamic assemble disassemble windows pagesz abort_address true 4 (mkOs page true true) h c s =
      Ret (h', c, s') ∧ code_made pagesz h h' 4 (mjoin (encode_a64 assemble <$> insns)) s' ∧
    ∀ native_opcode bound m0, NativeA64.entry_ok regs bound m0 ->
      NativeA64.opcode_ok native_opcode regs opcode bound m0 ->
      NativeA64.handled native_opcode regs opcode bound m0 (NativeA64.a64_run native_opcode insns m0).
Proof.
  intros opcode regs Hd Hsp Hfree Hregs Hi Has Hp Hf Hpage.
  destruct (native_a64_assembled assemble regs opcode insns Hi (le_bytes_u8 4 _) Hregs Has) as ((text & Ht & Ha) & Hlen).
  destruct (initDynamic_placed assemble disassemble windows pagesz abort_address true 4 page h c s inst 4 text
    (mjoin (encode_a64 assemble <$> insns))) as (h' & s' & Hr & Hm); try done; [lia|].
  exists h', s'. split; [exact Hr|]. split; [exact Hm|].
  intros native_opcode bound m0 He Ho.
  destruct (NativeA64.handler_handles native_opcode regs opcode bound m0 He Ho Hfree) as (insns' & Hi' & Hh).
  rewrite Hi in Hi'. by injection Hi' as <-.
Qed.

(** C27: the same for an opcode of x86_64 of up to seven registers, on either
    calling convention: as long as the assembled code stays within the buffer,
    which the code does not test in a release build, it is placed as it is, with
    the opcode's own bytes in the middle, and its instructions run the opcode on
    the guest's registers. *)
Theorem dynamic_handler_made_x64 `{A64Layout} `{X86Layout} `{LlvmNumbers} `{X86Numbers}
    assemble disassemble windows pagesz abort_address page sz oplen h c s inst regs insns :
  let opcode := take oplen (le_bytes sz (oh_opcode h)) in
  disassemble (le_bytes sz (oh_opcode h)) = (inst, oplen) -> (0 < oplen < 256)%nat ->
  NativeX64.parse_regused (mc_operands inst) = Ret regs -> (List.length regs <= 7)%nat ->
  handler_insns windows regs opcode = Ret insns -> Forall (fun i => encode_x64 assemble i <> []) insns ->
  (0 < List.length (mjoin (encode_x64 assemble <$> insns)) <= asmbin_size)%nat ->
  pages_ok pagesz s -> fresh_page pagesz page s -> 256 <= pagesz ->
  ∃ h' s', initDynamic assemble disassemble windows pagesz abort_address false sz (mkOs page true true) h c s =
      Ret (h', c, s') ∧ code_made pagesz h h' oplen (mjoin (encode_x64 assemble <$> insns)) s' ∧
    ∀ native_opcode bound m0, entry_ok windows regs bound m0 -> opcode_ok native_opcode windows regs opcode bound m0 ->
      handled native_opcode windows regs opcode bound m0 (x64_run native_opcode insns m0).
Proof.
  intros opcode Hd Hol Hused Hregs Hi Has Hlen Hp Hf Hpage.
  assert (Forall u8 opcode) as Hu by (apply Forall_take, le_bytes_u8).
  destruct (native_x64_assembled assemble windows regs opcode insns Hi Hu Hregs Has) as (text & Ht & Ha); [lia|].
  destruct (initDynamic_placed assemble disassemble windows pagesz abort_address false sz page h c s inst oplen text
    (mjoin (encode_x64 assemble <$> insns))) as (h' & s' & Hr & Hm); try done.
  { unfold native_text. by rewrite Hused. }
  exists h', s'. split; [exact Hr|]. split; [exact Hm|]. intros native_opcode bound m0 He Ho.
  destruct (x64_handler_handles native_opcode windows regs opcode bound m0 He Ho Hregs) as (insns' & Hi' & Hh).
  rewrite Hi in Hi'. by injection Hi' as <-.
Qed.

(** An assembler, of one word for every line, and the first handlers of a
    process. *)
Definition sample_assemble (l : chars) : list Z :=
  le_bytes 4 (foldr (fun c acc => 31 * acc + Z.of_nat (nat_of_ascii c)) 0 l).
Definition sample_handler : OpcodeHandler := tmpopc 0x0b1a0273.
Definition insns_of {I} (e : exec (list I)) : list I := match e with Ret l => l | _ => [] end.
Definition sample_regs : list Z := @UtilsAArch64.parse_regused sample_numbers sample_inst.
Definition sample_insns : list a64_insn :=
  insns_of (@NativeA64.handler_insns a64_sample sample_regs (le_bytes 4 (oh_opcode sample_handler))).
Definition sample_made : exec (OpcodeHandler * mc_cache * code_state) :=
  @initDynamic sample_assemble (fun _ => (mkInst 0 sample_inst, 4%nat)) false 4096 0 a64_sample x86_sample sample_numbers
    x86_sample_numbers true 4 (mkOs 0x10000 true true) sample_handler (mkMcCache [] ∅) (code_init ∅).

Lemma code_init_ok pagesz m : pages_ok pagesz (code_init m).
Proof. constructor; cbn; [constructor|done|by left]. Qed.

Lemma sample_fresh : fresh_page 4096 0x10000 (code_init ∅).
Proof. by repeat split. Qed.

Lemma sample_insns_made :
  @NativeA64.handler_insns a64_sample sample_regs (le_bytes 4 (oh_opcode sample_handler)) = Ret sample_insns.
Proof. by vm_compute. Qed.

Lemma sample_insns_assemble : assembles sample_assemble sample_insns.
Proof. apply (bool_decide_unpack _). by vm_compute. Qed.

Lemma sample_regs_free : NativeA64.temporary_free sample_regs ∧ (List.length sample_regs <= 12)%nat.
Proof.
  split; [|apply Nat.leb_le; by vm_compute].
  right. exists 0. split; [lia|]. apply (proj1 (bool_decide_eq_false _)). by vm_compute.
Qed.

Theorem dynamic_handler_made_witness : ∃ h' s', sample_made = Ret (h', mkMcCache [] ∅, s') ∧
  code_made 4096 sample_handler h' 4 (mjoin (encode_a64 sample_assemble <$> sample_insns)) s'.
Proof.
  destruct (@dynamic_handler_made a64_sample x86_sample sample_numbers x86_sample_numbers sample_assemble
    (fun _ => (mkInst 0 sample_inst, 4%nat)) false 4096 0 0x10000 sample_handler (mkMcCache [] ∅) (code_init ∅)
    (mkInst 0 sample_inst) sample_insns eq_refl eq_refl (proj1 sample_regs_free) (proj2 sample_regs_free)
    sample_insns_made sample_insns_assemble (code_init_ok _ _) sample_fresh) as (h' & s' & Hr & Hm & _); [lia|].
  exists h', s'. exact (conj Hr Hm).
Defined.

Definition x64_sample_insns : list x64_insn :=
  insns_of (@handler_insns x86_sample true x64_sample_used [0x0f; 0xa2]).
Definition x64_sample_inst : mcinst := mkInst 0 ((fun s => OReg (@x86_num x86_sample_numbers s)) <$> x64_sample_names).

Lemma x64_sample_insns_made : @handler_insns x86_sample true x64_sample_used [0x0f; 0xa2] = Ret x64_sample_insns.
Proof. by vm_compute. Qed.

Lemma x64_sample_insns_assemble : Forall (fun i => encode_x64 sample_assemble i <> []) x64_sample_insns ∧
  (0 < List.length (mjoin (encode_x64 sample_assemble <$> x64_sample_insns)) <= asmbin_size)%nat.
Proof. split; [apply (bool_decide_unpack _); by vm_compute|split; apply Nat.leb_le; by vm_compute]. Qed.

Theorem dynamic_handler_made_x64_witness : ∃ h' s',
  @initDynamic sample_assemble (fun _ => (x64_sample_inst, 2%nat)) true 4096 0
    a64_sample x86_sample sample_numbers x86_sample_numbers false 2 (mkOs 0x10000 true true) (tmpopc 0xa20f)
    (mkMcCache [] ∅) (code_init ∅) = Ret (h', mkMcCache [] ∅, s') ∧
  code_made 4096 (tmpopc 0xa20f) h' 2 (mjoin (encode_x64 sample_assemble <$> x64_sample_insns)) s'.
Proof.
  destruct (@dynamic_handler_made_x64 a64_sample x86_sample sample_numbers x86_sample_numbers sample_assemble
    (fun _ => (x64_sample_inst, 2%nat)) true 4096 0 0x10000
    2 2 (tmpopc 0xa20f) (mkMcCache [] ∅) (code_init ∅) x64_sample_inst x64_sample_used x64_sample_insns eq_refl)
    as (h' & s' & Hr & Hm & _);
    [lia|exact x64_sample_parsed|apply Nat.leb_le; reflexivity|exact x64_sample_insns_made
    |exact (proj1 x64_sample_insns_assemble)|exact (proj2 x64_sample_insns_assemble)|apply code_init_ok|exact sample_fresh|lia|].
  exists h', s'. exact (conj Hr Hm).
Defined.

(** The bytes of an opcode survive being written as text, split and read. *)
Example raw_bytes_read : assembled sample_assemble (chars_of (emit_opcode [0x0f; 0xa2; 0xff])) = Ret [0x0f; 0xa2; 0xff].
Proof. by vm_compute. Qed.
