(* ===== verification/TrampolinesX64.v ===== *)
(** The assembly of src/X86.cpp: [aether_vm_entry] with [vm_enter_x64], the way
    into the handlers and out, and the trampoline of an event; for either
    calling convention. As in Trampolines, the functions they call obey it. *)
From Stdlib Require Import ZArith Lia List.
From stdpp Require Import base list gmap.
From S2P Require Import Prelude Registers Emit NativeX64.
#[local] Open Scope Z_scope.

(** * Instructions *)

(** Those of NativeX64 and a constant moved to a register. *)
Inductive t_insn := Insn (i : x64_insn) | MOVi (imm d : Z).

Definition t_exec (m : x64_machine) (i : t_insn) : x64_machine :=
  match i with
  | Insn i => x64_exec (fun _ m => m) m i
  | MOVi imm d => set_r m d imm
  end.
Definition t_run (l : list t_insn) (m : x64_machine) : x64_machine := fold_left t_exec l m.

(** "call": the return address is pushed. *)
Definition push_value (v : Z) (m : x64_machine) : x64_machine :=
  let a := wrap64 (rg m Register.RSP - 8) in
  set_mem (set_r m Register.RSP a) (store 8 (mem m) a v).

(** [extract_handler_r10] and the jump behind it. *)
Definition extract_handler_r10 : list t_insn :=
  Insn <$> [LOAD (Some 0) Register.R13 Register.R10; SHL 5 Register.R10; SHR 5 Register.R10; JMP Register.R10].

Section Code.
Variable windows : bool.

Definition ARGREG_0 : Z := if windows then Register.RCX else Register.RDI.
Definition ARGREG_1 : Z := if windows then Register.RDX else Register.RSI.
Definition ARGREG_2 : Z := if windows then Register.R8 else Register.RDX.
Definition ARGREG_3 : Z := if windows then Register.R9 else Register.RCX.

(** * [aether_vm_entry] *)

(** Up to the call of the fifth argument, on the stack or in r8. *)
Definition vm_entry_save : list t_insn := Insn <$>
  [if windows then LOAD (Some 0x28) Register.RSP Register.RAX else MOV Register.R8 Register.RAX;
   PUSH Register.RBP; PUSH Register.R12; PUSH Register.R13;
   MOV ARGREG_0 Register.R12; MOV ARGREG_2 Register.R13; PUSH ARGREG_1; PUSH ARGREG_3] ++
  (if windows then [SUB 0x20 Register.RSP] else []).

(** Up to the call of [vm_enter_x64]. *)
Definition vm_entry_args : list t_insn := Insn <$>
  (if windows then [ADD 0x20 Register.RSP] else []) ++
  [POP ARGREG_3; POP ARGREG_1; MOV Register.R12 ARGREG_0; MOV Register.R13 ARGREG_2] ++
  (if windows then [SUB 0x20 Register.RSP] else []).

(** [vm_enter_x64]. *)
Definition vm_enter : list t_insn :=
  (Insn <$> [LOAD (Some 0) Register.RSP Register.R10; STORE Register.R10 (Some 0) ARGREG_3;
             STORE Register.R10 (Some 0) Register.RAX]) ++ extract_handler_r10.

(** Behind that call, up to "ret". *)
Definition vm_entry_restore : list t_insn := Insn <$>
  [ADD (if windows then 0x28 else 0x8) Register.RSP; POP Register.R13; POP Register.R12; POP Register.RBP].

(** * The trampoline of an event *)

Definition event_args : list t_insn :=
  [Insn (if windows then SUB 0x28 Register.RSP else PUSH Register.RBP);
   Insn (MOV Register.R12 ARGREG_0); MOVi 0 ARGREG_1; Insn (MOV Register.R13 ARGREG_2)].
Definition event_next : list t_insn :=
  (Insn <$> [MOV Register.RAX Register.R13; MOV Register.R12 ARGREG_0; LOAD (Some (-0x10)) Register.R12 ARGREG_1;
             LOAD (Some 0) ARGREG_1 ARGREG_1; MOV Register.R13 ARGREG_2;
             LOAD (Some 0) Register.R13 Register.R10; SHL 5 Register.R10; SHR 5 Register.R10;
             if windows then ADD 0x28 Register.RSP else POP Register.RBP; JMP Register.R10]).

Section Calls.
(** What the code at an address does until it has returned; the address behind
    a call, and the one behind the call of [vm_enter_x64]. *)
Variable function : Z -> x64_machine -> x64_machine.
Variables call_return vm_return : Z.

Definition call (target : Z) (m : x64_machine) : x64_machine := function target (push_value call_return m).

(** The machine the first handler is entered with; it is at r10. *)
Definition vm_entry_start (m : x64_machine) : x64_machine :=
  let e := t_run vm_entry_save m in
  t_run vm_enter (push_value vm_return (t_run vm_entry_args (call (rg e Register.RAX) e))).

(** [handlers]: the handlers until one goes to the address in [*host_retaddr];
    "ret" is left, to the address on top of the stack. *)
Definition aether_vm_entry (handlers : Z -> x64_machine -> x64_machine) (m : x64_machine) : x64_machine :=
  let e := vm_entry_start m in t_run vm_entry_restore (handlers (rg e Register.R10) e).

(** The trampoline of the event whose host function is at [host_n]; the next
    handler is at r10. *)
Definition event_vm (host_n : Z) (m : x64_machine) : x64_machine :=
  t_run event_next (call host_n (t_run event_args m)).
End Calls.

(** * The calling conventions *)

(** A function pops its return address, gives back the callee-saved registers,
    and does not write what is its callers' own. *)
Record obeys (keep : Z -> Prop) (f : x64_machine -> x64_machine) : Prop := {
  ob_saved m r : is_callee_saved_gpr windows r = true -> rg (f m) r = rg m r;
  ob_rsp m : rg (f m) Register.RSP = wrap64 (rg m Register.RSP + 8);
  ob_mem m a : keep a -> get8 (mem (f m)) a = get8 (mem m) a
}.

(** What the routine keeps on the stack: its caller's r13, r12 and rbp and the
    return address; the two arguments below, for a while. *)
Definition in_saves (m : x64_machine) (a : Z) : Prop := rg m Register.RSP - 0x18 <= a < rg m Register.RSP + 8.
Definition in_frame (m : x64_machine) (a : Z) : Prop := rg m Register.RSP - 0x28 <= a < rg m Register.RSP + 8.
End Code.

(** The eight bytes at an address. *)
Definition on_slot (p a : Z) : Prop := p <= a < p + 8.

(** * Lemmas *)

(** Compares registers by their numbers. *)
Ltac reg_eqb := repeat match goal with
  | |- context [(?a =? ?b)] =>
      let v := eval vm_compute in (a =? b) in
      match v with true => idtac | false => idtac end; change (a =? b) with v; cbv iota
  end.
(** Executes the code of the goal. *)
Ltac run_code :=
  cbn [t_run fold_left t_exec x64_exec app fmap list_fmap set_r set_mem rg mem]; unfold address, push_value;
  cbn [set_r set_mem rg mem default from_option id]; unfold upd; reg_eqb.
(** Addresses without wrapping. *)
Ltac flat := repeat match goal with
  | |- context [wrap64 ?x] =>
      lazymatch x with context [wrap] => fail | _ => rewrite (wrap_small 64 x) by (unfold fits; lia) end
  end.
(** Reads what was stored there and not overwritten. *)
Ltac read_back := rewrite ?load_store_disjoint by lia;
  first [reflexivity | match goal with |- load 8 (store 8 _ ?a _) ?b = _ => replace b with a by lia end;
                       rewrite load_store; apply Z.mod_small].

(** A list without callee-saved registers. *)
Lemma saved_not windows l r : Forall (fun x => is_callee_saved_gpr windows x = false) l ->
  is_callee_saved_gpr windows r = true -> r ∉ l.
Proof. intros Hl Hr Hin. apply (proj1 (Forall_forall _ _) Hl) in Hin. congruence. Qed.

Ltac none_saved windows :=
  destruct windows; repeat (apply Forall_cons; split; [by vm_compute|]); by apply Forall_nil.

Section Entry.
Variable windows : bool.
Variable m : x64_machine.
Abbreviation top := (rg m Register.RSP).
Abbreviation A0 := (ARGREG_0 windows).
Abbreviation A1 := (ARGREG_1 windows).
Abbreviation A2 := (ARGREG_2 windows).
Abbreviation A3 := (ARGREG_3 windows).
Hypothesis stack : 0x58 <= top ∧ top + 0x30 <= 2 ^ 64.
Hypothesis values : ∀ r, r = A1 \/ r = A3 \/ is_callee_saved_gpr windows r = true -> u64 (rg m r).

(** The fifth argument. *)
Definition fifth : Z := if windows then load 8 (mem m) (top + 0x28) else rg m Register.R8.

Definition saves_ok (b : bytes) : Prop :=
  load 8 b top = load 8 (mem m) top ∧ load 8 b (top - 8) = rg m Register.RBP ∧
  load 8 b (top - 0x10) = rg m Register.R12 ∧ load 8 b (top - 0x18) = rg m Register.R13.
Definition frame_ok (b : bytes) : Prop :=
  saves_ok b ∧ load 8 b (top - 0x20) = rg m A1 ∧ load 8 b (top - 0x28) = rg m A3.

(** The stack pointer around the two calls: above the shadow space or not. *)
Definition shadow : Z := if windows then 0x20 else 0.

Lemma x64_save_spec s : s = t_run (vm_entry_save windows) m ->
  rg s Register.RAX = fifth ∧ rg s Register.RSP = top - 0x28 - shadow ∧ rg s Register.R12 = rg m A0 ∧
  rg s Register.R13 = rg m A2 ∧ frame_ok (mem s) ∧
  (∀ r, r ∉ [Register.RAX; Register.RSP; Register.R12; Register.R13] -> rg s r = rg m r) ∧
  (∀ a, ~ in_frame m a -> get8 (mem s) a = get8 (mem m) a).
Proof.
  intros ->. unfold vm_entry_save, fifth, shadow, frame_ok, saves_ok, in_frame.
  destruct windows; run_code; flat.
  all: split_and!; try done; try lia; try read_back;
    try (apply values; by (left + (right; left) + (right; right))).
  all: try (intros r Hr; rewrite !not_elem_of_cons in Hr; by rewrite !(proj2 (Z.eqb_neq r _)) by tauto).
  all: intros a Ha; unfold store; by rewrite !get8_store_bytes, !le_bytes_length, !decide_False by lia.
Qed.

(** What the routine leaves to its callees. *)
Definition kept (r : Z) : Prop :=
  is_callee_saved_gpr windows r = true ∧ r ∉ [Register.RBP; Register.R12; Register.R13].

(** What is so between the save and the restore; [down] is how far the stack
    pointer is below the caller's. *)
Definition entered (down : Z) (e : x64_machine) : Prop :=
  rg e Register.RSP = top - down ∧ rg e Register.R12 = rg m A0 ∧ rg e Register.R13 = rg m A2 ∧
  (∀ r, kept r -> rg e r = rg m r) ∧ saves_ok (mem e).

Lemma load_ext_saves b b' k : (∀ a, in_frame m a -> get8 b' a = get8 b a) -> 0 <= k <= 0x28 ->
  load 8 b' (top - k) = load 8 b (top - k).
Proof. intros Hb Hk. apply load_ext. intros x Hx. apply Hb. unfold in_frame. lia. Qed.

Lemma frame_ext b b' : (∀ a, in_frame m a -> get8 b' a = get8 b a) -> frame_ok b -> frame_ok b'.
Proof.
  intros Hb ((F1 & F2 & F3 & F4) & F5 & F6). pose proof (fun k => load_ext_saves b b' k Hb) as Hl.
  pose proof (Hl 0) as H0. rewrite Z.sub_0_r in H0. unfold frame_ok, saves_ok. rewrite !Hl, H0 by lia. done.
Qed.

Lemma saves_ext b b' : (∀ a, in_saves m a -> get8 b' a = get8 b a) -> saves_ok b -> saves_ok b'.
Proof.
  intros Hb (F1 & F2 & F3 & F4).
  assert (∀ k, 0 <= k <= 0x18 -> load 8 b' (top - k) = load 8 b (top - k)) as Hl.
  { intros k Hk. apply load_ext. intros x Hx. apply Hb. unfold in_saves. lia. }
  pose proof (Hl 0) as H0. rewrite Z.sub_0_r in H0. unfold saves_ok. rewrite !Hl, H0 by lia. done.
Qed.

(** The registers the code writes are not kept ones. *)
Definition scratch : list Z :=
  [Register.RAX; Register.RSP; Register.R10; Register.R12; Register.R13; A0; A1; A2; A3].
Lemma kept_not_scratch r : kept r -> r ∉ scratch.
Proof.
  intros [Hr Hn] Hs. unfold is_callee_saved_gpr, callee_saved_gprs in Hr. rewrite existsb_exists in Hr.
  destruct Hr as (x & Hx & ->%Z.eqb_eq). apply list_elem_of_In in Hx. apply Hn. clear Hn. revert x Hx Hs.
  unfold scratch, ARGREG_0, ARGREG_1, ARGREG_2, ARGREG_3.
  assert (∀ (l l' l'' : list Z), Forall (fun x => x ∈ l' -> x ∈ l'') l -> ∀ x, x ∈ l -> x ∈ l' -> x ∈ l'') as Hf.
  { intros l l' l'' Hl x Hx. by apply (proj1 (Forall_forall _ _) Hl). }
  destruct windows; (apply Hf, (bool_decide_unpack _); by vm_compute).
Qed.

Lemma x64_args_spec r e : frame_ok (mem r) -> entered (0x28 + shadow) r -> e = t_run (vm_entry_args windows) r ->
  entered (0x18 + shadow) e ∧ rg e A0 = rg m A0 ∧ rg e A1 = rg m A1 ∧ rg e A2 = rg m A2 ∧ rg e A3 = rg m A3 ∧
  rg e Register.RAX = rg r Register.RAX ∧ mem e = mem r.
Proof.
  intros (_ & F5 & F6) (E1 & E2 & E3 & E4 & E5) ->. pose proof kept_not_scratch as Hs. unfold entered, scratch, shadow in *.
  unfold vm_entry_args. unfold ARGREG_0, ARGREG_1, ARGREG_2, ARGREG_3 in *. destruct windows; run_code; rewrite E1; flat.
  all: split_and!; try done; try lia; try (by rewrite E2); try (by rewrite E3);
    try (etransitivity; [|exact F5]; f_equal; lia); try (etransitivity; [|exact F6]; f_equal; lia).
  all: intros x Hx; pose proof (Hs x Hx) as Hn; rewrite !not_elem_of_cons in Hn;
    rewrite !(proj2 (Z.eqb_neq x _)) by tauto; by apply E4.
Qed.

(** With the way back on the stack. *)
Lemma x64_enter_spec ret r e : u64 ret -> entered (0x18 + shadow) r ->
  (∀ a, on_slot (rg r A3) a \/ on_slot (rg r Register.RAX) a -> ~ in_saves m a) ->
  0 <= rg r A3 < 2 ^ 64 -> 0 <= rg r Register.RAX < 2 ^ 64 ->
  e = t_run (vm_enter windows) (push_value ret r) ->
  entered (0x20 + shadow) e ∧ rg e Register.R10 = wrap 59 (load 8 (mem e) (wrap64 (rg m A2))) ∧
  (∀ k, k ∈ [A0; A1; A2; A3] -> rg e k = rg r k) ∧
  mem e = store 8 (store 8 (store 8 (mem r) (top - 0x20 - shadow) ret) (rg r A3) ret) (rg r Register.RAX) ret.
Proof.
  intros Hret (E1 & E2 & E3 & E4 & E5) Hslots Hp Hq ->. pose proof kept_not_scratch as Hs. unfold entered, scratch, shadow in *.
  assert (∀ b a, load 8 (store 8 b a ret) a = ret) as Hl by (intros b a; rewrite load_store; by apply Z.mod_small).
  set (b := store 8 (store 8 (store 8 (mem r) (top - 0x20 - _) ret) _ ret) _ ret).
  assert (saves_ok b) as Hb.
  { apply (saves_ext (mem r)); [|done]. intros a Ha. unfold b, store. rewrite !get8_store_bytes, !le_bytes_length.
    assert (¬ on_slot (rg r A3) a ∧ ¬ on_slot (rg r Register.RAX) a) as [H3 Hax] by (split; intros Hx; by apply (Hslots a); auto).
    unfold on_slot, in_saves in *. rewrite !decide_False; [done|destruct windows; lia|lia..]. }
  assert (∀ x, kept x -> x ∉ [Register.RSP; Register.R10]) as Hk.
  { intros x Hx. pose proof (Hs x Hx) as Hn. rewrite !not_elem_of_cons in *. tauto. }
  unfold b in *. clear b Hs Hslots. revert Hb.
  unfold vm_enter, extract_handler_r10. unfold ARGREG_0, ARGREG_1, ARGREG_2, ARGREG_3 in *.
  destruct windows; run_code; rewrite E1; flat; rewrite !Z.add_0_r, !Hl, !drop_tag, E3;
    (replace (rg m Register.RSP - (24 + 32) - 8) with (rg m Register.RSP - 32 - 32) by lia) ||
    (replace (rg m Register.RSP - 24 - 8) with (rg m Register.RSP - 32 - 0) by lia);
    intros Hb; split_and!; try done; try lia.
  all: intros x Hx;
    try (pose proof (Hk x Hx) as Hn; rewrite !not_elem_of_cons in Hn;
         rewrite !(proj2 (Z.eqb_neq x _)) by tauto; by apply E4).
  all: rewrite !elem_of_cons, elem_of_nil in Hx; by destruct_or! Hx; subst x.
Qed.

Lemma x64_restore_spec r e : rg r Register.RSP = top - (0x20 + shadow) -> (∀ x, kept x -> rg r x = rg m x) ->
  saves_ok (mem r) -> e = t_run (vm_entry_restore windows) r ->
  (∀ x, is_callee_saved_gpr windows x = true -> rg e x = rg m x) ∧ rg e Register.RSP = top ∧ mem e = mem r ∧
  load 8 (mem e) top = load 8 (mem m) top.
Proof.
  intros E1 E4 (F1 & F2 & F3 & F4) ->. pose proof kept_not_scratch as Hs. unfold entered, scratch, shadow in *.
  assert (∀ o, top - 0x18 = o -> load 8 (mem r) o = rg m Register.R13) as L13 by (by intros o <-).
  assert (∀ o, top - 0x10 = o -> load 8 (mem r) o = rg m Register.R12) as L12 by (by intros o <-).
  assert (∀ o, top - 8 = o -> load 8 (mem r) o = rg m Register.RBP) as Lbp by (by intros o <-).
  assert (∀ x, is_callee_saved_gpr windows x = true -> x <> Register.RBP -> x <> Register.R12 -> x <> Register.R13 ->
    x <> Register.RSP ∧ rg r x = rg m x) as Hk.
  { intros x Hx H1 H2 H3. assert (kept x) as Hkx.
    { split; [done|]. rewrite !not_elem_of_cons. by split_and!; try apply not_elem_of_nil. }
    split; [|by apply E4]. apply Hs in Hkx. rewrite !not_elem_of_cons in Hkx. tauto. }
  clear Hs E4. unfold vm_entry_restore. destruct windows; run_code; rewrite E1; flat; split_and!; try done; try lia.
  all: intros x Hx; destruct (decide (x = Register.RBP)) as [->|]; [reg_eqb; apply Lbp; lia|];
    destruct (decide (x = Register.R12)) as [->|]; [reg_eqb; apply L12; lia|];
    destruct (decide (x = Register.R13)) as [->|]; [reg_eqb; apply L13; lia|];
    destruct (Hk x Hx) as [Hsp Hr]; try done; by rewrite !(proj2 (Z.eqb_neq x _)) by done.
Qed.

Section Whole.
Variable function : Z -> x64_machine -> x64_machine.
Variables call_return vm_return : Z.
Hypothesis abi : ∀ target, obeys windows (in_frame m) (function target).

(** What the fifth argument returns with, in rax the slot for the return
    address in the guest. *)
Definition retaddr_called : x64_machine := call function call_return fifth (t_run (vm_entry_save windows) m).
Hypothesis way_back : u64 vm_return.
Hypothesis slots : ∀ p, p = rg m A3 \/ p = rg retaddr_called Register.RAX ->
  0 <= p < 2 ^ 64 ∧ ∀ a, on_slot p a -> ~ in_saves m a.

(** The first handler is entered with the CPU, the address and the instruction,
    and the way back on the stack, in [*host_retaddr] and in the slot. *)
Definition handler_entered (e : x64_machine) : Prop :=
  rg e A0 = rg m A0 ∧ rg e A1 = rg m A1 ∧ rg e A2 = rg m A2 ∧ rg e Register.R12 = rg m A0 ∧ rg e Register.R13 = rg m A2 ∧
  rg e Register.RSP = top - 0x20 - shadow ∧
  mem e = store 8 (store 8 (store 8 (mem retaddr_called) (top - 0x20 - shadow) vm_return) (rg m A3) vm_return)
            (rg retaddr_called Register.RAX) vm_return ∧
  rg e Register.R10 = wrap 59 (load 8 (mem e) (wrap64 (rg m A2))).

Lemma shadow_bounds : 0 <= shadow <= 0x20.
Proof. unfold shadow. destruct windows; lia. Qed.

Lemma scratch_kept : ∀ x, x ∈ [Register.RBP; Register.R12; Register.R13] -> is_callee_saved_gpr windows x = true.
Proof.
  apply Forall_forall. destruct windows; repeat (apply Forall_cons; split; [done|]); by apply Forall_nil.
Qed.

Lemma called_entered s : s = t_run (vm_entry_save windows) m ->
  entered (0x28 + shadow) (call function call_return fifth s) ∧ frame_ok (mem (call function call_return fifth s)).
Proof.
  intros Es. destruct (x64_save_spec s Es) as (S1 & S2 & S3 & S4 & S5 & S6 & S7). clear Es.
  pose proof shadow_bounds as Hsh. destruct (abi fifth) as [A B C]. unfold call.
  set (q := push_value call_return s) in *.
  assert (rg q Register.RSP = top - 0x30 - shadow) as Hq.
  { unfold q, push_value. cbn [set_mem set_r rg]. rewrite upd_same, S2. rewrite wrap_small; unfold fits; lia. }
  assert (∀ x, is_callee_saved_gpr windows x = true -> rg q x = rg s x) as Hqx.
  { intros x Hx. unfold q, push_value. cbn [set_mem set_r rg]. apply upd_other. intros ->.
    unfold is_callee_saved_gpr in Hx. by destruct windows. }
  assert (frame_ok (mem q)) as Hfq.
  { apply (frame_ext (mem s)); [|done]. intros a Ha. unfold q, push_value. cbn [set_mem set_r mem rg]. unfold store.
    rewrite S2, (wrap_small 64) by (unfold fits; lia). rewrite get8_store_bytes, le_bytes_length. unfold in_frame in Ha.
    by rewrite decide_False by lia. }
  assert (frame_ok (mem (function fifth q))) as Hf by (by apply (frame_ext (mem q)); [intros a Ha; apply C|]).
  split; [|done]. unfold entered. rewrite B, Hq, !A, !Hqx by (apply scratch_kept; in_list). split_and!; try done.
  - rewrite wrap_small; unfold fits; lia.
  - intros x Hx. rewrite A, Hqx by apply Hx. apply S6. apply kept_not_scratch in Hx. unfold scratch in Hx.
    rewrite !not_elem_of_cons in *. tauto.
  - apply Hf.
Qed.

Lemma x64_start_spec e : e = vm_entry_start windows function call_return vm_return m ->
  handler_entered e ∧ entered (0x20 + shadow) e.
Proof.
  intros He. unfold vm_entry_start in He. cbv zeta in He. remember (t_run (vm_entry_save windows) m) as s eqn:Es.
  destruct (x64_save_spec s Es) as (S1 & _). destruct (called_entered s Es) as [Hc Hf]. rewrite S1 in He.
  assert (retaddr_called = call function call_return fifth s) as Hret by (unfold retaddr_called; by rewrite <- Es).
  rewrite <- Hret in *. clear Hret Es S1. remember (t_run (vm_entry_args windows) retaddr_called) as g eqn:Eg.
  destruct (x64_args_spec _ g Hf Hc Eg) as (G0 & G1 & G2 & G3 & G4 & G5 & G6). clear Eg.
  destruct (slots _ (or_introl eq_refl)) as [P1 P2], (slots _ (or_intror eq_refl)) as [Q1 Q2].
  destruct (x64_enter_spec vm_return g e) as (V1 & V2 & V3 & V4); rewrite ?G4, ?G5; try done.
  { intros a [Ha|Ha]; [by apply P2|by apply Q2]. }
  split; [|done]. destruct V1 as (E1 & E2 & E3 & _). unfold handler_entered.
  rewrite !V3, V4, G4, G5, G6 by in_list. rewrite E1. split_and!; try done; [lia|]. by rewrite V2, V4, G4, G5, G6.
Qed.

Lemma x64_entry_spec handlers e m' :
  (∀ a x r, kept r -> rg (handlers a x) r = rg x r) -> (∀ a x, rg (handlers a x) Register.RSP = rg x Register.RSP) ->
  (∀ a x b, in_saves m b -> get8 (mem (handlers a x)) b = get8 (mem x) b) ->
  e = vm_entry_start windows function call_return vm_return m ->
  m' = aether_vm_entry windows function call_return vm_return handlers m ->
  handler_entered e ∧ (∀ r, is_callee_saved_gpr windows r = true -> rg m' r = rg m r) ∧ rg m' Register.RSP = top ∧
  load 8 (mem m') top = load 8 (mem m) top ∧ mem m' = mem (handlers (rg e Register.R10) e).
Proof.
  intros Hx Hs Hm He Hm'. destruct (x64_start_spec e He) as [Hent (E1 & _ & _ & E4 & E5)].
  unfold aether_vm_entry in Hm'. rewrite <- He in Hm'. clear He. split; [done|].
  destruct (x64_restore_spec (handlers (rg e Register.R10) e) m') as (R1 & R2 & R3 & R4); [by rewrite Hs| | |done|].
  - intros x Hk. rewrite Hx by done. by apply E4.
  - apply (saves_ext (mem e)); [|done]. intros a Ha. by apply Hm.
  - done.
Qed.
End Whole.
End Entry.

(** * The trampoline of an event *)

Section Event.
Variable windows : bool.
Variable m : x64_machine.
Abbreviation top := (rg m Register.RSP).

(** Where rbp is pushed. *)
Definition in_slot (a : Z) : Prop := top - 8 <= a < top.

Lemma x64_event_args e : 0x30 <= top < 2 ^ 64 -> u64 (rg m Register.RBP) -> e = t_run (event_args windows) m ->
  rg e Register.RSP = top - (if windows then 0x28 else 8) ∧
  (∀ r, is_callee_saved_gpr windows r = true -> rg e r = rg m r) ∧
  (windows = false -> load 8 (mem e) (top - 8) = rg m Register.RBP) ∧
  rg e (ARGREG_0 windows) = rg m Register.R12 ∧ rg e (ARGREG_1 windows) = 0 ∧ rg e (ARGREG_2 windows) = rg m Register.R13 ∧
  (∀ a, ~ in_slot a -> get8 (mem e) a = get8 (mem m) a).
Proof.
  intros Hst Hbp ->. unfold event_args, in_slot.
  assert (∀ r, is_callee_saved_gpr windows r = true ->
    r ∉ [Register.RSP; ARGREG_0 windows; ARGREG_1 windows; ARGREG_2 windows]) as Hn.
  { intros r. apply saved_not. none_saved windows. }
  unfold ARGREG_0, ARGREG_1, ARGREG_2 in *. destruct windows; run_code; flat; split_and!; try done.
  1, 2: intros r Hr; apply Hn in Hr; rewrite !not_elem_of_cons in Hr; by rewrite !(proj2 (Z.eqb_neq r _)) by tauto.
  - intros _. rewrite load_store. by apply Z.mod_small.
  - intros a Ha. unfold store. by rewrite get8_store_bytes, le_bytes_length, decide_False by lia.
Qed.

(** Behind the call the function's result is the next instruction. *)
Lemma x64_event_next r e : rg r Register.RSP = top - (if windows then 0x28 else 8) -> 0x30 <= top < 2 ^ 64 ->
  (windows = false -> load 8 (mem r) (top - 8) = rg m Register.RBP) ->
  (∀ x, is_callee_saved_gpr windows x = true -> rg r x = rg m x) -> e = t_run (event_next windows) r ->
  rg e Register.R13 = rg r Register.RAX ∧ rg e (ARGREG_0 windows) = rg m Register.R12 ∧
  rg e (ARGREG_2 windows) = rg r Register.RAX ∧
  rg e (ARGREG_1 windows) = load 8 (mem r) (wrap64 (load 8 (mem r) (wrap64 (rg m Register.R12 - 0x10)))) ∧
  rg e Register.R10 = wrap 59 (load 8 (mem r) (wrap64 (rg r Register.RAX))) ∧ mem e = mem r ∧
  rg e Register.RSP = top ∧ ∀ x, is_callee_saved_gpr windows x = true -> x <> Register.R13 -> rg e x = rg m x.
Proof.
  intros Hsp Hst Hbp Hk ->. rewrite <- (Hk Register.R12) by by destruct windows.
  assert (∀ x, is_callee_saved_gpr windows x = true ->
    x ∉ [Register.RSP; Register.R10; ARGREG_0 windows; ARGREG_1 windows; ARGREG_2 windows]) as Hn.
  { intros x. apply saved_not. none_saved windows. }
  unfold event_next, ARGREG_0, ARGREG_1, ARGREG_2 in *. destruct windows; run_code; rewrite Hsp; flat;
    rewrite !Z.add_0_r, !drop_tag; split_and!; try done; try lia.
  1: intros x Hx H13; pose proof (Hn x Hx) as Hne; rewrite !not_elem_of_cons in Hne;
     rewrite !(proj2 (Z.eqb_neq x _)) by tauto; by apply Hk.
  intros x Hx H13. destruct (decide (x = Register.RBP)) as [->|]; [reg_eqb; by apply Hbp|].
  pose proof (Hn x Hx) as Hne; rewrite !not_elem_of_cons in Hne;
    rewrite !(proj2 (Z.eqb_neq x _)) by tauto; by apply Hk.
Qed.
End Event.

(** * Properties *)

(** C25: on x86_64, for either calling convention, [aether_vm_entry] enters the
    first handler with the CPU, the address and the instruction as arguments and
    in r12 and r13, and the return address on the stack, in the slot it was given
    and in the guest's; and when the handlers have come back there, it is about
    to return to its caller with the stack pointer, all callee-saved registers
    and the return address as they were, whatever the handlers did to r12, r13
    and rbp. *)
Theorem x64_vm_entry_returns windows m function call_return vm_return handlers :
  0x58 <= rg m Register.RSP ∧ rg m Register.RSP + 0x30 <= 2 ^ 64 ->
  (∀ r, r = ARGREG_1 windows \/ r = ARGREG_3 windows \/ is_callee_saved_gpr windows r = true -> u64 (rg m r)) ->
  (∀ target, obeys windows (in_frame m) (function target)) -> u64 vm_return ->
  (∀ p, p = rg m (ARGREG_3 windows) \/ p = rg (retaddr_called windows m function call_return) Register.RAX ->
     0 <= p < 2 ^ 64 ∧ ∀ a, on_slot p a -> ~ in_saves m a) ->
  (∀ a x r, kept windows r -> rg (handlers a x) r = rg x r) ->
  (∀ a x, rg (handlers a x) Register.RSP = rg x Register.RSP) ->
  (∀ a x b, in_saves m b -> get8 (mem (handlers a x)) b = get8 (mem x) b) ->
  let e := vm_entry_start windows function call_return vm_return m in
  let m' := aether_vm_entry windows function call_return vm_return handlers m in
  handler_entered windows m function call_return vm_return e ∧
  (∀ r, is_callee_saved_gpr windows r = true -> rg m' r = rg m r) ∧ rg m' Register.RSP = rg m Register.RSP ∧
  load 8 (mem m') (rg m Register.RSP) = load 8 (mem m) (rg m Register.RSP) ∧
  mem m' = mem (handlers (rg e Register.R10) e).
Proof. intros Hst Hv Habi Hret Hsl Hx Hs Hm e m'. by apply x64_entry_spec. Qed.

(** The trampoline of an event on x86_64 calls the host function with the
    CPU and the current instruction, and goes to the handler of the instruction
    it returns, with the stack pointer and the callee-saved registers but r13 as
    they were. *)
Theorem x64_event_trampoline windows m function call_return host_n :
  0x30 <= rg m Register.RSP < 2 ^ 64 -> u64 (rg m Register.RBP) ->
  obeys windows (in_slot m) (function host_n) ->
  let a := t_run (event_args windows) m in
  let r := call function call_return host_n a in
  let e := event_vm windows function call_return host_n m in
  rg a (ARGREG_0 windows) = rg m Register.R12 ∧ rg a (ARGREG_2 windows) = rg m Register.R13 ∧
  rg e Register.R13 = rg r Register.RAX ∧ rg e (ARGREG_0 windows) = rg m Register.R12 ∧
  rg e (ARGREG_2 windows) = rg r Register.RAX ∧
  rg e (ARGREG_1 windows) = load 8 (mem r) (wrap64 (load 8 (mem r) (wrap64 (rg m Register.R12 - 0x10)))) ∧
  rg e Register.R10 = wrap 59 (load 8 (mem r) (wrap64 (rg r Register.RAX))) ∧ mem e = mem r ∧
  rg e Register.RSP = rg m Register.RSP ∧
  ∀ x, is_callee_saved_gpr windows x = true -> x <> Register.R13 -> rg e x = rg m x.
Proof.
  intros Hst Hbp [Sv Sp Sm]. cbv zeta. remember (t_run (event_args windows) m) as a eqn:Ea.
  destruct (x64_event_args windows m a Hst Hbp Ea) as (A1 & A2 & A3 & A4 & _ & A6 & _).
  split; [done|]. split; [done|]. unfold event_vm. rewrite <- Ea. clear Ea.
  remember (call function call_return host_n a) as r eqn:Er. set (q := push_value call_return a).
  assert (rg q Register.RSP = rg m Register.RSP - (if windows then 0x28 else 8) - 8) as Hq.
  { unfold q, push_value. cbn [set_mem set_r rg]. rewrite upd_same, A1. rewrite wrap_small; [done|].
    unfold fits. destruct windows; lia. }
  apply (x64_event_next windows m r); try done; rewrite Er; unfold call; fold q.
  - rewrite Sp, Hq. rewrite wrap_small; [lia|]. unfold fits. destruct windows; lia.
  - intros Hw. rewrite <- (A3 Hw). transitivity (load 8 (mem q) (rg m Register.RSP - 8)).
    + apply load_ext. intros x Hx. apply Sm. unfold in_slot. lia.
    + unfold q, push_value. cbn [set_mem set_r mem]. apply load_store_disjoint. rewrite A1, Hw.
      rewrite wrap_small; unfold fits; lia.
  - intros x Hx. rewrite Sv by done. unfold q, push_value. cbn [set_mem set_r rg]. rewrite upd_other; [by apply A2|].
    intros ->. by destruct windows.
Qed.

(** ** Closed instances *)

(** A function that returns a number, and handlers that write the registers they
    may. *)
Definition sample_function (v target : Z) (m : x64_machine) : x64_machine :=
  set_r (set_r m Register.RSP (wrap64 (rg m Register.RSP + 8))) Register.RAX v.
Definition sample_handlers (a : Z) (m : x64_machine) : x64_machine :=
  set_r (set_r (set_r m Register.R12 a) Register.R13 5) Register.RBP 6.
Definition sample_host : x64_machine :=
  mkX64 (fun r => if r =? Register.RSP then 0x1000 else if r =? Register.RCX then 0x20000 else 0x30000) ∅.

Lemma sample_obeys windows keep v target : obeys windows keep (sample_function v target).
Proof.
  constructor; [|done|done]. intros m r Hr. unfold sample_function. cbn [set_r rg].
  rewrite !upd_other; [done|intros ->; by destruct windows..].
Qed.

Lemma sample_host_value r : u64 (rg sample_host r).
Proof. unfold sample_host, fits. cbn [rg]. destruct (r =? Register.RSP); [lia|]. destruct (r =? Register.RCX); lia. Qed.

Theorem x64_vm_entry_returns_witness :
  let e := vm_entry_start false (sample_function 0x40000) 0x90000 0x91000 sample_host in
  let m' := aether_vm_entry false (sample_function 0x40000) 0x90000 0x91000 sample_handlers sample_host in
  handler_entered false sample_host (sample_function 0x40000) 0x90000 0x91000 e ∧
  (∀ r, is_callee_saved_gpr false r = true -> rg m' r = rg sample_host r) ∧
  rg m' Register.RSP = rg sample_host Register.RSP ∧
  load 8 (mem m') (rg sample_host Register.RSP) = load 8 (mem sample_host) (rg sample_host Register.RSP) ∧
  mem m' = mem (sample_handlers (rg e Register.R10) e).
Proof.
  apply x64_vm_entry_returns.
  - change (rg sample_host Register.RSP) with 0x1000. lia.
  - intros r _. apply sample_host_value.
  - intros target. apply sample_obeys.
  - done.
  - intros p Hp. assert (p = 0x20000 \/ p = 0x40000) as Hp' by done. split; [lia|].
    intros a. unfold on_slot, in_saves. change (rg sample_host Register.RSP) with 0x1000. lia.
  - intros a x r [_ Hr]. unfold sample_handlers. cbn [set_r rg]. rewrite !not_elem_of_cons in Hr.
    rewrite !upd_other; tauto.
  - done.
  - done.
Defined.

Theorem x64_event_trampoline_witness :
  rg (event_vm true (sample_function 0x40000) 0x90000 0x80000 sample_host) Register.R13 = 0x40000.
Proof.
  destruct (x64_event_trampoline true sample_host (sample_function 0x40000) 0x90000 0x80000) as (_ & _ & H & _).
  - change (rg sample_host Register.RSP) with 0x1000. lia.
  - apply sample_host_value.
  - apply sample_obeys.
  - exact H.
Defined.
