(* ===== verification/Lifter.v ===== *)
(** src/Lifter.{h,cpp} without the code LLVM and remill generate: the table of
    dynamic handlers by opcode, lifting an opcode into a named function of the
    module (or emitting it as the host's own code), and binding the functions of
    the compiled object to the table. Decoding, lifting, compiling and the page
    allocator are parameters. *)
From Stdlib Require Import ZArith Lia List String Ascii.
From stdpp Require Import base list gmap strings.
From S2P Require Import Prelude Utils StateMem CPUState AArch64 X86 UtilsAArch64 Emit NativeA64 NativeX64 Handler Event.
#[local] Open Scope string_scope.
#[local] Open Scope Z_scope.

(** * Opcodes and names *)

(** [HandlerDynamic]: the bytes of the opcode in a zeroed array of 16. *)
Definition opc16 (opcode : list Z) : list Z := (opcode ++ replicate (16 - length opcode) 0)%list.

Definition dyn_prefix : string := "aethervm_".
(** [std::format("{:02x}", b)]. *)
Definition hex2 (b : Z) : string := hex_digit (b / 16) ++ hex_digit (b mod 16).
Definition handler_name (opcode : list Z) : string := dyn_prefix ++ String.concat "" (hex2 <$> opcode).

Definition first_char (s : string) : option ascii := match s with "" => None | String c _ => Some c end.
Definition isxdigit (c : ascii) : bool :=
  let n := Z.of_nat (nat_of_ascii c) in
  ((48 <=? n) && (n <=? 57)) || ((65 <=? n) && (n <=? 70)) || ((97 <=? n) && (n <=? 102)).

(** [std::map::insert]: a key that is there keeps its value. *)
Definition insert_new {V} (m : gmap string V) (k : string) (v : V) : gmap string V :=
  match m !! k with Some _ => m | None => <[k := v]> m end.

(** * The lifter *)

(** What a function of the module does: the raw opcode between code that swaps
    registers, or what remill lifted, ending in a return or the error call. *)
Inductive body := Native (asmbody : string) | Remill (opcode : list Z) (returns : bool).

(** [handlers] and [dynhandlers] are static, the functions and trampolines are
    the module's; [name_handlers] is the object's own. *)
Record lifter := mkLifter {
  handlers : gmap (list Z) Z;
  dynhandlers : gmap Z Z;
  name_handlers : gmap string (list Z);
  functions : list (string * body);
  trampolines : gmap string Z
}.

(** The constructor, over what is static and in the module. *)
Definition Lifter_new (l : lifter) : lifter :=
  mkLifter (handlers l) (dynhandlers l) ∅ (functions l) (trampolines l).

(** * Native code *)

(** The host: its architecture, its calling convention, the layout of the
    state and LLVM's numbers of registers. *)
Record native_host := mkHost {
  h_arch : arch_t; h_windows : bool; h_a64 : A64Layout; h_x86 : X86Layout;
  h_llvm : LlvmNumbers; h_x86_num : X86Numbers
}.

(** The body of [emitAArch64] and [emitX64]. *)
Definition native_handler (host : native_host) (inst : list mc_operand) (opcode : list Z) : exec string :=
  match h_arch host with
  | ARM64 => @nativeHandlerAArch64 (h_a64 host) (@UtilsAArch64.parse_regused (h_llvm host) inst) opcode
  | X64 =>
      regused ← @NativeX64.parse_regused (h_x86_num host) inst;
      @nativeHandlerX64 (h_x86 host) (h_windows host) regused opcode true
  end.

(** [bin->archType()] is the architecture the program was built for. *)
Definition native_arch (guest : arch_t) (host : native_host) : bool :=
  match guest, h_arch host with ARM64, ARM64 | X64, X64 => true | _, _ => false end.

Section Transform.
Context {W : Type}.
Variable eventCallbacks : list (callback (S := W)).
(** [inst.IsValid()], whether [LiftIntoBlock] lifts, and the functions that the
    lifted code calls. *)
Variables (decodes lifts : list Z -> bool) (called : list Z -> list string).
Variable host : native_host.
(** The loaded tables of semantic functions and of intrinsics. *)
Variable hash_value : string -> Z.
Variables isel_handlers intrinsic : list Handler.
(** The architecture of the binary; the address of [abort]. *)
Variables (guest : arch_t) (abort : Z).

Definition canLift (opcode : list Z) : bool := if decodes opcode then lifts opcode else false.

(** Before lifting: a callback may process the event, having changed its
    opcode; should it have changed the variant, the reference dangles. *)
Definition lift_before (opcode : list Z) (addr : Z) (s : W) : exec (list Z * Event * W) :=
  let event := EventLift LiftBefore addr opcode "" in
  if hasEventHandler eventCallbacks then
    let '(result, event, s) := handleEvent eventCallbacks event s in
    match event with
    | EventLift _ _ opcode' _ => Ret (if decide (result = Processed) then opcode' else opcode, event, s)
    | _ => Undef
    end
  else Ret (opcode, event, s).

(** [event.type = LiftAfter; event.name = name; handleEvent]. *)
Definition lift_after (name : string) (event : Event) (s : W) : exec (Event * W) :=
  if hasEventHandler eventCallbacks then
    match event with
    | EventLift _ addr opcode _ =>
        let '(_, event, s) := handleEvent eventCallbacks (EventLift LiftAfter addr opcode name) s in Ret (event, s)
    | _ => Undef
    end
  else Ret (event, s).

(** [find_target]. *)
Definition find_target (table : list Handler) (name : string) : exec Z :=
  r ← find_impl hash_value table name; Ret (default abort r).

(** The trampolines of the functions that the lifted code calls. *)
Fixpoint trampoline_calls (names : list string) (t : gmap string Z) (event : Event) (s : W)
    : exec (gmap string Z * Event * W) :=
  match names with
  | [] => Ret (t, event, s)
  | name :: names' =>
      if starts_with dyn_prefix name then trampoline_calls names' t event s
      else if decide (first_char name = Some "."%char) then
        let iselname := drop_chars 6 name in
        target ← find_target isel_handlers iselname;
        es ← lift_after (if target =? abort then "abort" else iselname) event s;
        trampoline_calls names' (insert_new t (dyn_prefix ++ name) target) es.1 es.2
      else
        target ← find_target intrinsic name;
        trampoline_calls names' (insert_new t (dyn_prefix ++ name) target) event s
  end.

Definition add_function (l : lifter) (name : string) (b : body) : lifter :=
  mkLifter (handlers l) (dynhandlers l) (name_handlers l) (functions l ++ [(name, b)]) (trampolines l).

(** The body of a function whose opcode remill does not decode or lift. *)
Definition lift_remill (opcode : list Z) (name : string) (l : lifter) (event : Event) (s : W) : exec (lifter * W) :=
  r ← trampoline_calls (called opcode) (trampolines l) event s;
  let '(t, _, s) := r in
  let l := add_function l name (Remill opcode (lifts opcode)) in
  Ret (mkLifter (handlers l) (dynhandlers l) (name_handlers l) (functions l) t, s).

Definition lift_native (inst : list mc_operand) (opcode : list Z) (name : string) (l : lifter) (s : W)
    : exec (lifter * W) :=
  asmbody ← native_handler host inst opcode; Ret (add_function l name (Native asmbody), s).

Definition lift_body (inst : list mc_operand) (opcode : list Z) (name : string) (l : lifter) (event : Event) (s : W)
    : exec (lifter * W) :=
  es ← (if decodes opcode then Ret (event, s) else lift_after "AetherVM_NativeImpl" event s);
  if negb (decodes opcode) && native_arch guest host then lift_native inst opcode name l es.2
  else
    es ← (if lifts opcode then Ret es else lift_after "AetherVM_NativeImpl" es.1 es.2);
    if negb (lifts opcode) && native_arch guest host then lift_native inst opcode name l es.2
    else lift_remill opcode name l es.1 es.2.

Definition transform (inst : list mc_operand) (opcode : list Z) (addr : Z) (l : lifter) (s : W)
    : exec (lifter * W) :=
  match handlers l !! opc16 opcode with
  | Some _ => Ret (l, s) (* already lifted *)
  | None =>
      r ← lift_before opcode addr s;
      let '(opcode', event, s) := r in
      let name := handler_name opcode' in
      let l := mkLifter (<[opc16 opcode := abort]> (handlers l)) (dynhandlers l)
                 (insert_new (name_handlers l) name (opc16 opcode)) (functions l) (trampolines l) in
      lift_body inst opcode' name l event s
  end.

(** Lifting a sequence of instructions with their addresses. *)
Fixpoint transform_all (insns : list (list mc_operand * list Z * Z)) (l : lifter) (s : W) : exec (lifter * W) :=
  match insns with
  | [] => Ret (l, s)
  | (inst, opcode, addr) :: insns' => r ← transform inst opcode addr l s; transform_all insns' r.1 r.2
  end.
End Transform.

(** * Binding the compiled object *)

Record reloc := mkReloc { r_offset : Z; r_value : option Z; r_name : option string }.
Record osection := mkOSect { s_name : option string; s_relocs : list reloc; s_contents : option (list Z); s_address : Z }.
(** A symbol: whether it is a defined function, as far as can be told. *)
Record osymbol := mkOSym { y_function : bool; y_addr : option Z; y_name : option string }.
Record object := mkObj { o_sections : list osection; o_symbols : list osymbol }.

Definition contains (part : string) (s : string) : bool :=
  match String.index 0 part s with Some _ => true | None => false end.

(** What the loop over the sections collects: calls to fix, jumps among them,
    the text and its address. *)
Record scan := mkScan { relocrefs : list (Z * Z); jumps : list Z; textbuff : list Z; textaddr : Z }.

(** [std::map::insert] of an offset: in order, a key that is there keeps its
    value. *)
Fixpoint reloc_insert (from to : Z) (l : list (Z * Z)) : list (Z * Z) :=
  match l with
  | [] => [(from, to)]
  | (f, t) :: l' =>
      if from <? f then (from, to) :: l else if from =? f then l else (f, t) :: reloc_insert from to l'
  end.

Definition scan_reloc (sc : scan) (r : reloc) : scan :=
  match r_value r, r_name r with
  | Some to, Some name =>
      let sc := if contains "__remill" name
                then mkScan (relocrefs sc) (jumps sc ++ [r_offset r]) (textbuff sc) (textaddr sc) else sc in
      if contains dyn_prefix name
      then mkScan (reloc_insert (r_offset r) to (relocrefs sc)) (jumps sc) (textbuff sc) (textaddr sc)
      else sc
  | _, _ => sc
  end.

Definition scan_section (sc : scan) (sect : osection) : scan :=
  match s_name sect with
  | None => sc
  | Some n =>
      let text := String.eqb n ".text" || String.eqb n "__text" in
      if text || String.eqb n ".rela.text" then
        let sc := fold_left scan_reloc (s_relocs sect) sc in
        if text then
          match s_contents sect with
          | Some buff => mkScan (relocrefs sc) (jumps sc) buff (s_address sect)
          | None => sc
          end
        else sc
      else sc
  end.

Definition scan_object (obj : object) : scan := fold_left scan_section (o_sections obj) (mkScan [] [] [] 0).

(** The name of a handler's symbol, without the leading underscore of Mach-O. *)
Definition symbol_name (name : string) : string :=
  match name with String "_" name' => name' | _ => name end.

Definition bind_symbol (names : gmap string (list Z)) (pagestart textaddr : Z) (hs : gmap (list Z) Z) (sym : osymbol)
    : gmap (list Z) Z :=
  match y_function sym, y_addr sym, y_name sym with
  | true, Some addr, Some name =>
      let name := symbol_name name in
      if starts_with dyn_prefix name then
        match first_char (drop_chars 9 name) with
        | Some c =>
            if isxdigit c then
              match names !! name with
              | Some key => <[key := wrap64 (pagestart + addr - textaddr)]> hs
              | None => hs
              end
            else hs
        | None => hs
        end
      else hs
  | _, _, _ => hs
  end.

Section Apply.
(** [page_alloc], [page_commit] read-write and read-execute, and the fix of a
    call or jump in the copied code. *)
Variable page_size : Z.
Variable page_alloc : Z -> Z.
Variable page_commit : Z -> Z -> bool -> bool.
Variable fix_branch : bytes -> Z -> Z -> Z -> bool -> bytes.

Definition apply (obj : option object) (l : lifter) (m : bytes) : lifter * bytes :=
  match obj with
  | None => (l, m)
  | Some obj =>
      let sc := scan_object obj in
      if (length (textbuff sc) =? 0)%nat then (l, m)
      else
        let pagesize := align_up (Z.of_nat (length (textbuff sc))) page_size in
        let pagestart := page_alloc pagesize in
        if negb (page_commit pagestart pagesize false) then (l, m)
        else
          let m := store_bytes m pagestart (textbuff sc) in
          let m := fold_left (fun m r =>
            fix_branch m pagestart r.1 r.2 (negb (bool_decide (r.1 ∈ jumps sc)))) (relocrefs sc) m in
          if negb (page_commit pagestart pagesize true) then (l, m)
          else
            let dyn := match dynhandlers l !! pagestart with
                       | Some _ => dynhandlers l | None => <[pagestart := pagesize]> (dynhandlers l) end in
            (mkLifter (fold_left (bind_symbol (name_handlers l) pagestart (textaddr sc)) (o_symbols obj) (handlers l))
               dyn (name_handlers l) (functions l) (trampolines l), m)
  end.

(** The functions of handlers leave the module. *)
Definition is_dyn (f : string * body) : bool :=
  starts_with dyn_prefix f.1 && match first_char (drop_chars 9 f.1) with Some c => isxdigit c | None => false end.
Definition clear (l : lifter) : lifter :=
  mkLifter (handlers l) (dynhandlers l) (name_handlers l) (filter (fun f => is_dyn f = false) (functions l)) (trampolines l).

(** The destructor compiles the module and binds what comes out. *)
Variable generate_object : list (string * body) -> gmap string Z -> option object.
Definition Lifter_delete (l : lifter) (m : bytes) : lifter * bytes :=
  let '(l, m) := apply (generate_object (functions l) (trampolines l)) l m in (clear l, m).
End Apply.

(** * Lemmas on names *)

Lemma hex_digit_inj a b : 0 <= a < 16 -> 0 <= b < 16 -> hex_digit a = hex_digit b -> a = b.
Proof.
  assert (Forall (fun a => Forall (fun b => hex_digit a = hex_digit b -> a = b) (seqZ 0 16)) (seqZ 0 16)) as Hf.
  { apply (bool_decide_unpack _). by vm_compute. }
  intros Ha Hb. apply (proj1 (Forall_forall _ _) (proj1 (Forall_forall _ _) Hf a ltac:(apply elem_of_seqZ; lia))).
  apply elem_of_seqZ. lia.
Qed.

Lemma hex2_inj a b s s' : u8 a -> u8 b -> hex2 a ++ s = hex2 b ++ s' -> a = b ∧ s = s'.
Proof.
  unfold fits. intros Ha Hb He. unfold hex2 in He.
  assert (∀ x, ∃ c, hex_digit x = String c "") as Hd by (intros x; eexists; reflexivity).
  destruct (Hd (a / 16)) as [c1 E1], (Hd (a mod 16)) as [c2 E2], (Hd (b / 16)) as [d1 F1], (Hd (b mod 16)) as [d2 F2].
  rewrite E1, E2, F1, F2 in He. cbv [String.append] in He. fold String.append in He. injection He as -> -> ->. rewrite <- F1 in E1. rewrite <- F2 in E2.
  split; [|done]. pose proof (Z.div_mod a 16 ltac:(lia)). pose proof (Z.div_mod b 16 ltac:(lia)).
  pose proof (Z.mod_pos_bound a 16 ltac:(lia)). pose proof (Z.mod_pos_bound b 16 ltac:(lia)).
  apply hex_digit_inj in E1; [|split; [apply Z.div_pos; lia|apply Z.div_lt_upper_bound; lia]..].
  apply hex_digit_inj in E2; lia.
Qed.

Lemma hex2_concat_cons b l : String.concat "" (hex2 <$> b :: l) = (hex2 b ++ String.concat "" (hex2 <$> l))%string.
Proof. destruct l; [|done]. cbn. unfold hex2. reflexivity. Qed.

Lemma handler_name_inj a b : Forall u8 a -> Forall u8 b -> handler_name a = handler_name b -> a = b.
Proof.
  unfold handler_name, dyn_prefix. intros Ha Hb He. injection He as He. revert b Hb He.
  induction Ha as [|x a Hx Ha IH]; intros [|y b] Hb He; [done|..]; rewrite ?hex2_concat_cons in He.
  - destruct (String.concat "" (hex2 <$> b)); discriminate He.
  - destruct (String.concat "" (hex2 <$> a)); discriminate He.
  - apply Forall_cons in Hb as [Hy Hb]. apply hex2_inj in He as [-> He]; [|done..]. f_equal. by apply IH.
Qed.

Lemma hex_digit_xdigit a : 0 <= a < 16 -> ∃ c, hex_digit a = String c "" ∧ isxdigit c = true.
Proof.
  assert (Forall (fun a => match hex_digit a with String c "" => isxdigit c | _ => false end = true) (seqZ 0 16)) as Hf
    by (apply (bool_decide_unpack _); by vm_compute).
  intros Ha. apply (proj1 (Forall_forall _ _)) with (x := a) in Hf; [|apply elem_of_seqZ; lia].
  destruct (hex_digit a) as [|c [|]]; try done. by exists c.
Qed.

(** The name of a handler passes the tests of the binding. *)
Lemma handler_name_dyn op : op <> [] -> Forall u8 op ->
  starts_with dyn_prefix (handler_name op) = true ∧ symbol_name (handler_name op) = handler_name op ∧
  ∃ c, first_char (drop_chars 9 (handler_name op)) = Some c ∧ isxdigit c = true.
Proof.
  intros Hne Hop. split; [unfold handler_name; by destruct (String.concat _ _)|]. split; [done|]. destruct op as [|b op]; [done|].
  apply Forall_cons in Hop as [Hb _]. unfold fits in Hb. unfold handler_name. rewrite hex2_concat_cons. unfold hex2.
  destruct (hex_digit_xdigit (b / 16)) as (c & -> & Hc).
  { split; [apply Z.div_pos; lia|apply Z.div_lt_upper_bound; lia]. }
  exists c. split; [done|exact Hc].
Qed.

(** * Lifting without interference *)

Section Lifting.
Context {W : Type}.
Variable eventCallbacks : list (callback (S := W)).
Variables (decodes lifts : list Z -> bool) (called : list Z -> list string).
Variable host : native_host.
Variable hash_value : string -> Z.
Variables isel_handlers intrinsic : list Handler.
Variables (guest : arch_t) (abort : Z).
Abbreviation do_transform := (transform eventCallbacks decodes lifts called host hash_value isel_handlers intrinsic guest abort).
Abbreviation do_transform_all := (transform_all eventCallbacks decodes lifts called host hash_value isel_handlers intrinsic guest abort).

Hypothesis quiet : passive eventCallbacks.
Hypothesis tables : ∀ name, is_Some (match find_impl hash_value isel_handlers name with Ret r => Some r | _ => None end) ∧
  is_Some (match find_impl hash_value intrinsic name with Ret r => Some r | _ => None end).

Lemma find_target_ret name : (∃ t, find_target hash_value abort isel_handlers name = Ret t) ∧
  ∃ t, find_target hash_value abort intrinsic name = Ret t.
Proof.
  unfold find_target. destruct (tables name) as [H1 H2].
  destruct (find_impl _ isel_handlers name); [|by destruct H1..]. destruct (find_impl _ intrinsic name); [|by destruct H2..].
  split; by eexists.
Qed.

Definition lift_event (e : Event) : Prop := ∃ type addr opcode name, e = EventLift type addr opcode name.

Lemma lift_before_quiet opcode addr s : ∃ e, lift_before eventCallbacks opcode addr s = Ret (opcode, e, s) ∧ lift_event e.
Proof.
  unfold lift_before. destruct (hasEventHandler eventCallbacks); [|eexists; split; [reflexivity|by do 4 eexists]].
  destruct (handleEvent_passive eventCallbacks (EventLift LiftBefore addr opcode "") s quiet) as (r & -> & Hr).
  rewrite decide_False by done. eexists. split; [reflexivity|by do 4 eexists].
Qed.

Lemma lift_after_quiet name e s : lift_event e ->
  ∃ e', lift_after eventCallbacks name e s = Ret (e', s) ∧ lift_event e'.
Proof.
  intros He. unfold lift_after. destruct (hasEventHandler eventCallbacks); [|by exists e].
  destruct He as (type & addr & opcode & n & ->).
  destruct (handleEvent_passive eventCallbacks (EventLift LiftAfter addr opcode name) s quiet) as (r & -> & _).
  eexists. split; [reflexivity|by do 4 eexists].
Qed.

Lemma trampoline_calls_quiet names : ∀ t e s, lift_event e -> ∃ t' e',
  trampoline_calls eventCallbacks hash_value isel_handlers intrinsic abort names t e s = Ret (t', e', s) ∧ lift_event e'.
Proof.
  induction names as [|name names IH]; intros t e s He; cbn [trampoline_calls]; [by exists t, e|].
  destruct (starts_with dyn_prefix name); [by apply IH|]. case_decide.
  - destruct (find_target_ret (drop_chars 6 name)) as [(x & ->) _]. cbn [mbind exec_bind].
    destruct (lift_after_quiet (if x =? abort then "abort" else drop_chars 6 name) e s He) as (e' & -> & He').
    cbn [mbind exec_bind fst snd]. by apply IH.
  - destruct (find_target_ret name) as [_ (x & ->)]. cbn [mbind exec_bind]. by apply IH.
Qed.

(** What becomes of an opcode: native code when guest and host agree and
    remill cannot lift it, else what remill makes of it. *)
Definition lifted_body (inst : list mc_operand) (opcode : list Z) : exec body :=
  if negb (decodes opcode && lifts opcode) && native_arch guest host then t ← native_handler host inst opcode; Ret (Native t)
  else Ret (Remill opcode (lifts opcode)).

Lemma lift_body_quiet inst opcode name l e s : lift_event e -> ∃ t,
  lift_body eventCallbacks decodes lifts called host hash_value isel_handlers intrinsic guest abort
    inst opcode name l e s =
  (b ← lifted_body inst opcode;
   Ret (mkLifter (handlers l) (dynhandlers l) (name_handlers l) (functions l ++ [(name, b)])%list t, s)).
Proof.
  intros He. unfold lift_body, lifted_body.
  assert (∀ b : bool, ∀ e, lift_event e -> ∃ e', (if b then Ret (e, s) else lift_after eventCallbacks "AetherVM_NativeImpl" e s) =
    Ret (e', s) ∧ lift_event e') as Hn.
  { intros [] e0 He0; [by exists e0|by apply lift_after_quiet]. }
  destruct (Hn (decodes opcode) e He) as (e1 & -> & He1). cbn [mbind exec_bind fst snd].
  destruct (Hn (lifts opcode) e1 He1) as (e2 & -> & He2).
  assert (∃ t, lift_native host inst opcode name l s = (b ← (t ← native_handler host inst opcode; Ret (Native t));
    Ret (mkLifter (handlers l) (dynhandlers l) (name_handlers l) (functions l ++ [(name, b)])%list t, s))) as (t1 & Hnative).
  { exists (trampolines l). unfold lift_native. by destruct (native_handler host inst opcode). }
  destruct (trampoline_calls_quiet (called opcode) (trampolines l) e2 s He2) as (t2 & e3 & Ht & _).
  unfold lift_remill.
  destruct (decodes opcode), (lifts opcode), (native_arch guest host); cbn [negb andb mbind exec_bind fst snd]; rewrite ?Ht;
    cbn [mbind exec_bind fst snd]; first [by exists t2|by exists t1].
Qed.

Lemma transform_quiet inst opcode addr l s : handlers l !! opc16 opcode = None -> ∃ t,
  do_transform inst opcode addr l s =
  (b ← lifted_body inst opcode;
   Ret (mkLifter (<[opc16 opcode := abort]> (handlers l)) (dynhandlers l)
         (insert_new (name_handlers l) (handler_name opcode) (opc16 opcode))
         (functions l ++ [(handler_name opcode, b)])%list t, s)).
Proof.
  intros Hn. unfold transform. rewrite Hn. destruct (lift_before_quiet opcode addr s) as (e & -> & He).
  cbn [mbind exec_bind]. by apply lift_body_quiet.
Qed.

(** The opcodes of a sequence, and when their bytes tell them apart. *)
Definition opcodes (insns : list (list mc_operand * list Z * Z)) : list (list Z) := (fun i => i.1.2) <$> insns.

Definition opcodes_ok (ops : list (list Z)) : Prop :=
  ∀ a b, a ∈ ops -> b ∈ ops -> Forall u8 a ∧ a <> [] ∧ (opc16 a = opc16 b -> a = b).

(** The lifter after some instructions, from the handlers [hs] of before. *)
Record lifting (hs : gmap (list Z) Z) (insns : list (list mc_operand * list Z * Z)) (l : lifter) : Prop := {
  lf_handlers k : handlers l !! k =
    match hs !! k with
    | Some v => Some v
    | None => if bool_decide (k ∈ opc16 <$> opcodes insns) then Some abort else None
    end;
  lf_names n k : name_handlers l !! n = Some k <->
    ∃ op, op ∈ opcodes insns ∧ n = handler_name op ∧ k = opc16 op ∧ hs !! k = None;
  lf_functions op : op ∈ opcodes insns -> hs !! opc16 op = None ->
    ∃ inst addr b, (inst, op, addr) ∈ insns ∧ lifted_body inst op = Ret b ∧ (handler_name op, b) ∈ functions l
}.

Lemma opcodes_snoc insns i op : op ∈ opcodes (insns ++ [i]) <-> op ∈ opcodes insns \/ op = i.1.2.
Proof. unfold opcodes. rewrite fmap_app, elem_of_app. cbn. by rewrite list_elem_of_singleton. Qed.

Lemma keys_snoc insns i k :
  bool_decide (k ∈ opc16 <$> opcodes (insns ++ [i])) = bool_decide (k ∈ opc16 <$> opcodes insns) || bool_decide (k = opc16 i.1.2).
Proof.
  rewrite <- bool_decide_or. apply bool_decide_ext. rewrite !list_elem_of_fmap. setoid_rewrite opcodes_snoc.
  split; [intros (op & -> & [?| ->]); [left; by exists op|by right]|intros [(op & -> & ?)| ->]; eauto].
Qed.

(** Whether an opcode is already lifted makes no difference to the relation:
    [lifting] of a known opcode, and of a new one. *)
Lemma lifting_known hs insns i l : opcodes_ok (i.1.2 :: opcodes insns) -> lifting hs insns l ->
  is_Some (handlers l !! opc16 i.1.2) -> lifting hs (insns ++ [i]) l.
Proof.
  intros Hok [Hh Hn Hf] [v E].
  assert (hs !! opc16 i.1.2 = None -> i.1.2 ∈ opcodes insns) as Hin.
  { intros Hnone. rewrite Hh, Hnone in E. case_bool_decide as Hb; [|done]. apply list_elem_of_fmap in Hb as (op & Ho & Hop).
    rewrite (proj2 (proj2 (Hok i.1.2 op ltac:(left) ltac:(by right))) Ho). done. }
  split.
  - intros k. rewrite Hh, keys_snoc. destruct (hs !! k) eqn:Ek; [done|].
    case_bool_decide as H1; [done|]. case_bool_decide as H2; [|done]. exfalso. subst.
    apply H1, list_elem_of_fmap. exists i.1.2. auto.
  - intros n k. rewrite Hn. setoid_rewrite opcodes_snoc. split; [intros (op & Hop & Hr); eauto|].
    intros (op & [Hop| ->] & Hr); [by exists op|]. exists i.1.2. split; [|done]. apply Hin.
    by destruct Hr as (_ & -> & ?).
  - intros op Hop Hnone. apply opcodes_snoc in Hop.
    assert (op ∈ opcodes insns) as Hop' by (destruct Hop as [| ->]; auto).
    destruct (Hf op Hop' Hnone) as (j & a & b & Hi & Hb & Hfn). exists j, a, b. split; [apply elem_of_app; by left|done].
Qed.

Lemma lifting_new hs insns inst op addr l b t : opcodes_ok (op :: opcodes insns) -> lifting hs insns l ->
  handlers l !! opc16 op = None -> lifted_body inst op = Ret b ->
  lifting hs (insns ++ [(inst, op, addr)])
    (mkLifter (<[opc16 op := abort]> (handlers l)) (dynhandlers l)
       (insert_new (name_handlers l) (handler_name op) (opc16 op)) (functions l ++ [(handler_name op, b)])%list t).
Proof.
  intros Hok [Hh Hn Hf] E Hb. rewrite Hh in E. destruct (hs !! opc16 op) eqn:Ehs; [done|]. case_bool_decide as Hnew; [done|].
  assert (op ∉ opcodes insns) as Hnin by (intros Hin; apply Hnew, list_elem_of_fmap; by exists op).
  assert (∀ op', op' ∈ opcodes insns -> handler_name op <> handler_name op') as Hne.
  { intros op' Hop' He. apply handler_name_inj in He; [by subst|apply (Hok op op'); [left|by right]|].
    apply (Hok op' op'); by right. }
  assert (name_handlers l !! handler_name op = None) as Hnone.
  { apply eq_None_not_Some. intros [k Hk]. apply Hn in Hk as (op' & Hop' & He & _). by apply (Hne op'). }
  split; cbn [handlers name_handlers functions].
  - intros k. rewrite keys_snoc. cbn [fst snd]. destruct (decide (k = opc16 op)) as [->|Hk].
    + by rewrite lookup_insert_eq, Ehs, orb_comm, bool_decide_true by done.
    + rewrite lookup_insert_ne, Hh, (bool_decide_false (k = _)), orb_false_r by done. done.
  - intros n k. unfold insert_new. rewrite Hnone. setoid_rewrite opcodes_snoc. cbn [fst snd]. split.
    + intros [[<- <-]|[_ Hk]]%lookup_insert_Some; [by exists op; auto|].
      apply Hn in Hk as (op' & Hop' & Hr). exists op'. auto.
    + intros (op' & [Hop'| ->] & -> & -> & Hhs); [|apply lookup_insert_eq].
      rewrite lookup_insert_ne by by apply Hne. apply Hn. by exists op'.
  - intros op' Hop' Hhs. apply opcodes_snoc in Hop' as [Hop'| ->].
    + destruct (Hf op' Hop' Hhs) as (i & a & b' & Hi & Hb' & Hfn). exists i, a, b'.
      split_and!; [apply elem_of_app; by left|done|apply elem_of_app; by left].
    + exists inst, addr, b. split_and!; [apply elem_of_app; right; left|done|apply elem_of_app; right; left].
Qed.

Lemma opcodes_ok_sub ops ops' : ops' ⊆ ops -> opcodes_ok ops -> opcodes_ok ops'.
Proof. intros Hs Hok a b Ha Hb. apply Hok; by apply Hs. Qed.

(** The native code of the new instructions can be made, where there is any. *)
Definition emitted (hs : gmap (list Z) Z) (insns : list (list mc_operand * list Z * Z)) : Prop :=
  ∀ i, i ∈ insns -> hs !! opc16 i.1.2 = None -> ∃ b, lifted_body i.1.1 i.1.2 = Ret b.

Lemma transform_all_lifting hs rest : ∀ insns l s, opcodes_ok (opcodes (insns ++ rest)) -> emitted hs rest ->
  lifting hs insns l ->
  ∃ l', do_transform_all rest l s = Ret (l', s) ∧ lifting hs (insns ++ rest) l'.
Proof.
  induction rest as [|[[inst op] addr] rest IH]; intros insns l s Hok Hem Hl; cbn [transform_all].
  { exists l. by rewrite app_nil_r. }
  rewrite (app_assoc insns [(inst, op, addr)] rest : insns ++ (inst, op, addr) :: rest = _)%list in Hok |- *.
  assert (opcodes_ok (op :: opcodes insns)) as Hok'.
  { apply (opcodes_ok_sub _ _) with (2 := Hok). intros x Hx. unfold opcodes. rewrite !fmap_app, !elem_of_app.
    apply elem_of_cons in Hx as [->|Hx]; [left; right; left|by left; left]. }
  assert (emitted hs rest) as Hem' by (intros i Hi; apply Hem; by right).
  destruct (handlers l !! opc16 op) as [v|] eqn:E.
  - assert (do_transform inst op addr l s = Ret (l, s)) as -> by (unfold transform; by rewrite E). cbn [mbind exec_bind fst snd].
    apply IH; [done..|]. by apply lifting_known.
  - destruct (transform_quiet inst op addr l s E) as (t & ->).
    destruct (Hem (inst, op, addr)) as [b Hb]; [left|pose proof (lf_handlers _ _ _ Hl (opc16 op)) as Hh; cbn [fst snd];
      rewrite E in Hh; by destruct (hs !! opc16 op)|]. cbn [fst snd] in Hb. rewrite Hb. cbn [mbind exec_bind fst snd].
    apply IH; [done..|]. by apply lifting_new.
Qed.

Lemma lifting_start l : lifting (handlers l) [] (Lifter_new l).
Proof.
  split; cbn.
  - intros k. by destruct (handlers l !! k).
  - intros n k. split; [by rewrite lookup_empty|by intros (op & ?%elem_of_nil & _)].
  - by intros op ?%elem_of_nil.
Qed.
End Lifting.

(** * Binding *)

(** The key a symbol is bound to, with its address. *)
Definition binding (names : gmap string (list Z)) (sym : osymbol) : option (list Z * Z) :=
  match y_function sym, y_addr sym, y_name sym with
  | true, Some addr, Some name =>
      let name := symbol_name name in
      if starts_with dyn_prefix name &&
         match first_char (drop_chars 9 name) with Some c => isxdigit c | None => false end
      then (fun key => (key, addr)) <$> names !! name else None
  | _, _, _ => None
  end.

Lemma bind_symbol_binding names pagestart textaddr hs sym : bind_symbol names pagestart textaddr hs sym =
  match binding names sym with Some (k, a) => <[k := wrap64 (pagestart + a - textaddr)]> hs | None => hs end.
Proof.
  unfold bind_symbol, binding. destruct (y_function sym), (y_addr sym) as [a|], (y_name sym) as [n|]; try done.
  destruct (starts_with _ _); [|done]. destruct (first_char _) as [c|]; [|done]. cbn [andb].
  destruct (isxdigit c); [|done]. by destruct (names !! symbol_name n).
Qed.

Section Bind.
Variables (names : gmap string (list Z)) (pagestart textaddr : Z) (k : list Z).
Abbreviation bind_all := (fold_left (bind_symbol names pagestart textaddr)).

Lemma bind_frame syms : ∀ hs, (∀ sym a, sym ∈ syms -> binding names sym <> Some (k, a)) ->
  bind_all syms hs !! k = hs !! k.
Proof.
  induction syms as [|sym syms IH]; intros hs Hs; [done|]. cbn [fold_left].
  rewrite IH by (intros s a Hin; apply Hs; by right). rewrite bind_symbol_binding.
  destruct (binding names sym) as [[k' a]|] eqn:E; [|done]. apply lookup_insert_ne. intros ->.
  by apply (Hs sym a); [left|].
Qed.

Lemma bind_value a syms : ∀ hs, (∀ sym a', sym ∈ syms -> binding names sym = Some (k, a') -> a' = a) ->
  (∃ sym, sym ∈ syms ∧ binding names sym = Some (k, a)) \/ hs !! k = Some (wrap64 (pagestart + a - textaddr)) ->
  bind_all syms hs !! k = Some (wrap64 (pagestart + a - textaddr)).
Proof.
  induction syms as [|sym syms IH]; intros hs Hs Hex; cbn [fold_left].
  { by destruct Hex as [(? & ?%elem_of_nil & _)|]. }
  apply IH; [intros s a' Hin; apply Hs; by right|]. rewrite bind_symbol_binding.
  destruct (binding names sym) as [[k' a']|] eqn:E.
  - destruct (decide (k' = k)) as [->|Hne].
    + right. rewrite lookup_insert_eq. by rewrite (Hs sym a' ltac:(left) E).
    + rewrite lookup_insert_ne by done. destruct Hex as [(s & Hin & Hb)|]; [|by right]. left. exists s. split; [|done].
      apply elem_of_cons in Hin as [->|]; [congruence|done].
  - destruct Hex as [(s & Hin & Hb)|]; [|by right]. left. exists s. split; [|done].
    apply elem_of_cons in Hin as [->|]; [congruence|done].
Qed.
End Bind.

(** What a compiler promises: text, and for every function of the module one
    defined symbol, or several at the same address. *)
Record compiled (symbol_at : object -> string -> Z) (fs : list (string * body)) (obj : object) : Prop := {
  cp_text : textbuff (scan_object obj) <> [];
  cp_complete f : f ∈ fs -> ∃ sym n, sym ∈ o_symbols obj ∧ y_function sym = true ∧
    y_addr sym = Some (symbol_at obj f.1) ∧ y_name sym = Some n ∧ symbol_name n = f.1;
  cp_sound sym n a : sym ∈ o_symbols obj -> y_addr sym = Some a -> y_name sym = Some n -> a = symbol_at obj (symbol_name n)
}.

Lemma binding_some names sym k a : binding names sym = Some (k, a) ->
  ∃ n, y_addr sym = Some a ∧ y_name sym = Some n ∧ names !! symbol_name n = Some k.
Proof.
  unfold binding. destruct (y_function sym), (y_addr sym) as [a'|], (y_name sym) as [n|]; try done.
  destruct (_ && _); [|done]. destruct (names !! symbol_name n) as [k'|] eqn:E; [|done].
  intros [= -> ->]. by exists n.
Qed.

Section Delete.
Variable page_size : Z.
Variable page_alloc : Z -> Z.
Variable page_commit : Z -> Z -> bool -> bool.
Variable fix_branch : bytes -> Z -> Z -> Z -> bool -> bytes.
Variable generate_object : list (string * body) -> gmap string Z -> option object.
Abbreviation delete_lifter := (Lifter_delete page_size page_alloc page_commit fix_branch generate_object).

(** Where the page of an object lies. *)
Definition page_of (obj : object) : Z :=
  page_alloc (align_up (Z.of_nat (length (textbuff (scan_object obj)))) page_size).

Lemma delete_handlers obj l m : generate_object (functions l) (trampolines l) = Some obj ->
  textbuff (scan_object obj) <> [] -> (∀ p n b, page_commit p n b = true) ->
  handlers (delete_lifter l m).1 =
    fold_left (bind_symbol (name_handlers l) (page_of obj) (textaddr (scan_object obj))) (o_symbols obj) (handlers l).
Proof.
  intros Hobj Htext Hcommit. unfold Lifter_delete, apply. rewrite Hobj.
  assert ((length (textbuff (scan_object obj)) =? 0)%nat = false) as ->.
  { apply Nat.eqb_neq. by destruct (textbuff _). }
  rewrite !Hcommit. done.
Qed.

(** Whatever happens, a key that no name leads to keeps its entry. *)
Lemma delete_frame l m k : (∀ n, name_handlers l !! n <> Some k) -> handlers (delete_lifter l m).1 !! k = handlers l !! k.
Proof.
  intros Hk. unfold Lifter_delete, apply. destruct (generate_object _ _) as [obj|]; [|done].
  destruct (_ =? 0)%nat; [done|]. destruct (negb _); [done|]. destruct (negb _); [done|]. cbn [clear handlers fst].
  apply bind_frame. intros sym a _ Hb. apply binding_some in Hb as (n & _ & _ & Hn). by apply (Hk (symbol_name n)).
Qed.

(** When committing fails nothing is bound. *)
Lemma delete_refused l m : (∀ p n b, page_commit p n b = false) -> handlers (delete_lifter l m).1 = handlers l.
Proof.
  intros Hc. unfold Lifter_delete, apply. destruct (generate_object _ _) as [obj|]; [|done].
  destruct (_ =? 0)%nat; [done|]. by rewrite Hc.
Qed.
End Delete.

(** * Later lifters *)

Section Frames.
Context {W : Type}.
Variable eventCallbacks : list (callback (S := W)).
Variables (decodes lifts : list Z -> bool) (called : list Z -> list string).
Variable host : native_host.
Variable hash_value : string -> Z.
Variables isel_handlers intrinsic : list Handler.
Variables (guest : arch_t) (abort : Z).

Lemma lift_body_frame inst opcode name l e s l' s' :
  lift_body eventCallbacks decodes lifts called host hash_value isel_handlers intrinsic guest abort
    inst opcode name l e s = Ret (l', s') -> handlers l' = handlers l ∧ name_handlers l' = name_handlers l.
Proof.
  unfold lift_body. intros Hb. bind_inv Hb. destruct (_ && _).
  - unfold lift_native in Hb. by bind_inv Hb; simplify_eq.
  - bind_inv Hb. destruct (_ && _); [unfold lift_native in Hb; by bind_inv Hb; simplify_eq|].
    unfold lift_remill in Hb. bind_inv Hb. destruct_and?. repeat match goal with p : _ * _ |- _ => destruct p end.
    by simplify_eq.
Qed.

(** A key that has an entry keeps it, and no name leads to it. *)
Lemma transform_all_frame insns k v : ∀ l s l' s', handlers l !! k = Some v -> (∀ n, name_handlers l !! n <> Some k) ->
  transform_all eventCallbacks decodes lifts called host hash_value isel_handlers intrinsic guest abort insns l s
    = Ret (l', s') -> handlers l' !! k = Some v ∧ ∀ n, name_handlers l' !! n <> Some k.
Proof.
  induction insns as [|[[inst op] addr] insns IH]; intros l s l' s' Hv Hn Ht; cbn [transform_all] in Ht; [by simplify_eq|].
  bind_inv Ht. destruct a as [l1 s1]. cbn [fst snd] in Ht. refine (IH _ _ _ _ _ _ Ht); clear IH Ht.
  all: unfold transform in E; destruct (handlers l !! opc16 op) eqn:Eop; [by simplify_eq|].
  all: bind_inv E; repeat match goal with p : _ * _ |- _ => destruct p end.
  all: apply lift_body_frame in E as [Hh Hnm]; cbn [handlers name_handlers] in Hh, Hnm.
  - rewrite Hh, lookup_insert_ne; [done|]. congruence.
  - intros n. rewrite Hnm. unfold insert_new. destruct (name_handlers l !! _); [apply Hn|].
    intros [[_ Hk]|[_ Hk]]%lookup_insert_Some; [congruence|by apply (Hn n)].
Qed.
End Frames.

(** What lifters of any kind make of the tables. *)
Inductive lifter_reach (l : lifter) : lifter -> Prop :=
| reach_refl : lifter_reach l l
| reach_run W (cbs : list (callback (S := W))) decodes lifts called host hash_value isel intrinsic guest abort
    insns s l1 l2 s' page_size page_alloc page_commit fix_branch generate_object m :
    lifter_reach l l1 ->
    transform_all cbs decodes lifts called host hash_value isel intrinsic guest abort insns (Lifter_new l1) s = Ret (l2, s') ->
    lifter_reach l (Lifter_delete page_size page_alloc page_commit fix_branch generate_object l2 m).1.

Lemma entry_final l l' k v : handlers l !! k = Some v -> lifter_reach l l' -> handlers l' !! k = Some v.
Proof.
  intros Hv. induction 1; [done|]. rewrite delete_frame.
  all: eapply transform_all_frame in H0 as [? ?]; [done|exact IHlifter_reach|]; intros n; cbn; by rewrite lookup_empty.
Qed.

(** Lifting, compiling and binding together. *)
Lemma lift_and_bind {W : Type} (cbs : list (callback (S := W))) decodes lifts called host hash_value isel intrinsic
    guest abort page_size page_alloc page_commit fix_branch generate_object symbol_at insns l s m :
  passive cbs -> emitted decodes lifts host guest (handlers l) insns ->
  (∀ name, is_Some (match find_impl hash_value isel name with Ret r => Some r | _ => None end) ∧
     is_Some (match find_impl hash_value intrinsic name with Ret r => Some r | _ => None end)) ->
  opcodes_ok (opcodes insns) -> (∀ p n b, page_commit p n b = true) ->
  (∀ fs t, ∃ obj, generate_object fs t = Some obj ∧ compiled symbol_at fs obj) ->
  ∃ l1 obj, transform_all cbs decodes lifts called host hash_value isel intrinsic guest abort insns (Lifter_new l) s = Ret (l1, s) ∧
    generate_object (functions l1) (trampolines l1) = Some obj ∧
    let l2 := (Lifter_delete page_size page_alloc page_commit fix_branch generate_object l1 m).1 in
    (∀ op, op ∈ opcodes insns -> handlers l !! opc16 op = None ->
       (∃ inst addr b, (inst, op, addr) ∈ insns ∧ lifted_body decodes lifts host guest inst op = Ret b ∧
          (handler_name op, b) ∈ functions l1) ∧
       handlers l2 !! opc16 op = Some (wrap64 (page_of page_size page_alloc obj +
         symbol_at obj (handler_name op) - textaddr (scan_object obj)))) ∧
    (∀ k, k ∉ opc16 <$> opcodes insns \/ is_Some (handlers l !! k) -> handlers l2 !! k = handlers l !! k).
Proof.
  intros Hq He Ht Hok Hc Hg.
  destruct (transform_all_lifting cbs decodes lifts called host hash_value isel intrinsic guest abort Hq Ht
    (handlers l) insns [] (Lifter_new l) s Hok He (lifting_start _ _ _ _ _ l)) as (l1 & Hl1 & Hlift). cbn [app] in Hlift.
  destruct (Hg (functions l1) (trampolines l1)) as (obj & Hobj & Hcomp). exists l1, obj. cbv zeta. split_and!; [done|done| |].
  - intros op Hop Hnew. destruct Hlift as [Hh Hn Hf]. pose proof (Hf op Hop Hnew) as (inst & addr & b & Hin & Hb & Hfn).
    split; [by exists inst, addr, b|]. rewrite (delete_handlers _ _ _ _ _ obj) by (done || apply Hcomp).
    assert (name_handlers l1 !! handler_name op = Some (opc16 op)) as Hname by (apply Hn; by exists op).
    apply bind_value.
    + intros sym a' Hsym (n & Ha & Hyn & Hk)%binding_some. rewrite (cp_sound _ _ _ Hcomp sym n a' Hsym Ha Hyn).
      apply Hn in Hk as (op' & Hop' & Hn' & Hk & _). apply (Hok op op' Hop Hop') in Hk as ->. by rewrite Hn'.
    + left. destruct (cp_complete _ _ _ Hcomp _ Hfn) as (sym & n & Hsym & Hfun & Ha & Hyn & Hn'). cbn [fst] in Ha, Hn'.
      exists sym. split; [done|]. unfold binding. rewrite Hfun, Ha, Hyn, Hn'.
      destruct (handler_name_dyn op) as (D1 & _ & c & D2 & D3); [by apply (Hok op op)..|].
      by rewrite D1, D2, D3, Hname.
  - intros k Hk. rewrite delete_frame.
    + destruct Hlift as [Hh _ _]. rewrite Hh. destruct (handlers l !! k); [done|].
      destruct Hk as [Hk|[? ?]]; [by rewrite bool_decide_false|done].
    + intros n Hn. destruct Hlift as [_ Hnm _]. apply Hnm in Hn as (op & Hop & _ & -> & Hnone).
      destruct Hk as [Hk|[? ?]]; [|congruence]. apply Hk, list_elem_of_fmap. by exists op.
Qed.

(** When the native code of an instruction can be made: always on aarch64, on
    x86_64 when its register operands are ones [canonicalize] or the rows of
    vector registers know, seven at most. *)
Lemma native_handler_arm64 host inst op : h_arch host = ARM64 -> ∃ text, native_handler host inst op = Ret text.
Proof.
  intros Ha. unfold native_handler, nativeHandlerAArch64. rewrite Ha, NativeA64.handler_insns_ret. by eexists.
Qed.

Lemma emitted_arm64 decodes lifts host guest hs insns : h_arch host = ARM64 -> emitted decodes lifts host guest hs insns.
Proof.
  intros Ha i _ _. unfold lifted_body. destruct (_ && _); [|by eexists].
  destruct (native_handler_arm64 host i.1.1 i.1.2 Ha) as [text ->]. by eexists.
Qed.

Lemma native_handler_x64 host inst op names : h_arch host = X64 ->
  omap operand_reg inst = @x86_num (h_x86_num host) <$> names -> Forall (fun n => n ∈ x86_names) names ->
  (length names <= 7)%nat -> ∃ text, native_handler host inst op = Ret text.
Proof.
  intros Ha Hinst Hn Hlen. unfold native_handler. rewrite Ha.
  destruct (@x64_parse_regused_elem (h_x86_num host) names Hn) as (regs & Hregs & Hl & _).
  assert (@NativeX64.parse_regused (h_x86_num host) inst = Ret regs) as ->.
  { rewrite <- Hregs. unfold NativeX64.parse_regused. do 2 f_equal. rewrite Hinst.
    clear. induction names as [|n names IH]; [done|]. cbn. by f_equal. }
  cbn [mbind exec_bind]. unfold nativeHandlerX64, NativeX64.handler_insns.
  destruct (cpu_and_rsp_spec (h_windows host) regs) as (c & st & -> & _); [lia|]. cbn [mbind exec_bind].
  rewrite (mapE_Ret (@NativeX64.load_guest (h_x86 host) c) (@NativeX64.load1 (h_x86 host) c)) by apply x64_load_guest_ret.
  cbn [mbind exec_bind].
  rewrite (mapE_Ret (@NativeX64.save_guest (h_x86 host) c) (@NativeX64.store1 (h_x86 host) c)) by apply x64_save_guest_ret.
  by eexists.
Qed.

Lemma native_handler_x64_aborts host inst op r : h_arch host = X64 -> r ∈ omap operand_reg inst ->
  @NativeX64.parse_reg (h_x86_num host) r = Abort -> native_handler host inst op = Abort.
Proof.
  intros Ha Hr Habort. unfold native_handler. rewrite Ha. unfold NativeX64.parse_regused.
  enough (mapE (@NativeX64.parse_reg (h_x86_num host)) (omap operand_reg inst) = Abort) as -> by done.
  revert Hr. generalize (omap operand_reg inst). intros l. induction l as [|x l IH]; [by intros ?%elem_of_nil|].
  cbn [mapE]. intros [->|Hr]%elem_of_cons; [by rewrite Habort|].
  assert (@NativeX64.parse_reg (h_x86_num host) x = Abort \/ ∃ rs, @NativeX64.parse_reg (h_x86_num host) x = Ret rs)
    as [->|[rs ->]]; [|done|].
  - unfold NativeX64.parse_reg, canonicalize. destruct (x =? _); [right; by eexists|].
    destruct (parse_row _ _); [right; by eexists|]. destruct (switch _ _); [right; by eexists|by left].
  - cbn [mbind exec_bind]. by rewrite IH.
Qed.

Lemma transform_all_app {W : Type} (cbs : list (callback (S := W))) decodes lifts called host hash_value isel intrinsic
    guest abort i1 i2 : ∀ l s,
  transform_all cbs decodes lifts called host hash_value isel intrinsic guest abort (i1 ++ i2) l s =
  (r ← transform_all cbs decodes lifts called host hash_value isel intrinsic guest abort i1 l s;
   transform_all cbs decodes lifts called host hash_value isel intrinsic guest abort i2 r.1 r.2).
Proof.
  induction i1 as [|[[inst op] addr] i1 IH]; intros l s; [done|]. cbn [app transform_all].
  destruct (transform _ _ _ _ _ _ _ _ _ _ _ _ _ l s) as [[l' s']| |]; [|done..]. apply IH.
Qed.

(** * Properties *)

(** C11: lifting instructions and deleting the lifter gives every new opcode
    a handler: a function named after the opcode was added to the module,
    native code exactly when guest and host agree and remill cannot decode or
    lift it; the compiled object's symbol of that name is what the table leads
    to; and the table is otherwise as it was. The callbacks claim no event,
    the opcodes are told apart by their bytes (padded to 16), the searches of
    the semantic tables end, compiler and pages do not fail,
    and where native code is made for a new opcode it can be: on aarch64 always
    ([native_handler_arm64]), on x86_64 for registers [canonicalize] knows
    ([native_handler_x64]; else lifting aborts, [native_abort_ends_lifting]). *)
Theorem lifted_handlers_bound {W : Type} (cbs : list (callback (S := W))) decodes lifts called host hash_value isel intrinsic
    guest abort page_size page_alloc page_commit fix_branch generate_object symbol_at insns l s m :
  passive cbs -> emitted decodes lifts host guest (handlers l) insns ->
  (∀ name, is_Some (match find_impl hash_value isel name with Ret r => Some r | _ => None end) ∧
     is_Some (match find_impl hash_value intrinsic name with Ret r => Some r | _ => None end)) ->
  opcodes_ok (opcodes insns) -> (∀ p n b, page_commit p n b = true) ->
  (∀ fs t, ∃ obj, generate_object fs t = Some obj ∧ compiled symbol_at fs obj) ->
  ∃ l1 obj, transform_all cbs decodes lifts called host hash_value isel intrinsic guest abort insns (Lifter_new l) s = Ret (l1, s) ∧
    generate_object (functions l1) (trampolines l1) = Some obj ∧
    let l2 := (Lifter_delete page_size page_alloc page_commit fix_branch generate_object l1 m).1 in
    (∀ op, op ∈ opcodes insns -> handlers l !! opc16 op = None ->
       (∃ inst addr b, (inst, op, addr) ∈ insns ∧ lifted_body decodes lifts host guest inst op = Ret b ∧
          (handler_name op, b) ∈ functions l1) ∧
       handlers l2 !! opc16 op = Some (wrap64 (page_of page_size page_alloc obj +
         symbol_at obj (handler_name op) - textaddr (scan_object obj)))) ∧
    (∀ k, k ∉ opc16 <$> opcodes insns \/ is_Some (handlers l !! k) -> handlers l2 !! k = handlers l !! k).
Proof. by apply lift_and_bind. Qed.

(** The first new instruction whose native code cannot be made ends the
    program, whatever follows it. *)
Theorem native_abort_ends_lifting {W : Type} (cbs : list (callback (S := W))) decodes lifts called host hash_value isel intrinsic
    guest abort i1 inst op addr i2 l s :
  passive cbs -> emitted decodes lifts host guest (handlers l) i1 ->
  (∀ name, is_Some (match find_impl hash_value isel name with Ret r => Some r | _ => None end) ∧
     is_Some (match find_impl hash_value intrinsic name with Ret r => Some r | _ => None end)) ->
  opcodes_ok (opcodes i1) -> opc16 op ∉ opc16 <$> opcodes i1 -> handlers l !! opc16 op = None ->
  lifted_body decodes lifts host guest inst op = Abort ->
  transform_all cbs decodes lifts called host hash_value isel intrinsic guest abort (i1 ++ (inst, op, addr) :: i2)
    (Lifter_new l) s = Abort.
Proof.
  intros Hq He Ht Hok Hkey Hnew Hb.
  destruct (transform_all_lifting cbs decodes lifts called host hash_value isel intrinsic guest abort Hq Ht
    (handlers l) i1 [] (Lifter_new l) s Hok He (lifting_start _ _ _ _ _ l)) as (l1 & Hl1 & [Hh _ _]). cbn [app] in Hh.
  rewrite transform_all_app, Hl1. cbn [mbind exec_bind fst snd transform_all].
  destruct (transform_quiet cbs decodes lifts called host hash_value isel intrinsic guest abort Hq Ht inst op addr l1 s)
    as (t & ->); [by rewrite Hh, Hnew, bool_decide_false|]. by rewrite Hb.
Qed.

(** When the pages of a lifter cannot be committed, the opcodes it lifted
    keep [abort] as their handler: no later lifter, whatever its callbacks,
    compiler and pages do, lifts or binds them again. *)
Theorem failed_lift_is_final {W : Type} (cbs : list (callback (S := W))) decodes lifts called host hash_value isel intrinsic
    guest abort page_size page_alloc page_commit fix_branch generate_object insns l s m op l' :
  passive cbs -> emitted decodes lifts host guest (handlers l) insns ->
  (∀ name, is_Some (match find_impl hash_value isel name with Ret r => Some r | _ => None end) ∧
     is_Some (match find_impl hash_value intrinsic name with Ret r => Some r | _ => None end)) ->
  opcodes_ok (opcodes insns) -> (∀ p n b, page_commit p n b = false) ->
  op ∈ opcodes insns -> handlers l !! opc16 op = None ->
  ∃ l1, transform_all cbs decodes lifts called host hash_value isel intrinsic guest abort insns (Lifter_new l) s = Ret (l1, s) ∧
    (lifter_reach (Lifter_delete page_size page_alloc page_commit fix_branch generate_object l1 m).1 l' ->
     handlers l' !! opc16 op = Some abort).
Proof.
  intros Hq He Ht Hok Hc Hop Hnew.
  destruct (transform_all_lifting cbs decodes lifts called host hash_value isel intrinsic guest abort Hq Ht
    (handlers l) insns [] (Lifter_new l) s Hok He (lifting_start _ _ _ _ _ l)) as (l1 & Hl1 & [Hh _ _]). cbn [app] in Hh.
  exists l1. split; [done|]. apply entry_final. rewrite delete_refused by done.
  rewrite Hh, Hnew, bool_decide_true; [done|]. apply list_elem_of_fmap. by exists op.
Qed.

(** A lifter of two instructions, on a compiler that gives every function the
    address of its name's length. *)
Definition sample_insns : list (list mc_operand * list Z * Z) :=
  [([], [0x1f; 0x20; 0x03; 0xd5], 0x1000); ([OReg 3], [0; 0; 0; 0x8b], 0x1004); ([], [0x1f; 0x20; 0x03; 0xd5], 0x1008)].
Definition sample_lifter : lifter := mkLifter ∅ ∅ ∅ [] ∅.
Definition sample_host (arch : arch_t) : native_host :=
  mkHost arch false a64_sample x86_sample sample_numbers x86_sample_numbers.
Definition sample_table : list Handler := [mkHandler 7 0x70].
Definition sample_object (fs : list (string * body)) (_ : gmap string Z) : option object :=
  Some (mkObj [mkOSect (Some ".text") [] (Some [0xc0; 0x03; 0x5f; 0xd6]) 0]
    ((fun f => mkOSym true (Some (16 * Z.of_nat (String.length f.1))) (Some (String "_" f.1))) <$> fs)).
Definition sample_symbol_at (_ : object) (name : string) : Z := 16 * Z.of_nat (String.length name).

Lemma sample_compiled fs t : ∃ obj, sample_object fs t = Some obj ∧ compiled sample_symbol_at fs obj.
Proof.
  eexists. split; [reflexivity|]. split; [done|..]; cbn [o_symbols].
  - intros f Hf. exists (mkOSym true (Some (16 * Z.of_nat (String.length f.1))) (Some (String "_" f.1))), (String "_" f.1).
    split; [apply list_elem_of_fmap; by exists f|done].
  - intros sym n a (f & -> & Hf)%list_elem_of_fmap [= <-] [= <-]. done.
Qed.

Lemma sample_tables (name : string) : is_Some (match find_impl (fun _ => 0) sample_table name with Ret r => Some r | _ => None end).
Proof. by eexists. Qed.

Lemma sample_opcodes : opcodes_ok (opcodes sample_insns).
Proof.
  intros a b Ha Hb. repeat (apply elem_of_cons in Ha as [->|Ha]); try by apply elem_of_nil in Ha.
  all: repeat (apply elem_of_cons in Hb as [->|Hb]); try by apply elem_of_nil in Hb.
  all: split_and!; [apply (bool_decide_unpack _); by vm_compute|done|done].
Qed.

Theorem lifted_handlers_bound_witness : ∃ l1 obj,
  transform_all (W := unit) [] (fun _ => true) (fun op => bool_decide (op = [0; 0; 0; 0x8b])) (fun _ => []) (sample_host ARM64)
    (fun _ => 0) sample_table sample_table ARM64 0xdead sample_insns (Lifter_new sample_lifter) tt = Ret (l1, tt) ∧
  handlers (Lifter_delete 0x1000 (fun _ => 0x40000) (fun _ _ _ => true) (fun m _ _ _ _ => m) sample_object l1 ∅).1 !!
    opc16 [0; 0; 0; 0x8b] = Some (wrap64 (page_of 0x1000 (fun _ => 0x40000) obj +
      sample_symbol_at obj (handler_name [0; 0; 0; 0x8b]) - textaddr (scan_object obj))).
Proof.
  destruct (lifted_handlers_bound (W := unit) [] (fun _ => true) (fun op => bool_decide (op = [0; 0; 0; 0x8b])) (fun _ => [])
    (sample_host ARM64) (fun _ => 0) sample_table sample_table ARM64 0xdead 0x1000 (fun _ => 0x40000) (fun _ _ _ => true)
    (fun m _ _ _ _ => m) sample_object sample_symbol_at sample_insns sample_lifter tt ∅) as (l1 & obj & H1 & _ & H2 & _).
  - by intros c e s ?%elem_of_nil.
  - by apply emitted_arm64.
  - intros name. split; apply sample_tables.
  - apply sample_opcodes.
  - done.
  - apply sample_compiled.
  - exists l1, obj. split; [exact H1|]. apply H2; [|done]. apply list_elem_of_further. left.
Defined.

Theorem failed_lift_is_final_witness : ∃ l1,
  transform_all (W := unit) [] (fun _ => true) (fun _ => true) (fun _ => []) (sample_host ARM64)
    (fun _ => 0) sample_table sample_table ARM64 0xdead sample_insns (Lifter_new sample_lifter) tt = Ret (l1, tt) ∧
  handlers (Lifter_delete 0x1000 (fun _ => 0x40000) (fun _ _ _ => false) (fun m _ _ _ _ => m) sample_object l1 ∅).1 !!
    opc16 [0; 0; 0; 0x8b] = Some 0xdead.
Proof.
  destruct (failed_lift_is_final (W := unit) [] (fun _ => true) (fun _ => true) (fun _ => [])
    (sample_host ARM64) (fun _ => 0) sample_table sample_table ARM64 0xdead 0x1000 (fun _ => 0x40000) (fun _ _ _ => false)
    (fun m _ _ _ _ => m) sample_object sample_insns sample_lifter tt ∅ [0; 0; 0; 0x8b]
    (Lifter_delete 0x1000 (fun _ => 0x40000) (fun _ _ _ => false) (fun m _ _ _ _ => m) sample_object
       (match transform_all (W := unit) [] (fun _ => true) (fun _ => true) (fun _ => []) (sample_host ARM64)
          (fun _ => 0) sample_table sample_table ARM64 0xdead sample_insns (Lifter_new sample_lifter) tt with
        | Ret (l, _) => l | _ => sample_lifter end) ∅).1) as (l1 & H1 & H2).
  - by intros c e s ?%elem_of_nil.
  - by apply emitted_arm64.
  - intros name. split; apply sample_tables.
  - apply sample_opcodes.
  - done.
  - apply list_elem_of_further. left.
  - done.
  - exists l1. split; [exact H1|]. rewrite H1 in H2. apply H2. constructor.
Defined.

(** On x86_64 an instruction with a register of no known name. *)
Theorem native_abort_ends_lifting_witness :
  transform_all (W := unit) [] (fun op => bool_decide (op <> [0x0f; 0x20])) (fun _ => true) (fun _ => []) (sample_host X64)
    (fun _ => 0) sample_table sample_table X64 0xdead
    [([], [0x90], 0x1000); ([OReg 100000], [0x0f; 0x20], 0x1001); ([], [0xc3], 0x1003)] (Lifter_new sample_lifter) tt = Abort.
Proof.
  apply (native_abort_ends_lifting (W := unit) [] (fun op => bool_decide (op <> [0x0f; 0x20])) (fun _ => true) (fun _ => [])
    (sample_host X64) (fun _ => 0) sample_table sample_table X64 0xdead [([], [0x90], 0x1000)] [OReg 100000] [0x0f; 0x20] 0x1001
    [([], [0xc3], 0x1003)]).
  - by intros c e s ?%elem_of_nil.
  - intros i ->%list_elem_of_singleton _. by eexists.
  - intros name. split; apply sample_tables.
  - intros a b ->%list_elem_of_singleton ->%list_elem_of_singleton.
    split_and!; [apply (bool_decide_unpack _); by vm_compute|done|done].
  - apply (bool_decide_unpack _). by vm_compute.
  - done.
  - by vm_compute.
Defined.

(** A callback that replaces every opcode by a nop: the opcodes then share one
    name, only the first is bound, the second keeps [abort]. *)
Definition replace_by_nop : callback (S := unit) := fun e s =>
  match e with
  | EventLift LiftBefore addr _ name => (Processed, EventLift LiftBefore addr [0x1f; 0x20; 0x03; 0xd5] name, s)
  | _ => (Continue, e, s)
  end.

Theorem processed_opcodes_collide :
  match transform_all [replace_by_nop] (fun _ => true) (fun _ => true) (fun _ => []) (sample_host ARM64) (fun _ => 0)
    sample_table sample_table ARM64 0xdead [([], [0; 0; 0; 0x8b], 0x1000); ([], [0; 0; 1; 0x8b], 0x1004)]
    (Lifter_new sample_lifter) tt with
  | Ret (l, _) =>
      let hs := handlers (Lifter_delete 0x1000 (fun _ => 0x40000) (fun _ _ _ => true) (fun m _ _ _ _ => m) sample_object l ∅).1 in
      hs !! opc16 [0; 0; 0; 0x8b] = Some (0x40000 + 16 * 17) ∧ hs !! opc16 [0; 0; 1; 0x8b] = Some 0xdead
  | _ => False
  end.
Proof. vm_compute. split; reflexivity. Qed.
