(* ===== verification/AetherVM.v ===== *)
(** The engine's interface, src/AetherVM.cpp: registers with the program
    counter converted to an address of the binary, lifting the text of a
    binary, mapping, lifting and encoding it, and executing it. Disassembling,
    compiling and the system's memory are parameters. *)
From Stdlib Require Import ZArith Lia List String.
From stdpp Require Import base list gmap strings.
From S2P Require Import Prelude Utils Registers StateMem CPUState Memory Orchestrator UtilsAArch64 Handler Event Lifter.
#[local] Open Scope Z_scope.

(** * Binaries *)

(** A section by its static address: where it is in the file, whether it is
    text. [b_sections] is in the order of addresses. *)
Record section := mkSect { sect_addr : Z; sect_foff : Z; sect_size : Z; sect_text : bool }.
Record Binary := mkBinary {
  b_arch : arch_t; b_imageBase : Z; b_sections : list section; b_addrBuff : Z -> Z;
  b_fileBuffer : Z; b_functions : list BFunction
}.

(** * Registers *)

(** What a returned pointer points to: the [pc] member of the CPU, or a place
    in the state; the null pointer is neither. *)
Inductive reg_ptr := PcMember | InState (offset : Z) | NullPtr.

Section Registers.
Context `{A64Layout} `{X86Layout}.
Variables (arch : arch_t) (m_binary m_binary_opcode : option Binary) (basePointer : Z).

Definition with_pc (cpu : CPUState) (v : Z) : CPUState :=
  mkCPU (pcptr cpu) (runtime cpu) (state cpu) v (rvalue cpu) (retaddr cpu) (stack cpu) (stacksize cpu).
Definition with_state (cpu : CPUState) (m : bytes) : CPUState :=
  mkCPU (pcptr cpu) (runtime cpu) m (pc cpu) (rvalue cpu) (retaddr cpu) (stack cpu) (stacksize cpu).

(** [cpu->pcptr[0]]. *)
Definition pcptr_value (cpu : CPUState) : exec Z := p ← of_option Undef (pcptr cpu); Ret (load 8 (state cpu) p).

(** The loop over the sections of the opcode binary, up to the first that is
    neither the one nor text. *)
Fixpoint section_pc (filebuf pcv : Z) (sections : list section) : option Z :=
  match sections with
  | [] => None
  | sect :: sections' =>
      let sectbuf := wrap64 (filebuf + sect_foff sect) in
      let sectend := wrap64 (sectbuf + sect_size sect) in
      if (sectbuf <=? pcv) && (pcv <? sectend) then Some (wrap64 (sect_addr sect + pcv - sectbuf))
      else if sect_text sect then section_pc filebuf pcv sections' else None
  end.

(** [cpu->getRegisterAArch64] or [cpu->getRegisterX86]. *)
Definition get_state_register (cpu : CPUState) (reg : Z) : reg_ptr * CPUState :=
  let '(p, m) := rf_get (RegFile := regfile_of arch) reg (state cpu) in
  (match p with Some o => InState o | None => NullPtr end, with_state cpu m).

Definition getRegister (cpu : CPUState) (reg : Z) (cvtpc : bool) : exec (reg_ptr * CPUState) :=
  if (reg =? Register.PC) && cvtpc then
    match m_binary, m_binary_opcode with
    | Some bin, _ =>
        v ← pcptr_value cpu; Ret (PcMember, with_pc cpu (wrap64 (b_imageBase bin + v - basePointer)))
    | None, Some bin =>
        match b_sections bin with
        | [] => Ret (get_state_register cpu reg)
        | _ =>
            v ← pcptr_value cpu;
            match section_pc (b_fileBuffer bin) v (b_sections bin) with
            | Some a => Ret (PcMember, with_pc cpu a)
            | None => Ret (get_state_register cpu reg)
            end
        end
    | None, None => Ret (get_state_register cpu reg)
    end
  else Ret (get_state_register cpu reg).

(** The value behind the pointer. *)
Definition reg_u8 (cpu : CPUState) (p : reg_ptr) : exec Z :=
  match p with PcMember => Ret (pc cpu) | InState o => Ret (load 8 (state cpu) o) | NullPtr => Undef end.

Definition setRegister (cpu : CPUState) (reg val : Z) : bool * CPUState :=
  let '(ok, m) := rf_set (RegFile := regfile_of arch) reg val (state cpu) in (ok, with_state cpu m).
Definition setRegisterSIMD (cpu : CPUState) (reg : Z) (val : RegisterValueSIMD) : exec (bool * CPUState) :=
  r ← (match arch with ARM64 => setRegisterNEON reg val (state cpu) | X64 => setRegisterSSE reg val (state cpu) end);
  Ret (r.1, with_state cpu r.2).
End Registers.

(** * Lifting the text of a binary *)

(** LLVM, remill, the loaded tables and the system's pages. *)
Record tools := mkTools {
  (* the length of the instruction at the start of 16 bytes, 0 when there is
     none, and the instruction *)
  disassemble : list Z -> Z * list mc_operand;
  defaultSize : Z;
  t_decodes : list Z -> bool; t_lifts : list Z -> bool; t_called : list Z -> list string;
  t_hash : string -> Z; t_isel : list Handler; t_intrinsic : list Handler;
  t_host : native_host; t_abort : Z;
  page_size : Z; page_alloc : Z -> Z; exec_commit : Z -> Z -> bool -> bool;
  fix_branch : bytes -> Z -> Z -> Z -> bool -> bytes;
  generate_object : list (string * body) -> gmap string Z -> option object
}.

Section Lift.
Context {W : Type}.
Variable cbs : list (callback (S := W)).
Variable T : tools.

Definition do_transform (arch : arch_t) (inst : list mc_operand) (opcode : list Z) (addr : Z)
    : lifter -> W -> exec (lifter * W) :=
  transform cbs (t_decodes T) (t_lifts T) (t_called T) (t_host T) (t_hash T) (t_isel T) (t_intrinsic T)
    arch (t_abort T) inst opcode addr.

(** [event.addr = addr], through a reference that dangles once a callback has
    replaced the variant. *)
Definition set_addr (e : Event) (addr : Z) : exec Event :=
  match e with EventRuntime type _ => Ret (EventRuntime type addr) | _ => Undef end.

(** The two loops. [first] is the buffer's start and [addr] its address. *)
Fixpoint lift_arm64 (fuel : nat) (m : bytes) (first addr ptr end_ : Z) (e : Event) (l : lifter) (s : W)
    : exec (lifter * W) :=
  match fuel with
  | O => Ret (l, s)
  | S fuel' =>
      if ptr <? end_ then
        e ← set_addr e (wrap64 (addr + ptr - first));
        let '(oplen, inst) := disassemble T (load_bytes m ptr 16) in
        if oplen =? 4 then
          ls ← do_transform ARM64 inst (load_bytes m ptr 4) (wrap64 (addr + ptr - first)) l s;
          lift_arm64 fuel' m first addr (ptr + 4) end_ e ls.1 ls.2
        else
          let '(_, e, s) := handleEvent cbs e s in
          lift_arm64 fuel' m first addr (ptr + 4) end_ e l s
      else Ret (l, s)
  end.

Fixpoint lift_x64 (fuel : nat) (m : bytes) (first addr ptr end_ : Z) (e : Event) (l : lifter) (s : W)
    : exec (lifter * W) :=
  match fuel with
  | O => Ret (l, s)
  | S fuel' =>
      if ptr <? end_ then
        let '(oplen, inst) := disassemble T (load_bytes m ptr 16) in
        e ← set_addr e (wrap64 (addr + ptr - first));
        if oplen =? 0 then
          let '(_, e, s) := handleEvent cbs e s in
          lift_x64 fuel' m first addr (ptr + defaultSize T) end_ e l s
        else
          ls ← do_transform X64 inst (load_bytes m ptr (Z.to_nat oplen)) (wrap64 (addr + ptr - first)) l s;
          lift_x64 fuel' m first addr (ptr + oplen) end_ e ls.1 ls.2
      else Ret (l, s)
  end.

(** A lifter of its own: made, used, and deleted at the end. *)
Definition liftOpcodes (arch : arch_t) (addr ptr size : Z) (l : lifter) (m : bytes) (s : W)
    : exec (lifter * bytes * W) :=
  let lift := match arch with ARM64 => lift_arm64 | X64 => lift_x64 end in
  ls ← lift (S (Z.to_nat size)) m ptr addr ptr (ptr + size) (EventRuntime InvalidInsn 0) (Lifter_new l) s;
  let '(l, m) := Lifter_delete (page_size T) (page_alloc T) (exec_commit T) (fix_branch T) (generate_object T) ls.1 m in
  Ret (l, m, ls.2).
End Lift.

(** * Mapping and executing a binary *)

Record engine := mkEngine {
  guestMemory : GuestMemory; basicblocks : list BasicBlocks; cache : Cache; lifted : lifter; process : bytes
}.

Section Orchestrate.
Context `{EventFuncs} {W : Type}.
Variable cbs : list (callback (S := W)).
Variable T : tools.
Variable page_commit : Z -> Z -> bool.
Variable memory_write : bytes -> Z -> list Z -> option bytes.
Variable opcode_binary : option OpcodeBinary.
Variable eventConf : EventConfig.

(** Writing a section to its place and lifting it when it is text. *)
Definition orch_section (bin : Binary) (addend : Z) (g : GuestMemory) (sect : section) (st : lifter * bytes * W)
    : exec (lifter * bytes * W) :=
  let '(l, m, s) := st in
  if sect_size sect =? 0 then Ret (l, m, s)
  else
    let sectbuff := b_addrBuff bin (sect_addr sect) in
    let addr := wrap64 (sect_addr sect + addend) in
    let m := (writeMemory memory_write opcode_binary g m addr (load_bytes m sectbuff (Z.to_nat (sect_size sect)))).2 in
    if sect_text sect then liftOpcodes cbs T (b_arch bin) addr sectbuff (sect_size sect) l m s
    else Ret (l, m, s).

Fixpoint orch_sections (bin : Binary) (addend : Z) (g : GuestMemory) (sects : list section) (st : lifter * bytes * W)
    : exec (lifter * bytes * W) :=
  match sects with
  | [] => Ret st
  | sect :: sects' => st ← orch_section bin addend g sect st; orch_sections bin addend g sects' st
  end.

Definition sections_size (sects : list section) : Z := fold_left (fun a s => wrap64 (a + sect_size s)) sects 0.

(** The commit of the size of all the sections. *)
Definition orch_commit (bin : Binary) (addend : Z) (g : GuestMemory) : GuestMemory :=
  (commit page_commit g (wrap64 (b_imageBase bin + addend)) (align_up (sections_size (b_sections bin)) (page_size T))).2.

Definition orchBinary (bin : Binary) (addend : Z) (eng : engine) (s : W) : exec (engine * W) :=
  let g := orch_commit bin addend (guestMemory eng) in
  st ← orch_sections bin addend g (b_sections bin) (lifted eng, process eng, s);
  let '(l, m, s) := st in
  bc ← encode_into (fun opcode => handlers l !! opc16 opcode) (match b_arch bin with ARM64 => true | X64 => false end)
         eventConf addend (b_functions bin) (basicblocks eng) (cache eng);
  Ret (mkEngine g bc.1 bc.2 l m, s).

(** [execute(target)] up to the start of the machine: the address to start at,
    0 when there is none, and the engine it starts in. *)
Definition execute_target (bin : option Binary) (target : Z) (eng : engine) (s : W) : exec (Z * engine * W) :=
  match bin with
  | None => Ret (0, eng, s)
  | Some bin =>
      es ← (if guestAvailable (guestMemory eng) =? basePointer (guestMemory eng)
            then orchBinary bin (basePointer (guestMemory eng)) eng s else Ret (eng, s));
      Ret (mappedAddress opcode_binary (guestMemory es.1) target 1, es.1, es.2)
  end.

(** [execute(raw)], likewise, of the binary made of the raw bytes. *)
Definition execute_raw (bin : option Binary) (eng : engine) (s : W) : exec (Z * engine * W) :=
  match bin with
  | None => Ret (0, eng, s)
  | Some bin =>
      match b_functions bin with
      | [] => Ret (0, eng, s)
      | f :: _ =>
          let vmbase := guestAvailable (guestMemory eng) in
          es ← orchBinary bin vmbase eng s;
          Ret (wrap64 (vmbase + bf_addr f - b_imageBase bin), es.1, es.2)
      end
  end.
End Orchestrate.

(** * The sweep over the text *)

Section Sweep.
Variable T : tools.

(** The instructions a loop comes to, with their bytes and addresses. *)
Fixpoint sweep (arch : arch_t) (fuel : nat) (m : bytes) (first addr ptr end_ : Z) : list (list mc_operand * list Z * Z) :=
  match fuel with
  | O => []
  | S fuel' =>
      if ptr <? end_ then
        let '(oplen, inst) := disassemble T (load_bytes m ptr 16) in
        let here := wrap64 (addr + ptr - first) in
        match arch with
        | ARM64 =>
            (if oplen =? 4 then [(inst, load_bytes m ptr 4, here)] else []) ++
            sweep arch fuel' m first addr (ptr + 4) end_
        | X64 =>
            if oplen =? 0 then sweep arch fuel' m first addr (ptr + defaultSize T) end_
            else (inst, load_bytes m ptr (Z.to_nat oplen), here) :: sweep arch fuel' m first addr (ptr + oplen) end_
        end
      else []
  end.

(** The positions it comes to. *)
Inductive position (arch : arch_t) (m : bytes) (first : Z) : Z -> Prop :=
| pos_first : position arch m first first
| pos_next ptr : position arch m first ptr ->
    position arch m first (ptr +
      match arch with
      | ARM64 => 4
      | X64 => let oplen := (disassemble T (load_bytes m ptr 16)).1 in if oplen =? 0 then defaultSize T else oplen
      end).

(** The length an instruction of the architecture has. *)
Definition insn_len (arch : arch_t) (oplen : Z) : Prop := match arch with ARM64 => oplen = 4 | X64 => oplen <> 0 end.

Record tools_ok : Prop := {
  tk_len w : 0 <= (disassemble T w).1 <= 16;
  tk_default : 0 < defaultSize T;
  (* an instruction is told by its own bytes *)
  tk_prefix w w' n inst : length w = 16%nat -> length w' = 16%nat -> disassemble T w = (n, inst) -> n <> 0 ->
    take (Z.to_nat n) w = take (Z.to_nat n) w' -> disassemble T w' = (n, inst);
  tk_tables name : is_Some (match find_impl (t_hash T) (t_isel T) name with Ret r => Some r | _ => None end) ∧
    is_Some (match find_impl (t_hash T) (t_intrinsic T) name with Ret r => Some r | _ => None end)
}.

Hypothesis ok : tools_ok.

(** What is in the sweep comes from an instruction at some place. *)
Definition decoded_at (arch : arch_t) (m : bytes) (first addr ptr : Z) (i : list mc_operand * list Z * Z) : Prop :=
  ∃ oplen, insn_len arch oplen ∧ disassemble T (load_bytes m ptr 16) = (oplen, i.1.1) ∧
    i.1.2 = load_bytes m ptr (Z.to_nat oplen) ∧ i.2 = wrap64 (addr + ptr - first).

Definition next_ptr (arch : arch_t) (m : bytes) (ptr : Z) : Z :=
  ptr + match arch with
        | ARM64 => 4
        | X64 => let oplen := (disassemble T (load_bytes m ptr 16)).1 in if oplen =? 0 then defaultSize T else oplen
        end.

Lemma next_ptr_lt arch m ptr : ptr < next_ptr arch m ptr.
Proof.
  unfold next_ptr. destruct arch; [lia|]. cbv zeta. pose proof (tk_len ok (load_bytes m ptr 16)).
  pose proof (tk_default ok). destruct (Z.eqb_spec (disassemble T (load_bytes m ptr 16)).1 0); lia.
Qed.

Lemma sweep_step arch fuel m first addr ptr end_ i : ptr < end_ ->
  i ∈ sweep arch (S fuel) m first addr ptr end_ <->
  decoded_at arch m first addr ptr i \/ i ∈ sweep arch fuel m first addr (next_ptr arch m ptr) end_.
Proof.
  intros Hlt. cbn [sweep]. rewrite (proj2 (Z.ltb_lt _ _) Hlt). unfold decoded_at, next_ptr.
  destruct (disassemble T (load_bytes m ptr 16)) as [oplen inst]. cbn [fst]. destruct arch; cbn [insn_len].
  - rewrite elem_of_app. destruct (Z.eqb_spec oplen 4) as [->|Hne].
    + rewrite list_elem_of_singleton. split.
      * intros [->|]; [left; by exists 4|by right].
      * intros [(n & -> & [= Hi] & H2 & H3)|]; [left|by right]. destruct i as [[? ?] ?]. cbn in *. by subst.
    + split; [intros [?%elem_of_nil|]; [done|by right]|]. intros [(n & -> & [= ? ?] & _)|]; [done|by right].
  - destruct (Z.eqb_spec oplen 0) as [->|Hne].
    + split; [by right|]. intros [(n & Hn & [= ? ?] & _)|]; [congruence|done].
    + rewrite elem_of_cons. split.
      * intros [->|]; [left; by exists oplen|by right].
      * intros [(n & _ & [= <- Hi] & H2 & H3)|]; [left|by right]. destruct i as [[? ?] ?]. cbn in *. by subst.
Qed.

(** With a step per byte the sweep is complete. *)
Lemma sweep_elem arch m first addr end_ i : ∀ fuel ptr, (Z.to_nat (end_ - ptr) < fuel)%nat -> position arch m first ptr ->
  i ∈ sweep arch fuel m first addr ptr end_ -> ∃ p, position arch m first p ∧ p < end_ ∧ decoded_at arch m first addr p i.
Proof.
  induction fuel as [|fuel IH]; intros ptr Hf Hp Hi; [lia|].
  destruct (Z.lt_ge_cases ptr end_) as [Hlt|Hge].
  - apply sweep_step in Hi as [Hi|Hi]; [by exists ptr| |done]. pose proof (next_ptr_lt arch m ptr).
    apply (IH (next_ptr arch m ptr)); [lia| |done]. by apply pos_next.
  - cbn [sweep] in Hi. rewrite (proj2 (Z.ltb_ge _ _) Hge) in Hi. by apply elem_of_nil in Hi.
Qed.

(** [p] is reached from [ptr] by steps of the sweep. *)
Inductive steps (arch : arch_t) (m : bytes) (ptr : Z) : Z -> Prop :=
| st_here : steps arch m ptr ptr
| st_more p : steps arch m (next_ptr arch m ptr) p -> steps arch m ptr p.

Lemma steps_next arch m ptr p : steps arch m ptr p -> steps arch m ptr (next_ptr arch m p).
Proof. induction 1; [apply st_more, st_here|by apply st_more]. Qed.

Lemma position_steps arch m first p : position arch m first p -> steps arch m first p.
Proof. induction 1; [apply st_here|by apply steps_next]. Qed.

Lemma steps_le arch m ptr p : steps arch m ptr p -> ptr <= p.
Proof. induction 1 as [|ptr p H IH]; [lia|]. pose proof (next_ptr_lt arch m ptr). lia. Qed.

Lemma sweep_complete arch m first addr end_ ptr p i : steps arch m ptr p -> ∀ fuel, (Z.to_nat (end_ - ptr) < fuel)%nat ->
  p < end_ -> decoded_at arch m first addr p i -> i ∈ sweep arch fuel m first addr ptr end_.
Proof.
  induction 1 as [ptr|ptr p Hs IH]; intros [|fuel] Hf Hp Hd; try lia; apply sweep_step; try done.
  - by left.
  - pose proof (steps_le _ _ _ _ Hs). pose proof (next_ptr_lt arch m ptr). lia.
  - right. pose proof (next_ptr_lt arch m ptr). apply IH; [|done..].
    pose proof (steps_le _ _ _ _ Hs). lia.
Qed.

Lemma sweep_spec arch m ptr addr size i : 
  i ∈ sweep arch (S (Z.to_nat size)) m ptr addr ptr (ptr + size) <->
  ∃ p, position arch m ptr p ∧ p < ptr + size ∧ decoded_at arch m ptr addr p i.
Proof.
  split.
  - apply sweep_elem; [|apply pos_first]. replace (ptr + size - ptr) with size by lia. lia.
  - intros (p & Hp & Hlt & Hd). apply (sweep_complete _ _ _ _ _ ptr p); [by apply position_steps| |done..].
    replace (ptr + size - ptr) with size by lia. lia.
Qed.

(** The opcodes of instructions are told apart by their padded bytes. *)
Lemma take_load_bytes n k m a : (n <= k)%nat -> take n (load_bytes m a k) = load_bytes m a n.
Proof.
  revert k a. induction n as [|n IH]; intros [|k] a Hk; [done..|lia|]. cbn. f_equal. apply IH. lia.
Qed.

Lemma opc16_shorter m p q n k : (n <= k)%nat -> opc16 (load_bytes m p n) = opc16 (load_bytes m q k) ->
  load_bytes m p n = load_bytes m q n.
Proof.
  unfold opc16. intros Hnk He. apply (f_equal (take n)) in He.
  rewrite !take_app_le in He by (rewrite load_bytes_length; lia).
  by rewrite !take_load_bytes in He by lia.
Qed.

(** The bytes from [lo] to sixteen beyond [hi] are bytes. *)
Definition text_bytes (m : bytes) (lo hi : Z) : Prop := ∀ x, lo <= x < hi + 16 -> u8 (get8 m x).

Lemma text_bytes_load m lo hi p n : text_bytes m lo hi -> lo <= p < hi -> (n <= 16)%nat -> Forall u8 (load_bytes m p n).
Proof.
  intros Hm Hp Hn. apply Forall_lookup. intros i b Hi.
  assert (i < n)%nat as Hlt by (rewrite <- (load_bytes_length m p n); by apply lookup_lt_Some in Hi).
  rewrite load_bytes_lookup in Hi by done. injection Hi as <-. apply Hm. lia.
Qed.

(** Of two decoded instructions with the same padded bytes neither is longer. *)
Lemma decoded_same m p q n k i j : disassemble T (load_bytes m p 16) = (n, i) -> disassemble T (load_bytes m q 16) = (k, j) ->
  0 < n <= 16 -> n <= k -> opc16 (load_bytes m p (Z.to_nat n)) = opc16 (load_bytes m q (Z.to_nat k)) ->
  load_bytes m p (Z.to_nat n) = load_bytes m q (Z.to_nat k).
Proof.
  intros H1 H2 H3 H4 He. apply opc16_shorter in He; [|lia].
  enough (k = n) as -> by done.
  pose proof (tk_prefix ok _ (load_bytes m q 16) n i (load_bytes_length _ _ _) (load_bytes_length _ _ _) H1 ltac:(lia)) as Hp.
  rewrite !take_load_bytes in Hp by lia. specialize (Hp He). congruence.
Qed.

Lemma decoded_opcodes_ok m lo hi : text_bytes m lo hi -> ∀ l,
  (∀ i, i ∈ l -> ∃ arch first addr p, lo <= p < hi ∧ decoded_at arch m first addr p i) -> opcodes_ok (opcodes l).
Proof.
  intros Hm l Hl a b Ha Hb. unfold opcodes in Ha, Hb.
  apply list_elem_of_fmap in Ha as (i & -> & Hi). apply list_elem_of_fmap in Hb as (j & -> & Hj).
  destruct (Hl i Hi) as (ar & f & ad & p & Hp & n & Hn & Dn & -> & _).
  destruct (Hl j Hj) as (ar' & f' & ad' & q & _ & k & Hk & Dk & -> & _).
  pose proof (tk_len ok (load_bytes m p 16)) as Ln. pose proof (tk_len ok (load_bytes m q 16)) as Lk.
  rewrite Dn in Ln. rewrite Dk in Lk. cbn [fst] in Ln, Lk.
  assert (n <> 0 ∧ k <> 0) as [Hn0 Hk0] by (destruct ar, ar'; cbn in Hn, Hk; lia).
  split; [apply (text_bytes_load m lo hi); [done..|lia]|]. split.
  { intros He. apply (f_equal length) in He. rewrite load_bytes_length in He. cbn in He. lia. }
  intros He. destruct (Z.le_ge_cases n k).
  - by apply (decoded_same _ _ _ _ _ _ _ Dn Dk); [lia..|].
  - symmetry. by apply (decoded_same _ _ _ _ _ _ _ Dk Dn); [lia..|].
Qed.

Lemma position_ge arch m first p : position arch m first p -> first <= p.
Proof. intros Hp%position_steps. by apply steps_le in Hp. Qed.

(** What the sweep sees depends on the bytes of the text alone. *)
Definition same_text (lo hi : Z) (m m' : bytes) : Prop := ∀ x, lo <= x < hi + 16 -> get8 m x = get8 m' x.

Lemma same_text_load lo hi m m' p n : same_text lo hi m m' -> lo <= p < hi -> (n <= 16)%nat ->
  load_bytes m p n = load_bytes m' p n.
Proof. intros Hs Hp Hn. apply load_bytes_ext. intros x Hx. apply Hs. lia. Qed.

Lemma same_text_position arch lo hi m m' p : same_text lo hi m m' -> p < hi -> position arch m lo p -> position arch m' lo p.
Proof.
  intros Hs Hlt Hp. induction Hp as [|p Hp IH]; [apply pos_first|].
  change (next_ptr arch m p < hi) in Hlt. pose proof (next_ptr_lt arch m p) as Hn. pose proof (position_ge _ _ _ _ Hp).
  rewrite (same_text_load lo hi m m' p 16 Hs) by lia. apply pos_next. apply IH. lia.
Qed.

Lemma same_text_decoded arch lo hi m m' addr p i : same_text lo hi m m' -> lo <= p < hi ->
  decoded_at arch m lo addr p i -> decoded_at arch m' lo addr p i.
Proof.
  intros Hs Hp (n & Hn & Hd & Hop & Ha). pose proof (tk_len ok (load_bytes m p 16)) as Ln. rewrite Hd in Ln. cbn [fst] in Ln.
  exists n. rewrite <- (same_text_load lo hi m m' p 16 Hs), <- (same_text_load lo hi m m' p (Z.to_nat n) Hs) by lia. done.
Qed.
End Sweep.

(** * Without callbacks that interfere, a loop transforms its sweep *)

Section Quiet.
Context {W : Type}.
Variable cbs : list (callback (S := W)).
Variable T : tools.
Hypothesis quiet : passive cbs.

Definition transform_sweep (arch : arch_t) := transform_all cbs (t_decodes T) (t_lifts T) (t_called T) (t_host T) (t_hash T)
  (t_isel T) (t_intrinsic T) arch (t_abort T).

Lemma lift_loop_sweep arch m first addr end_ fuel : ∀ ptr type a l s,
  (match arch with ARM64 => lift_arm64 cbs T | X64 => lift_x64 cbs T end) fuel m first addr ptr end_ (EventRuntime type a) l s =
  transform_sweep arch (sweep T arch fuel m first addr ptr end_) l s.
Proof.
  induction fuel as [|fuel IH]; intros ptr type a l s; [by destruct arch|].
  assert (∀ e, ∃ r, handleEvent cbs e s = (r, e, s)) as Hq.
  { intros e. destruct (handleEvent_passive cbs e s quiet) as (r & Hr & _). by exists r. }
  destruct arch; cbn [lift_arm64 lift_x64 sweep set_addr]; (destruct (ptr <? end_); [|done]);
    cbn [mbind exec_bind]; destruct (disassemble T (load_bytes m ptr 16)) as [oplen inst];
    destruct (Hq (EventRuntime type (wrap64 (addr + ptr - first)))) as [r Hr].
  - destruct (oplen =? 4); [|rewrite Hr; apply IH]. cbn [app]. unfold transform_sweep. cbn [transform_all].
    unfold do_transform. destruct (transform _ _ _ _ _ _ _ _ _ _ _ _ _ l s) as [[l' s']| |]; [|done..].
    cbn [mbind exec_bind fst snd]. apply IH.
  - destruct (oplen =? 0); [rewrite Hr; apply IH|]. unfold transform_sweep. cbn [transform_all].
    unfold do_transform. destruct (transform _ _ _ _ _ _ _ _ _ _ _ _ _ l s) as [[l' s']| |]; [|done..].
    cbn [mbind exec_bind fst snd]. apply IH.
Qed.

Lemma liftOpcodes_sweep arch addr ptr size l m s :
  liftOpcodes cbs T arch addr ptr size l m s =
  (ls ← transform_sweep arch (sweep T arch (S (Z.to_nat size)) m ptr addr ptr (ptr + size)) (Lifter_new l) s;
   let '(l, m) := Lifter_delete (page_size T) (page_alloc T) (exec_commit T) (fix_branch T) (generate_object T) ls.1 m in
   Ret (l, m, ls.2)).
Proof.
  unfold liftOpcodes. pose proof (lift_loop_sweep arch m ptr addr (ptr + size) (S (Z.to_nat size)) ptr InvalidInsn 0
    (Lifter_new l) s) as Hl. destruct arch; by rewrite Hl.
Qed.
End Quiet.

(** * Lifting every text of a binary *)

(** Objects the compiler makes hold the functions, on pages that are given. *)
Record compiler_ok (T : tools) (symbol_at : object -> string -> Z) : Prop := {
  co_commit p n b : exec_commit T p n b = true;
  co_object fs t : ∃ obj, generate_object T fs t = Some obj ∧ compiled symbol_at fs obj;
  co_size fs t obj : generate_object T fs t = Some obj -> Z.of_nat (length (textbuff (scan_object obj))) <= 2 ^ 32;
  co_page : ∃ k, 0 <= k <= 30 ∧ page_size T = 2 ^ k
}.

(** A place no code page comes to. *)
Definition apart (T : tools) (x : Z) : Prop :=
  (∀ n, x < page_alloc T n \/ page_alloc T n + n <= x) ∧
  ∀ m n from to far, get8 (fix_branch T m (page_alloc T n) from to far) x = get8 m x.

Section Delete.
Context (T : tools) (symbol_at : object -> string -> Z).
Hypothesis comp : compiler_ok T symbol_at.

Definition delete_lifter := Lifter_delete (page_size T) (page_alloc T) (exec_commit T) (fix_branch T) (generate_object T).

Lemma delete_memory l m x : apart T x -> get8 (delete_lifter l m).2 x = get8 m x.
Proof.
  intros [Hp Hf]. unfold delete_lifter, Lifter_delete, apply.
  destruct (generate_object T _ _) as [obj|] eqn:Hobj; [|done].
  destruct (_ =? 0)%nat; [done|]. rewrite !(co_commit _ _ comp). cbn [negb snd].
  set (len := align_up _ _). assert (∀ rs m', get8 (fold_left (fun m r => fix_branch T m (page_alloc T len) r.1 r.2
    (negb (bool_decide (r.1 ∈ jumps (scan_object obj))))) rs m') x = get8 m' x) as Hfold.
  { induction rs as [|r rs IH]; intros m'; cbn [fold_left]; [done|]. by rewrite IH, Hf. }
  rewrite Hfold, get8_store_bytes. apply decide_False.
  destruct (co_page _ _ comp) as (k & Hk & Hsize). pose proof (co_size _ _ comp _ _ _ Hobj).
  assert (2 ^ k <= 2 ^ 30) by (apply Z.pow_le_mono_r; lia).
  destruct (align_up_cases (Z.of_nat (length (textbuff (scan_object obj)))) k ltac:(lia) ltac:(unfold fits; lia)) as [Ha _].
  destruct (Ha ltac:(lia)) as [Hl _]. rewrite <- Hsize in Hl. fold len in Hl. destruct (Hp len); lia.
Qed.
End Delete.

(** The function of an opcode in a compiled object, in memory. *)
Definition bound_at (T : tools) (symbol_at : object -> string -> Z) (obj : object) (op : list Z) : Z :=
  wrap64 (page_of (page_size T) (page_alloc T) obj + symbol_at obj (handler_name op) - textaddr (scan_object obj)).

(** The host's code of the instructions remill cannot lift can be made: on an
    aarch64 host always, on x86_64 for the registers [canonicalize] knows
    ([Lifter.native_handler_arm64], [Lifter.native_handler_x64]). *)
Definition text_emitted (T : tools) (arch : arch_t) (m : bytes) (first addr end_ : Z) : Prop :=
  ∀ p i, position T arch m first p -> p < end_ -> decoded_at T arch m first addr p i ->
    ∃ b, lifted_body (t_decodes T) (t_lifts T) (t_host T) arch i.1.1 i.1.2 = Ret b.

Lemma text_emitted_arm64 T arch m first addr end_ : h_arch (t_host T) = ARM64 -> text_emitted T arch m first addr end_.
Proof.
  intros Ha p i _ _ _. apply (emitted_arm64 (t_decodes T) (t_lifts T) (t_host T) arch ∅ [i] Ha i); [left|done].
Qed.

Section Covered.
Context {W : Type} (cbs : list (callback (S := W))) (T : tools) (symbol_at : object -> string -> Z).
Hypothesis quiet : passive cbs.
Hypothesis ok : tools_ok T.
Hypothesis comp : compiler_ok T symbol_at.

Lemma liftOpcodes_handlers arch addr ptr size l m s : text_bytes m ptr (ptr + size) ->
  text_emitted T arch m ptr addr (ptr + size) ->
  ∃ l2 m2 obj, liftOpcodes cbs T arch addr ptr size l m s = Ret (l2, m2, s) ∧
    (∀ p i, position T arch m ptr p -> p < ptr + size -> decoded_at T arch m ptr addr p i ->
       handlers l2 !! opc16 i.1.2 = Some (default (bound_at T symbol_at obj i.1.2) (handlers l !! opc16 i.1.2))) ∧
    (∀ k, is_Some (handlers l !! k) \/
       (∀ p i, position T arch m ptr p -> p < ptr + size -> decoded_at T arch m ptr addr p i -> k <> opc16 i.1.2) ->
       handlers l2 !! k = handlers l !! k) ∧
    (∀ x, apart T x -> get8 m2 x = get8 m x).
Proof.
  intros Htext Hem. rewrite liftOpcodes_sweep by done. set (insns := sweep _ _ _ _ _ _ _ _).
  assert (∀ i, i ∈ insns <-> ∃ p, position T arch m ptr p ∧ p < ptr + size ∧ decoded_at T arch m ptr addr p i) as Hin
    by (intros i; by apply sweep_spec).
  assert (opcodes_ok (opcodes insns)) as Hops.
  { apply (decoded_opcodes_ok T ok m ptr (ptr + size) Htext). intros i (p & Hp & Hlt & Hd)%Hin.
    pose proof (position_ge T ok _ _ _ _ Hp). by exists arch, ptr, addr, p. }
  assert (emitted (t_decodes T) (t_lifts T) (t_host T) arch (handlers l) insns) as Hemit.
  { intros i (p & Hp & Hlt & Hd)%Hin _. by apply (Hem p). }
  destruct (lift_and_bind cbs (t_decodes T) (t_lifts T) (t_called T) (t_host T) (t_hash T) (t_isel T) (t_intrinsic T)
    arch (t_abort T) (page_size T) (page_alloc T) (exec_commit T) (fix_branch T) (generate_object T) symbol_at
    insns l s m quiet Hemit (tk_tables T ok) Hops (co_commit _ _ comp) (co_object _ _ comp))
    as (l1 & obj & Hl1 & _ & Hnew & Hold). fold (delete_lifter T) in Hnew, Hold.
  unfold transform_sweep. rewrite Hl1. cbn [mbind exec_bind fst snd]. fold (delete_lifter T).
  pose proof (delete_memory T symbol_at comp l1 m) as Hmem.
  destruct (delete_lifter T l1 m) as [l2 m2]. cbn [fst snd] in *. exists l2, m2, obj. split_and!; [done| | |done].
  - intros p i Hp Hlt Hd. destruct (handlers l !! opc16 i.1.2) as [v|] eqn:Hv; [by rewrite Hold; [|right; exists v]|].
    apply Hnew; [|done]. apply list_elem_of_fmap. exists i. split; [done|]. apply Hin. by exists p.
  - intros k Hk. apply Hold. destruct Hk as [Hk|Hk]; [by right|left].
    intros (op & -> & (i & -> & Hi)%list_elem_of_fmap)%list_elem_of_fmap. apply Hin in Hi as (p & Hp & Hlt & Hd).
    by apply (Hk p i).
Qed.
End Covered.

(** * The sections of a binary *)

Section Places.
Variable memory_write : bytes -> Z -> list Z -> option bytes.
Variable opcode_binary : option OpcodeBinary.

Definition file_start (bin : Binary) (sect : section) : Z := b_addrBuff bin (sect_addr sect).
Definition file_end (bin : Binary) (sect : section) : Z := file_start bin sect + sect_size sect.

(** Where a section is written to. *)
Definition section_dest (g : GuestMemory) (addend : Z) (sect : section) : Z :=
  let addr := wrap64 (sect_addr sect + addend) in
  let rtaddr := mappedAddress opcode_binary g addr (sect_size sect) in if rtaddr =? 0 then addr else rtaddr.

(** The file is apart from what is written: the sections' places and the code
    pages; a write to other memory of the process writes or fails; the native
    code of the file's instructions can be made. *)
Record places (T : tools) (bin : Binary) (g : GuestMemory) (addend : Z) (m : bytes) : Prop := {
  pl_write m a l : memory_write m a l = None \/ memory_write m a l = Some (store_bytes m a l);
  pl_size sect : sect ∈ b_sections bin -> 0 <= sect_size sect;
  pl_bytes sect : sect ∈ b_sections bin -> text_bytes m (file_start bin sect) (file_end bin sect);
  pl_emitted sect : sect ∈ b_sections bin -> sect_text sect = true ->
    text_emitted T (b_arch bin) m (file_start bin sect) (wrap64 (sect_addr sect + addend)) (file_end bin sect);
  pl_apart sect x : sect ∈ b_sections bin -> file_start bin sect <= x < file_end bin sect + 16 -> apart T x;
  pl_dest sect sect' x : sect ∈ b_sections bin -> sect' ∈ b_sections bin ->
    file_start bin sect' <= x < file_end bin sect' + 16 ->
    x < section_dest g addend sect \/ section_dest g addend sect + sect_size sect <= x
}.

Definition same_file (bin : Binary) (m m' : bytes) : Prop :=
  ∀ sect, sect ∈ b_sections bin -> same_text (file_start bin sect) (file_end bin sect) m m'.

(** Every instruction of a section has a handler. *)
Definition covered (T : tools) (bin : Binary) (addend : Z) (m : bytes) (l : lifter) (sect : section) : Prop :=
  ∀ p i, position T (b_arch bin) m (file_start bin sect) p -> p < file_end bin sect ->
    decoded_at T (b_arch bin) m (file_start bin sect) (wrap64 (sect_addr sect + addend)) p i ->
    is_Some (handlers l !! opc16 i.1.2).
Definition grown (l l' : lifter) : Prop := ∀ k v, handlers l !! k = Some v -> handlers l' !! k = Some v.

Lemma covered_grown T bin addend m l l' sect : grown l l' -> covered T bin addend m l sect -> covered T bin addend m l' sect.
Proof. intros Hg Hc p i Hp Hlt Hd. destruct (Hc p i Hp Hlt Hd) as [v Hv]. exists v. by apply Hg. Qed.

Context {W : Type} (cbs : list (callback (S := W))) (T : tools) (symbol_at : object -> string -> Z).
Hypothesis quiet : passive cbs.
Hypothesis ok : tools_ok T.
Hypothesis comp : compiler_ok T symbol_at.
Context (bin : Binary) (g : GuestMemory) (addend : Z) (m0 : bytes).
Hypothesis place : places T bin g addend m0.

Lemma section_write sect m : sect ∈ b_sections bin -> same_file bin m0 m ->
  same_file bin m0 (writeMemory memory_write opcode_binary g m (wrap64 (sect_addr sect + addend))
    (load_bytes m (file_start bin sect) (Z.to_nat (sect_size sect)))).2.
Proof.
  intros Hs Hm sect' Hs' x Hx. rewrite (Hm sect' Hs' x Hx). pose proof (pl_size _ _ _ _ _ place sect Hs).
  pose proof (pl_dest _ _ _ _ _ place sect sect' x Hs Hs' Hx) as Hd. unfold section_dest in Hd.
  unfold writeMemory. rewrite load_bytes_length, Z2Nat.id by done.
  destruct (_ =? 0); cbn [negb].
  - destruct (pl_write _ _ _ _ _ place m (wrap64 (sect_addr sect + addend))
      (load_bytes m (file_start bin sect) (Z.to_nat (sect_size sect)))) as [-> | ->]; cbn [snd]; [done|].
    rewrite get8_store_bytes, load_bytes_length. by rewrite decide_False by lia.
  - cbn [snd]. rewrite get8_store_bytes, load_bytes_length. by rewrite decide_False by lia.
Qed.

Lemma orch_section_covers sect l m s : sect ∈ b_sections bin -> same_file bin m0 m ->
  ∃ l' m', orch_section cbs T memory_write opcode_binary bin addend g sect (l, m, s) = Ret (l', m', s) ∧
    grown l l' ∧ same_file bin m0 m' ∧ (sect_text sect = true -> covered T bin addend m0 l' sect).
Proof.
  intros Hs Hm. unfold orch_section. destruct (Z.eqb_spec (sect_size sect) 0) as [Hz|Hz].
  { exists l, m. split_and!; [done|by intros ?|done|]. intros _ p i Hp Hlt. apply position_ge in Hp; [|done].
    unfold file_end in Hlt. lia. }
  fold (file_start bin sect). pose proof (section_write sect m Hs Hm) as Hw. set (m1 := (writeMemory _ _ _ _ _ _).2) in *.
  destruct (sect_text sect) eqn:Htext; [|exists l, m1; split_and!; [done|by intros ?|done|done]].
  assert (text_bytes m1 (file_start bin sect) (file_end bin sect)) as Hb.
  { intros x Hx. rewrite <- (Hw sect Hs x Hx). by apply (pl_bytes _ _ _ _ _ place sect Hs). }
  destruct (liftOpcodes_handlers cbs T symbol_at quiet ok comp (b_arch bin) (wrap64 (sect_addr sect + addend))
    (file_start bin sect) (sect_size sect) l m1 s Hb) as (l2 & m2 & obj & -> & Hc & Hg & Hf).
  { intros p i Hp Hlt Hd. pose proof (position_ge T ok _ _ _ _ Hp).
    assert (same_text (file_start bin sect) (file_end bin sect) m1 m0) as Hw' by (intros x Hx; symmetry; by apply (Hw sect Hs)).
    apply (pl_emitted _ _ _ _ _ place sect Hs Htext p); [by apply (same_text_position T ok _ _ _ _ _ _ Hw')|done|].
    by apply (same_text_decoded T ok _ _ _ _ _ _ _ _ Hw'). }
  exists l2, m2. split_and!; [done|intros k v Hk; rewrite Hg; [done|left; by exists v]| |].
  - intros sect' Hs' x Hx. rewrite Hf by by apply (pl_apart _ _ _ _ _ place sect'). by apply (Hw sect').
  - intros _ p i Hp Hlt Hd. pose proof (position_ge T ok _ _ _ _ Hp).
    eexists. apply (Hc p); [|done|by apply (same_text_decoded T ok _ _ _ _ _ _ _ _ (Hw sect Hs))].
    by apply (same_text_position T ok _ _ _ _ _ _ (Hw sect Hs)).
Qed.

Lemma orch_sections_cover sects : ∀ l m s, sects ⊆ b_sections bin -> same_file bin m0 m ->
  ∃ l' m', orch_sections cbs T memory_write opcode_binary bin addend g sects (l, m, s) = Ret (l', m', s) ∧
    grown l l' ∧ ∀ sect, sect ∈ sects -> sect_text sect = true -> covered T bin addend m0 l' sect.
Proof.
  induction sects as [|sect sects IH]; intros l m s Hsub Hm.
  { exists l, m. split_and!; [done|by intros ?|]. by intros ? ?%elem_of_nil. }
  cbn [orch_sections]. destruct (orch_section_covers sect l m s) as (l1 & m1 & -> & Hg1 & Hm1 & Hc1); [set_solver|done|].
  cbn [mbind exec_bind]. destruct (IH l1 m1 s) as (l2 & m2 & -> & Hg2 & Hc2); [set_solver|done|].
  exists l2, m2. split_and!; [done|intros k v Hk; by apply Hg2, Hg1|].
  intros sect' [->|Hs']%elem_of_cons Ht; [|by apply Hc2]. apply (covered_grown _ _ _ _ l1); [done|by apply Hc1].
Qed.
End Places.

Section Orchestrated.
Context `{EventFuncs} {W : Type} (cbs : list (callback (S := W))) (T : tools) (symbol_at : object -> string -> Z).
Context (page_commit : Z -> Z -> bool) (memory_write : bytes -> Z -> list Z -> option bytes).
Context (opcode_binary : option OpcodeBinary) (cfg : EventConfig).
Hypothesis quiet : passive cbs.
Hypothesis ok : tools_ok T.
Hypothesis comp : compiler_ok T symbol_at.

Lemma orchBinary_runs bin addend eng s : b_functions bin <> [] ->
  places memory_write opcode_binary T bin (orch_commit T page_commit bin addend (guestMemory eng)) addend (process eng) ->
  ∃ eng' bb, orchBinary cbs T page_commit memory_write opcode_binary cfg bin addend eng s = Ret (eng', s) ∧
    guestMemory eng' = orch_commit T page_commit bin addend (guestMemory eng) ∧
    grown (lifted eng) (lifted eng') ∧
    (∀ sect, sect ∈ b_sections bin -> sect_text sect = true -> covered T bin addend (process eng) (lifted eng') sect) ∧
    basicblocks eng' = basicblocks eng ++ [bb] ∧
    vmaddrs bb = mjoin (fn_blocks addend <$> b_functions bin) ∧
    real (rthandlers bb) =
      mjoin ((fun f => insn_real (fun op => handlers (lifted eng') !! opc16 op) <$> bf_insns f) <$> b_functions bin).
Proof.
  intros Hne Hp. unfold orchBinary. cbv zeta.
  destruct (orch_sections_cover memory_write opcode_binary cbs T symbol_at quiet ok comp bin _ addend (process eng) Hp
    (b_sections bin) (lifted eng) (process eng) s) as (l' & m' & -> & Hg & Hc); [done|by intros ? ? ?|].
  cbn [mbind exec_bind]. unfold encode_into.
  destruct (encode_total (fun op => handlers l' !! opc16 op) (match b_arch bin with ARM64 => true | X64 => false end)
    addend cfg (b_functions bin) Hne) as (bb & lastfunc & -> & Hv & Hr & _).
  cbn [mbind exec_bind fst snd]. eexists _, bb. by split_and!.
Qed.
End Orchestrated.

(** * The start of an execution *)

(** After the commit of [len] bytes exactly the addresses of the first [len]
    bytes of the reservation are mapped, wherever the sections lie. *)
Lemma first_commit page_commit base vmaddr len : 0 < base -> base + GUEST_SIZE <= 2 ^ 64 -> 0 <= len ->
  base <= vmaddr -> vmaddr - base + len < GUEST_SIZE ->
  (commit page_commit (mkGM base 0) vmaddr len).2 = mkGM base len.
Proof.
  unfold GUEST_SIZE. intros Hb Hm Hl Hv Hs. unfold commit. cbn [m_offset basePointer]. rewrite !Z.add_0_l, Z.geb_leb.
  rewrite (wrap_small 64 len) by (unfold fits; lia). rewrite (proj2 (Z.leb_gt _ _)) by (unfold GUEST_SIZE; lia).
  rewrite (wrap_small 64 (vmaddr - base)) by (unfold fits; lia). rewrite Z.geb_leb, wrap_small by (unfold fits; lia).
  by rewrite (proj2 (Z.leb_gt _ _)) by (unfold GUEST_SIZE; lia).
Qed.

Lemma mapped_after_commit base len target : 0 < base -> 0 <= len -> base + len < 2 ^ 64 -> 0 <= target -> base + target < 2 ^ 64 - 1 ->
  mappedAddress None (mkGM base len) target 1 = if target + 1 <? len then base + target else 0.
Proof.
  intros Hb Hl0 Hl Ht Hs. unfold mappedAddress, valid. cbn [basePointer m_offset].
  destruct (Z.ltb_spec (target + 1) len).
  - rewrite !wrap_small by (unfold fits; lia). by rewrite (proj2 (Z.leb_le _ _)), !(proj2 (Z.ltb_lt _ _)) by lia.
  - rewrite !wrap_small by (unfold fits; lia). by rewrite (proj2 (Z.ltb_ge (base + target + 1) _)), andb_false_r by lia.
Qed.

(** * Bases and the program counter *)

Lemma wrap_add_eq x y : wrap64 (x + y) = wrap64 y <-> wrap64 x = 0.
Proof.
  split; intros E.
  - replace x with (x + y - y) by lia. rewrite <- wrap_sub_l, E, wrap_sub_l. by replace (y - y) with 0 by lia.
  - rewrite <- wrap_add_l, E. done.
Qed.

Lemma wrap_sub_eq x y : wrap64 (y - x) = wrap64 y <-> wrap64 x = 0.
Proof. rewrite <- (wrap_add_eq x (y - x)). replace (x + (y - x)) with y by lia. split; congruence. Qed.

Lemma pc_slot `{A64Layout} `{X86Layout} arch : ∃ p, ∀ m, rf_get (RegFile := regfile_of arch) Register.PC m = (Some p, m) ∧
  ∀ v, rf_set (RegFile := regfile_of arch) Register.PC v m = (true, store 8 m p v).
Proof. by destruct arch; eexists. Qed.

(** * Properties *)

(** C10: orchestrating a binary returns, and leaves every instruction of its
    text sections that decodes with a handler, whichever sections came before;
    no handler that was there is replaced; one binary is appended to the
    blocks, with blocks at the run-time addresses of its functions and, events
    apart, exactly the handlers the final table has for its instructions.
    Callbacks claim no event, the compiler does not fail, an instruction is
    told by its own bytes ([tools_ok]), the binary's file is apart from where the sections and the compiled code go, and the native code
    of instructions that remill cannot lift can be made ([pl_emitted]): on
    aarch64 it always can ([text_emitted_arm64]), on x86_64 an instruction with
    a register [canonicalize] does not know ends the program
    ([Lifter.native_abort_ends_lifting]). *)
Theorem orchBinary_covers `{EventFuncs} {W : Type} (cbs : list (callback (S := W))) (T : tools) symbol_at page_commit
    memory_write opcode_binary cfg bin addend eng s :
  passive cbs -> tools_ok T -> compiler_ok T symbol_at -> b_functions bin <> [] ->
  places memory_write opcode_binary T bin (orch_commit T page_commit bin addend (guestMemory eng)) addend (process eng) ->
  ∃ eng' bb, orchBinary cbs T page_commit memory_write opcode_binary cfg bin addend eng s = Ret (eng', s) ∧
    guestMemory eng' = orch_commit T page_commit bin addend (guestMemory eng) ∧
    grown (lifted eng) (lifted eng') ∧
    (∀ sect, sect ∈ b_sections bin -> sect_text sect = true -> covered T bin addend (process eng) (lifted eng') sect) ∧
    basicblocks eng' = basicblocks eng ++ [bb] ∧
    vmaddrs bb = mjoin (fn_blocks addend <$> b_functions bin) ∧
    real (rthandlers bb) =
      mjoin ((fun f => insn_real (fun op => handlers (lifted eng') !! opc16 op) <$> bf_insns f) <$> b_functions bin).
Proof. intros Hq Hok Hc Hne Hp. by apply (orchBinary_runs cbs T symbol_at). Qed.

(** C12: the loops over a text terminate; every instruction they come to that
    decodes ends with a handler, the one it had or the compiled function of its
    name; every other entry, present or absent, is as it was, and so is the
    memory but the pages of the code. Callbacks claim no event, the compiler
    does not fail, an instruction is told by its own bytes ([tools_ok]), and
    native code can be made where remill cannot lift. *)
Theorem text_lifted {W : Type} (cbs : list (callback (S := W))) (T : tools) symbol_at arch addr ptr size l m s :
  passive cbs -> tools_ok T -> compiler_ok T symbol_at -> text_bytes m ptr (ptr + size) ->
  text_emitted T arch m ptr addr (ptr + size) ->
  ∃ l2 m2 obj, liftOpcodes cbs T arch addr ptr size l m s = Ret (l2, m2, s) ∧
    (∀ p i, position T arch m ptr p -> p < ptr + size -> decoded_at T arch m ptr addr p i ->
       handlers l2 !! opc16 i.1.2 = Some (default (bound_at T symbol_at obj i.1.2) (handlers l !! opc16 i.1.2))) ∧
    (∀ k, is_Some (handlers l !! k) \/
       (∀ p i, position T arch m ptr p -> p < ptr + size -> decoded_at T arch m ptr addr p i -> k <> opc16 i.1.2) ->
       handlers l2 !! k = handlers l !! k) ∧
    (∀ x, apart T x -> get8 m2 x = get8 m x).
Proof. intros Hq Hok Hc Ht He. by apply liftOpcodes_handlers. Qed.

(** C36: what the first execution maps. The binary is orchestrated, and the
    machine starts at the run-time address of the target exactly when the
    target and the byte after it lie in the first [len] bytes of the
    reservation, where [len] is the size of all sections together: a section
    behind a gap, or one of a binary with an image base, is not executed, and
    neither is an address of [mapMemory], which lies above the base. The
    conditions on callbacks, compiler, native code and file are those of
    [orchBinary_covers]. *)
Theorem execute_target_start `{EventFuncs} {W : Type} (cbs : list (callback (S := W))) (T : tools) symbol_at page_commit
    memory_write cfg bin target eng s base :
  passive cbs -> tools_ok T -> compiler_ok T symbol_at -> b_functions bin <> [] ->
  guestMemory eng = mkGM base 0 -> 0 < base -> base + GUEST_SIZE <= 2 ^ 64 ->
  let len := align_up (sections_size (b_sections bin)) (page_size T) in
  0 <= b_imageBase bin -> 0 <= len -> b_imageBase bin + len < GUEST_SIZE ->
  places memory_write None T bin (mkGM base len) base (process eng) ->
  0 <= target -> base + target < 2 ^ 64 - 1 ->
  ∃ eng', execute_target cbs T page_commit memory_write None cfg (Some bin) target eng s =
      Ret (if target + 1 <? len then base + target else 0, eng', s) ∧
    ∀ sect, sect ∈ b_sections bin -> sect_text sect = true -> covered T bin base (process eng) (lifted eng') sect.
Proof.
  intros Hq Hok Hc Hne Hg Hb Hm len Hi Hl Hs Hp Ht Htb.
  assert (orch_commit T page_commit bin base (guestMemory eng) = mkGM base len) as Hcommit.
  { rewrite Hg. unfold orch_commit. fold len. unfold GUEST_SIZE in *. rewrite wrap_small by (unfold fits; lia).
    apply first_commit; unfold GUEST_SIZE; lia. }
  destruct (orchBinary_runs cbs T symbol_at page_commit memory_write None cfg Hq Hok Hc bin base eng s Hne)
    as (eng' & bb & Hrun & Hg' & _ & Hcov & _); [by rewrite Hcommit|].
  exists eng'. split; [|done]. unfold execute_target. rewrite Hg. cbn [basePointer].
  rewrite guestAvailable_ok by (unfold gm_ok, GUEST_SIZE in *; cbn; lia). cbn [basePointer m_offset].
  rewrite Z.add_0_r, Z.eqb_refl, Hrun. cbn [mbind exec_bind fst snd]. rewrite Hg', Hcommit.
  by rewrite mapped_after_commit by (unfold GUEST_SIZE in *; lia).
Qed.

(** Executing raw code starts at the address the first function has less
    the image base, while its block is found at the address itself: the start is
    the entry exactly when the image base is 0. Without functions nothing is
    executed. *)
Theorem execute_raw_entry `{EventFuncs} {W : Type} (cbs : list (callback (S := W))) (T : tools) symbol_at page_commit
    memory_write opcode_binary cfg bin eng s f fs :
  passive cbs -> tools_ok T -> compiler_ok T symbol_at -> b_functions bin = f :: fs ->
  let vmbase := guestAvailable (guestMemory eng) in
  places memory_write opcode_binary T bin (orch_commit T page_commit bin vmbase (guestMemory eng)) vmbase (process eng) ->
  ∃ eng' bb, execute_raw cbs T page_commit memory_write opcode_binary cfg (Some bin) eng s =
      Ret (wrap64 (vmbase + bf_addr f - b_imageBase bin), eng', s) ∧
    basicblocks eng' = basicblocks eng ++ [bb] ∧ head (vmaddrs bb) = Some (wrap64 (bf_addr f + vmbase)) ∧
    (wrap64 (vmbase + bf_addr f - b_imageBase bin) = wrap64 (bf_addr f + vmbase) <-> wrap64 (b_imageBase bin) = 0).
Proof.
  intros Hq Hok Hc Hf vmbase Hp.
  destruct (orchBinary_runs cbs T symbol_at page_commit memory_write opcode_binary cfg Hq Hok Hc bin vmbase eng s)
    as (eng' & bb & Hrun & _ & _ & _ & Hbb & Hv & _); [by rewrite Hf|done|].
  exists eng', bb. unfold execute_raw. rewrite Hf. fold vmbase. rewrite Hrun. cbn [mbind exec_bind fst snd].
  split_and!; [done|done|by rewrite Hv, Hf|].
  rewrite <- (wrap_sub_eq (b_imageBase bin) (vmbase + bf_addr f)). by rewrite (Z.add_comm vmbase).
Qed.

(** The program counter as the client sees it. What [setRegister] writes
    is what [getRegister] returns unconverted; converted it returns the address
    moved from the reservation to the image base, in a member of its own, and
    the state keeps the original. So code of the static address [a] reads as
    [a] exactly when the image base is 0, and writing back what was read moves
    the machine by the difference of the two bases. *)
Theorem pc_views `{A64Layout} `{X86Layout} (arch : arch_t) (bin : Binary) (mo : option Binary) (base a : Z) (cpu : CPUState) :
  u64 a ->
  pcptr cpu = (rf_get (RegFile := regfile_of arch) Register.PC (state cpu)).1 ->
  let v := wrap64 (a + base) in
  ∃ cpu1, setRegister arch cpu Register.PC v = (true, cpu1) ∧
    (∃ p cpu2, getRegister arch (Some bin) mo base cpu1 Register.PC false = Ret (p, cpu2) ∧
       reg_u8 cpu2 p = Ret v ∧ state cpu2 = state cpu1) ∧
    (∃ cpu2, getRegister arch (Some bin) mo base cpu1 Register.PC true = Ret (PcMember, cpu2) ∧
       reg_u8 cpu2 PcMember = Ret (wrap64 (b_imageBase bin + a)) ∧ state cpu2 = state cpu1) ∧
    (wrap64 (b_imageBase bin + a) = a <-> wrap64 (b_imageBase bin) = 0).
Proof.
  intros Ha Hpc v. destruct (pc_slot arch) as [p Hp]. rewrite (proj1 (Hp _)) in Hpc. cbn [fst] in Hpc.
  unfold setRegister. rewrite (proj2 (Hp _)). eexists. split; [done|].
  assert (load 8 (store 8 (state cpu) p v) p = v) as Hload.
  { rewrite load_store. apply wrap_wrap. }
  split_and!.
  - unfold getRegister, get_state_register. cbn [andb state with_state]. rewrite andb_false_r, (proj1 (Hp _)).
    eexists _, _. split_and!; [done|cbn [reg_u8 state with_state]; by rewrite Hload|done].
  - unfold getRegister, pcptr_value. cbn [pcptr with_state state]. rewrite Hpc, Z.eqb_refl. cbn [andb of_option mbind exec_bind].
    eexists. split; [done|]. cbn [reg_u8 pc with_pc state with_state]. split; [|done]. rewrite Hload. unfold v.
    f_equal. rewrite <- wrap_sub_l, wrap_add_r, wrap_sub_l. f_equal. lia.
  - rewrite <- (wrap_add_eq (b_imageBase bin) a), (wrap_small 64 a) by done. done.
Qed.

(** Two instructions at 0x10000 of the file, a nop and an add; code pages at
    0x40000, the guest at 2^32. *)
Definition sample_nop : list Z := [0x1f; 0x20; 0x03; 0xd5].
Definition sample_add : list Z := [0; 0; 0; 0x8b].
Definition sample_disassemble (w : list Z) : Z * list mc_operand :=
  if bool_decide (take 4 w = sample_nop) then (4, [])
  else if bool_decide (take 4 w = sample_add) then (4, [OReg 3]) else (0, []).
Definition sample_tools : tools :=
  mkTools sample_disassemble 1 (fun _ => true) (fun op => bool_decide (op = sample_add)) (fun _ => []) (fun _ => 0)
    sample_table sample_table (sample_host ARM64) 0xdead 0x1000 (fun _ => 0x40000) (fun _ _ _ => true) (fun m _ _ _ _ => m) sample_object.

Lemma sample_tools_ok : tools_ok sample_tools.
Proof.
  split; cbn.
  - intros w. unfold sample_disassemble. repeat case_bool_decide; cbn; lia.
  - lia.
  - intros w w' n inst _ _ Hd Hn Ht.
    assert (n = 4) as -> by (unfold sample_disassemble in Hd; repeat case_bool_decide; congruence).
    change (Z.to_nat 4) with 4%nat in Ht. unfold sample_disassemble in *. by rewrite <- Ht.
  - intros name. split; apply (sample_tables name).
Qed.

Lemma sample_compiler_ok : compiler_ok sample_tools sample_symbol_at.
Proof.
  split; cbn.
  - done.
  - apply sample_compiled.
  - intros fs t obj [= <-]. vm_compute. congruence.
  - exists 12. by split; [lia|].
Qed.

Definition sample_binary : Binary :=
  mkBinary ARM64 0 [mkSect 0 0 8 true] (fun a => 0x10000 + a) 0x10000
    [mkBFunction 0 8 [mkBInsn false 0 OTHER sample_nop; mkBInsn false 4 OTHER sample_add]].
Definition sample_engine : engine :=
  mkEngine (mkGM (2 ^ 32) 0) [] (mkCache None ∅) (mkLifter ∅ ∅ ∅ [] ∅) (store_bytes ∅ 0x10000 (sample_nop ++ sample_add)).
Definition sample_write (m : bytes) (a : Z) (l : list Z) : option bytes := Some (store_bytes m a l).

Lemma sample_places : places sample_write None sample_tools sample_binary (mkGM (2 ^ 32) 0x1000) (2 ^ 32) (process sample_engine).
Proof.
  split; cbn [b_sections sample_binary].
  - intros m a l. by right.
  - intros sect ->%list_elem_of_singleton. cbn. lia.
  - intros sect _ x _. apply get8_u8, byte_store_bytes; [apply byte_store_empty|]. apply (bool_decide_unpack _). by vm_compute.
  - intros sect _ _. by apply text_emitted_arm64.
  - intros sect x ->%list_elem_of_singleton. unfold file_start, file_end. cbn. intros Hx. split; cbn; [lia|done].
  - intros sect sect' x ->%list_elem_of_singleton ->%list_elem_of_singleton.
    change (section_dest _ _ _ _) with (2 ^ 32). unfold file_start, file_end, file_start. cbn. lia.
Qed.

Lemma sample_decoded : position sample_tools ARM64 (process sample_engine) 0x10000 0x10004 ∧
  decoded_at sample_tools ARM64 (process sample_engine) 0x10000 (2 ^ 32) 0x10004 ([OReg 3], sample_add, 2 ^ 32 + 4).
Proof.
  split; [apply (pos_next sample_tools ARM64 _ _ 0x10000), pos_first|].
  exists 4. split_and!; [done|by vm_compute..].
Qed.

Theorem orchBinary_covers_witness : ∃ eng',
  orchBinary (W := unit) [] sample_tools (fun _ _ => true) sample_write None no_events sample_binary (2 ^ 32) sample_engine tt =
    Ret (eng', tt) ∧ is_Some (handlers (lifted eng') !! opc16 sample_add).
Proof.
  destruct (orchBinary_covers (W := unit) [] sample_tools sample_symbol_at (fun _ _ => true) sample_write None no_events
    sample_binary (2 ^ 32) sample_engine tt) as (eng' & bb & Hrun & _ & _ & Hc & _).
  - by intros c e s ?%elem_of_nil.
  - apply sample_tools_ok.
  - apply sample_compiler_ok.
  - done.
  - exact sample_places.
  - exists eng'. split; [done|]. destruct sample_decoded as [H1 H2].
    apply (Hc (mkSect 0 0 8 true) ltac:(left) eq_refl 0x10004 _ H1 ltac:(done) H2).
Defined.

Theorem text_lifted_witness : ∃ l2 m2 obj,
  liftOpcodes (W := unit) [] sample_tools ARM64 (2 ^ 32) 0x10000 8 (lifted sample_engine) (process sample_engine) tt = Ret (l2, m2, tt) ∧
  handlers l2 !! opc16 sample_add = Some (bound_at sample_tools sample_symbol_at obj sample_add).
Proof.
  destruct (text_lifted (W := unit) [] sample_tools sample_symbol_at ARM64 (2 ^ 32) 0x10000 8 (lifted sample_engine)
    (process sample_engine) tt) as (l2 & m2 & obj & Hrun & Hc & _).
  - by intros c e s ?%elem_of_nil.
  - apply sample_tools_ok.
  - apply sample_compiler_ok.
  - intros x Hx. apply (pl_bytes _ _ _ _ _ _ _ sample_places (mkSect 0 0 8 true)); [left|done].
  - by apply text_emitted_arm64.
  - exists l2, m2, obj. split; [done|]. destruct sample_decoded as [H1 H2].
    apply (Hc _ _ H1 ltac:(done) H2).
Defined.

Theorem execute_target_start_witness : ∃ eng1 eng2,
  execute_target (W := unit) [] sample_tools (fun _ _ => true) sample_write None no_events (Some sample_binary) 4 sample_engine tt =
    Ret (2 ^ 32 + 4, eng1, tt) ∧
  execute_target (W := unit) [] sample_tools (fun _ _ => true) sample_write None no_events (Some sample_binary) (2 ^ 32) sample_engine tt =
    Ret (0, eng2, tt).
Proof.
  destruct (execute_target_start (W := unit) [] sample_tools sample_symbol_at (fun _ _ => true) sample_write no_events
    sample_binary 4 sample_engine tt (2 ^ 32)) as (eng1 & H1 & _);
    [by intros c e s ?%elem_of_nil|apply sample_tools_ok|apply sample_compiler_ok|done..|exact sample_places|done|done|].
  destruct (execute_target_start (W := unit) [] sample_tools sample_symbol_at (fun _ _ => true) sample_write no_events
    sample_binary (2 ^ 32) sample_engine tt (2 ^ 32)) as (eng2 & H2 & _);
    [by intros c e s ?%elem_of_nil|apply sample_tools_ok|apply sample_compiler_ok|done..|exact sample_places|done|done|].
  exists eng1, eng2. split; [exact H1|exact H2].
Defined.

Theorem execute_raw_entry_witness : ∃ eng',
  execute_raw (W := unit) [] sample_tools (fun _ _ => true) sample_write None no_events (Some sample_binary) sample_engine tt =
    Ret (2 ^ 32, eng', tt).
Proof.
  destruct (execute_raw_entry (W := unit) [] sample_tools sample_symbol_at (fun _ _ => true) sample_write None no_events
    sample_binary sample_engine tt (mkBFunction 0 8 [mkBInsn false 0 OTHER sample_nop; mkBInsn false 4 OTHER sample_add]) [])
    as (eng' & bb & H1 & _);
    [by intros c e s ?%elem_of_nil|apply sample_tools_ok|apply sample_compiler_ok|done|exact sample_places|].
  exists eng'. exact H1.
Defined.

#[local] Existing Instance a64_sample.
#[local] Existing Instance x86_sample.
(** A machine at 0x10 of a binary with image base 0x1000, mapped at 2^32. *)
Theorem pc_views_witness :
  let cpu := mkCPU (rf_get (RegFile := regfile_of ARM64) Register.PC (∅ : bytes)).1 None (∅ : bytes) 0 0 0 0 0 in
  let bin := mkBinary ARM64 0x1000 [] (fun a => a) 0 [] in
  ∃ cpu1 cpu2, setRegister ARM64 cpu Register.PC (2 ^ 32 + 0x10) = (true, cpu1) ∧
    getRegister ARM64 (Some bin) None (2 ^ 32) cpu1 Register.PC true = Ret (PcMember, cpu2) ∧
    reg_u8 cpu2 PcMember = Ret 0x1010.
Proof.
  intros cpu bin.
  destruct (pc_views ARM64 bin None (2 ^ 32) 0x10 cpu) as (cpu1 & H1 & _ & (cpu2 & H2 & H3 & _) & _).
  - split; done.
  - reflexivity.
  - exists cpu1, cpu2. split; [exact H1|]. split; [exact H2|exact H3].
Defined.
