(* ===== verification/Context.v ===== *)
(** The debugger's register context, lldb/src/Context.cpp: the tables that
    describe the registers of both architectures to the debugger, and reading
    and writing a thread's registers through them. The debugger's register
    numbers and its value class are parameters: a value read is what is handed
    to the class, a value written the bytes it gives. *)
From Stdlib Require Import ZArith Lia List String.
From stdpp Require Import base list gmap strings pretty.
From S2P Require Import Prelude Utils Registers StateMem CPUState AetherVM.
#[local] Open Scope string_scope.
#[local] Open Scope Z_scope.

(** * Register descriptions *)

Inductive encoding := eEncodingInvalid | eEncodingUint | eEncodingSint | eEncodingIEEE754 | eEncodingVector.
(** How the debugger shows a register. *)
Inductive format :=
| eFormatDefault | eFormatBoolean | eFormatBinary | eFormatBytes | eFormatBytesWithASCII | eFormatChar
| eFormatCharPrintable | eFormatComplex | eFormatCString | eFormatDecimal | eFormatEnum | eFormatHex
| eFormatHexUppercase | eFormatFloat | eFormatOctal | eFormatOSType | eFormatUnicode16 | eFormatUnicode32
| eFormatUnsigned | eFormatPointer | eFormatVectorOfChar | eFormatVectorOfSInt8 | eFormatVectorOfUInt8
| eFormatVectorOfSInt16 | eFormatVectorOfUInt16 | eFormatVectorOfSInt32 | eFormatVectorOfUInt32
| eFormatVectorOfSInt64 | eFormatVectorOfUInt64 | eFormatVectorOfFloat16 | eFormatVectorOfFloat32
| eFormatVectorOfFloat64 | eFormatVectorOfUInt128 | eFormatComplexInteger | eFormatCharArray
| eFormatAddressInfo | eFormatHexFloat | eFormatInstruction | eFormatVoid | eFormatUnicode8 | eFormatFloat128.
(** The role a register has in every architecture. *)
Inductive generic := ARG (n : Z) | GEN_FP | GEN_RA | GEN_SP | GEN_PC | GEN_FLAGS | GEN_TP | INVALID.
Record RegisterInfo := mkInfo {
  ri_name : string; ri_alt : option string; byte_size : Z; byte_offset : Z; ri_encoding : encoding;
  ri_format : format; ri_generic : generic
}.
(** A set of registers, by the names of their numbers. *)
Record RegisterSet := mkRegSet { rs_name : string; rs_short : string; rs_registers : list string }.

Module arm64.
Definition registers : list Z :=
  [Register.X0; Register.X1; Register.X2; Register.X3; Register.X4; Register.X5; Register.X6; Register.X7;
   Register.X8; Register.X9; Register.X10; Register.X11; Register.X12; Register.X13; Register.X14; Register.X15;
   Register.X16; Register.X17; Register.X18; Register.X19; Register.X20; Register.X21; Register.X22;
   Register.X23; Register.X24; Register.X25; Register.X26; Register.X27; Register.X28; Register.FP; Register.LR;
   Register.SP; Register.PC; Register.NZCV; Register.Q0; Register.Q1; Register.Q2; Register.Q3; Register.Q4;
   Register.Q5; Register.Q6; Register.Q7; Register.Q8; Register.Q9; Register.Q10; Register.Q11; Register.Q12;
   Register.Q13; Register.Q14; Register.Q15; Register.Q16; Register.Q17; Register.Q18; Register.Q19;
   Register.Q20; Register.Q21; Register.Q22; Register.Q23; Register.Q24; Register.Q25; Register.Q26;
   Register.Q27; Register.Q28; Register.Q29; Register.Q30; Register.Q31; Register.FPSR; Register.FPCR].

Definition DEFINE_GPR64 (reg : string) (kind : generic) : RegisterInfo := mkInfo reg None 8 0 eEncodingUint eFormatHex kind.
Definition DEFINE_GPR64_ALT (reg alt : string) (kind : generic) : RegisterInfo := mkInfo reg (Some alt) 8 0 eEncodingUint eFormatHex kind.
Definition DEFINE_MISC_REGS (reg : string) (size : Z) : RegisterInfo := mkInfo reg None size 0 eEncodingUint eFormatHex GEN_FLAGS.
Definition DEFINE_VREG (reg : string) : RegisterInfo := mkInfo reg None 16 0 eEncodingVector eFormatVectorOfUInt8 INVALID.

Definition register_infos : list RegisterInfo :=
  [DEFINE_GPR64 "x0" (ARG 1); DEFINE_GPR64 "x1" (ARG 2); DEFINE_GPR64 "x2" (ARG 3); DEFINE_GPR64 "x3" (ARG 4);
   DEFINE_GPR64 "x4" (ARG 5); DEFINE_GPR64 "x5" (ARG 6); DEFINE_GPR64 "x6" (ARG 7); DEFINE_GPR64 "x7" (ARG 8);
   DEFINE_GPR64 "x8" INVALID; DEFINE_GPR64 "x9" INVALID; DEFINE_GPR64 "x10" INVALID; DEFINE_GPR64 "x11" INVALID;
   DEFINE_GPR64 "x12" INVALID; DEFINE_GPR64 "x13" INVALID; DEFINE_GPR64 "x14" INVALID;
   DEFINE_GPR64 "x15" INVALID; DEFINE_GPR64 "x16" INVALID; DEFINE_GPR64 "x17" INVALID;
   DEFINE_GPR64 "x18" INVALID; DEFINE_GPR64 "x19" INVALID; DEFINE_GPR64 "x20" INVALID;
   DEFINE_GPR64 "x21" INVALID; DEFINE_GPR64 "x22" INVALID; DEFINE_GPR64 "x23" INVALID;
   DEFINE_GPR64 "x24" INVALID; DEFINE_GPR64 "x25" INVALID; DEFINE_GPR64 "x26" INVALID;
   DEFINE_GPR64 "x27" INVALID; DEFINE_GPR64 "x28" INVALID; DEFINE_GPR64_ALT "fp" "x29" GEN_FP;
   DEFINE_GPR64_ALT "lr" "x30" GEN_RA; DEFINE_GPR64_ALT "sp" "x31" GEN_SP; DEFINE_GPR64 "pc" GEN_PC;
   DEFINE_MISC_REGS "cpsr" 4; DEFINE_VREG "v0"; DEFINE_VREG "v1"; DEFINE_VREG "v2"; DEFINE_VREG "v3";
   DEFINE_VREG "v4"; DEFINE_VREG "v5"; DEFINE_VREG "v6"; DEFINE_VREG "v7"; DEFINE_VREG "v8"; DEFINE_VREG "v9";
   DEFINE_VREG "v10"; DEFINE_VREG "v11"; DEFINE_VREG "v12"; DEFINE_VREG "v13"; DEFINE_VREG "v14";
   DEFINE_VREG "v15"; DEFINE_VREG "v16"; DEFINE_VREG "v17"; DEFINE_VREG "v18"; DEFINE_VREG "v19";
   DEFINE_VREG "v20"; DEFINE_VREG "v21"; DEFINE_VREG "v22"; DEFINE_VREG "v23"; DEFINE_VREG "v24";
   DEFINE_VREG "v25"; DEFINE_VREG "v26"; DEFINE_VREG "v27"; DEFINE_VREG "v28"; DEFINE_VREG "v29";
   DEFINE_VREG "v30"; DEFINE_VREG "v31"; DEFINE_MISC_REGS "fpsr" 4; DEFINE_MISC_REGS "fpcr" 4].

Definition gpr_regnums : list string :=
  ["x0"; "x1"; "x2"; "x3"; "x4"; "x5"; "x6"; "x7"; "x8"; "x9"; "x10"; "x11"; "x12"; "x13"; "x14"; "x15"; "x16";
   "x17"; "x18"; "x19"; "x20"; "x21"; "x22"; "x23"; "x24"; "x25"; "x26"; "x27"; "x28"; "fp"; "lr"; "sp"; "pc";
   "cpsr"].
Definition gpu_regnums : list string :=
  ["v0"; "v1"; "v2"; "v3"; "v4"; "v5"; "v6"; "v7"; "v8"; "v9"; "v10"; "v11"; "v12"; "v13"; "v14"; "v15"; "v16";
   "v17"; "v18"; "v19"; "v20"; "v21"; "v22"; "v23"; "v24"; "v25"; "v26"; "v27"; "v28"; "v29"; "v30"; "v31";
   "fpsr"; "fpcr"].
Definition register_sets : list RegisterSet :=
  [mkRegSet "General Purpose Registers" "gpr" gpr_regnums; mkRegSet "Floating Point Registers" "fpu" gpu_regnums].
End arm64.

Module x86_64.
Definition FP_SIZE : Z := 10.
Definition XMM_SIZE : Z := 16.

Definition DEFINE_GPR (reg : string) (kind : generic) : RegisterInfo := mkInfo reg None 8 0 eEncodingUint eFormatHex kind.
Definition DEFINE_FLAG : RegisterInfo := mkInfo "eflags" None 4 0 eEncodingUint eFormatHex GEN_FLAGS.
Definition DEFINE_SEG (reg : string) : RegisterInfo := mkInfo reg None 4 0 eEncodingUint eFormatHex INVALID.
Definition DEFINE_FP_ST (reg : string) : RegisterInfo := mkInfo reg None FP_SIZE 0 eEncodingVector eFormatVectorOfUInt8 INVALID.
Definition DEFINE_FP_MM (reg : string) : RegisterInfo := mkInfo reg None 8 0 eEncodingUint eFormatHex INVALID.
Definition DEFINE_XMM (reg : string) : RegisterInfo := mkInfo reg None XMM_SIZE 0 eEncodingVector eFormatVectorOfUInt8 INVALID.

Definition registers : list Z :=
  [Register.RAX; Register.RBX; Register.RCX; Register.RDX; Register.RSI; Register.RDI; Register.RBP;
   Register.RSP; Register.R8; Register.R9; Register.R10; Register.R11; Register.R12; Register.R13; Register.R14;
   Register.R15; Register.RIP; Register.RFLAGS; Register.CS; Register.SS; Register.DS; Register.ES; Register.FS;
   Register.GS; Register.ST0; Register.ST1; Register.ST2; Register.ST3; Register.ST4; Register.ST5;
   Register.ST6; Register.ST7; Register.MM0; Register.MM1; Register.MM2; Register.MM3; Register.MM4;
   Register.MM5; Register.MM6; Register.MM7; Register.XMM0; Register.XMM1; Register.XMM2; Register.XMM3;
   Register.XMM4; Register.XMM5; Register.XMM6; Register.XMM7; Register.XMM8; Register.XMM9; Register.XMM10;
   Register.XMM11; Register.XMM12; Register.XMM13; Register.XMM14; Register.XMM15; Register.XMM16;
   Register.XMM17; Register.XMM18; Register.XMM19; Register.XMM20; Register.XMM21; Register.XMM22;
   Register.XMM23; Register.XMM24; Register.XMM25; Register.XMM26; Register.XMM27; Register.XMM28;
   Register.XMM29; Register.XMM30; Register.XMM31].

Definition register_infos : list RegisterInfo :=
  [DEFINE_GPR "rax" INVALID; DEFINE_GPR "rbx" INVALID; DEFINE_GPR "rcx" (ARG 4); DEFINE_GPR "rdx" (ARG 3);
   DEFINE_GPR "rsi" (ARG 2); DEFINE_GPR "rdi" (ARG 1); DEFINE_GPR "rbp" GEN_FP; DEFINE_GPR "rsp" GEN_SP;
   DEFINE_GPR "r8" (ARG 5); DEFINE_GPR "r9" (ARG 6); DEFINE_GPR "r10" INVALID; DEFINE_GPR "r11" INVALID;
   DEFINE_GPR "r12" INVALID; DEFINE_GPR "r13" INVALID; DEFINE_GPR "r14" INVALID; DEFINE_GPR "r15" INVALID;
   DEFINE_GPR "rip" GEN_PC; DEFINE_FLAG; DEFINE_SEG "cs"; DEFINE_SEG "fs"; DEFINE_SEG "gs"; DEFINE_SEG "ss";
   DEFINE_SEG "ds"; DEFINE_SEG "es"; DEFINE_FP_ST "st0"; DEFINE_FP_ST "st1"; DEFINE_FP_ST "st2";
   DEFINE_FP_ST "st3"; DEFINE_FP_ST "st4"; DEFINE_FP_ST "st5"; DEFINE_FP_ST "st6"; DEFINE_FP_ST "st7";
   DEFINE_FP_MM "mm0"; DEFINE_FP_MM "mm1"; DEFINE_FP_MM "mm2"; DEFINE_FP_MM "mm3"; DEFINE_FP_MM "mm4";
   DEFINE_FP_MM "mm5"; DEFINE_FP_MM "mm6"; DEFINE_FP_MM "mm7"; DEFINE_XMM "xmm0"; DEFINE_XMM "xmm1";
   DEFINE_XMM "xmm2"; DEFINE_XMM "xmm3"; DEFINE_XMM "xmm4"; DEFINE_XMM "xmm5"; DEFINE_XMM "xmm6";
   DEFINE_XMM "xmm7"; DEFINE_XMM "xmm8"; DEFINE_XMM "xmm9"; DEFINE_XMM "xmm10"; DEFINE_XMM "xmm11";
   DEFINE_XMM "xmm12"; DEFINE_XMM "xmm13"; DEFINE_XMM "xmm14"; DEFINE_XMM "xmm15"; DEFINE_XMM "xmm16";
   DEFINE_XMM "xmm17"; DEFINE_XMM "xmm18"; DEFINE_XMM "xmm19"; DEFINE_XMM "xmm20"; DEFINE_XMM "xmm21";
   DEFINE_XMM "xmm22"; DEFINE_XMM "xmm23"; DEFINE_XMM "xmm24"; DEFINE_XMM "xmm25"; DEFINE_XMM "xmm26";
   DEFINE_XMM "xmm27"; DEFINE_XMM "xmm28"; DEFINE_XMM "xmm29"; DEFINE_XMM "xmm30"; DEFINE_XMM "xmm31"].

Definition gpr_regnums : list string :=
  ["rax"; "rbx"; "rcx"; "rdx"; "rdi"; "rsi"; "rbp"; "rsp"; "r8"; "r9"; "r10"; "r11"; "r12"; "r13"; "r14"; "r15";
   "rip"; "rflags"].
Definition fpu_regnums : list string :=
  ["st0"; "st1"; "st2"; "st3"; "st4"; "st5"; "st6"; "st7"; "mm0"; "mm1"; "mm2"; "mm3"; "mm4"; "mm5"; "mm6";
   "mm7"; "xmm0"; "xmm1"; "xmm2"; "xmm3"; "xmm4"; "xmm5"; "xmm6"; "xmm7"; "xmm8"; "xmm9"; "xmm10"; "xmm11";
   "xmm12"; "xmm13"; "xmm14"; "xmm15"; "xmm16"; "xmm17"; "xmm18"; "xmm19"; "xmm20"; "xmm21"; "xmm22"; "xmm23";
   "xmm24"; "xmm25"; "xmm26"; "xmm27"; "xmm28"; "xmm29"; "xmm30"; "xmm31"].
Definition register_sets : list RegisterSet :=
  [mkRegSet "General Purpose Registers" "gpr" gpr_regnums; mkRegSet "Floating Point Registers" "fpu" fpu_regnums].
End x86_64.

(** * Tables *)

(** The two arrays, which [InitOffsets] writes to. *)
Record info_tables := mkTables { arm64_infos : list RegisterInfo; x64_infos : list RegisterInfo }.
Definition tables_start : info_tables := mkTables arm64.register_infos x86_64.register_infos.

Fixpoint init_offsets (offset : Z) (infos : list RegisterInfo) : list RegisterInfo :=
  match infos with
  | [] => []
  | i :: infos' =>
      mkInfo (ri_name i) (ri_alt i) (byte_size i) offset (ri_encoding i) (ri_format i) (ri_generic i) ::
      init_offsets (wrap32 (offset + byte_size i)) infos'
  end.
Definition InitOffsets (t : info_tables) : info_tables := mkTables (init_offsets 0 (arm64_infos t)) (init_offsets 0 (x64_infos t)).

Definition registers (arch : arch_t) : list Z := match arch with ARM64 => arm64.registers | X64 => x86_64.registers end.
Definition register_infos (arch : arch_t) (t : info_tables) : list RegisterInfo :=
  match arch with ARM64 => arm64_infos t | X64 => x64_infos t end.
Definition register_sets (arch : arch_t) : list RegisterSet :=
  match arch with ARM64 => arm64.register_sets | X64 => x86_64.register_sets end.

Definition GetRegisterCount (arch : arch_t) : Z := Z.of_nat (List.length (registers arch)).
Definition GetRegisterInfoAtIndex (arch : arch_t) (t : info_tables) (reg_index : Z) : option RegisterInfo :=
  if reg_index <? Z.of_nat (List.length (registers arch)) then register_infos arch t !! Z.to_nat reg_index else None.
Definition GetRegisterSetCount (arch : arch_t) : Z := Z.of_nat (List.length (register_sets arch)).
Definition GetRegisterSet (arch : arch_t) (set_index : Z) : option RegisterSet :=
  if set_index <? Z.of_nat (List.length (register_sets arch)) then register_sets arch !! Z.to_nat set_index else None.

(** * Reading and writing *)

(** What a read hands to the debugger's value: [SetUInt64] or [SetBytes]. *)
Inductive reg_value := SetUInt64 (v : Z) | SetBytes (l : list Z).

Section Access.
Context `{A64Layout} `{X86Layout}.
Variables (arch : arch_t) (m_binary m_binary_opcode : option Binary) (basePointer : Z).
Variable t : info_tables.

(** The bytes behind the pointer. *)
Definition reg_bytes (cpu : CPUState) (p : reg_ptr) (n : nat) : exec (list Z) :=
  match p with
  | PcMember => Ret (take n (le_bytes 8 (pc cpu) ++ le_bytes 8 (rvalue cpu)))%list
  | InState o => Ret (load_bytes (state cpu) o n)
  | NullPtr => Undef
  end.

(** The register at the index the description has in its array. *)
Definition ReadRegister (index : nat) (cpu : CPUState) : exec (reg_value * CPUState) :=
  info ← of_option Undef (register_infos arch t !! index);
  reg ← of_option Undef (registers arch !! index);
  r ← getRegister arch m_binary m_binary_opcode basePointer cpu reg true;
  let '(p, cpu) := r in
  if byte_size info <=? 8 then v ← reg_u8 cpu p; Ret (SetUInt64 v, cpu)
  else l ← reg_bytes cpu p (Z.to_nat (byte_size info)); Ret (SetBytes l, cpu).

(** [memcpy] into a value of zeroes. *)
Definition regval_of (l : list Z) : RegisterValueSIMD :=
  let l := (l ++ replicate (16 - List.length l) 0)%list in SIMD (le_value (take 8 l)) (le_value (take 8 (drop 8 l))).

Definition WriteRegister (index : nat) (l : list Z) (cpu : CPUState) : exec CPUState :=
  info ← of_option Undef (register_infos arch t !! index);
  reg ← of_option Undef (registers arch !! index);
  if Z.of_nat (List.length l) <? byte_size info then Undef
  else
    let regval := regval_of (take (Z.to_nat (byte_size info)) l) in
    if byte_size info >? 8 then r ← setRegisterSIMD arch cpu reg regval; Ret r.2
    else Ret (setRegister arch cpu reg (simd_low regval)).2.
End Access.

(** * Lemmas *)

Definition the_tables : info_tables := InitOffsets tables_start.

Section Kinds.
Context `{A64Layout} `{X86Layout}.

(** The segments, whose fields in the state have 2 bytes. *)
Definition segment (arch : arch_t) (i : nat) : bool :=
  match arch with ARM64 => false | X64 => (18 <=? i)%nat && (i <=? 23)%nat end.
Definition in_simd (arch : arch_t) (reg : Z) : bool :=
  match arch with
  | ARM64 => (Register.Q0 <=? reg) && (reg <=? Register.Q31)
  | X64 => (Register.XMM0 <=? reg) && (reg <=? Register.XMM31)
  end.

Definition kind_ok (arch : arch_t) (i : nat) : bool :=
  match register_infos arch the_tables !! i, registers arch !! i with
  | Some info, Some reg =>
      if byte_size info <=? 8 then (0 <? byte_size info) && (independent (RegFile := regfile_of arch) reg || segment arch i)
      else if byte_size info =? 16 then in_simd arch reg else (byte_size info =? 10) && negb (in_simd arch reg)
  | None, None => true
  | _, _ => false
  end.

Lemma all_kinds arch i : kind_ok arch i = true.
Proof.
  destruct (decide (i < 72)%nat) as [Hi|Hi].
  - assert (forallb (kind_ok arch) (seq 0 72) = true) as Hall by (destruct arch; by vm_compute).
    rewrite forallb_forall in Hall. apply Hall, in_seq. lia.
  - unfold kind_ok. rewrite !lookup_ge_None_2; [done|..]; (transitivity 72%nat; [destruct arch; vm_compute; lia|lia]).
Qed.

(** A register of 16 bytes has a place of its own. *)
Lemma simd_slot arch reg : in_simd arch reg = true -> ∃ o,
  (∀ m, rf_get (RegFile := regfile_of arch) reg m = (Some o, m)) ∧ reg <> Register.PC ∧
  ∀ v cpu, setRegisterSIMD arch cpu reg v =
    Ret (true, with_state cpu (store 8 (store 8 (state cpu) o (simd_low v)) (o + 8) (simd_high v))).
Proof.
  destruct arch; intros Hr; pose proof Hr as Hr'; bsplit; unfold in_simd in Hr'.
  - exists (off (simd_v (reg - Register.Q0))).
    assert (switch reg aarch64_cases = Some (simd_v (reg - Register.Q0))) as Hs by (apply switch_q; lia).
    assert (Register.NZCV < Register.Q0 ∧ Register.PC < Register.Q0) as [Hn Hp] by by vm_compute.
    assert (reg =? Register.NZCV = false) as Hne by (apply Z.eqb_neq; lia).
    assert (∀ m, getRegisterAArch64 reg m = (Some (off (simd_v (reg - Register.Q0))), m)) as Hg
      by (intros m; unfold getRegisterAArch64, table_get; by rewrite Hs, Hne).
    split_and!; [done|lia|]. intros v cpu. unfold setRegisterSIMD, setRegisterNEON, table_set_simd. rewrite Hr'.
    change (table_get _ _ _ _ reg (state cpu)) with (getRegisterAArch64 reg (state cpu)). by rewrite Hg.
  - exists (off (x86_vec (reg - Register.XMM0))).
    assert (switch reg x86_cases = Some (x86_vec (reg - Register.XMM0))) as Hs by (apply switch_xmm; lia).
    assert (Register.RFLAGS < Register.XMM0 ∧ Register.PC < Register.XMM0) as [Hn Hp] by by vm_compute.
    assert (reg =? Register.RFLAGS = false) as Hne by (apply Z.eqb_neq; lia).
    assert (∀ m, getRegisterX86 reg m = (Some (off (x86_vec (reg - Register.XMM0))), m)) as Hg
      by (intros m; unfold getRegisterX86, table_get; by rewrite Hs, Hne).
    split_and!; [done|lia|]. intros v cpu. unfold setRegisterSIMD, setRegisterSSE, table_set_simd. rewrite Hr'.
    change (table_get _ _ _ _ reg (state cpu)) with (getRegisterX86 reg (state cpu)). by rewrite Hg.
Qed.

Lemma simd_refused arch reg v cpu : in_simd arch reg = false -> setRegisterSIMD arch cpu reg v = Ret (false, with_state cpu (state cpu)).
Proof. destruct arch; cbn [in_simd]; intros Hr; unfold setRegisterSIMD, setRegisterNEON, setRegisterSSE, table_set_simd; by rewrite Hr. Qed.
End Kinds.

(** What the bytes of a value are read as. *)
Lemma regval_low l : (List.length l <= 8)%nat -> Forall u8 l -> simd_low (regval_of l) = le_value l.
Proof.
  intros Hn Hl. unfold regval_of. cbn [simd_low].
  rewrite take_app_ge by done. rewrite take_replicate, le_value_app.
  enough (∀ k, le_value (replicate k 0) = 0) as -> by lia.
  induction k as [|k IH]; [done|]. cbn [replicate le_value]. lia.
Qed.

Lemma le_bytes_8 l : List.length l = 8%nat -> Forall u8 l -> le_bytes 8 (le_value l) = l.
Proof. intros Hn Hl. pose proof (le_bytes_value l Hl) as E. by rewrite Hn in E. Qed.

Lemma regval_bytes l : List.length l = 16%nat -> Forall u8 l ->
  (le_bytes 8 (simd_low (regval_of l)) ++ le_bytes 8 (simd_high (regval_of l)))%list = l.
Proof.
  intros Hn Hl. unfold regval_of. cbn [simd_low simd_high]. rewrite Hn. cbn [Nat.sub replicate]. rewrite app_nil_r.
  rewrite (take_ge (drop 8 l)) by (rewrite length_drop; lia).
  rewrite !le_bytes_8; [apply take_drop|rewrite length_drop; lia|by apply Forall_drop|rewrite length_take; lia|by apply Forall_take].
Qed.

Lemma regval_fits l : Forall u8 l -> u64 (simd_low (regval_of l)) ∧ u64 (simd_high (regval_of l)).
Proof.
  intros Hl. unfold regval_of. cbn [simd_low simd_high].
  assert (Forall u8 (l ++ replicate (16 - List.length l) 0)) as Hr.
  { apply Forall_app. split; [done|]. apply Forall_replicate. split; lia. }
  assert (∀ l, Forall u8 l -> (List.length l <= 8)%nat -> u64 (le_value l)) as Hv.
  { intros k Hk Hn. eapply fits_mono; [|by apply le_value_fits]. lia. }
  split; apply Hv; rewrite ?length_take; try lia; repeat (apply Forall_take || apply Forall_drop); done.
Qed.

Lemma load_bytes_app m n k : ∀ a, load_bytes m a (n + k) = (load_bytes m a n ++ load_bytes m (a + Z.of_nat n) k)%list.
Proof.
  induction n as [|n IH]; intros a; cbn [load_bytes Nat.add app].
  - by replace (a + Z.of_nat 0) with a by lia.
  - rewrite IH. by replace (a + 1 + Z.of_nat n) with (a + Z.of_nat (S n)) by lia.
Qed.

Lemma load_two_words m o lo hi :
  load_bytes (store 8 (store 8 m o lo) (o + 8) hi) o 16 = (le_bytes 8 lo ++ le_bytes 8 hi)%list.
Proof.
  rewrite (load_bytes_app _ 8 8). unfold store. f_equal.
  - rewrite load_store_bytes_disjoint by (rewrite le_bytes_length; lia).
    rewrite <- (le_bytes_length 8 lo) at 2. apply load_store_bytes.
  - change (Z.of_nat 8) with 8. rewrite <- (le_bytes_length 8 hi) at 2. apply load_store_bytes.
Qed.

Section Roundtrip.
Context `{A64Layout} `{X86Layout}.
Variables (arch : arch_t) (bin : Binary) (mo : option Binary) (basePointer : Z).

Lemma write_word cpu reg v : independent (RegFile := regfile_of arch) reg = true -> u64 v ->
  let cpu' := (setRegister arch cpu reg v).2 in
  pcptr cpu' = pcptr cpu ∧
  ∀ r, independent (RegFile := regfile_of arch) r = true ->
    rf_read (H := regfile_of arch) r (state cpu') =
      if decide (r = reg) then Some v else rf_read (H := regfile_of arch) r (state cpu).
Proof.
  intros Hi Hv. unfold setRegister.
  assert (∀ r, independent (RegFile := regfile_of arch) r = true -> rf_read (H := regfile_of arch) r (rf_set (RegFile := regfile_of arch) reg v (state cpu)).2 =
    if decide (r = reg) then Some v else rf_read (H := regfile_of arch) r (state cpu)) as Hr
    by (intros r Hr; by apply (rf_set_read (R := regfile_of arch))).
  by destruct (rf_set (RegFile := regfile_of arch) reg v (state cpu)) as [ok m].
Qed.

Lemma write_simd_frame cpu reg v r : in_simd arch reg = true -> u64 (simd_low v) -> u64 (simd_high v) ->
  independent (RegFile := regfile_of arch) r = true -> r <> reg -> ∃ cpu', setRegisterSIMD arch cpu reg v = Ret (true, cpu') ∧
    rf_read (H := regfile_of arch) r (state cpu') = rf_read (H := regfile_of arch) r (state cpu).
Proof.
  intros Hr Hl Hh Hi Hne. unfold setRegisterSIMD.
  destruct arch; cbn [in_simd] in Hr; pose proof Hr as Hr'; apply andb_true_iff in Hr as [Hr1%Z.leb_le Hr2%Z.leb_le].
  - destruct (table_set_simd_spec _ _ _ _ a64_table_ok _ _ reg v (state cpu) _ Hr' (switch_q reg (conj Hr1 Hr2)))
      as (m' & H1 & _ & _ & H4); [done| |done..|].
    { intros ->. by vm_compute in Hr'. }
    unfold setRegisterNEON. rewrite H1. eexists. split; [done|]. by apply H4.
  - destruct (table_set_simd_spec _ _ _ _ x86_table_ok _ _ reg v (state cpu) _ Hr' (switch_xmm reg (conj Hr1 Hr2)))
      as (m' & H1 & _ & _ & H4); [done| |done..|].
    { intros ->. by vm_compute in Hr'. }
    unfold setRegisterSSE. rewrite H1. eexists. split; [done|]. by apply H4.
Qed.

(** Any register but PC is read at its place in the state. *)
Lemma getRegister_plain cpu reg : reg <> Register.PC ->
  getRegister arch (Some bin) mo basePointer cpu reg true = Ret (get_state_register arch cpu reg).
Proof. intros Hr. unfold getRegister. by rewrite (proj2 (Z.eqb_neq _ _) Hr). Qed.

Lemma read_small cpu reg v : reg <> Register.PC -> rf_read (H := regfile_of arch) reg (state cpu) = Some v ->
  ∃ p cpu', getRegister arch (Some bin) mo basePointer cpu reg true = Ret (p, cpu') ∧ reg_u8 cpu' p = Ret v.
Proof.
  intros Hr Hv. rewrite getRegister_plain by done. unfold get_state_register, rf_read in *.
  destruct (rf_get reg (state cpu)) as [[o|] m']; [|done]. simplify_eq. by eexists _, _.
Qed.

Lemma read_pc cpu v : pcptr cpu = (rf_get (RegFile := regfile_of arch) Register.PC (state cpu)).1 ->
  rf_read (H := regfile_of arch) Register.PC (state cpu) = Some v ->
  ∃ cpu', getRegister arch (Some bin) mo basePointer cpu Register.PC true = Ret (PcMember, cpu') ∧
    reg_u8 cpu' PcMember = Ret (wrap64 (b_imageBase bin + v - basePointer)).
Proof.
  intros Hp Hv. destruct (pc_slot arch) as [o Ho]. unfold rf_read in Hv. rewrite (proj1 (Ho _)) in Hp, Hv. cbn [fst] in Hp.
  injection Hv as <-. unfold getRegister, pcptr_value. rewrite Hp. cbn [of_option mbind exec_bind].
  rewrite Z.eqb_refl. cbn [andb]. by eexists.
Qed.
End Roundtrip.

(** * The names of the registers *)

Definition numbered (prefix : string) (n first : Z) : list (string * Z) :=
  (fun i => (String.append prefix (pretty (Z.to_N i)), first + i)) <$> seqZ 0 n.
Definition named : list (string * Z) :=
  (numbered "x" 29 Register.X0 ++ numbered "v" 32 Register.Q0 ++
   [("fp", Register.FP); ("lr", Register.LR); ("sp", Register.SP); ("pc", Register.PC); ("cpsr", Register.NZCV);
    ("fpsr", Register.FPSR); ("fpcr", Register.FPCR);
    ("rax", Register.RAX); ("rbx", Register.RBX); ("rcx", Register.RCX); ("rdx", Register.RDX); ("rsi", Register.RSI);
    ("rdi", Register.RDI); ("rbp", Register.RBP); ("rsp", Register.RSP); ("r8", Register.R8); ("r9", Register.R9);
    ("r10", Register.R10); ("r11", Register.R11); ("r12", Register.R12); ("r13", Register.R13); ("r14", Register.R14);
    ("r15", Register.R15); ("rip", Register.RIP); ("eflags", Register.RFLAGS);
    ("cs", Register.CS); ("ss", Register.SS); ("ds", Register.DS); ("es", Register.ES); ("fs", Register.FS); ("gs", Register.GS)] ++
   numbered "st" 8 Register.ST0 ++ numbered "mm" 8 Register.MM0 ++ numbered "xmm" 32 Register.XMM0)%list.
Definition reg_called (name : string) : option Z := snd <$> find (fun p => String.eqb p.1 name) named.

Definition misnamed (arch : arch_t) (i : nat) : bool :=
  match arch with ARM64 => false | X64 => (19 <=? i)%nat && (i <=? 23)%nat end.
Definition sizes (infos : list RegisterInfo) : Z := foldr (fun i n => byte_size i + n) 0 infos.

Definition table_row_ok (arch : arch_t) (i : nat) : bool :=
  match register_infos arch the_tables !! i, registers arch !! i with
  | Some info, Some reg =>
      (byte_offset info =? sizes (take i (register_infos arch the_tables))) &&
      Bool.eqb (bool_decide (reg_called (ri_name info) = Some reg)) (negb (misnamed arch i))
  | None, None => true
  | _, _ => false
  end.

Lemma all_rows arch i : table_row_ok arch i = true.
Proof.
  destruct (decide (i < 72)%nat) as [Hi|Hi].
  - assert (forallb (table_row_ok arch) (seq 0 72) = true) as Hall by (destruct arch; by vm_compute).
    rewrite forallb_forall in Hall. apply Hall, in_seq. lia.
  - unfold table_row_ok. rewrite !lookup_ge_None_2; [done|..]; (transitivity 72%nat; [destruct arch; vm_compute; lia|lia]).
Qed.

(** * Properties *)

(** The tables. After [InitOffsets] both tables of an architecture have the
    same length, the descriptions lie one behind the other, and each is named
    after the register at its index, except for five segment registers of x86_64:
    its two tables list them in different orders. *)
Theorem context_tables arch (i : nat) :
  (is_Some (GetRegisterInfoAtIndex arch the_tables (Z.of_nat i)) <-> Z.of_nat i < GetRegisterCount arch) ∧
  ∀ info reg, GetRegisterInfoAtIndex arch the_tables (Z.of_nat i) = Some info -> registers arch !! i = Some reg ->
    byte_offset info = sizes (take i (register_infos arch the_tables)) ∧
    (reg_called (ri_name info) = Some reg <-> misnamed arch i = false).
Proof.
  pose proof (all_rows arch i) as Hrow. unfold table_row_ok in Hrow. unfold GetRegisterInfoAtIndex, GetRegisterCount.
  rewrite Nat2Z.id. split.
  - destruct (Z.ltb_spec (Z.of_nat i) (Z.of_nat (List.length (registers arch)))) as [Hlt|Hge].
    + split; [done|]. intros _. destruct (lookup_lt_is_Some_2 (registers arch) i ltac:(lia)) as [reg Hreg].
      rewrite Hreg in Hrow. by destruct (_ !! i).
    + split; [by intros [? ?]|lia].
  - intros info reg Hi Hr. destruct (_ <? _); [|done]. rewrite Hi, Hr in Hrow. apply andb_true_iff in Hrow as [Ho Hn].
    split; [by apply Z.eqb_eq|]. apply eqb_prop in Hn. rewrite <- (bool_decide_eq_true (reg_called _ = _)), Hn. apply negb_true_iff.
Qed.

(** C37: writing a register and reading it again. The first bytes of what the
    debugger gives are written, as many as the description says; a register of at
    most 8 bytes then reads as their value and one of 16 as the bytes; a write to a
    register of 10 bytes, the x87 stack, changes nothing. No register with 8 bytes of
    its own changes but the one written. PC, which is written as it is, reads moved
    from the base of the reservation to the image base. The segments are left out:
    their 8 bytes reach into the next ones. *)
Theorem context_write_read `{A64Layout} `{X86Layout} arch bin mo base (i : nat) info reg l cpu :
  register_infos arch the_tables !! i = Some info -> registers arch !! i = Some reg -> segment arch i = false ->
  Forall u8 l -> byte_size info <= Z.of_nat (List.length l) ->
  pcptr cpu = (rf_get (RegFile := regfile_of arch) Register.PC (state cpu)).1 ->
  let l' := take (Z.to_nat (byte_size info)) l in
  ∃ cpu', WriteRegister arch the_tables i l cpu = Ret cpu' ∧
    (∀ r, independent (RegFile := regfile_of arch) r = true -> r <> reg ->
       rf_read (H := regfile_of arch) r (state cpu') = rf_read (H := regfile_of arch) r (state cpu)) ∧
    (byte_size info = 10 -> state cpu' = state cpu) ∧
    (byte_size info <> 10 -> ∃ cpu'', ReadRegister arch (Some bin) mo base the_tables i cpu' = Ret
       (if byte_size info <=? 8
        then SetUInt64 (if reg =? Register.PC then wrap64 (b_imageBase bin + le_value l' - base) else le_value l')
        else SetBytes l', cpu'')).
Proof.
  intros Hinfo Hreg Hseg Hl Hn Hpc l'. pose proof (all_kinds arch i) as Hk. unfold kind_ok in Hk. rewrite Hinfo, Hreg, Hseg in Hk.
  unfold WriteRegister, ReadRegister. rewrite Hinfo, Hreg. cbn [of_option mbind exec_bind].
  rewrite (proj2 (Z.ltb_ge _ _)) by done. fold l'. rewrite Z.gtb_ltb.
  assert (Forall u8 l') as Hl' by by apply Forall_take.
  assert (List.length l' = Z.to_nat (byte_size info)) as Hlen by (unfold l'; rewrite length_take; lia).
  destruct (Z.leb_spec (byte_size info) 8) as [H8|H8].
  - rewrite orb_false_r in Hk. apply andb_true_iff in Hk as [Hpos%Z.ltb_lt Hi]. rewrite (proj2 (Z.ltb_ge _ _)) by done.
    rewrite regval_low by (done || lia).
    pose proof (le_value_fits l' Hl') as Hv. rewrite Hlen in Hv. apply (fits_mono _ 64) in Hv; [|lia].
    destruct (write_word arch cpu reg (le_value l') Hi Hv) as [Hp Hr]. eexists. split; [done|]. split_and!.
    + intros r Hri Hne. by rewrite Hr, decide_False.
    + lia.
    + intros _. pose proof (Hr reg Hi) as Hself. rewrite decide_True in Hself by done.
      destruct (Z.eqb_spec reg Register.PC) as [->|Hne].
      * destruct (read_pc arch bin mo base (setRegister arch cpu Register.PC (le_value l')).2 (le_value l')) as (cpu2 & Hg & Hu);
          [rewrite Hp, Hpc; apply (rf_get_ptr (R := regfile_of arch))|done|].
        rewrite Hg. cbn [mbind exec_bind]. rewrite Hu. by eexists.
      * destruct (read_small arch bin mo base _ reg _ Hne Hself) as (p & cpu2 & Hg & Hu).
        rewrite Hg. cbn [mbind exec_bind]. rewrite Hu. by eexists.
  - rewrite (proj2 (Z.ltb_lt _ _)) by done. destruct (Z.eqb_spec (byte_size info) 16) as [H16|H16].
    + destruct (simd_slot arch reg Hk) as (o & Hget & Hne & Hset). rewrite Hset. cbn [mbind exec_bind snd].
      rewrite H16 in Hlen. eexists. split; [done|]. split_and!.
      * intros r Hri Hrr. destruct (write_simd_frame arch cpu reg (regval_of l') r Hk) as (cpu2 & E & Hf);
          [apply regval_fits, Hl'..|done|done|]. rewrite Hset in E. by simplify_eq.
      * lia.
      * intros _. rewrite getRegister_plain by done. unfold get_state_register. rewrite Hget. cbn [mbind exec_bind reg_bytes state with_state].
        rewrite H16. change (Z.to_nat 16) with 16%nat. rewrite load_two_words, regval_bytes by done. by eexists.
    + apply andb_true_iff in Hk as [H10%Z.eqb_eq Hk%negb_true_iff]. rewrite simd_refused by done. cbn [mbind exec_bind snd].
      eexists. split; [done|]. split_and!; [by intros|done|by intros].
Qed.

Theorem context_tables_witness : ∃ info reg,
  GetRegisterInfoAtIndex X64 the_tables 19 = Some info ∧ registers X64 !! 19%nat = Some reg ∧
  byte_offset info = 144 ∧ reg_called (ri_name info) <> Some reg.
Proof.
  destruct (context_tables X64 19) as [_ H]. destruct (H _ _ eq_refl eq_refl) as [H1 H2].
  eexists _, _. split_and!; [reflexivity|reflexivity|exact H1|]. intros E. by apply H2 in E.
Defined.

#[local] Existing Instance a64_sample.
#[local] Existing Instance x86_sample.
(** A vector register, and the program counter of a binary at 2^32. *)
Theorem context_write_read_witness :
  let cpu := mkCPU (rf_get (RegFile := regfile_of ARM64) Register.PC (∅ : bytes)).1 None (∅ : bytes) 0 0 0 0 0 in
  let bin := mkBinary ARM64 0 [] (fun a => a) 0 [] in
  (∃ cpu1 cpu2, WriteRegister ARM64 the_tables 41 (List.repeat 7 16) cpu = Ret cpu1 ∧
     ReadRegister ARM64 (Some bin) None (2 ^ 32) the_tables 41 cpu1 = Ret (SetBytes (List.repeat 7 16), cpu2)) ∧
  (∃ cpu1 cpu2, WriteRegister ARM64 the_tables 32 [16; 0; 0; 0; 1; 0; 0; 0] cpu = Ret cpu1 ∧
     ReadRegister ARM64 (Some bin) None (2 ^ 32) the_tables 32 cpu1 = Ret (SetUInt64 16, cpu2)).
Proof.
  intros cpu bin. split.
  - destruct (context_write_read ARM64 bin None (2 ^ 32) 41 _ _ (List.repeat 7 16) cpu eq_refl eq_refl eq_refl)
      as (cpu1 & H1 & _ & _ & H2); [apply (bool_decide_unpack _); by vm_compute|done|reflexivity|].
    destruct (H2 ltac:(discriminate)) as [cpu2 H3]. exists cpu1, cpu2. split; [exact H1|exact H3].
  - destruct (context_write_read ARM64 bin None (2 ^ 32) 32 _ _ [16; 0; 0; 0; 1; 0; 0; 0] cpu eq_refl eq_refl eq_refl)
      as (cpu1 & H1 & _ & _ & H2); [apply (bool_decide_unpack _); by vm_compute|done|reflexivity|].
    destruct (H2 ltac:(discriminate)) as [cpu2 H3]. exists cpu1, cpu2. split; [exact H1|exact H3].
Defined.
