(* ===== verification/Intrinsic.v ===== *)
(** src/Intrinsic.cpp: what the lifted code calls for memory, atomic operations,
    the floating-point environment and system calls of the guest. Guest memory
    is the host's memory at the same address; callbacks, the debugger, the
    system call and the numbers of remill's and the host's floating-point flags
    are parameters; the host's environment is as ISO C has it. *)
From Stdlib Require Import ZArith Lia List.
From stdpp Require Import base list gmap.
From S2P Require Import Prelude Utils Registers StateMem CPUState Orchestrator Event.
#[local] Open Scope Z_scope.

(** * Memory *)

(** [sizeof(T)], the casts between T and [uint64_t] (a float is converted, not
    reinterpreted), and whether the parameter [in] is const, as it is for the
    integers. *)
Record access_type := mkAccess {
  a_size : nat; to_u64 : Z -> exec Z; of_u64 : Z -> Z; const_in : bool
}.
Definition uint_type (n : nat) : access_type :=
  mkAccess n (fun v => Ret v) (wrap (8 * Z.of_nat n)) true.

(** What the reference [AccessMemory] returns refers to. *)
Inductive place := InMemory (addr : Z) | InRvalue.

Section Access.
Context {W : Type}.
Implicit Types s : CPUState * (bytes * W).
Variable eventCallbacks : list (callback (S := CPUState * (bytes * W))).
(** [dbgContext.memory_handler(&CPU, addr, size, write)]. *)
Variable memory_handler : Z -> nat -> bool -> CPUState * (bytes * W) -> CPUState * (bytes * W).

Definition memory_of s : bytes := s.2.1.
Definition set_memory s (m : bytes) : CPUState * (bytes * W) := (s.1, (m, s.2.2)).
Definition set_rvalue s (v : Z) : CPUState * (bytes * W) :=
  let c := s.1 in
  (mkCPU (pcptr c) (runtime c) (state c) (pc c) v (retaddr c) (stack c) (stacksize c), s.2).

(** [std::get<EventMemory>(event).value]: another variant throws. *)
Definition event_value (e : Event) : exec Z :=
  match e with EventMemory _ _ _ _ v => Ret v | _ => Abort end.

(** [*inptr] may have been given another value; a const object must not. *)
Definition AccessMemory (T : access_type) (addr : Z) (inptr : option Z) s :
    exec (place * option Z * (CPUState * (bytes * W))) :=
  rt ← cpu_runtime s;
  '(early, inptr, s) ←
    (if hasEventHandler eventCallbacks then
       pc ← cpu_pc s;
       match inptr with
       | Some v =>
           u ← to_u64 T v;
           let '(result, event, s) :=
             handleEvent eventCallbacks (EventMemory MemWrite pc addr (Z.of_nat (a_size T)) u) s in
           if bool_decide (result = Processed) then
             u ← event_value event;
             if const_in T then Undef else Ret (false, Some (of_u64 T u), s)
           else Ret (false, Some v, s)
       | None =>
           u ← to_u64 T (load (a_size T) (memory_of s) addr);
           let '(result, event, s) :=
             handleEvent eventCallbacks (EventMemory MemRead pc addr (Z.of_nat (a_size T)) u) s in
           if bool_decide (result = Processed) then u ← event_value event; Ret (true, None, set_rvalue s u)
           else Ret (false, None, s)
       end
     else Ret (false, inptr, s));
  if (early : bool) then Ret (InRvalue, inptr, s)
  else
    let s := if rt_debug rt then memory_handler addr (a_size T) (bool_decide (inptr <> None)) s else s in
    Ret (InMemory addr, inptr, s).

(** The value of type T at a place; the register value has eight bytes. *)
Definition read_place (T : access_type) (p : place) s : exec Z :=
  match p with
  | InMemory addr => Ret (load (a_size T) (memory_of s) addr)
  | InRvalue => if (a_size T <=? 8)%nat then Ret (wrap (8 * Z.of_nat (a_size T)) (rvalue s.1)) else Undef
  end.
Definition write_place (T : access_type) (p : place) (v : Z) s : exec (CPUState * (bytes * W)) :=
  match p with
  | InMemory addr => Ret (set_memory s (store (a_size T) (memory_of s) addr v))
  | InRvalue => if (a_size T <=? 8)%nat then Ret (set_rvalue s v) else Undef
  end.

(** [__remill_read_memory_<n>] and [__remill_write_memory_<n>]. The right side
    of [AccessMemory<T>(addr, &in) = in] is evaluated before the left one. *)
Definition read_memory (T : access_type) (addr : Z) s : exec (Z * (CPUState * (bytes * W))) :=
  '(p, _, s) ← AccessMemory T addr None s;
  v ← read_place T p s;
  Ret (v, s).
Definition write_memory (T : access_type) (addr v : Z) s : exec (CPUState * (bytes * W)) :=
  '(p, _, s) ← AccessMemory T addr (Some v) s;
  write_place T p v s.

(** The 80-bit floats of ten bytes go past the events. *)
Definition read_memory_f80 (addr : Z) s : Z := load 10 (memory_of s) addr.
Definition write_memory_f80 (addr v : Z) s : CPUState * (bytes * W) :=
  set_memory s (store 10 (memory_of s) addr v).

(** * Atomic operations *)

(** [__sync_val_compare_and_swap]. *)
Definition compare_exchange_memory (n : nat) (addr expected desired : Z) s : Z * (CPUState * (bytes * W)) :=
  let old := load n (memory_of s) addr in
  (old, if old =? expected then set_memory s (store n (memory_of s) addr desired) else s).

(** Compiled only under _GXX_EXPERIMENTAL_CXX0X__, a macro no compiler defines
    (gcc's has two underscores). *)
Definition compare_exchange_memory_128 (addr expected desired : Z) s : Z * (CPUState * (bytes * W)) :=
  (expected, s).

Inductive fetch_op := FetchAdd | FetchSub | FetchOr | FetchAnd | FetchXor.
Definition fetch_fun (op : fetch_op) (a b : Z) : Z :=
  match op with
  | FetchAdd => a + b | FetchSub => a - b | FetchOr => Z.lor a b | FetchAnd => Z.land a b | FetchXor => Z.lxor a b
  end.

(** [__sync_fetch_and_<op>]. *)
Definition fetch_and (op : fetch_op) (n : nat) (addr value : Z) s : Z * (CPUState * (bytes * W)) :=
  let old := load n (memory_of s) addr in
  (old, set_memory s (store n (memory_of s) addr (wrap (8 * Z.of_nat n) (fetch_fun op old value)))).
End Access.

(** * The floating-point environment *)

Inductive fpu_flag := Invalid | Denormal | DivByZero | Overflow | Underflow | Precision.
Inductive fpu_round := NearestEven | DownNegInf | UpInf | ToZero.

#[export] Instance fpu_flag_eq_dec : EqDecision fpu_flag.
Proof. solve_decision. Defined.
#[export] Instance fpu_round_eq_dec : EqDecision fpu_round.
Proof. solve_decision. Defined.

(** remill's kFPUException<flag> and kFPU<mode>, and those of the host: an
    exception is one bit of its own, a mode a number of its own; a host may
    have no macro for denormal operands, and raising an overflow or underflow
    may raise inexact ([Precision]) with it, as the host chooses. *)
Class FpuNumbers := {
  guest_bit : fpu_flag -> nat; guest_mode : fpu_round -> Z;
  host_bit : fpu_flag -> nat; host_mode : fpu_round -> Z; has_denormal : bool;
  raises_inexact : fpu_flag -> bool;
  guest_bit_inj f g : guest_bit f = guest_bit g -> f = g;
  host_bit_inj f g : host_bit f = host_bit g -> f = g;
  guest_mode_inj f g : guest_mode f = guest_mode g -> f = g;
  host_mode_inj f g : host_mode f = host_mode g -> f = g
}.

Section Fpu.
Context `{FpuNumbers}.

(** Bit [b] of a mask. *)
Definition bit (b : nat) : Z := Z.shiftl 1 (Z.of_nat b).

(** [if (from & a) to |= b;] for each flag the host has. *)
Definition map_flag (src dst : fpu_flag -> nat) (m : Z) (f : fpu_flag) (acc : Z) : Z :=
  if Z.land m (bit (src f)) =? 0 then acc else Z.lor acc (bit (dst f)).
Definition mapped_flags : list fpu_flag :=
  [Invalid; DivByZero; Overflow; Underflow; Precision] ++ (if has_denormal then [Denormal] else []).

Definition MapFpuExceptToFe (guest_except : Z) : Z :=
  fold_left (fun acc f => map_flag guest_bit host_bit guest_except f acc) mapped_flags 0.
Definition MapFeToFpuExcept (host_except : Z) : Z :=
  fold_left (fun acc f => map_flag host_bit guest_bit host_except f acc) mapped_flags 0.

Definition MapFpuRoundToFe (guest_round : Z) : Z :=
  if guest_round =? guest_mode NearestEven then host_mode NearestEven
  else if guest_round =? guest_mode UpInf then host_mode UpInf
  else if guest_round =? guest_mode DownNegInf then host_mode DownNegInf
  else if guest_round =? guest_mode ToZero then host_mode ToZero
  else host_mode NearestEven.
Definition MapFeToFpuRound (host_round : Z) : Z :=
  if host_round =? host_mode NearestEven then guest_mode NearestEven
  else if host_round =? host_mode UpInf then guest_mode UpInf
  else if host_round =? host_mode DownNegInf then guest_mode DownNegInf
  else if host_round =? host_mode ToZero then guest_mode ToZero
  else guest_mode NearestEven.

(** The host's environment, and the functions of fenv.h that the code calls,
    as ISO C describes them, with no exception trapped. *)
Record fenv := mkFenv { excepts : Z; rounding : Z }.
Definition fetestexcept (e : fenv) (mask : Z) : Z := Z.land (excepts e) mask.
Definition feclearexcept (e : fenv) (mask : Z) : fenv := mkFenv (Z.ldiff (excepts e) mask) (rounding e).
Definition with_inexact (mask : Z) : bool :=
  existsb (fun f => raises_inexact f && Z.testbit mask (Z.of_nat (host_bit f))) [Overflow; Underflow].
Definition feraiseexcept (e : fenv) (mask : Z) : fenv :=
  let raised := if with_inexact mask then Z.lor mask (bit (host_bit Precision)) else mask in
  mkFenv (Z.lor (excepts e) raised) (rounding e).
Definition fesetround (e : fenv) (mode : Z) : fenv := mkFenv (excepts e) mode.

Definition fpu_exception_test (read_mask : Z) (e : fenv) : Z :=
  MapFeToFpuExcept (fetestexcept e (MapFpuExceptToFe read_mask)).
Definition fpu_exception_clear (clear_mask : Z) (e : fenv) : fenv := feclearexcept e (MapFpuExceptToFe clear_mask).
Definition fpu_exception_raise (except_mask : Z) (e : fenv) : fenv := feraiseexcept e (MapFpuExceptToFe except_mask).
Definition fpu_set_rounding (round_mode : Z) (e : fenv) : fenv := fesetround e (MapFpuRoundToFe round_mode).
Definition fpu_get_rounding (e : fenv) : Z := MapFeToFpuRound (rounding e).
End Fpu.

(** * Synchronous hypercalls *)

Inductive sync_name := KX86SysCall | KAArch64Breakpoint | KOther.

Section HyperCall.
Context `{X86Layout} {W : Type}.
Implicit Types s : CPUState * W.
Variable eventCallbacks : list (callback (S := CPUState * W)).
Variable syscall : Z -> list Z -> CPUState * W -> Z * (CPUState * W).

Definition x86_reg (f : x86_field) s : Z := load 8 (state s.1) (off f).
Definition syscall_registers : list x86_field :=
  [gpr_g g_rdi; gpr_g g_rsi; gpr_g g_rdx; gpr_r 10; gpr_r 8; gpr_r 9].

Definition sync_hyper_call (name : sync_name) s : exec (CPUState * W) :=
  match name with
  | KX86SysCall =>
      _ ← cpu_runtime s;
      addr ← cpu_pc s;
      let sysno s := to_signed 32 (x86_reg (gpr_g g_rax) s) in
      let '(result, event, s) := handleEvent eventCallbacks (EventHyperCall SyscallBefore addr (sysno s)) s in
      if bool_decide (result = Processed) then Ret s
      else
        let '(r, s) := syscall (sysno s) ((fun f => x86_reg f s) <$> syscall_registers) s in
        let s := set_state s (store 8 (state s.1) (off (gpr_g g_rax)) (wrap64 (to_signed 32 r))) in
        if hasEventHandler eventCallbacks then
          event ← set_hypercall_type SyscallAfter event;
          let '(_, _, s) := handleEvent eventCallbacks event s in Ret s
        else Ret s
  | KAArch64Breakpoint =>
      _ ← cpu_runtime s;
      addr ← cpu_pc s;
      let '(_, _, _) := handleEvent eventCallbacks (EventRuntime TrapHit addr) s in
      Abort
  | KOther => Abort
  end.
End HyperCall.

(** * Lemmas *)

Section FpuLemmas.
Context `{FpuNumbers}.

Lemma testbit_bit b i : Z.testbit (bit b) (Z.of_nat i) = (i =? b)%nat.
Proof.
  unfold bit. rewrite Z.shiftl_spec by lia. destruct (Nat.eqb_spec i b) as [->|Hne].
  - by rewrite Z.sub_diag.
  - destruct (Z.lt_ge_cases (Z.of_nat i) (Z.of_nat b)); [by rewrite Z.testbit_neg_r by lia|].
    apply Z.bits_above_log2; [lia|]. cbn. lia.
Qed.

Lemma land_bit m b : (Z.land m (bit b) =? 0) = negb (Z.testbit m (Z.of_nat b)).
Proof.
  destruct (Z.testbit m (Z.of_nat b)) eqn:E; cbn [negb].
  - apply Z.eqb_neq. intros Hz. apply (f_equal (fun z => Z.testbit z (Z.of_nat b))) in Hz.
    rewrite Z.land_spec, E, testbit_bit, Nat.eqb_refl, Z.bits_0 in Hz. done.
  - apply Z.eqb_eq, Z.bits_inj'. intros i Hi. rewrite Z.land_spec, Z.bits_0.
    rewrite <- (Z2Nat.id i) by done. rewrite testbit_bit.
    destruct (Nat.eqb_spec (Z.to_nat i) b) as [->|]; [by rewrite E|apply andb_false_r].
Qed.

(** Bit by bit: [i] is set for the flag it stands for. *)
Lemma map_flags_bit src dst m fs : ∀ acc i,
  Z.testbit (fold_left (fun acc f => map_flag src dst m f acc) fs acc) (Z.of_nat i) =
  Z.testbit acc (Z.of_nat i) || existsb (fun f => (i =? dst f)%nat && Z.testbit m (Z.of_nat (src f))) fs.
Proof.
  induction fs as [|f fs IH]; intros acc i; cbn [fold_left existsb]; [by rewrite orb_false_r|].
  rewrite IH. unfold map_flag. rewrite land_bit.
  destruct (Z.testbit m (Z.of_nat (src f))); cbn [negb]; rewrite ?andb_true_r, ?andb_false_r; [|done].
  by rewrite Z.lor_spec, testbit_bit, orb_assoc.
Qed.

Lemma map_flags_nonneg src dst m fs : ∀ acc, 0 <= acc ->
  0 <= fold_left (fun acc f => map_flag src dst m f acc) fs acc.
Proof.
  induction fs as [|f fs IH]; intros acc Ha; [done|]. apply IH. unfold map_flag. case_match; [done|].
  apply Z.lor_nonneg. split; [done|]. apply Z.shiftl_nonneg. lia.
Qed.

Lemma existsb_flag (d src : fpu_flag -> nat) m fs f : (∀ f g, d f = d g -> f = g) ->
  existsb (fun g => (d f =? d g)%nat && Z.testbit m (Z.of_nat (src g))) fs =
  bool_decide (f ∈ fs) && Z.testbit m (Z.of_nat (src f)).
Proof.
  intros Hd. induction fs as [|g fs IH]; [done|]. cbn [existsb]. rewrite IH.
  destruct (decide (f = g)) as [->|Hne].
  - rewrite Nat.eqb_refl. rewrite (bool_decide_true (g ∈ g :: fs)) by apply list_elem_of_here.
    cbn [andb]. destruct (Z.testbit _ _); [done|]. by rewrite andb_false_r.
  - rewrite (proj2 (Nat.eqb_neq _ _)) by (intros He; by apply Hne, Hd). cbn [andb orb]. f_equal.
    apply bool_decide_ext. rewrite elem_of_cons. tauto.
Qed.

Lemma guest_eqb a b : (guest_mode a =? guest_mode b) = bool_decide (a = b).
Proof.
  case_bool_decide as Hab; [subst; apply Z.eqb_refl|]. apply Z.eqb_neq. intros He. by apply Hab, guest_mode_inj.
Qed.
Lemma host_eqb a b : (host_mode a =? host_mode b) = bool_decide (a = b).
Proof.
  case_bool_decide as Hab; [subst; apply Z.eqb_refl|]. apply Z.eqb_neq. intros He. by apply Hab, host_mode_inj.
Qed.

(** The guest's view of the host's exceptions, and the flags both have. *)
Definition guest_excepts (e : fenv) : Z := MapFeToFpuExcept (excepts e).
Definition host_supports (f : fpu_flag) : bool := bool_decide (f ∈ mapped_flags).
Definition flag_in (m : Z) (f : fpu_flag) : bool := Z.testbit m (Z.of_nat (guest_bit f)).

Lemma to_fe_flag m f : Z.testbit (MapFpuExceptToFe m) (Z.of_nat (host_bit f)) = host_supports f && flag_in m f.
Proof. unfold MapFpuExceptToFe. rewrite map_flags_bit, Z.bits_0. cbn [orb]. apply existsb_flag, host_bit_inj. Qed.

Lemma from_fe_flag m f : flag_in (MapFeToFpuExcept m) f = host_supports f && Z.testbit m (Z.of_nat (host_bit f)).
Proof. unfold flag_in, MapFeToFpuExcept. rewrite map_flags_bit, Z.bits_0. cbn [orb]. apply existsb_flag, guest_bit_inj. Qed.

Lemma host_supports_true f : f <> Denormal -> host_supports f = true.
Proof.
  intros Hf. apply bool_decide_true. unfold mapped_flags. rewrite elem_of_app. left.
  destruct f; try done; apply (bool_decide_unpack _); reflexivity.
Qed.

(** The mask makes the host raise inexact on its own. *)
Definition inexact_too (m : Z) : bool :=
  raises_inexact Overflow && flag_in m Overflow || raises_inexact Underflow && flag_in m Underflow.

Lemma raise_flag m e f : Z.testbit (excepts (fpu_exception_raise m e)) (Z.of_nat (host_bit f)) =
  Z.testbit (excepts e) (Z.of_nat (host_bit f)) || host_supports f && flag_in m f ||
  bool_decide (f = Precision) && inexact_too m.
Proof.
  unfold fpu_exception_raise, feraiseexcept. cbn [excepts].
  assert (with_inexact (MapFpuExceptToFe m) = inexact_too m) as ->.
  { unfold with_inexact, inexact_too. cbn [existsb]. by rewrite !to_fe_flag, !host_supports_true, orb_false_r. }
  assert (Z.testbit (bit (host_bit Precision)) (Z.of_nat (host_bit f)) = bool_decide (f = Precision)) as Hp.
  { rewrite testbit_bit. case_bool_decide as Hf; [subst; by rewrite Nat.eqb_refl|].
    apply Nat.eqb_neq. intros He. apply Hf. by apply host_bit_inj. }
  destruct (inexact_too m); rewrite !Z.lor_spec, to_fe_flag, ?Hp, ?andb_true_r, ?andb_false_r, ?orb_false_r; [|done].
  by rewrite orb_assoc.
Qed.

(** A mask of the guest has no other bits than flags'. *)
Lemma from_fe_other m i : (∀ f, i <> guest_bit f) -> Z.testbit (MapFeToFpuExcept m) (Z.of_nat i) = false.
Proof.
  intros Hi. unfold MapFeToFpuExcept. rewrite map_flags_bit, Z.bits_0. cbn [orb].
  induction mapped_flags as [|f fs IH]; [done|]. cbn [existsb]. by rewrite IH, (proj2 (Nat.eqb_neq _ _)).
Qed.

End FpuLemmas.

Section AccessLemmas.
Context {W : Type}.
Implicit Types s : CPUState * (bytes * W).
Variable eventCallbacks : list (callback (S := CPUState * (bytes * W))).
Variable memory_handler : Z -> nat -> bool -> CPUState * (bytes * W) -> CPUState * (bytes * W).

(** Callbacks and debugger look at the accesses and change neither the memory
    nor what the access itself needs of the cpu. *)
Definition same_access s s' : Prop :=
  memory_of s' = memory_of s ∧ runtime s'.1 = runtime s.1 ∧ pcptr s'.1 = pcptr s.1.
Record observers : Prop := {
  ob_callbacks e s : let '(r, _, s') := handleEvent eventCallbacks e s in r <> Processed ∧ same_access s s';
  ob_debugger addr n w s : same_access s (memory_handler addr n w s)
}.

Lemma same_access_trans s1 s2 s3 : same_access s1 s2 -> same_access s2 s3 -> same_access s1 s3.
Proof. unfold same_access. intros (? & ? & ?) (? & ? & ?). split_and!; congruence. Qed.

(** The thread runs a guest. *)
Definition running s : Prop := is_Some (runtime s.1) ∧ is_Some (pcptr s.1).
Lemma running_same s s' : same_access s s' -> running s -> running s'.
Proof. unfold running. by intros (_ & -> & ->). Qed.

Lemma access_observed T addr inptr s : observers -> running s ->
  (∀ v, ∃ u, to_u64 T v = Ret u) ->
  ∃ s', AccessMemory eventCallbacks memory_handler T addr inptr s = Ret (InMemory addr, inptr, s') ∧ same_access s s'.
Proof.
  intros [Hcb Hdbg] [[rt Hrt] [p Hp]] Hcast. unfold AccessMemory, cpu_runtime, cpu_pc. rewrite Hrt, Hp.
  cbn [of_option mbind exec_bind].
  assert (∀ s1, same_access s s1 -> ∃ s', (let s2 := if rt_debug rt then memory_handler addr (a_size T)
      (bool_decide (inptr <> None)) s1 else s1 in Ret (InMemory addr, inptr, s2)) = Ret (InMemory addr, inptr, s') ∧
    same_access s s') as Hend.
  { intros s1 Hs1. destruct (rt_debug rt); eexists; (split; [reflexivity|]); [|done].
    eapply same_access_trans; [exact Hs1|apply Hdbg]. }
  destruct (hasEventHandler _); [|apply Hend; by split_and!].
  set (pc := load 8 _ p). destruct inptr as [v|].
  - destruct (Hcast v) as [u ->]. cbn [mbind exec_bind].
    specialize (Hcb (EventMemory MemWrite pc addr (Z.of_nat (a_size T)) u) s).
    destruct (handleEvent _ _ _) as [[r e] s1]. destruct Hcb as [Hr Hs1].
    rewrite bool_decide_false by done. cbn [mbind exec_bind]. by apply Hend.
  - destruct (Hcast (load (a_size T) (memory_of s) addr)) as [u ->]. cbn [mbind exec_bind].
    specialize (Hcb (EventMemory MemRead pc addr (Z.of_nat (a_size T)) u) s).
    destruct (handleEvent _ _ _) as [[r e] s1]. destruct Hcb as [Hr Hs1].
    rewrite bool_decide_false by done. cbn [mbind exec_bind]. by apply Hend.
Qed.

Lemma read_observed T addr s : observers -> running s -> (∀ v, ∃ u, to_u64 T v = Ret u) ->
  ∃ s', read_memory eventCallbacks memory_handler T addr s = Ret (load (a_size T) (memory_of s) addr, s') ∧ same_access s s'.
Proof.
  intros Ho Hr Hc. destruct (access_observed T addr None s Ho Hr Hc) as (s' & Ha & Hs).
  exists s'. unfold read_memory. rewrite Ha. cbn [mbind exec_bind read_place]. by rewrite (proj1 Hs).
Qed.

Lemma write_observed T addr v s : observers -> running s -> (∀ v, ∃ u, to_u64 T v = Ret u) ->
  ∃ s', write_memory eventCallbacks memory_handler T addr v s = Ret s' ∧ running s' ∧
    memory_of s' = store (a_size T) (memory_of s) addr v.
Proof.
  intros Ho Hr Hc. destruct (access_observed T addr (Some v) s Ho Hr Hc) as (s' & Ha & Hs).
  exists (set_memory s' (store (a_size T) (memory_of s') addr v)). unfold write_memory. rewrite Ha.
  split_and!; [done|exact (running_same s s' Hs Hr)|]. by rewrite <- (proj1 Hs).
Qed.
End AccessLemmas.

(** * Properties *)

(** C40: the floating-point intrinsics keep, in the host's environment, an
    exception register of the guest: raising, clearing and testing are union,
    difference and intersection on the flags the host has, with no other bits
    in a test, except that raising an overflow or underflow also raises
    [Precision] on a host whose feraiseexcept raises inexact with it; a rounding mode of the guest that is set is the one that is
    got, any other number rounds to nearest; and neither disturbs the other. *)
Theorem fpu_refines_guest `{FpuNumbers} (e : fenv) (m : Z) :
  (∀ f, flag_in (guest_excepts (fpu_exception_raise m e)) f =
        flag_in (guest_excepts e) f || host_supports f && flag_in m f ||
        bool_decide (f = Precision) && inexact_too m) ∧
  (∀ f, flag_in (guest_excepts (fpu_exception_clear m e)) f = flag_in (guest_excepts e) f && negb (flag_in m f)) ∧
  (∀ f, flag_in (fpu_exception_test m e) f = flag_in (guest_excepts e) f && flag_in m f) ∧
  (∀ i, (∀ f, i <> guest_bit f) -> Z.testbit (fpu_exception_test m e) (Z.of_nat i) = false) ∧
  (∀ r, fpu_get_rounding (fpu_set_rounding (guest_mode r) e) = guest_mode r) ∧
  ((∀ r, m <> guest_mode r) -> fpu_get_rounding (fpu_set_rounding m e) = guest_mode NearestEven) ∧
  rounding (fpu_exception_raise m e) = rounding e ∧ rounding (fpu_exception_clear m e) = rounding e ∧
  excepts (fpu_set_rounding m e) = excepts e.
Proof.
  split_and!; try done.
  - intros f. unfold guest_excepts. rewrite !from_fe_flag, raise_flag.
    destruct (decide (f = Precision)) as [->|Hf]; [by rewrite !host_supports_true|].
    rewrite (bool_decide_false _ Hf). cbn [andb]. rewrite !orb_false_r. by destruct (host_supports f).
  - intros f. unfold guest_excepts, fpu_exception_clear, feclearexcept. cbn [excepts].
    rewrite !from_fe_flag, Z.ldiff_spec, to_fe_flag. by destruct (host_supports f).
  - intros f. unfold guest_excepts, fpu_exception_test, fetestexcept.
    rewrite !from_fe_flag, Z.land_spec, to_fe_flag. destruct (host_supports f), (Z.testbit _ _); done.
  - intros i Hi. by apply from_fe_other.
  - intros r. unfold fpu_get_rounding, fpu_set_rounding, fesetround, MapFeToFpuRound, MapFpuRoundToFe. cbn [rounding].
    rewrite !guest_eqb. repeat (case_bool_decide; [subst; by rewrite !host_eqb|]). by destruct r.
  - intros Hm. unfold fpu_get_rounding, fpu_set_rounding, fesetround, MapFeToFpuRound, MapFpuRoundToFe. cbn [rounding].
    rewrite !(proj2 (Z.eqb_neq m _)) by done. by rewrite Z.eqb_refl.
Qed.

(** remill's numbers and those of glibc on x86, with the overflow and underflow
    that raise inexact too. *)
Definition sample_fpu : FpuNumbers.
Proof.
  refine {|
    guest_bit := fun f => match f with Invalid => 0 | Denormal => 1 | DivByZero => 2 | Overflow => 3 | Underflow => 4 | Precision => 5 end%nat;
    host_bit := fun f => match f with Invalid => 0 | Denormal => 1 | DivByZero => 2 | Overflow => 3 | Underflow => 4 | Precision => 5 end%nat;
    guest_mode := fun r => match r with NearestEven => 0 | DownNegInf => 1 | UpInf => 2 | ToZero => 3 end;
    host_mode := fun r => match r with NearestEven => 0 | DownNegInf => 0x400 | UpInf => 0x800 | ToZero => 0xc00 end;
    has_denormal := false; raises_inexact := fun _ => true |}; by intros [] [].
Defined.

Theorem fpu_refines_guest_witness :
  @flag_in sample_fpu (@fpu_exception_test sample_fpu 0x3f (mkFenv 0x23 0)) Precision = true ∧
  @fpu_get_rounding sample_fpu (@fpu_set_rounding sample_fpu 9 (mkFenv 0 0xc00)) = 0 ∧
  @flag_in sample_fpu (@guest_excepts sample_fpu (@fpu_exception_raise sample_fpu 8 (mkFenv 0 0))) Precision = true.
Proof.
  destruct (@fpu_refines_guest sample_fpu (mkFenv 0 0) 8) as (H0 & _).
  destruct (@fpu_refines_guest sample_fpu (mkFenv 0x23 0) 0x3f) as (_ & _ & H1 & _).
  destruct (@fpu_refines_guest sample_fpu (mkFenv 0 0xc00) 9) as (_ & _ & _ & _ & _ & H2 & _).
  split_and!; [by rewrite H1|apply H2; by intros []|by rewrite H0].
Defined.

(** With callbacks and a debugger that only observe, what the guest
    writes is what it reads back, cut to the size of the access, and other
    memory is as it was: the events are transparent. *)
Theorem memory_write_read {W} cbs dbg (T T' : access_type) addr addr' v (s : CPUState * (bytes * W)) :
  observers cbs dbg -> running s ->
  (∀ v, ∃ u, to_u64 T v = Ret u) -> (∀ v, ∃ u, to_u64 T' v = Ret u) ->
  ∃ s1 s2, write_memory cbs dbg T addr v s = Ret s1 ∧
    read_memory cbs dbg T addr s1 = Ret (v mod 2 ^ (8 * Z.of_nat (a_size T)), s2) ∧
    (addr' + Z.of_nat (a_size T') <= addr \/ addr + Z.of_nat (a_size T) <= addr' -> ∃ s3,
       read_memory cbs dbg T' addr' s1 = Ret (load (a_size T') (memory_of s) addr', s3)).
Proof.
  intros Ho Hr Hc Hc'. destruct (write_observed cbs dbg T addr v s Ho Hr Hc) as (s1 & H1 & Hr1 & Hm1).
  destruct (read_observed cbs dbg T addr s1 Ho Hr1 Hc) as (s2 & H2 & _).
  exists s1, s2. split_and!; [done|by rewrite H2, Hm1, load_store|]. intros Hd.
  destruct (read_observed cbs dbg T' addr' s1 Ho Hr1 Hc') as (s3 & H3 & _). exists s3.
  rewrite H3, Hm1. by rewrite load_store_disjoint.
Qed.

(** A callback that counts the accesses. *)
Definition counting : callback (S := CPUState * (bytes * Z)) :=
  fun e s => (Continue, e, (s.1, (s.2.1, s.2.2 + 1))).
Definition sample_access : CPUState * (bytes * Z) :=
  (mkCPU (Some 0) (Some (Runtime ARM64 true)) ∅ 0 0 0 0 0, (∅, 0)).

Theorem memory_write_read_witness :
  ∃ s1 s2, write_memory [counting] (fun _ _ _ s => s) (uint_type 4) 0x1000 0x1_2345_6789 sample_access = Ret s1 ∧
    read_memory [counting] (fun _ _ _ s => s) (uint_type 4) 0x1000 s1 = Ret (0x2345_6789, s2).
Proof.
  destruct (memory_write_read [counting] (fun _ _ _ s => s) (uint_type 4) (uint_type 4) 0x1000 0x2000 0x1_2345_6789 sample_access)
    as (s1 & s2 & H1 & H2 & _).
  - split; [by intros e [c [m w]]|by intros addr n w s].
  - split; by eexists.
  - intros u. by eexists.
  - intros u. by eexists.
  - exists s1, s2. split; [exact H1|]. exact H2.
Defined.

(** A value a callback puts into a write event never reaches the memory:
    answering Processed to an integer write changes a const parameter, and for
    a float the value written was read before the callback ran, so whatever
    the callbacks do, a write that succeeds stores the guest's own value. *)
Theorem write_event_value_lost {W} cbs dbg (T : access_type) addr v (s : CPUState * (bytes * W)) :
  (∀ s', write_memory cbs dbg T addr v s = Ret s' ->
     ∃ s1, s' = set_memory s1 (store (a_size T) (memory_of s1) addr v)) ∧
  (∀ rt p u e s1 w pc a n x, const_in T = true -> hasEventHandler cbs = true ->
     runtime s.1 = Some rt -> pcptr s.1 = Some p -> to_u64 T v = Ret u ->
     handleEvent cbs (EventMemory MemWrite (load 8 (state s.1) p) addr (Z.of_nat (a_size T)) u) s = (Processed, e, s1) ->
     e = EventMemory w pc a n x -> write_memory cbs dbg T addr v s = Undef).
Proof.
  split.
  - unfold write_memory. intros s' Hw.
    destruct (AccessMemory _ _ _ _ _ _) as [[[p i] s1]| |] eqn:Ha; [|done..]. cbn [mbind exec_bind] in Hw.
    exists s1. assert (p = InMemory addr) as ->; [|by injection Hw as <-].
    unfold AccessMemory in Ha. destruct (cpu_runtime s); [|done..]. cbn [mbind exec_bind] in Ha.
    destruct (hasEventHandler cbs); [|by injection Ha as <-].
    destruct (cpu_pc s) as [pc| |]; [|done..]. cbn [mbind exec_bind] in Ha.
    destruct (to_u64 T v) as [u| |]; [|done..]. cbn [mbind exec_bind] in Ha.
    destruct (handleEvent _ _ _) as [[r e] s2]. case_bool_decide; [|by injection Ha as <-].
    destruct (event_value e); [|done..]. cbn [mbind exec_bind] in Ha.
    destruct (const_in T); [done|]. by injection Ha as <-.
  - intros rt p u e s1 w pc a n x Hc Hcb Hrt Hp Hu He ->. unfold write_memory, AccessMemory, cpu_runtime, cpu_pc.
    rewrite Hrt, Hp, Hcb. cbn [of_option mbind exec_bind]. rewrite Hu. cbn [mbind exec_bind]. rewrite He.
    cbn [bool_decide]. rewrite bool_decide_true by done. cbn [event_value mbind exec_bind]. by rewrite Hc.
Qed.

(** The compare-and-exchange of 16 bytes does nothing at all, so it reports
    success whenever the others would and never stores. *)
Theorem compare_exchange_128_idle {W} addr expected desired (s : CPUState * (bytes * W)) :
  load 16 (memory_of s) addr = expected ->
  (compare_exchange_memory 16 addr expected desired s).1 = (compare_exchange_memory_128 addr expected desired s).1 ∧
  load 16 (memory_of (compare_exchange_memory 16 addr expected desired s).2) addr = desired mod 2 ^ 128 ∧
  (compare_exchange_memory_128 addr expected desired s).2 = s.
Proof.
  intros He. unfold compare_exchange_memory. rewrite He, Z.eqb_refl. cbn [fst snd].
  split_and!; [done| |done]. unfold memory_of, set_memory. cbn [fst snd]. apply (load_store 16).
Qed.

(** A fetch-and-modify returns the old value and leaves the new one in
    memory modulo its width; a compare-and-exchange returns the old value and
    stores exactly when it was the expected one; neither touches other memory. *)
Theorem atomics_spec {W} (op : fetch_op) n addr value expected (s : CPUState * (bytes * W)) :
  let old := load n (memory_of s) addr in
  let f := fetch_and op n addr value s in
  let c := compare_exchange_memory n addr expected value s in
  f.1 = old ∧ load n (memory_of f.2) addr = fetch_fun op old value mod 2 ^ (8 * Z.of_nat n) ∧
  c.1 = old ∧ load n (memory_of c.2) addr =
    (if old =? expected then value mod 2 ^ (8 * Z.of_nat n) else old) ∧
  ∀ a k, a + Z.of_nat k <= addr \/ addr + Z.of_nat n <= a ->
    load k (memory_of f.2) a = load k (memory_of s) a ∧ load k (memory_of c.2) a = load k (memory_of s) a.
Proof.
  cbv zeta. unfold fetch_and, compare_exchange_memory. cbn [fst snd].
  split_and!; [done| |done| |].
  - unfold memory_of, set_memory. cbn [fst snd]. rewrite load_store. unfold wrap. apply Z.mod_mod. lia.
  - destruct (_ =? expected); [|done]. apply load_store.
  - intros a k Hd. split; [by apply load_store_disjoint|].
    destruct (_ =? expected); [by apply load_store_disjoint|done].
Qed.
