(* ===== verification/IntrinsicTable.v ===== *)
(** src/Handler.cpp and src/Intrinsic.cpp: the table of the functions that
    lifted code may call, by name, which function each name is, and the
    functions that do nothing but return or abort. *)
From Stdlib Require Import ZArith Lia List String.
From stdpp Require Import base list strings sorting.
From S2P Require Import Prelude Utils Handler Intrinsic Lifter.
#[local] Open Scope Z_scope.
#[local] Open Scope string_scope.

(** * The table *)

Definition intrinsic_names : list string :=
  [
   "__remill_aarch32_check_not_el2"; "__remill_aarch32_emulate_instruction";
   "__remill_aarch64_emulate_instruction"; "__remill_amd64_set_control_reg_0";
   "__remill_amd64_set_control_reg_1"; "__remill_amd64_set_control_reg_2";
   "__remill_amd64_set_control_reg_3"; "__remill_amd64_set_control_reg_4";
   "__remill_amd64_set_control_reg_8"; "__remill_amd64_set_debug_reg"; "__remill_async_hyper_call";
   "__remill_atomic_begin"; "__remill_atomic_end"; "__remill_barrier_load_load";
   "__remill_barrier_load_store"; "__remill_barrier_store_load"; "__remill_barrier_store_store";
   "__remill_compare_eq"; "__remill_compare_exchange_memory_128";
   "__remill_compare_exchange_memory_16"; "__remill_compare_exchange_memory_32";
   "__remill_compare_exchange_memory_64"; "__remill_compare_exchange_memory_8";
   "__remill_compare_neq"; "__remill_compare_sge"; "__remill_compare_sgt"; "__remill_compare_sle";
   "__remill_compare_slt"; "__remill_compare_uge"; "__remill_compare_ugt"; "__remill_compare_ule";
   "__remill_compare_ult"; "__remill_defer_inlining"; "__remill_delay_slot_begin";
   "__remill_delay_slot_end"; "__remill_error"; "__remill_fetch_and_add_16";
   "__remill_fetch_and_add_32"; "__remill_fetch_and_add_64"; "__remill_fetch_and_add_8";
   "__remill_fetch_and_and_16"; "__remill_fetch_and_and_32"; "__remill_fetch_and_and_64";
   "__remill_fetch_and_and_8"; "__remill_fetch_and_or_16"; "__remill_fetch_and_or_32";
   "__remill_fetch_and_or_64"; "__remill_fetch_and_or_8"; "__remill_fetch_and_sub_16";
   "__remill_fetch_and_sub_32"; "__remill_fetch_and_sub_64"; "__remill_fetch_and_sub_8";
   "__remill_fetch_and_xor_16"; "__remill_fetch_and_xor_32"; "__remill_fetch_and_xor_64";
   "__remill_fetch_and_xor_8"; "__remill_flag_computation_carry";
   "__remill_flag_computation_overflow"; "__remill_flag_computation_sign";
   "__remill_flag_computation_zero"; "__remill_fpu_exception_clear"; "__remill_fpu_exception_raise";
   "__remill_fpu_exception_test"; "__remill_fpu_get_rounding"; "__remill_fpu_set_rounding";
   "__remill_function_call"; "__remill_function_return"; "__remill_jump"; "__remill_mark_as_used";
   "__remill_missing_block"; "__remill_read_io_port_16"; "__remill_read_io_port_32";
   "__remill_read_io_port_8"; "__remill_read_memory_16"; "__remill_read_memory_32";
   "__remill_read_memory_64"; "__remill_read_memory_8"; "__remill_read_memory_f128";
   "__remill_read_memory_f32"; "__remill_read_memory_f64"; "__remill_read_memory_f80";
   "__remill_sparc32_emulate_instruction"; "__remill_sparc64_emulate_instruction";
   "__remill_sparc_set_asi_register"; "__remill_sparc_trap_cond_a"; "__remill_sparc_trap_cond_cc";
   "__remill_sparc_trap_cond_cs"; "__remill_sparc_trap_cond_e"; "__remill_sparc_trap_cond_g";
   "__remill_sparc_trap_cond_ge"; "__remill_sparc_trap_cond_gu"; "__remill_sparc_trap_cond_l";
   "__remill_sparc_trap_cond_le"; "__remill_sparc_trap_cond_leu"; "__remill_sparc_trap_cond_n";
   "__remill_sparc_trap_cond_ne"; "__remill_sparc_trap_cond_neg"; "__remill_sparc_trap_cond_pos";
   "__remill_sparc_trap_cond_vc"; "__remill_sparc_trap_cond_vs"; "__remill_sparc_unhandled_dcti";
   "__remill_sparc_unimplemented_instruction"; "__remill_sparc_window_underflow";
   "__remill_sync_hyper_call"; "__remill_undefined_16"; "__remill_undefined_32";
   "__remill_undefined_64"; "__remill_undefined_8"; "__remill_undefined_f128";
   "__remill_undefined_f32"; "__remill_undefined_f64"; "__remill_undefined_f80";
   "__remill_write_io_port_16"; "__remill_write_io_port_32"; "__remill_write_io_port_8";
   "__remill_write_memory_16"; "__remill_write_memory_32"; "__remill_write_memory_64";
   "__remill_write_memory_8"; "__remill_write_memory_f128"; "__remill_write_memory_f32";
   "__remill_write_memory_f64"; "__remill_write_memory_f80"; "__remill_x86_set_control_reg_0";
   "__remill_x86_set_control_reg_1"; "__remill_x86_set_control_reg_2";
   "__remill_x86_set_control_reg_3"; "__remill_x86_set_control_reg_4"; "__remill_x86_set_debug_reg";
   "__remill_x86_set_segment_ds"; "__remill_x86_set_segment_es"; "__remill_x86_set_segment_fs";
   "__remill_x86_set_segment_gs"; "__remill_x86_set_segment_ss"].

(** [REMILL_ITEM(n)]: the name and the address of the function of that name. *)
Section Items.
Variable symbol : string -> Z.
Definition REMILL_ITEM (n : string) : HandlerRaw := mkRaw n (symbol n).
Definition HandlerIntrinsic : list HandlerRaw := REMILL_ITEM <$> intrinsic_names.
Definition HandlerIntrinsicNum : nat := length HandlerIntrinsic.
End Items.

(** * The functions *)

(** The functions that touch no state: what they return, if they do. *)
Inductive stub := ReturnsNull | ReturnsMemory | ReturnsZero | ReturnsResult | Returns | Aborts.

(** A result: none, a [Memory *], a [bool], or the bits of a number. *)
Inductive intrinsic_result := Void | Pointer (p : Z) | Bool (b : bool) | Number (bits : Z).

(** [memory] and [result] are the arguments of these names. *)
Definition run_stub (s : stub) (memory : Z) (result : bool) : exec intrinsic_result :=
  match s with
  | ReturnsNull => Ret (Pointer 0)
  | ReturnsMemory => Ret (Pointer memory)
  | ReturnsZero => Ret (Number 0)
  | ReturnsResult => Ret (Bool result)
  | Returns => Ret Void
  | Aborts => Abort
  end.

(** What a name runs: an operation of [Intrinsic], with the width of its access
    in bytes, the step to the next instruction ([Event]) or a stub. *)
Inductive fpu_call := ExceptionTest | ExceptionClear | ExceptionRaise | SetRounding | GetRounding.
Inductive intrinsic_body :=
| ReadMemory (float : bool) (n : nat)
| WriteMemory (float : bool) (n : nat)
| ReadMemoryF80
| WriteMemoryF80
| CompareExchange (n : nat)
| FetchAndOp (op : fetch_op) (n : nat)
| FpuCall (f : fpu_call)
| SyncHyperCall
| FunctionReturn
| Stub (s : stub).

#[export] Instance stub_eq_dec : EqDecision stub.
Proof. solve_decision. Defined.
#[export] Instance intrinsic_body_eq_dec : EqDecision intrinsic_body.
Proof. unfold EqDecision, Decision. decide equality; solve_decision || apply _. Defined.

(** The macros of Intrinsic.cpp; [size] is the text pasted into the name and
    [n] the bytes of the type. *)
Definition MAKE_RW_MEMORY (size : string) (n : nat) : list (string * intrinsic_body) :=
  [("__remill_read_memory_" +:+ size, ReadMemory false n);
   ("__remill_write_memory_" +:+ size, WriteMemory false n)].
Definition MAKE_RW_FP_MEMORY (size : string) (n : nat) : list (string * intrinsic_body) :=
  [("__remill_read_memory_f" +:+ size, ReadMemory true n);
   ("__remill_write_memory_f" +:+ size, WriteMemory true n)].
Definition MAKE_ATOMIC_INTRINSIC (op : fetch_op) (intrinsic_name size : string) (n : nat)
    : string * intrinsic_body :=
  ("__remill_" +:+ intrinsic_name +:+ "_" +:+ size, FetchAndOp op n).
Definition atomic_sizes (op : fetch_op) (intrinsic_name : string) : list (string * intrinsic_body) :=
  [MAKE_ATOMIC_INTRINSIC op intrinsic_name "8" 1; MAKE_ATOMIC_INTRINSIC op intrinsic_name "16" 2;
   MAKE_ATOMIC_INTRINSIC op intrinsic_name "32" 4; MAKE_ATOMIC_INTRINSIC op intrinsic_name "64" 8].

(** Memory, atomic operations and the floating-point environment. *)
Definition memory_functions : list (string * intrinsic_body) :=
  MAKE_RW_MEMORY "8" 1 ++ MAKE_RW_MEMORY "16" 2 ++ MAKE_RW_MEMORY "32" 4 ++ MAKE_RW_MEMORY "64" 8 ++
  MAKE_RW_FP_MEMORY "32" 4 ++ MAKE_RW_FP_MEMORY "64" 8 ++ MAKE_RW_FP_MEMORY "128" 16 ++
  [("__remill_read_memory_f80", ReadMemoryF80); ("__remill_write_memory_f80", WriteMemoryF80)].
Definition atomic_functions : list (string * intrinsic_body) :=
  [("__remill_compare_exchange_memory_8", CompareExchange 1);
   ("__remill_compare_exchange_memory_16", CompareExchange 2);
   ("__remill_compare_exchange_memory_32", CompareExchange 4);
   ("__remill_compare_exchange_memory_64", CompareExchange 8);
   ("__remill_compare_exchange_memory_128", CompareExchange 16)] ++
  atomic_sizes FetchAdd "fetch_and_add" ++ atomic_sizes FetchSub "fetch_and_sub" ++
  atomic_sizes FetchOr "fetch_and_or" ++ atomic_sizes FetchAnd "fetch_and_and" ++
  atomic_sizes FetchXor "fetch_and_xor".
Definition fpu_functions : list (string * intrinsic_body) :=
  [("__remill_fpu_exception_test", FpuCall ExceptionTest);
   ("__remill_fpu_exception_clear", FpuCall ExceptionClear);
   ("__remill_fpu_exception_raise", FpuCall ExceptionRaise);
   ("__remill_fpu_set_rounding", FpuCall SetRounding);
   ("__remill_fpu_get_rounding", FpuCall GetRounding)].

(** Barriers, atomic regions and delay slots. *)
Definition null_functions : list string :=
  [
   "__remill_barrier_load_load"; "__remill_barrier_load_store"; "__remill_barrier_store_load";
   "__remill_barrier_store_store"; "__remill_atomic_begin"; "__remill_atomic_end";
   "__remill_delay_slot_begin"; "__remill_delay_slot_end"].

(** I/O ports. *)
Definition port_functions : list string :=
  [
   "__remill_read_io_port_8"; "__remill_read_io_port_16"; "__remill_read_io_port_32";
   "__remill_write_io_port_8"; "__remill_write_io_port_16"; "__remill_write_io_port_32"].

(** Values that are undefined on the guest. *)
Definition undefined_functions : list string :=
  [
   "__remill_undefined_8"; "__remill_undefined_16"; "__remill_undefined_32";
   "__remill_undefined_64"; "__remill_undefined_f32"; "__remill_undefined_f64";
   "__remill_undefined_f80"; "__remill_undefined_f128"].

(** Marks of flags and comparisons. *)
Definition mark_functions : list string :=
  [
   "__remill_flag_computation_zero"; "__remill_flag_computation_sign";
   "__remill_flag_computation_overflow"; "__remill_flag_computation_carry"; "__remill_compare_sle";
   "__remill_compare_slt"; "__remill_compare_sge"; "__remill_compare_sgt"; "__remill_compare_ule";
   "__remill_compare_ult"; "__remill_compare_ugt"; "__remill_compare_uge"; "__remill_compare_eq";
   "__remill_compare_neq"].

(** System registers of x86 and instructions of arm that remill leaves to the
    runtime. *)
Definition register_functions : list string :=
  [
   "__remill_x86_set_segment_es"; "__remill_x86_set_segment_ss"; "__remill_x86_set_segment_ds";
   "__remill_x86_set_segment_fs"; "__remill_x86_set_segment_gs"; "__remill_x86_set_debug_reg";
   "__remill_x86_set_control_reg_0"; "__remill_x86_set_control_reg_1";
   "__remill_x86_set_control_reg_2"; "__remill_x86_set_control_reg_3";
   "__remill_x86_set_control_reg_4"; "__remill_amd64_set_debug_reg";
   "__remill_amd64_set_control_reg_0"; "__remill_amd64_set_control_reg_1";
   "__remill_amd64_set_control_reg_2"; "__remill_amd64_set_control_reg_3";
   "__remill_amd64_set_control_reg_4"; "__remill_amd64_set_control_reg_8";
   "__remill_aarch64_emulate_instruction"; "__remill_aarch32_emulate_instruction";
   "__remill_aarch32_check_not_el2"].

Definition sparc_functions : list string :=
  [
   "__remill_sparc_set_asi_register"; "__remill_sparc_unimplemented_instruction";
   "__remill_sparc_unhandled_dcti"; "__remill_sparc_window_underflow"; "__remill_sparc_trap_cond_a";
   "__remill_sparc_trap_cond_n"; "__remill_sparc_trap_cond_ne"; "__remill_sparc_trap_cond_e";
   "__remill_sparc_trap_cond_g"; "__remill_sparc_trap_cond_le"; "__remill_sparc_trap_cond_ge";
   "__remill_sparc_trap_cond_l"; "__remill_sparc_trap_cond_gu"; "__remill_sparc_trap_cond_leu";
   "__remill_sparc_trap_cond_cc"; "__remill_sparc_trap_cond_cs"; "__remill_sparc_trap_cond_pos";
   "__remill_sparc_trap_cond_neg"; "__remill_sparc_trap_cond_vc"; "__remill_sparc_trap_cond_vs";
   "__remill_sparc32_emulate_instruction"; "__remill_sparc64_emulate_instruction"].

Definition stubs (s : stub) (names : list string) : list (string * intrinsic_body) :=
  (fun n => (n, Stub s)) <$> names.

(** The functions of Intrinsic.cpp, in its order. *)
Definition intrinsic_functions : list (string * intrinsic_body) :=
  memory_functions ++ atomic_functions ++ fpu_functions ++
  stubs ReturnsNull null_functions ++
  [("__remill_defer_inlining", Stub Returns); ("__remill_error", Stub Aborts);
   ("__remill_missing_block", Stub ReturnsMemory)] ++
  stubs Aborts port_functions ++
  [("__remill_function_call", Stub Aborts); ("__remill_function_return", FunctionReturn);
   ("__remill_jump", Stub Aborts); ("__remill_async_hyper_call", Stub Aborts)] ++
  stubs ReturnsZero undefined_functions ++ stubs ReturnsResult mark_functions ++
  stubs Aborts register_functions ++ stubs Aborts sparc_functions ++
  [("__remill_mark_as_used", Stub Returns); ("__remill_sync_hyper_call", SyncHyperCall)].

(** What lifted code calls by a name, after [find_target]. *)
Definition intrinsic_of (name : string) : option intrinsic_body :=
  (fun ip => ip.2.2) <$> list_find (fun p => p.1 = name) intrinsic_functions.

(** * Properties *)

Lemma intrinsic_names_nodup : NoDup intrinsic_names.
Proof. apply (bool_decide_unpack _). by vm_compute. Qed.

(** The table and Intrinsic.cpp name the same functions, each once. *)
Theorem table_complete : NoDup intrinsic_names ∧ intrinsic_functions.*1 ≡ₚ intrinsic_names.
Proof. split; [apply intrinsic_names_nodup|]. apply (bool_decide_unpack _). by vm_compute. Qed.

Lemma intrinsic_of_name name : is_Some (intrinsic_of name) <-> name ∈ intrinsic_names.
Proof.
  destruct table_complete as [_ <-]. unfold intrinsic_of. rewrite fmap_is_Some. split.
  - intros [[i [n b]] (Hl & <- & _)%list_find_Some]. apply (list_elem_of_fmap_2 fst _ (n, b)).
    by eapply list_elem_of_lookup_2.
  - intros ([n b] & -> & Hin)%list_elem_of_fmap. by eapply list_find_elem_of.
Qed.

(** A name in lifted code is bound to the function of that name, whichever
    architecture's tables are loaded first, and any other name to [abort], as
    long as the hash tells these names apart. *)
Theorem intrinsics_found `{StdSort} (hash_value symbol : string -> Z) (abort : Z)
    (aarch64 x86 : list HandlerRaw) (t : tables) (name : string) :
  t_intrinsic t = [] ->
  (∀ m n, m ∈ name :: intrinsic_names -> n ∈ name :: intrinsic_names -> hash_value m = hash_value n -> m = n) ->
  let loaded := loadAArch64 hash_value aarch64 (HandlerIntrinsic symbol) t in
  t_intrinsic (loadX86 hash_value x86 (HandlerIntrinsic symbol) t) = t_intrinsic loaded ∧
  t_intrinsic (loadX86 hash_value x86 (HandlerIntrinsic symbol) loaded) = t_intrinsic loaded ∧
  find_target hash_value abort (t_intrinsic loaded) name =
    Ret (if intrinsic_of name is Some _ then symbol name else abort).
Proof.
  intros Ht Hinj. simpl. rewrite Ht.
  assert ((fun r => hash_value (raw_name r)) <$> HandlerIntrinsic symbol = hash_value <$> intrinsic_names) as Hh.
  { unfold HandlerIntrinsic. by rewrite <- list_fmap_compose. }
  destruct (load_handler_lookup hash_value (HandlerIntrinsic symbol)) as (_ & Hagain & Hin & Hout); [done| |].
  { rewrite Hh. apply NoDup_fmap_2_strong; [|apply intrinsic_names_nodup].
    intros m n Hm Hn. apply Hinj; by apply list_elem_of_further. }
  split_and!; [done|done|]. unfold find_target.
  destruct (intrinsic_of name) as [b|] eqn:E.
  - assert (name ∈ intrinsic_names) as Hn by (apply intrinsic_of_name; by exists b).
    pose proof (Hin (REMILL_ITEM symbol name) (list_elem_of_fmap_2 _ _ _ Hn)) as Hf. simpl in Hf. by rewrite Hf.
  - rewrite Hout; [done|]. rewrite Hh. intros (n & Heq & Hn)%list_elem_of_fmap.
    assert (name = n) as <- by (apply Hinj; [apply list_elem_of_here|by apply list_elem_of_further|done]).
    apply intrinsic_of_name in Hn as [? Hb]. congruence.
Qed.

(** The hash of this witness reads a name as a number. *)
Definition sample_hash (s : string) : Z :=
  foldr (fun c h => h * 256 + (Z.of_nat (Ascii.nat_of_ascii c) + 1)) 0 (list_ascii_of_string s).

Theorem intrinsics_found_witness :
  let loaded := @loadAArch64 sample_sort sample_hash [] (HandlerIntrinsic sample_hash) (mkTables [] [] []) in
  find_target sample_hash 0 (t_intrinsic loaded) "__remill_jump" = Ret (sample_hash "__remill_jump").
Proof.
  apply (@intrinsics_found sample_sort sample_hash sample_hash 0 [] [] (mkTables [] [] []) "__remill_jump" eq_refl).
  intros m n Hm Hn Heq.
  assert (∀ l, bool_decide (NoDup (sample_hash <$> l)) = true -> ∀ m n, m ∈ l -> n ∈ l ->
    sample_hash m = sample_hash n -> m = n) as Hinj.
  { clear. intros l Hd%bool_decide_eq_true m n [i Hi]%list_elem_of_lookup [j Hj]%list_elem_of_lookup Heq.
    assert (i = j) as -> by (apply (NoDup_lookup _ i j (sample_hash m) Hd); rewrite list_lookup_fmap;
      [by rewrite Hi|by rewrite Hj; simpl; rewrite Heq]).
    congruence. }
  assert (("__remill_jump" :: intrinsic_names) ⊆ intrinsic_names) as Hsub.
  { intros x [->|Hx]%elem_of_cons; [|done]. apply (bool_decide_unpack _). by vm_compute. }
  apply (Hinj intrinsic_names); [by vm_compute|by apply Hsub..|done].
Defined.

(** The functions that stop the program: an invalid instruction, I/O ports,
    calls and jumps left to remill, and what the runtime does not support of
    x86, arm and sparc. *)
Definition unsupported (name : string) : bool :=
  existsb (fun p => String.prefix ("__remill_" +:+ p) name)
    ["error"; "read_io_port"; "write_io_port"; "function_call"; "jump"; "async_hyper_call";
     "x86_"; "amd64_"; "aarch32_"; "aarch64_"; "sparc"].

Theorem unsupported_abort name s memory result :
  intrinsic_of name = Some (Stub s) -> (run_stub s memory result = Abort <-> unsupported name = true).
Proof.
  intros Hs.
  assert (Forall (fun p => (p.2 = Stub Aborts) <-> unsupported p.1 = true) intrinsic_functions) as Hall.
  { apply (bool_decide_unpack _). by vm_compute. }
  unfold intrinsic_of in Hs. apply fmap_Some in Hs as ([i [n b]] & (Hl & Hn & _)%list_find_Some & Hb).
  simpl in Hn, Hb. subst n b. apply (Forall_lookup_1 _ _ _ _ Hall) in Hl. simpl in Hl. rewrite <- Hl.
  split; [|by intros [= ->]]. by destruct s.
Qed.

Theorem unsupported_abort_witness : run_stub Aborts 0 true = Abort ∧ unsupported "__remill_jump" = true.
Proof.
  assert (run_stub Aborts 0 true = Abort) as Ha by reflexivity.
  split; [exact Ha|]. apply (proj1 (unsupported_abort "__remill_jump" Aborts 0 true ltac:(by vm_compute)) Ha).
Defined.
