(* ===== verification/Debugger.v ===== *)
(** The debugger of lldb/src: a thread of the guest calls [WatchDog] in front
    of each instruction (Thread.cpp, Process.cpp), the debugger's own thread
    resumes, steps and interrupts it (Process.cpp), keeps the breakpoints and
    hands out documents in pieces (Debugger.cpp). LLDB itself is a parameter.
    The two kinds of threads interleave as steps of one machine. *)
From Stdlib Require Import ZArith Lia List String.
From stdpp Require Import base list gmap strings relations.
From S2P Require Import Prelude.
#[local] Open Scope Z_scope.

(** * A thread *)

(** LLDB's states of a thread. *)
Inductive StateType :=
| StateInvalid | StateUnloaded | StateConnected | StateAttaching | StateLaunching | StateStopped
| StateRunning | StateStepping | StateCrashed | StateDetached | StateExited | StateSuspended.

#[export] Instance StateType_eq_dec : EqDecision StateType.
Proof. solve_decision. Defined.

(** Where the guest's thread is: entering [AetherProcess::WatchDog] with the
    pc of the next instruction, at the switch of [AetherThread::WatchDog], with
    its lock, having reported, asleep in [wait], or woken. *)
Inductive phase := Entering | Switching | Locked | Reported | Waiting | Woken.

#[export] Instance phase_eq_dec : EqDecision phase.
Proof. solve_decision. Defined.

Record AetherThread := mkThread {
  tid : Z; native_id : Z; m_state : StateType; m_stop_description : string;
  at_phase : phase; th_pc : Z
}.

(** A thread whose first instruction is at [pc]; the stop info says breakpoint
    and SIGTRAP from then on. *)
Definition AetherThread_new (tid native_id pc : Z) : AetherThread :=
  mkThread tid native_id StateStopped "Finished attaching" Entering pc.

Definition set_thread_state (t : AetherThread) (st : StateType) (why : string) : AetherThread :=
  mkThread (tid t) (native_id t) st why (at_phase t) (th_pc t).
Definition set_phase (t : AetherThread) (p : phase) : AetherThread :=
  mkThread (tid t) (native_id t) (m_state t) (m_stop_description t) p (th_pc t).

(** Whether there is a reason, and its description. *)
Definition GetStopReason (t : AetherThread) : option string :=
  match m_state t with
  | StateStopped | StateCrashed | StateExited | StateSuspended | StateUnloaded => Some (m_stop_description t)
  | _ => None
  end.

(** [m_condvar.notify_all()]: only a thread that is asleep notices. *)
Definition notify_all (t : AetherThread) : AetherThread :=
  match at_phase t with Waiting => set_phase t Woken | _ => t end.

Definition Thread_Resume (t : AetherThread) : AetherThread :=
  notify_all (set_thread_state t StateRunning (m_stop_description t)).
Definition Thread_SingleStep (t : AetherThread) : AetherThread :=
  notify_all (set_thread_state t StateStepping (m_stop_description t)).
Definition Thread_Interrupt (t : AetherThread) : AetherThread :=
  set_thread_state t StateStopped "Interrupted".

(** * The process *)

(** Breakpoints are counted by address. *)
Record AetherProcess := mkProcess {
  m_threads : list AetherThread; m_tid : Z; m_software_breakpoints : gmap Z nat;
  proc_state : StateType; current_tid : Z; detached : bool;
  executed : list (Z * Z)
}.

Definition AetherProcess_new : AetherProcess := mkProcess [] 1 ∅ StateStopped 1 false [].

Definition set_threads (p : AetherProcess) (ts : list AetherThread) : AetherProcess :=
  mkProcess ts (m_tid p) (m_software_breakpoints p) (proc_state p) (current_tid p) (detached p) (executed p).
Definition set_proc_state (p : AetherProcess) (st : StateType) : AetherProcess :=
  mkProcess (m_threads p) (m_tid p) (m_software_breakpoints p) st (current_tid p) (detached p) (executed p).
Definition set_breakpoints (p : AetherProcess) (bps : gmap Z nat) : AetherProcess :=
  mkProcess (m_threads p) (m_tid p) bps (proc_state p) (current_tid p) (detached p) (executed p).

Definition AttachThread (native_id pc : Z) (p : AetherProcess) : AetherProcess :=
  mkProcess (m_threads p ++ [AetherThread_new (m_tid p) native_id pc]) (m_tid p + 1) (m_software_breakpoints p)
    (proc_state p) (current_tid p) (detached p) (executed p).

(** The first thread of that native id goes. *)
Fixpoint erase_thread (id : Z) (ts : list AetherThread) : list AetherThread :=
  match ts with
  | [] => []
  | t :: ts' => if native_id t =? id then ts' else t :: erase_thread id ts'
  end.
Definition DetachThread (id : Z) (p : AetherProcess) : AetherProcess := set_threads p (erase_thread id (m_threads p)).

(** [SetCurrentThreadID(thread.GetID()); SetState(eStateStopped, true)]. *)
Definition ReportStopped (t : AetherThread) (p : AetherProcess) : AetherProcess :=
  mkProcess (m_threads p) (m_tid p) (m_software_breakpoints p) StateStopped (tid t) (detached p) (executed p).

(** A continue or a step of one thread; other states abort. *)
Definition ResumeThread (t : AetherThread) (st : StateType) : exec AetherThread :=
  match st with
  | StateRunning => Ret (Thread_Resume t)
  | StateStepping => Ret (Thread_SingleStep t)
  | _ => Abort
  end.

(** [GetActionForThread(id, true)]: what the client asks for a thread. *)
Fixpoint resume_threads (action : Z -> option StateType) (ts : list AetherThread) : exec (bool * list AetherThread) :=
  match ts with
  | [] => Ret (false, [])
  | t :: ts' =>
      match action (tid t) with
      | Some ((StateRunning | StateStepping) as st) => t' ← ResumeThread t st; Ret (true, t' :: ts')
      | _ => '(r, ts') ← resume_threads action ts'; Ret (r, t :: ts')
      end
  end.
Definition Process_Resume (action : Z -> option StateType) (p : AetherProcess) : exec AetherProcess :=
  '(resumed, ts) ← resume_threads action (m_threads p);
  let p := set_threads p ts in
  Ret (if (resumed : bool) then set_proc_state p StateRunning else p).

Definition Process_Interrupt (p : AetherProcess) : AetherProcess :=
  set_proc_state (set_threads p (Thread_Interrupt <$> m_threads p)) StateStopped.

(** All threads go on, then the handlers stop looking. *)
Definition Process_Detach (p : AetherProcess) : AetherProcess :=
  let p := set_proc_state (set_threads p (Thread_Resume <$> m_threads p)) StateDetached in
  mkProcess (m_threads p) (m_tid p) (m_software_breakpoints p) (proc_state p) (current_tid p) true (executed p).

(** [Engine->mappedAddress(addr, 1)], null when it is not mapped. *)
Definition resolve (mappedAddress : Z -> Z) (addr : Z) : Z :=
  let rtaddr := mappedAddress addr in if rtaddr =? 0 then addr else rtaddr.

Definition SetBreakpoint (mappedAddress : Z -> Z) (addr : Z) (bps : gmap Z nat) : gmap Z nat :=
  let a := resolve mappedAddress addr in <[a := S (default 0%nat (bps !! a))]> bps.
Definition RemoveBreakpoint (mappedAddress : Z -> Z) (addr : Z) (bps : gmap Z nat) : bool * gmap Z nat :=
  let a := resolve mappedAddress addr in
  match bps !! a with
  | None => (false, bps)
  | Some n => (true, if (0 <? n - 1)%nat then <[a := (n - 1)%nat]> bps else delete a bps)
  end.

(** * The guest's thread *)

Section Guest.
(** The pc after the instruction at a pc. *)
Variable next_pc : Z -> Z -> Z.

(** The handler returns and the instruction runs. *)
Definition run_one (t : AetherThread) (p : AetherProcess) : AetherThread * AetherProcess :=
  (mkThread (tid t) (native_id t) (m_state t) (m_stop_description t) Entering (next_pc (tid t) (th_pc t)),
   mkProcess (m_threads p) (m_tid p) (m_software_breakpoints p) (proc_state p) (current_tid p) (detached p)
     ((tid t, th_pc t) :: executed p)).

(** One step of a thread; asleep it has none. *)
Definition guest_step (t : AetherThread) (p : AetherProcess) : option (exec (AetherThread * AetherProcess)) :=
  match at_phase t with
  | Entering =>
      if detached p then Some (Ret (run_one t p))
      else match m_software_breakpoints p !! th_pc t with
      | Some _ => Some (Ret (set_phase (set_thread_state t StateStopped "Breakpoint Hit") Switching, p))
      | None => Some (Ret (set_phase t Switching, p))
      end
  | Switching =>
      match m_state t with
      | StateStopped => Some (Ret (set_phase t Locked, p))
      | StateStepping => Some (Ret (set_thread_state t StateStopped "Single Stepped", p))
      | StateRunning => Some (Ret (run_one t p))
      | _ => Some Abort
      end
  | Locked => Some (Ret (set_phase t Reported, ReportStopped t p))
  | Reported => Some (Ret (set_phase t Waiting, p))
  | Waiting => None
  | Woken => Some (Ret (run_one t p))
  end.

(** * Interleaving *)

(** What the debugger's thread does with a process. *)
Inductive debugger_action (p : AetherProcess) : AetherProcess -> Prop :=
| do_resume action p' : Process_Resume action p = Ret p' -> debugger_action p p'
| do_interrupt : debugger_action p (Process_Interrupt p)
| do_detach : debugger_action p (Process_Detach p)
| do_set mapped a : debugger_action p (set_breakpoints p (SetBreakpoint mapped a (m_software_breakpoints p)))
| do_remove mapped a : debugger_action p (set_breakpoints p (RemoveBreakpoint mapped a (m_software_breakpoints p)).2).

(** Any thread may be next; a sleeping one may wake by itself. *)
Inductive step (p : AetherProcess) : AetherProcess -> Prop :=
| step_guest k t t' p' : m_threads p !! k = Some t -> guest_step t p = Some (Ret (t', p')) ->
    step p (set_threads p' (<[k := t']> (m_threads p')))
| step_spurious k t : m_threads p !! k = Some t -> at_phase t = Waiting ->
    step p (set_threads p (<[k := set_phase t Woken]> (m_threads p)))
| step_debugger p' : debugger_action p p' -> step p p'
| step_attach id pc : detached p = false -> step p (AttachThread id pc p)
| step_leave id : detached p = false -> step p (DetachThread id p).

(** The steps that let threads go on. *)
Definition resumes (p p' : AetherProcess) : Prop :=
  (∃ action, Process_Resume action p = Ret p') \/ p' = Process_Detach p.

Definition reachable : AetherProcess -> Prop := rtc step AetherProcess_new.
End Guest.

(** * Documents in pieces *)

(** A [qXfer:<object>:<action>:<annex>:<offset>,<length>] packet; a number
    that is missing is [UINT64_MAX]. *)
Record xfer_packet := mkXfer {
  xfer_object : string; xfer_action : string; xfer_annex : string;
  xfer_offset : Z; xfer_comma : bool; xfer_length : Z
}.
Definition UINT64_MAX : Z := 2 ^ 64 - 1.
Inductive xfer_response := Unimplemented | IllFormed | XferError | XferData (last : bool) (data : list Z).

(** [read_object] is what [ReadXferObject_VM] makes of object and annex now;
    [m_xfer_buffer_map] keeps it until its last piece is sent. *)
Definition Handle_qXfer_VM (read_object : string -> string -> option (list Z)) (packet : xfer_packet)
    (m_xfer_buffer_map : gmap string (list Z)) : xfer_response * gmap string (list Z) :=
  if negb (String.eqb (xfer_action packet) "read") then (Unimplemented, m_xfer_buffer_map)
  else if xfer_offset packet =? UINT64_MAX then (IllFormed, m_xfer_buffer_map)
  else if negb (xfer_comma packet) then (IllFormed, m_xfer_buffer_map)
  else if xfer_length packet =? UINT64_MAX then (IllFormed, m_xfer_buffer_map)
  else
    let buffer_key := (xfer_object packet ++ xfer_action packet ++ xfer_annex packet)%string in
    match
      match m_xfer_buffer_map !! buffer_key with
      | Some buffer => Some (buffer, m_xfer_buffer_map)
      | None =>
          buffer ← read_object (xfer_object packet) (xfer_annex packet);
          Some (buffer, <[buffer_key := buffer]> m_xfer_buffer_map)
      end
    with
    | None => (XferError, m_xfer_buffer_map)
    | Some (buffer, bufs) =>
        if Z.of_nat (length buffer) <=? xfer_offset packet then (XferData true [], delete buffer_key bufs)
        else
          let buffer := drop (Z.to_nat (xfer_offset packet)) buffer in
          if Z.of_nat (length buffer) <=? xfer_length packet then (XferData true buffer, delete buffer_key bufs)
          else (XferData false (take (Z.to_nat (xfer_length packet)) buffer), bufs)
    end.

(** * Lemmas about the machine *)

Lemma fmap_insert_id {A B} (f : A -> B) (l : list A) k x y :
  l !! k = Some x -> f y = f x -> f <$> (<[k := y]> l) = f <$> l.
Proof. intros Hk Hf. rewrite list_fmap_insert, Hf. apply list_insert_id. by rewrite list_lookup_fmap, Hk. Qed.

Lemma Forall_insert_list {A} (P : A -> Prop) (l : list A) k x : Forall P l -> P x -> Forall P (<[k := x]> l).
Proof.
  intros Hl Hx. apply Forall_forall. intros y Hy. apply list_elem_of_lookup in Hy as [i Hi].
  destruct (decide (i = k)) as [->|Hne].
  - destruct (decide (k < length l)%nat) as [Hlt|Hge].
    + rewrite list_lookup_insert_eq in Hi by done. by injection Hi as <-.
    + rewrite lookup_ge_None_2 in Hi; [done|]. rewrite length_insert. lia.
  - rewrite list_lookup_insert_ne in Hi by done. by apply (Forall_lookup_1 _ _ _ _ Hl Hi).
Qed.

Section PerThread.
(** A property of a thread that all steps keep. *)
Variable Q : AetherThread -> Prop.
Variable ok_resume : AetherThread -> Prop.
Variable next_pc : Z -> Z -> Z.
Hypothesis Q_new : ∀ tid id pc, Q (AetherThread_new tid id pc).
Hypothesis Q_resume : ∀ t, Q t -> ok_resume t -> Q (Thread_Resume t) ∧ Q (Thread_SingleStep t).
Hypothesis Q_interrupt : ∀ t, Q t -> Q (Thread_Interrupt t).
Hypothesis Q_woken : ∀ t, Q t -> at_phase t = Waiting -> Q (set_phase t Woken).
Hypothesis Q_guest : ∀ t p t' p', Q t -> guest_step next_pc t p = Some (Ret (t', p')) -> Q t'.

Lemma guest_step_process t p t' p' : guest_step next_pc t p = Some (Ret (t', p')) ->
  m_threads p' = m_threads p ∧ m_tid p' = m_tid p ∧ tid t' = tid t.
Proof.
  unfold guest_step, run_one, ReportStopped. intros Hs.
  destruct (at_phase t); [destruct (detached p); [|destruct (_ !! _)]|destruct (m_state t)|..]; by simplify_eq.
Qed.

Lemma resume_threads_all action ts : ∀ r ts', resume_threads action ts = Ret (r, ts') ->
  Forall Q ts -> Forall ok_resume ts -> Forall Q ts'.
Proof.
  induction ts as [|t ts IH]; intros r ts' Hr Hq Hok; cbn [resume_threads] in Hr; [by simplify_eq|].
  apply Forall_cons in Hq as [Ht Hq]. apply Forall_cons in Hok as [Hot Hok].
  destruct (Q_resume t Ht Hot) as [H1 H2].
  assert (∀ r ts', ('(r, ts') ← resume_threads action ts; Ret (r, t :: ts')) = Ret (r, ts') -> Forall Q ts') as Hrec.
  { intros r0 ts0 H0. destruct (resume_threads action ts) as [[r1 ts1]| |] eqn:E; [|done..].
    cbn [mbind exec_bind] in H0. injection H0 as <- <-. constructor; [done|]. by eapply IH. }
  destruct (action (tid t)) as [[]|]; try (by eapply Hrec); cbn [ResumeThread mbind exec_bind] in Hr; simplify_eq; by constructor.
Qed.

Lemma erase_thread_all id ts : Forall Q ts -> Forall Q (erase_thread id ts).
Proof. induction 1 as [|t ts Ht Hts IH]; cbn [erase_thread]; [constructor|]. destruct (_ =? id); [done|by constructor]. Qed.

Lemma step_all p p' : step next_pc p p' -> Forall Q (m_threads p) ->
  (resumes p p' -> Forall ok_resume (m_threads p)) -> Forall Q (m_threads p').
Proof.
  intros Hs Hq Hok. destruct Hs as [k t t' p' Hk Hg|k t Hk Hw|p' Hd|id pc _|id _]; cbn [m_threads set_threads].
  - destruct (guest_step_process _ _ _ _ Hg) as (-> & _). apply Forall_insert_list; [done|].
    eapply Q_guest; [|exact Hg]. by apply (Forall_lookup_1 _ _ _ _ Hq Hk).
  - apply Forall_insert_list; [done|]. apply Q_woken; [|done]. by apply (Forall_lookup_1 _ _ _ _ Hq Hk).
  - destruct Hd as [action p' Hr| | |mapped a|mapped a]; cbn [m_threads set_threads set_proc_state set_breakpoints]; try done.
    + unfold Process_Resume in Hr. destruct (resume_threads action (m_threads p)) as [[r ts]| |] eqn:E; [|done..].
      cbn [mbind exec_bind] in Hr. injection Hr as <-.
      assert (m_threads (if r then set_proc_state (set_threads p ts) StateRunning else set_threads p ts) = ts) as ->
        by by destruct r.
      eapply resume_threads_all; [exact E|done|]. apply Hok. left. exists action. unfold Process_Resume. by rewrite E.
    + apply Forall_fmap. eapply Forall_impl; [exact Hq|]. apply Q_interrupt.
    + apply Forall_fmap. apply Forall_forall. intros t Ht. apply Q_resume; [by eapply Forall_forall|].
      eapply Forall_forall; [|exact Ht]. apply Hok. by right.
  - apply Forall_app. split; [done|]. by apply Forall_singleton.
  - by apply erase_thread_all.
Qed.
End PerThread.

(** * The machine without races on the way to sleep *)

(** No thread is let go on between having decided to stop and sleeping. *)
Definition settled (t : AetherThread) : Prop := at_phase t <> Locked ∧ at_phase t <> Reported.
Definition careful_step (next_pc : Z -> Z -> Z) (p p' : AetherProcess) : Prop :=
  step next_pc p p' ∧ (resumes p p' -> Forall settled (m_threads p)).

Definition live_state (t : AetherThread) : Prop :=
  m_state t = StateRunning \/ m_state t = StateStepping \/ m_state t = StateStopped.
Definition sleeps_stopped (t : AetherThread) : Prop :=
  at_phase t = Locked \/ at_phase t = Reported \/ at_phase t = Waiting -> m_state t = StateStopped.

Ltac guest_cases Hs :=
  unfold guest_step, run_one, ReportStopped, set_phase, set_thread_state in Hs;
  repeat (case_match; simplify_eq); cbn [m_state at_phase] in *.

Lemma live_steps next_pc p p' : step next_pc p p' -> Forall live_state (m_threads p) -> Forall live_state (m_threads p').
Proof.
  intros Hs Hl. refine (step_all live_state (fun _ => True) next_pc _ _ _ _ _ p p' Hs Hl _).
  - intros. right. by right.
  - intros t Ht _. unfold Thread_Resume, Thread_SingleStep, notify_all, live_state.
    split; destruct (at_phase t) eqn:E; cbn; rewrite ?E; cbn; auto.
  - intros t _. right. by right.
  - intros t Ht _. exact Ht.
  - intros t q t' q' Ht Hg. unfold live_state in *. guest_cases Hg; auto.
  - intros _. by apply Forall_true.
Qed.

Lemma careful_steps next_pc p p' : careful_step next_pc p p' ->
  Forall sleeps_stopped (m_threads p) -> Forall sleeps_stopped (m_threads p').
Proof.
  intros [Hs Hok] Hl. refine (step_all sleeps_stopped settled next_pc _ _ _ _ _ p p' Hs Hl Hok).
  - intros id n pc [H|[H|H]]; done.
  - intros t Ht [H1 H2]. unfold Thread_Resume, Thread_SingleStep, notify_all, sleeps_stopped.
    split; destruct (at_phase t) eqn:E; cbn; rewrite ?E; cbn; rewrite ?E;
      intros [Hx|[Hx|Hx]]; congruence.
  - by intros t Ht _.
  - intros t Ht _ [H|[H|H]]; done.
  - intros t q t' q' Ht Hg. unfold sleeps_stopped in *. guest_cases Hg; intros [Hx|[Hx|Hx]]; try congruence; tauto.
Qed.

(** The ids of the threads. *)
Definition ids_ok (p : AetherProcess) : Prop :=
  NoDup (tid <$> m_threads p) ∧ Forall (fun t => tid t < m_tid p) (m_threads p).

Lemma same_ids p m : tid <$> m_threads m = tid <$> m_threads p -> m_tid m = m_tid p -> ids_ok p -> ids_ok m.
Proof.
  intros Ht Hm [Hn Hl]. unfold ids_ok. rewrite Hm, Ht. split; [done|].
  assert (Forall (fun i => i < m_tid p) (tid <$> m_threads m)) as H by (rewrite Ht; by apply Forall_fmap).
  by apply Forall_fmap in H.
Qed.

(** Resuming keeps whatever it keeps of one thread. *)
Lemma resume_threads_fmap {A} (f : AetherThread -> A) action ts :
  (∀ t, f (Thread_Resume t) = f t ∧ f (Thread_SingleStep t) = f t) ->
  ∀ r ts', resume_threads action ts = Ret (r, ts') -> f <$> ts' = f <$> ts.
Proof.
  intros Hf. induction ts as [|t ts IH]; intros r ts' Hr; cbn [resume_threads] in Hr; [by simplify_eq|].
  assert (∀ r ts', ('(r, ts') ← resume_threads action ts; Ret (r, t :: ts')) = Ret (r, ts') -> f <$> ts' = f <$> (t :: ts)) as Hrec.
  { intros r0 ts0 H0. destruct (resume_threads action ts) as [[r1 ts1]| |] eqn:E; [|done..].
    cbn [mbind exec_bind] in H0. injection H0 as <- <-. cbn [fmap list_fmap]. f_equal. by eapply IH. }
  destruct (action (tid t)) as [[]|]; try (by eapply Hrec); cbn [ResumeThread mbind exec_bind] in Hr; simplify_eq;
    cbn [fmap list_fmap]; f_equal; apply Hf.
Qed.

Lemma erase_thread_sublist id ts : sublist (erase_thread id ts) ts.
Proof.
  induction ts as [|t ts IH]; cbn [erase_thread]; [constructor|]. destruct (_ =? id); [by apply sublist_cons|by apply sublist_skip].
Qed.

Lemma ids_steps next_pc p p' : step next_pc p p' -> ids_ok p -> ids_ok p'.
Proof.
  intros Hs Hi. destruct Hs as [k t t' p' Hk Hg|k t Hk Hw|p' Hd|id pc _|id _].
  - destruct (guest_step_process _ _ _ _ _ Hg) as (Ht & Hm & Hid).
    apply (same_ids p); [|done|done]. cbn [m_threads set_threads]. rewrite Ht. by eapply fmap_insert_id.
  - apply (same_ids p); [|done|done]. cbn [m_threads set_threads]. by eapply fmap_insert_id.
  - destruct Hd as [action p' Hr| | |mapped a|mapped a]; try done.
    + unfold Process_Resume in Hr. destruct (resume_threads action (m_threads p)) as [[r ts]| |] eqn:E; [|done..].
      cbn [mbind exec_bind] in Hr. injection Hr as <-. apply (resume_threads_fmap tid) in E; [|by intros [? ? ? ? [] ?]].
      by apply (same_ids p); destruct r.
    + apply (same_ids p); [|done|done]. cbn [Process_Interrupt set_proc_state set_threads m_threads].
      rewrite <- list_fmap_compose. by apply list_fmap_ext.
    + apply (same_ids p); [|done|done]. cbn [Process_Detach set_proc_state set_threads m_threads].
      rewrite <- list_fmap_compose. apply list_fmap_ext. intros _ [? ? ? ? [] ?] _; done.
  - destruct Hi as [Hn Hl]. split; cbn [AttachThread m_threads m_tid].
    + rewrite fmap_app. apply NoDup_app. split_and!; [done| |apply NoDup_singleton].
      intros i Hi Hx%list_elem_of_singleton. cbn in Hx. subst. apply list_elem_of_fmap in Hi as (t & Ht & Hin).
      eapply Forall_forall in Hl; [|exact Hin]. lia.
    + apply Forall_app. split; [eapply Forall_impl; [exact Hl|]; cbn; lia|]. apply Forall_singleton. cbn. lia.
  - destruct Hi as [Hn Hl]. split; cbn [DetachThread m_threads m_tid set_threads].
    + eapply sublist_NoDup; [exact Hn|]. apply fmap_sublist, erase_thread_sublist.
    + apply Forall_forall. intros t Ht. rewrite Forall_forall in Hl. apply Hl.
      eapply elem_of_submseteq; [exact Ht|]. apply sublist_submseteq, erase_thread_sublist.
Qed.

(** * A thread let go on *)

Section Resumed.
Variable next_pc : Z -> Z -> Z.
Definition own (c c' : AetherThread * AetherProcess) : Prop := guest_step next_pc c.1 c.2 = Some (Ret c').

(** The pcs a thread goes through, and the instructions it has executed, the
    newest first. *)
Fixpoint pcs (t : AetherThread) (n : nat) : Z :=
  match n with O => th_pc t | S n' => next_pc (tid t) (pcs t n') end.
Definition trace (t : AetherThread) (n : nat) : list (Z * Z) := reverse ((fun k => (tid t, pcs t k)) <$> seq 0 n).

Lemma trace_S t n : trace t (S n) = (tid t, pcs t n) :: trace t n.
Proof. unfold trace. by rewrite seq_S, fmap_app, reverse_app. Qed.

Variables (t0 : AetherThread) (p0 : AetherProcess).

(** What the thread of [t0] and its process look like [n] instructions on. *)
Definition went_on (n : nat) (c : AetherThread * AetherProcess) : Prop :=
  tid c.1 = tid t0 ∧ th_pc c.1 = pcs t0 n ∧ executed c.2 = (trace t0 n ++ executed p0)%list ∧
  m_software_breakpoints c.2 = m_software_breakpoints p0 ∧ detached c.2 = false.

(** It has come to a stop, on the way to its sleep or there. *)
Definition stopping (c : AetherThread * AetherProcess) (why : string) : Prop :=
  m_state c.1 = StateStopped ∧ m_stop_description c.1 = why ∧
  (at_phase c.1 = Switching \/ at_phase c.1 = Locked \/
   (at_phase c.1 = Reported \/ at_phase c.1 = Waiting) ∧ proc_state c.2 = StateStopped ∧ current_tid c.2 = tid t0).

Abbreviation bps := (m_software_breakpoints p0).

(** Stepping: woken, or past the one instruction. *)
Definition stepping (c : AetherThread * AetherProcess) : Prop :=
  (went_on 0 c ∧ at_phase c.1 = Woken ∧ m_state c.1 = StateStepping) \/
  (went_on 1 c ∧ m_state c.1 = StateStepping ∧
     (at_phase c.1 = Entering \/ at_phase c.1 = Switching ∧ bps !! pcs t0 1 = None)) \/
  (went_on 1 c ∧ stopping c (if bps !! pcs t0 1 then "Breakpoint Hit" else "Single Stepped")).

(** Running: woken, past [n] instructions none of whose successors so far has
    a breakpoint, or at one that has. *)
Definition running_on (c : AetherThread * AetherProcess) : Prop := ∃ n,
  went_on n c ∧ (∀ k, (0 < k < n)%nat -> bps !! pcs t0 k = None) ∧
  ((n = 0%nat ∧ at_phase c.1 = Woken ∧ m_state c.1 = StateRunning) \/
   ((0 < n)%nat ∧ m_state c.1 = StateRunning ∧
      (at_phase c.1 = Entering \/ at_phase c.1 = Switching ∧ bps !! pcs t0 n = None)) \/
   ((0 < n)%nat ∧ is_Some (bps !! pcs t0 n) ∧ stopping c "Breakpoint Hit")).

Lemma run_one_on n c : went_on n c -> went_on (S n) (run_one next_pc c.1 c.2).
Proof.
  intros (H1 & H2 & H3 & H4 & H5). unfold went_on, run_one. cbn [fst snd tid th_pc executed m_software_breakpoints detached].
  rewrite H1, H2, H3, trace_S. done.
Qed.

Lemma stopping_step n c c' why : went_on n c -> stopping c why -> own c c' -> went_on n c' ∧ stopping c' why.
Proof.
  destruct c as [t p]. intros Hw (Hs & Hd & Hp) Ho. unfold own, guest_step in Ho. cbn [fst snd] in *.
  destruct Hw as (H1 & H2 & H3 & H4 & H5). cbn [fst snd] in *. unfold stopping, went_on.
  destruct Hp as [Hp|[Hp|[[Hp|Hp] Hpr]]]; rewrite Hp, ?Hs in Ho; simplify_eq;
    cbn [fst snd set_phase tid th_pc m_state m_stop_description at_phase ReportStopped executed m_software_breakpoints
      detached proc_state current_tid]; split_and!; auto 6.
Qed.

Lemma stepping_step c c' : stepping c -> own c c' -> stepping c'.
Proof.
  intros [(Hw & Hp & Hs)|[(Hw & Hs & Hp)|(Hw & Hst)]] Ho.
  - unfold own, guest_step in Ho. rewrite Hp in Ho. injection Ho as <-. right; left.
    split_and!; [by apply (run_one_on 0)|done|by left].
  - pose proof Hw as (H1 & H2 & H3 & H4 & H5). unfold own, guest_step in Ho.
    destruct Hp as [Hp|[Hp Hbp]]; rewrite Hp in Ho.
    + rewrite H5, H4, H2 in Ho. destruct (bps !! pcs t0 1) eqn:Hb; injection Ho as <-.
      * right; right. rewrite Hb. split; [done|]. split_and!; [done|done|by left].
      * right; left. split_and!; [done|done|by right].
    + rewrite Hs in Ho. injection Ho as <-. right; right. rewrite Hbp. split; [done|].
      unfold stopping. cbn. split_and!; [done|done|by left].
  - destruct (stopping_step _ _ _ _ Hw Hst Ho). right; right. by split.
Qed.

Lemma running_step c c' : running_on c -> own c c' -> running_on c'.
Proof.
  intros (n & Hw & Hk & Hc) Ho. pose proof Hw as (H1 & H2 & H3 & H4 & H5).
  destruct Hc as [(-> & Hp & Hs)|[(Hn & Hs & Hp)|(Hn & Hb & Hst)]].
  - unfold own, guest_step in Ho. rewrite Hp in Ho. injection Ho as <-. exists 1%nat.
    split_and!; [by apply (run_one_on 0)|intros; lia|]. right; left. split_and!; [lia|done|by left].
  - unfold own, guest_step in Ho. destruct Hp as [Hp|[Hp Hbp]]; rewrite Hp in Ho.
    + rewrite H5, H4, H2 in Ho. destruct (bps !! pcs t0 n) eqn:Hb; injection Ho as <-; exists n; (split_and!; [done|done|]).
      * right; right. split_and!; [done|by eexists|]. split_and!; [done|done|by left].
      * right; left. split_and!; [done|done|by right].
    + rewrite Hs in Ho. injection Ho as <-. exists (S n). split_and!; [by apply run_one_on| |].
      * intros k Hlt. destruct (decide (k = n)) as [->|]; [done|]. apply Hk. lia.
      * right; left. split_and!; [lia|done|by left].
  - destruct (stopping_step _ _ _ _ Hw Hst Ho). exists n. split_and!; [done|done|]. right; right. by split_and!.
Qed.

Lemma rtc_keeps (P : AetherThread * AetherProcess -> Prop) c c' :
  (∀ c c', P c -> own c c' -> P c') -> rtc own c c' -> P c -> P c'.
Proof. intros HP. induction 1; eauto. Qed.
End Resumed.

(** * Breakpoints as a count *)

Inductive bp_op := SetAt (addr : Z) | RemoveAt (addr : Z).

Section Breakpoints.
Variable mappedAddress : Z -> Z.
Abbreviation at_ := (resolve mappedAddress).

Definition bp_run (o : bp_op) (bps : gmap Z nat) : gmap Z nat :=
  match o with SetAt b => SetBreakpoint mappedAddress b bps | RemoveAt b => (RemoveBreakpoint mappedAddress b bps).2 end.

(** How often a breakpoint is asked for at [a]: set counts up, remove down,
    the earliest operation first. *)
Fixpoint wanted (ops : list bp_op) (a : Z) (n : nat) : nat :=
  match ops with
  | [] => n
  | SetAt b :: ops' => wanted ops' a (if a =? at_ b then S n else n)
  | RemoveAt b :: ops' => wanted ops' a (if a =? at_ b then pred n else n)
  end.

Definition counts_ok (bps : gmap Z nat) : Prop := ∀ a n, bps !! a = Some n -> (0 < n)%nat.
Definition count_of (bps : gmap Z nat) (a : Z) : nat := default 0%nat (bps !! a).

Lemma bp_run_ok o bps : counts_ok bps -> counts_ok (bp_run o bps).
Proof.
  intros Hok a n. destruct o as [b|b]; cbn [bp_run].
  - unfold SetBreakpoint. intros [[<- <-]|[_ Hn]]%lookup_insert_Some; [lia|by eapply Hok].
  - unfold RemoveBreakpoint. cbv zeta. destruct (bps !! at_ b) as [k|] eqn:Hb; cbn [snd]; [|by apply Hok].
    destruct (Nat.ltb_spec 0 (k - 1)).
    + intros [[<- <-]|[_ Hn]]%lookup_insert_Some; [lia|by eapply Hok].
    + intros [_ Hn]%lookup_delete_Some. by eapply Hok.
Qed.

Lemma bp_run_count o bps a : counts_ok bps -> count_of (bp_run o bps) a = wanted [o] a (count_of bps a).
Proof.
  intros Hok. unfold count_of. destruct o as [b|b]; cbn [bp_run wanted].
  - unfold SetBreakpoint. destruct (Z.eqb_spec a (at_ b)) as [->|Hne]; [by rewrite lookup_insert_eq|by rewrite lookup_insert_ne].
  - unfold RemoveBreakpoint. cbv zeta. destruct (bps !! at_ b) as [k|] eqn:Hb; cbn [snd].
    + pose proof (Hok _ k Hb). destruct (Nat.ltb_spec 0 (k - 1)); destruct (Z.eqb_spec a (at_ b)) as [->|Hne];
        rewrite ?lookup_insert_eq, ?lookup_delete_eq, ?lookup_insert_ne, ?lookup_delete_ne, ?Hb by done; cbn; try done; lia.
    + destruct (Z.eqb_spec a (at_ b)) as [->|Hne]; [|done]. by rewrite Hb.
Qed.

Lemma bp_runs ops : ∀ bps, counts_ok bps ->
  let bps' := fold_left (fun m o => bp_run o m) ops bps in
  counts_ok bps' ∧ ∀ a, count_of bps' a = wanted ops a (count_of bps a).
Proof.
  induction ops as [|o ops IH]; intros bps Hok; cbn [fold_left]; [done|].
  destruct (IH (bp_run o bps) (bp_run_ok o bps Hok)) as [H1 H2]. split; [done|]. intros a.
  rewrite H2, bp_run_count by done. by destruct o.
Qed.
End Breakpoints.

(** * A client that fetches a document *)

(** It asks for [n] bytes at a time where the last piece ended; the object
    may read differently each time. *)
Fixpoint fetch (fuel : nat) (reads : nat -> string -> string -> option (list Z)) (object annex : string) (n : Z)
    (got : list Z) (bufs : gmap string (list Z)) : option (list Z * gmap string (list Z)) :=
  match fuel with
  | O => None
  | S fuel' =>
      match Handle_qXfer_VM (reads fuel) (mkXfer object "read" annex (Z.of_nat (length got)) true n) bufs with
      | (XferData true data, bufs) => Some ((got ++ data)%list, bufs)
      | (XferData false data, bufs) => fetch fuel' reads object annex n (got ++ data)%list bufs
      | _ => None
      end
  end.

Section Fetch.
Variables (object annex : string) (n : Z) (buf : list Z) (reads : nat -> string -> string -> option (list Z)).
Hypothesis size_ok : Z.of_nat (length buf) < UINT64_MAX.
Hypothesis n_ok : 0 < n < UINT64_MAX.
Abbreviation key := (object ++ "read" ++ annex)%string.

Lemma handle_piece read off bufs :
  (off <= length buf)%nat -> bufs !! key = Some buf \/ bufs !! key = None ∧ read object annex = Some buf ->
  Handle_qXfer_VM read (mkXfer object "read" annex (Z.of_nat off) true n) bufs =
    (if Z.of_nat (length buf - off) <=? n then (XferData true (drop off buf), delete key bufs)
     else (XferData false (take (Z.to_nat n) (drop off buf)), <[key := buf]> bufs)).
Proof.
  intros Hoff Hb. unfold Handle_qXfer_VM. cbn [xfer_action xfer_offset xfer_comma xfer_length xfer_object xfer_annex].
  rewrite (proj2 (Z.eqb_neq (Z.of_nat off) _)), (proj2 (Z.eqb_neq n _)) by lia. cbn [String.eqb Ascii.eqb Bool.eqb negb].
  match goal with |- match ?m with _ => _ end = _ => assert (∃ bufs', m = Some (buf, bufs') ∧ delete key bufs' = delete key bufs ∧ bufs' = <[key := buf]> bufs) as (bufs' & -> & Hd & Hi) end.
  { destruct Hb as [Hb|[Hb Hr]]; rewrite Hb; cbn [mbind option_bind].
    - exists bufs. split_and!; [done|done|]. symmetry. by apply insert_id.
    - rewrite Hr. eexists. split_and!; [done| |done]. apply delete_insert_eq. }
  rewrite Nat2Z.id, length_drop. destruct (Z.leb_spec (Z.of_nat (length buf)) (Z.of_nat off)) as [Hle|Hlt].
  - rewrite (proj2 (Z.leb_le _ n)) by lia. rewrite drop_ge by lia. by rewrite Hd.
  - destruct (Z.of_nat (length buf - off) <=? n); [by rewrite Hd|by rewrite Hi].
Qed.

Lemma fetch_rest fuel : ∀ off bufs, (off <= length buf)%nat -> (length buf - off < fuel)%nat ->
  bufs !! key = Some buf \/ bufs !! key = None ∧ reads fuel object annex = Some buf ->
  fetch fuel reads object annex n (take off buf) bufs = Some (buf, delete key bufs).
Proof.
  induction fuel as [|fuel IH]; intros off bufs Hoff Hf Hb; [lia|]. cbn [fetch].
  rewrite length_take_le by done. rewrite (handle_piece (reads (S fuel)) off bufs Hoff Hb).
  destruct (Z.leb_spec (Z.of_nat (length buf - off)) n) as [Hle|Hlt]; [by rewrite take_drop|].
  rewrite take_take_drop. rewrite IH; [|lia|lia|left; apply lookup_insert_eq].
  by rewrite delete_insert_eq.
Qed.
End Fetch.

(** * Properties *)

(** C24: in every reachable state of the debugged process, whatever the order
    of its threads' and the debugger's steps, threads have different ids below
    the next one and are running, stepping or stopped, so that [WatchDog]
    never aborts; and when no thread is let go on between its decision to stop
    and its sleep, every thread that sleeps is stopped. *)
Theorem debugger_invariant (next_pc : Z -> Z -> Z) p :
  (rtc (step next_pc) AetherProcess_new p -> ids_ok p ∧ Forall live_state (m_threads p) ∧
     ∀ t, t ∈ m_threads p -> guest_step next_pc t p <> Some Abort) ∧
  (rtc (careful_step next_pc) AetherProcess_new p -> ∀ t, t ∈ m_threads p -> at_phase t = Waiting -> m_state t = StateStopped).
Proof.
  assert (∀ (R : AetherProcess -> AetherProcess -> Prop) (P : AetherProcess -> Prop),
    (∀ p p', R p p' -> P p -> P p') -> rtc R AetherProcess_new p -> P AetherProcess_new -> P p) as Hkeep.
  { intros R P HP. induction 1; eauto. }
  split.
  - intros Hr. assert (Forall live_state (m_threads p)) as Hl.
    { apply (Hkeep _ (fun p => Forall live_state (m_threads p)) (live_steps next_pc) Hr). constructor. }
    split_and!; [|done|].
    + apply (Hkeep _ ids_ok (ids_steps next_pc) Hr). split; [apply NoDup_nil_2|constructor].
    + intros t Ht. rewrite Forall_forall in Hl. destruct (Hl t Ht) as [Hs|[Hs|Hs]]; unfold guest_step; rewrite Hs;
        destruct (at_phase t), (detached p), (m_software_breakpoints p !! th_pc t); done.
  - intros Hr. assert (Forall sleeps_stopped (m_threads p)) as Hl.
    { apply (Hkeep _ (fun p => Forall sleeps_stopped (m_threads p)) (careful_steps next_pc) Hr). constructor. }
    intros t Ht Hw. rewrite Forall_forall in Hl. apply (Hl t Ht). auto.
Qed.

(** Without that care a wakeup is lost: a thread can report its stop, be
    resumed, and then go to sleep, running by its state and by the process's,
    with no step of its own left. *)
Theorem wakeup_lost (next_pc : Z -> Z -> Z) : ∃ p t, rtc (step next_pc) AetherProcess_new p ∧
  m_threads p = [t] ∧ at_phase t = Waiting ∧ m_state t = StateRunning ∧ proc_state p = StateRunning ∧
  guest_step next_pc t p = None.
Proof.
  eexists _, _. split.
  - eapply rtc_l; [apply (step_attach next_pc _ 7 0x1000); reflexivity|].
    eapply rtc_l; [eapply (step_guest next_pc _ 0); reflexivity|].
    eapply rtc_l; [eapply (step_guest next_pc _ 0); reflexivity|].
    eapply rtc_l; [eapply (step_guest next_pc _ 0); reflexivity|].
    eapply rtc_l; [eapply step_debugger, (do_resume _ (fun _ => Some StateRunning)); reflexivity|].
    eapply rtc_l; [eapply (step_guest next_pc _ 0); reflexivity|]. apply rtc_refl.
  - by split_and!.
Qed.

(** C21: a sleeping thread that is let go on, until it sleeps again: stepped,
    it executes exactly the instruction it had stopped at; resumed, that one
    and all that follow up to the first with a breakpoint, which it does not
    execute. It has then reported its stop with the reason. *)
Theorem thread_goes_on (next_pc : Z -> Z -> Z) t p t' p' :
  at_phase t = Waiting -> detached p = false -> at_phase t' = Waiting ->
  (rtc (own next_pc) (Thread_SingleStep t, p) (t', p') ->
     executed p' = (tid t, th_pc t) :: executed p ∧ th_pc t' = next_pc (tid t) (th_pc t) ∧
     GetStopReason t' = Some (if m_software_breakpoints p !! th_pc t' then "Breakpoint Hit" else "Single Stepped")%string ∧
     proc_state p' = StateStopped ∧ current_tid p' = tid t) ∧
  (rtc (own next_pc) (Thread_Resume t, p) (t', p') -> ∃ n, (0 < n)%nat ∧
     executed p' = (trace next_pc t n ++ executed p)%list ∧ th_pc t' = pcs next_pc t n ∧
     (∀ k, (0 < k < n)%nat -> m_software_breakpoints p !! pcs next_pc t k = None) ∧
     is_Some (m_software_breakpoints p !! th_pc t') ∧ GetStopReason t' = Some "Breakpoint Hit"%string ∧
     proc_state p' = StateStopped ∧ current_tid p' = tid t).
Proof.
  intros Hw Hd Hw'. split; intros Hr.
  - assert (stepping next_pc t p (t', p')) as Hs.
    { apply (rtc_keeps next_pc _ _ _ (stepping_step next_pc t p) Hr). left.
      unfold went_on, Thread_SingleStep, notify_all, set_thread_state. cbn [at_phase fst snd]. by rewrite Hw. }
    destruct Hs as [(_ & Hp & _)|[(_ & _ & [Hp|[Hp _]])|((_ & H2 & H3 & _) & Hs & Hwhy & Hp)]]; cbn [fst snd] in *; [congruence..|].
    destruct Hp as [Hp|[Hp|(_ & Hpr & Hcur)]]; [congruence..|].
    unfold GetStopReason. rewrite Hs, Hwhy, H2. split_and!; [exact H3|done|done|done|done].
  - assert (running_on next_pc t p (t', p')) as (n & (_ & H2 & H3 & _) & Hk & Hc).
    { apply (rtc_keeps next_pc _ _ _ (running_step next_pc t p) Hr). exists 0%nat.
      unfold went_on, Thread_Resume, notify_all, set_thread_state. cbn [at_phase fst snd]. rewrite Hw.
      split_and!; try done; [intros; lia|by left]. }
    cbn [fst snd] in *.
    destruct Hc as [(_ & Hp & _)|[(_ & _ & [Hp|[Hp _]])|(Hn & Hb & Hs & Hwhy & Hp)]]; cbn [fst snd] in *; [congruence..|].
    destruct Hp as [Hp|[Hp|(_ & Hpr & Hcur)]]; [congruence..|].
    exists n. unfold GetStopReason. rewrite Hs, Hwhy, H2. done.
Qed.

Definition sample_thread : AetherThread := mkThread 1 7 StateStopped "Finished attaching" Waiting 0x1000.
Definition sample_process : AetherProcess :=
  mkProcess [sample_thread] 2 {[ 0x1008 := 1%nat ]} StateStopped 1 false [].

Theorem thread_goes_on_witness : ∃ t' p', rtc (own (fun _ pc => pc + 4)) (Thread_Resume sample_thread, sample_process) (t', p') ∧
  at_phase t' = Waiting ∧ ∃ n, executed p' = (trace (fun _ pc => pc + 4) sample_thread n ++ [])%list ∧
    is_Some (m_software_breakpoints sample_process !! th_pc t').
Proof.
  eexists _, _. split_and!.
  - do 7 (eapply rtc_l; [reflexivity|]). apply rtc_refl.
  - reflexivity.
  - match goal with |- ∃ n, executed ?p' = _ ∧ is_Some (_ !! th_pc ?t') =>
      destruct (thread_goes_on (fun _ pc => pc + 4) sample_thread sample_process t' p' eq_refl eq_refl eq_refl) as [_ H] end.
    destruct H as (n & _ & H1 & _ & _ & H2 & _); [do 7 (eapply rtc_l; [reflexivity|]); apply rtc_refl|].
    exists n. split; [exact H1|exact H2].
Defined.

(** The table of breakpoints refines a count per address: after any
    sequence of set and remove operations an instruction of a running thread
    is stopped at exactly when its address was set more often than removed,
    and a remove succeeds exactly then. *)
Theorem breakpoints_refine_count mapped (ops : list bp_op) addr :
  let bps := fold_left (fun m o => bp_run mapped o m) ops ∅ in
  let a := resolve mapped addr in
  let n := wanted mapped ops a 0 in
  (is_Some (bps !! a) <-> (0 < n)%nat) ∧
  ((RemoveBreakpoint mapped addr bps).1 = true <-> (0 < n)%nat) ∧
  (∀ k, bps !! a = Some k -> k = n) ∧
  ∀ next_pc t p, at_phase t = Entering -> m_state t = StateRunning -> detached p = false -> th_pc t = a ->
    m_software_breakpoints p = bps ->
    guest_step next_pc t p =
      Some (Ret (set_phase (if bool_decide (0 < n)%nat then set_thread_state t StateStopped "Breakpoint Hit" else t)
                   Switching, p)).
Proof.
  intros bps a n. destruct (bp_runs mapped ops ∅) as [Hok Hc]; [by intros b k|]. fold bps in Hok, Hc. specialize (Hc a).
  unfold count_of in Hc. rewrite lookup_empty in Hc. cbn [default] in Hc. fold n in Hc.
  assert (is_Some (bps !! a) <-> (0 < n)%nat) as Hs.
  { rewrite <- Hc. destruct (bps !! a) as [k|] eqn:Hn; cbn; [|split; [by intros [? ?]|lia]].
    split; [intros _; by eapply Hok|by eexists]. }
  split_and!; [done| | |].
  - rewrite <- Hs. unfold RemoveBreakpoint. fold a. cbv zeta. destruct (bps !! a); cbn; [by split|]. split; [done|by intros [? ?]].
  - intros k Hn. by rewrite Hn in Hc.
  - intros next_pc t p Hp Hst Hd Hpc Hb. unfold guest_step. rewrite Hp, Hd, Hpc, Hb.
    destruct (bps !! a) as [k|] eqn:Hn.
    + rewrite bool_decide_true; [done|]. apply Hs. by eexists.
    + rewrite bool_decide_false; [done|]. intros Hx. apply Hs in Hx as [? Hx]. done.
Qed.

(** A client that asks for the pieces of a document in order, with any
    positive size, gets exactly the document as it was read for the first
    piece, however it reads later, and nothing of it is kept. *)
Theorem xfer_roundtrip object annex n buf reads bufs :
  Z.of_nat (length buf) < UINT64_MAX -> 0 < n < UINT64_MAX ->
  let fuel := S (length buf) in
  bufs !! (object ++ "read" ++ annex)%string = None -> reads fuel object annex = Some buf ->
  fetch fuel reads object annex n [] bufs = Some (buf, bufs).
Proof.
  intros Hs Hn fuel Hb Hr. unfold fuel. change (@nil Z) with (take 0 buf).
  rewrite (fetch_rest object annex n buf reads Hs Hn (S (length buf)) 0); [|lia|lia|by right].
  by rewrite delete_id.
Qed.

Theorem xfer_roundtrip_witness :
  fetch 6 (fun k _ _ => if (k =? 6)%nat then Some [1; 2; 3; 4; 5] else Some [9]) "features" "target.xml" 2 [] ∅ =
  Some ([1; 2; 3; 4; 5], ∅).
Proof.
  apply (xfer_roundtrip "features" "target.xml" 2 [1; 2; 3; 4; 5]
    (fun k _ _ => if (k =? 6)%nat then Some [1; 2; 3; 4; 5] else Some [9]) ∅); unfold UINT64_MAX; cbn [length]; try lia; reflexivity.
Defined.

(** The first thread the client lets go on is the only one: the others keep
    their state, although the client asked for all. *)
Theorem resume_one_thread action p p' k t : Process_Resume action p = Ret p' ->
  action (tid t) = Some StateRunning -> m_threads p !! k = Some t ->
  (∃ j u, (j < k)%nat ∧ m_threads p !! j = Some u ∧ (action (tid u) = Some StateRunning \/ action (tid u) = Some StateStepping)) ->
  m_threads p' !! k = Some t.
Proof.
  intros Hr _ Hk (j & u & Hj & Hu & Ha). unfold Process_Resume in Hr.
  destruct (resume_threads action (m_threads p)) as [[r ts]| |] eqn:E; [|done..].
  cbn [mbind exec_bind] in Hr. injection Hr as <-.
  assert (ts !! k = Some t) as Hts; [|by destruct r].
  clear -E Hk Hj Hu Ha. revert r ts k j E Hk Hj Hu.
  induction (m_threads p) as [|v vs IH]; intros r ts k j E Hk Hj Hu; [done|].
  destruct k as [|k]; [lia|]. cbn in Hk. cbn [resume_threads] in E. destruct j as [|j].
  - cbn in Hu. injection Hu as ->. destruct Ha as [Ha|Ha]; rewrite Ha in E; cbn [ResumeThread mbind exec_bind] in E; by simplify_eq.
  - cbn in Hu. assert (∀ r ts, ('(r, ts') ← resume_threads action vs; Ret (r, v :: ts')) = Ret (r, ts) -> ts !! S k = Some t) as Hrec.
    { intros r0 ts0 H0. destruct (resume_threads action vs) as [[r1 ts1]| |] eqn:E1; [|done..].
      cbn [mbind exec_bind] in H0. injection H0 as <- <-. cbn. eapply (IH r1 ts1 k j); [done|done|lia|done]. }
    destruct (action (tid v)) as [[]|]; try (by eapply Hrec); cbn [ResumeThread mbind exec_bind] in E; by simplify_eq.
Qed.
