(* ===== verification/Xml.v ===== *)
(** What a client of the debugger makes of a document: a reader of the part of
    XML that target descriptions use, character by character, and rules for
    what it does to printed text. It is the specification of TargetXml, not
    code of the repository. *)
From Stdlib Require Import ZArith Lia List String Ascii.
From stdpp Require Import base list strings.
From S2P Require Import Prelude Emit.
#[local] Open Scope string_scope.

(** * Documents *)

Abbreviation attributes := (list (string * string)).
Inductive node :=
| Element (name : string) (attrs : attributes) (children : list node)
| Text (s : string).

(** The element being read: its children so far, and the elements around it
    with theirs. *)
Record builder := mkBuilder { read : list node; around : list (string * attributes * list node) }.

Inductive event :=
| Declaration
| Open (name : string) (attrs : attributes)
| Empty (name : string) (attrs : attributes)
| Close (name : string)
| Chars (s : string).

(** A declaration comes first, an end tag closes the element it names, and
    text is inside an element. *)
Definition build (b : builder) (e : event) : option builder :=
  match e with
  | Declaration => match read b, around b with [], [] => Some b | _, _ => None end
  | Open n attrs => Some (mkBuilder [] ((n, attrs, read b) :: around b))
  | Empty n attrs => Some (mkBuilder (read b ++ [Element n attrs []])%list (around b))
  | Close n =>
      match around b with
      | (n', attrs, before) :: outer =>
          if String.eqb n n' then Some (mkBuilder (before ++ [Element n attrs (read b)])%list outer) else None
      | [] => None
      end
  | Chars s => match around b with [] => None | _ => Some (mkBuilder (read b ++ [Text s])%list (around b)) end
  end.

(** * Characters *)

Definition quote_char : ascii := ascii_of_nat 34.
Definition blank (c : ascii) : bool :=
  let n := nat_of_ascii c in (n =? 32)%nat || (n =? 10)%nat || (n =? 9)%nat || (n =? 13)%nat.
Definition name_char (c : ascii) : bool :=
  let n := nat_of_ascii c in
  ((48 <=? n)%nat && (n <=? 57)%nat) || ((65 <=? n)%nat && (n <=? 90)%nat) || ((97 <=? n)%nat && (n <=? 122)%nat) || (n =? 95)%nat.
(** Characters that stand for themselves, in the value of an attribute and in
    text; no entities are read. *)
Definition plain (c : ascii) : bool := negb (Ascii.eqb c quote_char) && negb (Ascii.eqb c "<") && negb (Ascii.eqb c "&").
Definition word_char (c : ascii) : bool := plain c && negb (blank c).

(** Where the reader is; a mode keeps what it has read of a name, of the
    attributes and of a value. *)
Inductive mode :=
| InText (acc : string) | AfterLt | InDecl | DeclEnd | InName (acc : string) | InEnd (acc : string)
| InTag (n : string) (attrs : attributes) | InKey (n : string) (attrs : attributes) (acc : string)
| AfterEq (n : string) (attrs : attributes) (k : string)
| InValue (n : string) (attrs : attributes) (k acc : string)
| AfterSlash (n : string) (attrs : attributes).
Abbreviation reader := (builder * mode)%type.

Definition snoc (s : string) (c : ascii) : string := s ++ String c "".
Definition emit (b : builder) (e : event) (m : mode) : option reader := (fun b => (b, m)) <$> build b e.

Definition read_char (st : reader) (c : ascii) : option reader :=
  let '(b, m) := st in
  match m with
  | InText acc =>
      if Ascii.eqb c "<" then if String.eqb acc "" then Some (b, AfterLt) else emit b (Chars acc) AfterLt
      else if blank c && String.eqb acc "" then Some (b, InText "")
      else if Ascii.eqb c "&" then None
      else Some (b, InText (snoc acc c))
  | AfterLt =>
      if Ascii.eqb c "/" then Some (b, InEnd "")
      else if Ascii.eqb c "?" then Some (b, InDecl)
      else if name_char c then Some (b, InName (String c "")) else None
  | InDecl => if Ascii.eqb c "?" then Some (b, DeclEnd) else Some (b, InDecl)
  | DeclEnd => if Ascii.eqb c ">" then emit b Declaration (InText "") else Some (b, InDecl)
  | InName acc =>
      if name_char c then Some (b, InName (snoc acc c))
      else if blank c then Some (b, InTag acc [])
      else if Ascii.eqb c ">" then emit b (Open acc []) (InText "")
      else if Ascii.eqb c "/" then Some (b, AfterSlash acc []) else None
  | InEnd acc =>
      if name_char c then Some (b, InEnd (snoc acc c))
      else if Ascii.eqb c ">" then emit b (Close acc) (InText "") else None
  | InTag n attrs =>
      if blank c then Some (b, InTag n attrs)
      else if Ascii.eqb c ">" then emit b (Open n attrs) (InText "")
      else if Ascii.eqb c "/" then Some (b, AfterSlash n attrs)
      else if name_char c then Some (b, InKey n attrs (String c "")) else None
  | InKey n attrs acc =>
      if name_char c then Some (b, InKey n attrs (snoc acc c))
      else if Ascii.eqb c "=" then Some (b, AfterEq n attrs acc) else None
  | AfterEq n attrs k => if Ascii.eqb c quote_char then Some (b, InValue n attrs k "") else None
  | InValue n attrs k acc =>
      if Ascii.eqb c quote_char then if bool_decide (k ∈ attrs.*1) then None else Some (b, InTag n (attrs ++ [(k, acc)])%list)
      else if plain c then Some (b, InValue n attrs k (snoc acc c)) else None
  | AfterSlash n attrs => if Ascii.eqb c ">" then emit b (Empty n attrs) (InText "") else None
  end.

Fixpoint read_chars (st : reader) (s : string) : option reader :=
  match s with
  | EmptyString => Some st
  | String c s' => st' ← read_char st c; read_chars st' s'
  end.

(** The root of a document: one element, closed, and nothing around it. *)
Definition read_document (s : string) : option node :=
  match read_chars (mkBuilder [] [], InText "") s with
  | Some (mkBuilder [root] [], InText "") => Some root
  | _ => None
  end.

(** The attributes of all elements of a name, in the order they are written. *)
Fixpoint elements (tag : string) (d : node) : list attributes :=
  match d with
  | Element n attrs children => (if String.eqb n tag then [attrs] else []) ++ flat_map (elements tag) children
  | Text _ => []
  end%list.
Fixpoint value_of (attrs : attributes) (k : string) : option string :=
  match attrs with
  | [] => None
  | (k', v) :: attrs' => if String.eqb k' k then Some v else value_of attrs' k
  end.

(** * What printed text does to the reader *)

Lemma string_app_cons c s s' : (String c s ++ s')%string = String c (s ++ s').
Proof. done. Qed.
Lemma string_app_nil s : s ++ "" = s.
Proof. induction s as [|c s IH]; [done|]. by rewrite string_app_cons, IH. Qed.
Lemma string_app_assoc s1 s2 s3 : (s1 ++ s2) ++ s3 = s1 ++ s2 ++ s3.
Proof. induction s1 as [|c s IH]; [done|]. by rewrite !string_app_cons, IH. Qed.
Lemma snoc_app s c s' : snoc s c ++ s' = s ++ String c s'.
Proof. unfold snoc. by rewrite string_app_assoc. Qed.

Lemma read_chars_app st s s' : read_chars st (s ++ s') = (st' ← read_chars st s; read_chars st' s').
Proof.
  revert st. induction s as [|c s IH]; intros st; [done|]. rewrite string_app_cons. cbn [read_chars].
  destruct (read_char st c) as [st'|]; [|done]. apply IH.
Qed.

(** Where the reader is after a text. *)
Definition reads (s : string) (st : reader) : Prop := read_chars (mkBuilder [] [], InText "") s = Some st.

Lemma reads_app s s' st st' : reads s st -> read_chars st s' = Some st' -> reads (s ++ s') st'.
Proof. unfold reads. intros Hs Hs'. by rewrite read_chars_app, Hs. Qed.

Lemma reads_document s root : reads s (mkBuilder [root] [], InText "") -> read_document s = Some root.
Proof. unfold reads, read_document. by intros ->. Qed.

(** * Blanks, words and attributes *)

Lemma read_blanks b s : all_chars blank s = true -> read_chars (b, InText "") s = Some (b, InText "").
Proof.
  induction s as [|c s IH]; [done|]. cbn [all_chars]. rewrite andb_true_iff. intros [Hc Hs].
  cbn [read_chars read_char]. destruct (Ascii.eqb_spec c "<") as [->|_]; [done|]. rewrite Hc. cbn. auto.
Qed.

Lemma word_text c : word_char c = true -> Ascii.eqb c "<" = false ∧ Ascii.eqb c "&" = false ∧ blank c = false.
Proof. unfold word_char, plain. rewrite !andb_true_iff, !negb_true_iff. tauto. Qed.

Lemma read_word_rest b s : ∀ acc, all_chars word_char s = true ->
  read_chars (b, InText acc) s = Some (b, InText (acc ++ s)).
Proof.
  induction s as [|c s IH]; intros acc; [by rewrite string_app_nil|]. cbn [all_chars]. rewrite andb_true_iff.
  intros [Hc Hs]. apply word_text in Hc as (H1 & H2 & H3). cbn [read_chars read_char].
  rewrite H1, H2, H3. cbn [andb mbind option_bind]. rewrite IH by done. by rewrite snoc_app.
Qed.

Lemma read_value b n attrs k s : ∀ acc, all_chars plain s = true ->
  read_chars (b, InValue n attrs k acc) s = Some (b, InValue n attrs k (acc ++ s)).
Proof.
  induction s as [|c s IH]; intros acc; [by rewrite string_app_nil|]. cbn [all_chars]. rewrite andb_true_iff.
  intros [Hc Hs]. cbn [read_chars read_char]. assert (Ascii.eqb c quote_char = false) as Hq.
  { unfold plain in Hc. rewrite !andb_true_iff, negb_true_iff in Hc. tauto. }
  rewrite Hq, Hc. cbn [mbind option_bind]. rewrite IH by done. by rewrite snoc_app.
Qed.

Lemma read_key_rest b n attrs s : ∀ acc, all_chars name_char s = true ->
  read_chars (b, InKey n attrs acc) s = Some (b, InKey n attrs (acc ++ s)).
Proof.
  induction s as [|c s IH]; intros acc; [by rewrite string_app_nil|]. cbn [all_chars]. rewrite andb_true_iff.
  intros [Hc Hs]. cbn [read_chars read_char]. rewrite Hc. cbn [mbind option_bind]. rewrite IH by done. by rewrite snoc_app.
Qed.

Definition quote : string := String quote_char "".
(** An attribute as it is printed, with a space behind it. *)
Definition attribute (k v : string) : string := k ++ "=" ++ quote ++ v ++ quote ++ " ".

(** A name of one letter or more. *)
Definition is_name (s : string) : bool := negb (String.eqb s "") && all_chars name_char s.

Lemma name_char_tag c : name_char c = true -> blank c = false ∧ Ascii.eqb c ">" = false ∧ Ascii.eqb c "/" = false.
Proof.
  intros Hc. unfold blank. split_and!; [|destruct (Ascii.eqb_spec c ">") as [->|]; done|destruct (Ascii.eqb_spec c "/") as [->|]; done].
  unfold name_char in Hc. rewrite !orb_true_iff, !andb_true_iff, !Nat.leb_le, Nat.eqb_eq in Hc.
  rewrite !orb_false_iff, !Nat.eqb_neq. lia.
Qed.


(** ** Attributes that may be left out *)

Definition opt_attr (k : string) (v : option string) : attributes :=
  match v with Some v => [(k, v)] | None => [] end.
Definition fresh (k : string) (attrs : attributes) : Prop := k ∉ attrs.*1.

Lemma fresh_nil k : fresh k [].
Proof. apply not_elem_of_nil. Qed.
Lemma fresh_cons k k' v attrs : String.eqb k k' = false -> fresh k attrs -> fresh k ((k', v) :: attrs).
Proof. intros Hk Ha. apply String.eqb_neq in Hk. apply not_elem_of_cons. by split. Qed.
Lemma fresh_app k attrs attrs' : fresh k attrs -> fresh k attrs' -> fresh k (attrs ++ attrs')%list.
Proof. unfold fresh. rewrite fmap_app, elem_of_app. tauto. Qed.
Lemma fresh_opt k k' v : String.eqb k k' = false -> fresh k (opt_attr k' v).
Proof. intros Hk. destruct v; [by apply fresh_cons, fresh_nil|apply fresh_nil]. Qed.

Create HintDb xml.
#[export] Hint Resolve fresh_nil fresh_app : xml.
#[export] Hint Extern 2 (fresh _ (_ :: _)) => (apply fresh_cons; [reflexivity|]) : xml.
#[export] Hint Extern 2 (fresh _ (opt_attr _ _)) => (apply fresh_opt; reflexivity) : xml.

Lemma read_attribute b n attrs k v : is_name k = true -> all_chars plain v = true -> fresh k attrs ->
  read_chars (b, InTag n attrs) (attribute k v) = Some (b, InTag n (attrs ++ [(k, v)])%list).
Proof.
  unfold is_name. intros Hk Hv Hn. destruct k as [|c k]; [done|]. cbn [String.eqb negb andb all_chars] in Hk.
  apply andb_true_iff in Hk as [Hc Hk]. apply name_char_tag in Hc as Ht. destruct Ht as (H1 & H2 & H3).
  unfold attribute. rewrite string_app_cons. cbn [read_chars read_char]. rewrite H1, H2, H3, Hc. cbn [mbind option_bind].
  rewrite read_chars_app, (read_key_rest b n attrs k (String c "") Hk). cbn [mbind option_bind].
  change (String c "" ++ k) with (String c k).
  change (read_chars (b, InKey n attrs (String c k)) ("=" ++ quote ++ v ++ quote ++ " "))
    with (read_chars (b, InValue n attrs (String c k) "") (v ++ quote ++ " ")).
  rewrite read_chars_app, (read_value b n attrs (String c k) v "" Hv). cbn [mbind option_bind].
  change (quote ++ " ") with (String quote_char " "). cbn [read_chars read_char].
  rewrite (proj2 (Ascii.eqb_eq quote_char quote_char) eq_refl), bool_decide_false by done. done.
Qed.
