(* ===== verification/TargetXml.v ===== *)
(** The target description of lldb/src/Debugger.cpp: [BuildTargetXml_VM] prints
    the register tables of Context as XML, [ReadXferObject_VM] chooses the
    document a client asks for. LLDB's numbers of registers, its indentation
    and the names it gives to architectures and register sets are parameters;
    the fields of a register description that are null in both tables
    ([value_regs], [invalidate_regs], [flags_type]) print nothing and are left
    out. *)
From Stdlib Require Import ZArith Lia List String Ascii.
From stdpp Require Import base list gmap strings pretty.
From S2P Require Import Prelude Utils Registers StateMem CPUState Emit AetherVM Context Debugger Xml.
#[local] Open Scope string_scope.
#[local] Open Scope Z_scope.

(** * Names *)

Definition GetEncodingNameOrEmpty (reg_info : RegisterInfo) : string :=
  match ri_encoding reg_info with
  | eEncodingUint => "uint"
  | eEncodingSint => "sint"
  | eEncodingIEEE754 => "ieee754"
  | eEncodingVector => "vector"
  | _ => ""
  end.

Definition GetFormatNameOrEmpty (reg_info : RegisterInfo) : string :=
  match ri_format reg_info with
  | eFormatDefault => ""
  | eFormatBoolean => "boolean"
  | eFormatBinary => "binary"
  | eFormatBytes => "bytes"
  | eFormatBytesWithASCII => "bytes-with-ascii"
  | eFormatChar => "char"
  | eFormatCharPrintable => "char-printable"
  | eFormatComplex => "complex"
  | eFormatCString => "cstring"
  | eFormatDecimal => "decimal"
  | eFormatEnum => "enum"
  | eFormatHex => "hex"
  | eFormatHexUppercase => "hex-uppercase"
  | eFormatFloat => "float"
  | eFormatOctal => "octal"
  | eFormatOSType => "ostype"
  | eFormatUnicode16 => "unicode16"
  | eFormatUnicode32 => "unicode32"
  | eFormatUnsigned => "unsigned"
  | eFormatPointer => "pointer"
  | eFormatVectorOfChar => "vector-char"
  | eFormatVectorOfSInt64 => "vector-sint64"
  | eFormatVectorOfFloat16 => "vector-float16"
  | eFormatVectorOfFloat64 => "vector-float64"
  | eFormatVectorOfSInt8 => "vector-sint8"
  | eFormatVectorOfUInt8 => "vector-uint8"
  | eFormatVectorOfSInt16 => "vector-sint16"
  | eFormatVectorOfUInt16 => "vector-uint16"
  | eFormatVectorOfSInt32 => "vector-sint32"
  | eFormatVectorOfUInt32 => "vector-uint32"
  | eFormatVectorOfFloat32 => "vector-float32"
  | eFormatVectorOfUInt64 => "vector-uint64"
  | eFormatVectorOfUInt128 => "vector-uint128"
  | eFormatComplexInteger => "complex-integer"
  | eFormatCharArray => "char-array"
  | eFormatAddressInfo => "address-info"
  | eFormatHexFloat => "hex-float"
  | eFormatInstruction => "instruction"
  | eFormatVoid => "void"
  | eFormatUnicode8 => "unicode8"
  | eFormatFloat128 => "float128"
  end.

Definition GetKindGenericOrEmpty (reg_info : RegisterInfo) : string :=
  match ri_generic reg_info with
  | GEN_PC => "pc"
  | GEN_SP => "sp"
  | GEN_FP => "fp"
  | GEN_RA => "ra"
  | GEN_FLAGS => "flags"
  | ARG 1 => "arg1"
  | ARG 2 => "arg2"
  | ARG 3 => "arg3"
  | ARG 4 => "arg4"
  | ARG 5 => "arg5"
  | ARG 6 => "arg6"
  | ARG 7 => "arg7"
  | ARG 8 => "arg8"
  | GEN_TP => "tp"
  | _ => ""
  end.

(** * Printing *)

(** A stream: what is printed, and how deep it is indented. *)
Record StreamString := mkStream { str : string; indent_level : nat }.

Definition Printf (s : string) (response : StreamString) : StreamString := mkStream (str response ++ s) (indent_level response).
Definition IndentMore (response : StreamString) : StreamString := mkStream (str response) (S (indent_level response)).
Definition IndentLess (response : StreamString) : StreamString := mkStream (str response) (pred (indent_level response)).

(** Source text with its double quotes written as single ones. *)
Fixpoint quoted (s : string) : string :=
  match s with
  | EmptyString => EmptyString
  | String c s' => String (if Ascii.eqb c "'" then quote_char else c) (quoted s')
  end.

(** What differs between the architectures. *)
Record xml_arch := mkXmlArch {
  gpr_namespace : string; fpu_namespace : string; fpu_reg0 : string; fpu_types : string; fpu_type : string; fpu_group : string
}.

Definition xml_of (arch : arch_t) : xml_arch :=
  match arch with
  | ARM64 => mkXmlArch "org.gnu.gdb.aarch64.core" "org.gnu.gdb.aarch64.fpu" "v0"
      (quoted ("<vector id='v2d' type='ieee_double' count='2'/>" ++ nl ++
               "<vector id='v4f' type='ieee_single' count='4'/>" ++ nl ++
               "<vector id='v16i8' type='int8' count='16'/>" ++ nl ++
               "<union id='aarch64v'>" ++ nl ++
               "  <field name='f' type='v4f'/>" ++ nl ++
               "  <field name='d' type='v2d'/>" ++ nl ++
               "  <field name='u' type='v16i8'/>" ++ nl ++
               "</union>"))
      "aarch64v" "fpu"
  | X64 => mkXmlArch "org.gnu.gdb.i386.core" "org.gnu.gdb.i386.sse" "xmm0"
      (quoted ("<vector id='v4f' type='ieee_single' count='4'/>" ++ nl ++
               "<vector id='v2d' type='ieee_double' count='2'/>" ++ nl ++
               "<vector id='v16i8' type='int8' count='16'/>" ++ nl ++
               "<vector id='v8i16' type='int16' count='8'/>" ++ nl ++
               "<vector id='v4i32' type='int32' count='4'/>" ++ nl ++
               "<vector id='v2i64' type='int64' count='2'/>" ++ nl ++
               "<union id='vec128'>" ++ nl ++
               "  <field name='v4_float' type='v4f'/>" ++ nl ++
               "  <field name='v2_double' type='v2d'/>" ++ nl ++
               "  <field name='v16_int8' type='v16i8'/>" ++ nl ++
               "  <field name='v8_int16' type='v8i16'/>" ++ nl ++
               "  <field name='v4_int32' type='v4i32'/>" ++ nl ++
               "  <field name='v2_int64' type='v2i64'/>" ++ nl ++
               "  <field name='uint128' type='uint128'/>" ++ nl ++
               "</union>"))
      "vec128" "sse"
  end.

Section Build.
(** What [Indent] prints at a level, the name of the architecture, the set a
    register is in, its numbers in EH frames and DWARF, the number that stands
    for none, and whether offsets are left to the client. *)
Variables (indentation : nat -> string) (arch_name : string) (set_name : nat -> option string)
  (ehframe dwarf : nat -> Z) (LLDB_INVALID_REGNUM : Z) (RegisterOffsetIsDynamic : bool).
Variables (arch : arch_t) (t : info_tables).

Definition Indent (s : string) (response : StreamString) : StreamString :=
  Printf (indentation (indent_level response) ++ s) response.

(** An attribute that is printed only under a condition. *)
Definition print_if (c : bool) (k v : string) (response : StreamString) : StreamString :=
  if c then Printf (attribute k v) response else response.

(** One register, as the loop prints it. *)
Definition print_register (reg_type reg_group : option string) (reg_index : nat) (reg_info : RegisterInfo)
    (response : StreamString) : StreamString :=
  let response := Indent "" response in
  let response := Printf ("<reg " ++ attribute "name" (ri_name reg_info) ++ attribute "bitsize" (dec (wrap32 (byte_size reg_info * 8)))
                          ++ attribute "regnum" (dec (Z.of_nat reg_index))) response in
  let response := print_if (negb RegisterOffsetIsDynamic) "offset" (dec (byte_offset reg_info)) response in
  let response :=
    match ri_alt reg_info with
    | Some alt_name => print_if (negb (String.eqb alt_name "")) "altname" alt_name response
    | None => response
    end in
  let encoding := GetEncodingNameOrEmpty reg_info in
  let response := print_if (negb (String.eqb encoding "")) "encoding" encoding response in
  let format := GetFormatNameOrEmpty reg_info in
  let response := print_if (negb (String.eqb format "")) "format" format response in
  let response :=
    match reg_type with
    | Some reg_type => print_if (16 <=? byte_size reg_info) "type" reg_type response
    | None => response
    end in
  let response :=
    match reg_group with
    | Some reg_group => Printf (attribute "group" reg_group) response
    | None =>
        match set_name reg_index with
        | Some register_set_name => Printf (attribute "group" register_set_name) response
        | None => response
        end
    end in
  let response := print_if (negb (ehframe reg_index =? LLDB_INVALID_REGNUM)) "ehframe_regnum" (dec (ehframe reg_index)) response in
  let response := print_if (negb (dwarf reg_index =? LLDB_INVALID_REGNUM)) "dwarf_regnum" (dec (dwarf reg_index)) response in
  let kind_generic := GetKindGenericOrEmpty reg_info in
  let response := print_if (negb (String.eqb kind_generic "")) "generic" kind_generic response in
  Printf ("/>" ++ nl) response.

(** The loop over [reg_index], [n] registers to go. *)
Fixpoint print_registers (n : nat) (reg_index : nat) (reg_type reg_group : option string) (response : StreamString) : StreamString :=
  match n with
  | O => response
  | S n' =>
      match GetRegisterInfoAtIndex arch t (Z.of_nat reg_index) with
      | None => print_registers n' (S reg_index) reg_type reg_group response
      | Some reg_info =>
          let '(reg_type, reg_group, response) :=
            if String.eqb (ri_name reg_info) (fpu_reg0 (xml_of arch)) then
              (Some (fpu_type (xml_of arch)), Some (fpu_group (xml_of arch)),
               Printf ("</feature>" ++ nl ++ quoted "<feature name='" ++ fpu_namespace (xml_of arch) ++ quoted "'>" ++ nl
                       ++ fpu_types (xml_of arch) ++ nl) response)
            else (reg_type, reg_group, response) in
          print_registers n' (S reg_index) reg_type reg_group (print_register reg_type reg_group reg_index reg_info response)
      end
  end.

(** [None]: the process has no thread. *)
Definition BuildTargetXml_VM (p : AetherProcess) : option string :=
  match m_threads p with
  | [] => None
  | _ =>
      let response := mkStream "" 0 in
      let response := Printf (quoted "<?xml version='1.0'?>" ++ nl) response in
      let response := Printf (quoted "<target version='1.0'>" ++ nl) response in
      let response := IndentMore response in
      let response := Indent "" response in
      let response := Printf ("<architecture>" ++ arch_name ++ "</architecture>" ++ nl) response in
      let response := Printf (quoted "<feature name='" ++ gpr_namespace (xml_of arch) ++ quoted "'>" ++ nl) response in
      let registers_count := Z.to_nat (GetRegisterCount arch) in
      let response := if (registers_count =? 0)%nat then response else IndentMore response in
      let response := print_registers registers_count 0 None None response in
      let response := if (registers_count =? 0)%nat then response else IndentLess response in
      let response := Indent ("</feature>" ++ nl) response in
      let response := IndentLess response in
      let response := Indent ("</target>" ++ nl) response in
      Some (str response)
  end.

(** * The documents a client can ask for *)

(** A library the process has loaded, as LLDB lists it. *)
Record SVR4LibraryInfo := mkLibrary { lib_name : string; link_map : Z; base_addr : Z; ld_addr : Z }.

(** LLDB's own answers: the signal information of a thread, the list of
    libraries, and the encoding of a text as the value of an attribute. *)
Variables (GetSiginfo : AetherThread -> option string) (GetLoadedSVR4Libraries : option (list SVR4LibraryInfo))
  (XMLEncodeAttributeValue : string -> string).

Definition GetCurrentThread (p : AetherProcess) : option AetherThread :=
  find (fun thread => tid thread =? current_tid p) (m_threads p).

Definition library_list (libraries : list SVR4LibraryInfo) : string :=
  let response := Printf (quoted "<library-list-svr4 version='1.0'>") (mkStream "" 0) in
  let response := fold_left (fun response library =>
    let response := Printf ("<library " ++ attribute "name" (XMLEncodeAttributeValue (lib_name library))) response in
    let response := Printf (attribute "lm" (hex (link_map library))) response in
    let response := Printf (attribute "l_addr" (hex (base_addr library))) response in
    Printf (attribute "l_ld" (hex (ld_addr library)) ++ "/>") response) libraries response in
  str (Printf "</library-list-svr4>" response).

(** [Ret None] is an error the client is told of; [GetAuxvData] of the process
    aborts. *)
Definition ReadXferObject_VM (m_current_process : option AetherProcess) (object annex : string) : exec (option string) :=
  match m_current_process with
  | None => Ret None
  | Some p =>
      if String.eqb object "auxv" then Abort
      else if String.eqb object "siginfo" then
        match GetCurrentThread p with
        | None => Ret None
        | Some thread => Ret (GetSiginfo thread)
        end
      else if String.eqb object "libraries-svr4" then Ret (library_list <$> GetLoadedSVR4Libraries)
      else if String.eqb object "features" && String.eqb annex "target.xml" then Ret (BuildTargetXml_VM p)
      else Ret None
  end.

(** * What the description says *)

Definition nonempty (s : string) : option string := if String.eqb s "" then None else Some s.
Definition unless_invalid (n : Z) : option string := if n =? LLDB_INVALID_REGNUM then None else Some (dec n).

(** A register's element: its place and size always, the rest when it has it. *)
Definition reg_attributes (ty grp : option string) (i : nat) (info : RegisterInfo) : attributes :=
  ([("name", ri_name info); ("bitsize", dec (wrap32 (byte_size info * 8))); ("regnum", dec (Z.of_nat i))]
   ++ opt_attr "offset" (if RegisterOffsetIsDynamic then None else Some (dec (byte_offset info)))
   ++ opt_attr "altname" (ri_alt info ≫= nonempty)
   ++ opt_attr "encoding" (nonempty (GetEncodingNameOrEmpty info))
   ++ opt_attr "format" (nonempty (GetFormatNameOrEmpty info))
   ++ opt_attr "type" (if 16 <=? byte_size info then ty else None)
   ++ opt_attr "group" (match grp with Some g => Some g | None => set_name i end)
   ++ opt_attr "ehframe_regnum" (unless_invalid (ehframe i))
   ++ opt_attr "dwarf_regnum" (unless_invalid (dwarf i))
   ++ opt_attr "generic" (nonempty (GetKindGenericOrEmpty info)))%list.
Definition reg_elements (ty grp : option string) (i : nat) (infos : list RegisterInfo) : list node :=
  imap (fun j info => Element "reg" (reg_attributes ty grp (i + j) info) []) infos.

(** The vector types that come in front of the first vector register. *)
Definition vector_types : list node :=
  let vector id type count := Element "vector" [("id", id); ("type", type); ("count", count)] [] in
  let field name type := Element "field" [("name", name); ("type", type)] [] in
  match arch with
  | ARM64 =>
      [vector "v2d" "ieee_double" "2"; vector "v4f" "ieee_single" "4"; vector "v16i8" "int8" "16";
       Element "union" [("id", "aarch64v")] [field "f" "v4f"; field "d" "v2d"; field "u" "v16i8"]]
  | X64 =>
      [vector "v4f" "ieee_single" "4"; vector "v2d" "ieee_double" "2"; vector "v16i8" "int8" "16";
       vector "v8i16" "int16" "8"; vector "v4i32" "int32" "4"; vector "v2i64" "int64" "2";
       Element "union" [("id", "vec128")]
         [field "v4_float" "v4f"; field "v2_double" "v2d"; field "v16_int8" "v16i8"; field "v8_int16" "v8i16";
          field "v4_int32" "v4i32"; field "v2_int64" "v2i64"; field "uint128" "uint128"]]
  end.

Definition feature (name : string) (children : list node) : node := Element "feature" [("name", name)] children.

(** The whole description; [fpu] is the index of the first vector register. *)
Definition target_description (fpu : nat) : node :=
  let infos := register_infos arch t in
  let x := xml_of arch in
  Element "target" [("version", "1.0")]
    [Element "architecture" [] [Text arch_name];
     feature (gpr_namespace x) (reg_elements None None 0 (take fpu infos));
     feature (fpu_namespace x) (vector_types ++ reg_elements (Some (fpu_type x)) (Some (fpu_group x)) fpu (drop fpu infos))%list].

(** * What is printed is read *)

Hypothesis indentation_blank : ∀ n, all_chars blank (indentation n) = true.
Hypothesis arch_name_word : all_chars word_char arch_name = true ∧ arch_name <> "".
Hypothesis set_names_plain : ∀ i s, set_name i = Some s -> all_chars plain s = true.

Definition plain_info (info : RegisterInfo) : Prop :=
  all_chars plain (ri_name info) = true ∧ ∀ s, ri_alt info = Some s -> all_chars plain s = true.

Lemma reads_Printf r s st st' : reads (str r) st -> read_chars st s = Some st' -> reads (str (Printf s r)) st'.
Proof. apply reads_app. Qed.

Lemma reads_Indent r s b st' : reads (str r) (b, InText "") -> read_chars (b, InText "") s = Some st' ->
  reads (str (Indent s r)) st'.
Proof.
  intros Hr Hs. unfold Indent. eapply reads_Printf; [done|].
  by rewrite read_chars_app, read_blanks.
Qed.

Lemma dec_plain n : all_chars plain (dec n) = true.
Proof. by apply dec_chars. Qed.

Lemma reads_attribute r b n attrs k v : reads (str r) (b, InTag n attrs) -> is_name k = true ->
  all_chars plain v = true -> fresh k attrs ->
  reads (str (Printf (attribute k v) r)) (b, InTag n (attrs ++ opt_attr k (Some v))%list).
Proof. intros Hr Hk Hv Hf. eapply reads_Printf; [done|]. by apply read_attribute. Qed.

Lemma reads_print_if r b n attrs (c : bool) k v o : reads (str r) (b, InTag n attrs) ->
  o = (if c then Some v else None) -> is_name k = true -> all_chars plain v = true -> fresh k attrs ->
  reads (str (print_if c k v r)) (b, InTag n (attrs ++ opt_attr k o)%list).
Proof.
  intros Hr -> Hk Hv Hf. unfold print_if. destruct c; [by apply reads_attribute|].
  cbn [opt_attr]. by rewrite app_nil_r.
Qed.

Lemma names_plain info :
  all_chars plain (GetEncodingNameOrEmpty info) = true ∧ all_chars plain (GetFormatNameOrEmpty info) = true ∧
  all_chars plain (GetKindGenericOrEmpty info) = true.
Proof.
  unfold GetEncodingNameOrEmpty, GetFormatNameOrEmpty, GetKindGenericOrEmpty.
  split_and!; [by destruct (ri_encoding info)|by destruct (ri_format info)|].
  destruct (ri_generic info) as [n| | | | | | |]; try done. by repeat case_match.
Qed.

Lemma nonempty_if s : nonempty s = (if negb (String.eqb s "") then Some s else None).
Proof. unfold nonempty. by destruct (String.eqb s ""). Qed.
Lemma unless_invalid_if n : unless_invalid n = (if negb (n =? LLDB_INVALID_REGNUM) then Some (dec n) else None).
Proof. unfold unless_invalid. by destruct (n =? _). Qed.

Lemma reads_reg r b i info : reads (str r) (b, InText "") -> all_chars plain (ri_name info) = true ->
  reads (str (Printf ("<reg " ++ attribute "name" (ri_name info) ++ attribute "bitsize" (dec (wrap32 (byte_size info * 8)))
                      ++ attribute "regnum" (dec (Z.of_nat i))) (Indent "" r)))
    (b, InTag "reg" [("name", ri_name info); ("bitsize", dec (wrap32 (byte_size info * 8))); ("regnum", dec (Z.of_nat i))]).
Proof.
  intros Hr Hn. eapply reads_Printf; [by eapply reads_Indent|].
  change ("<reg " ++ ?s) with (String "<" (String "r" (String "e" (String "g" (String " " s))))).
  change (read_chars (b, InText "") (String "<" (String "r" (String "e" (String "g" (String " " ?s))))))
    with (read_chars (b, InTag "reg" []) s).
  rewrite read_chars_app, read_attribute by (done || apply fresh_nil). cbn [mbind option_bind].
  rewrite read_chars_app, read_attribute by (done || apply dec_plain || (cbn; auto with xml; fail)). cbn [mbind option_bind].
  by rewrite read_attribute by (done || apply dec_plain || (cbn; auto with xml; fail)).
Qed.

Definition plain_opt (o : option string) : Prop := ∀ s, o = Some s -> all_chars plain s = true.

Lemma reads_alt r b n attrs (alt : option string) : reads (str r) (b, InTag n attrs) -> plain_opt alt -> fresh "altname" attrs ->
  reads (str (match alt with Some a => print_if (negb (String.eqb a "")) "altname" a r | None => r end))
    (b, InTag n (attrs ++ opt_attr "altname" (alt ≫= nonempty))%list).
Proof.
  intros Hr Ha Hf. destruct alt as [a|]; [|cbn; by rewrite app_nil_r].
  apply reads_print_if; [done|apply nonempty_if|done|by apply Ha|done].
Qed.

Lemma reads_type r b n attrs (ty : option string) size : reads (str r) (b, InTag n attrs) -> plain_opt ty -> fresh "type" attrs ->
  reads (str (match ty with Some s => print_if (16 <=? size) "type" s r | None => r end))
    (b, InTag n (attrs ++ opt_attr "type" (if 16 <=? size then ty else None))%list).
Proof.
  intros Hr Ht Hf. destruct ty as [s|]; [|destruct (16 <=? size); cbn; by rewrite app_nil_r].
  apply reads_print_if; [done|done|done|by apply Ht|done].
Qed.

Lemma reads_group r b n attrs (grp : option string) i : reads (str r) (b, InTag n attrs) -> plain_opt grp -> fresh "group" attrs ->
  reads (str (match grp with
              | Some g => Printf (attribute "group" g) r
              | None => match set_name i with Some g => Printf (attribute "group" g) r | None => r end
              end))
    (b, InTag n (attrs ++ opt_attr "group" (match grp with Some g => Some g | None => set_name i end))%list).
Proof.
  intros Hr Hg Hf. destruct grp as [g|]; [apply reads_attribute; auto|].
  destruct (set_name i) as [g|] eqn:E; [apply reads_attribute; eauto|cbn; by rewrite app_nil_r].
Qed.

Lemma print_register_reads ty grp i info r cs stk : reads (str r) (mkBuilder cs stk, InText "") ->
  plain_info info -> plain_opt ty -> plain_opt grp ->
  reads (str (print_register ty grp i info r))
    (mkBuilder (cs ++ [Element "reg" (reg_attributes ty grp i info) []])%list stk, InText "").
Proof.
  intros Hr [Hn Ha] Ht Hg. destruct (names_plain info) as (He & Hf & Hk). unfold print_register.
  eapply reads_Printf with (st := (mkBuilder cs stk, InTag "reg" (reg_attributes ty grp i info))); [|reflexivity].
  unfold reg_attributes. rewrite !app_assoc.
  apply reads_print_if; [|apply nonempty_if|done|done|auto 20 with xml].
  apply reads_print_if; [|apply unless_invalid_if|done|apply dec_plain|auto 20 with xml].
  apply reads_print_if; [|apply unless_invalid_if|done|apply dec_plain|auto 20 with xml].
  apply reads_group; [|done|auto 20 with xml]. apply reads_type; [|done|auto 20 with xml].
  apply reads_print_if; [|apply nonempty_if|done|done|auto 20 with xml].
  apply reads_print_if; [|apply nonempty_if|done|done|auto 20 with xml].
  apply reads_alt; [|done|auto 20 with xml].
  apply reads_print_if; [by apply reads_reg|by destruct RegisterOffsetIsDynamic|done|apply dec_plain|auto 20 with xml].
Qed.

Lemma reg_elements_cons ty grp i info l : reg_elements ty grp i (info :: l) =
  Element "reg" (reg_attributes ty grp i info) [] :: reg_elements ty grp (S i) l.
Proof.
  unfold reg_elements. rewrite imap_cons, Nat.add_0_r. f_equal. apply imap_ext. intros j x _. cbn.
  by rewrite Nat.add_succ_r.
Qed.

(** Registers at which no feature begins. *)
Lemma print_registers_reads ty grp stk n l : plain_opt ty -> plain_opt grp ->
  ∀ i r cs, reads (str r) (mkBuilder cs stk, InText "") -> Forall plain_info l ->
  (∀ j info, l !! j = Some info ->
     GetRegisterInfoAtIndex arch t (Z.of_nat (i + j)) = Some info ∧ String.eqb (ri_name info) (fpu_reg0 (xml_of arch)) = false) ->
  ∃ r', print_registers (length l + n) i ty grp r = print_registers n (i + length l) ty grp r' ∧
    reads (str r') (mkBuilder (cs ++ reg_elements ty grp i l)%list stk, InText "").
Proof.
  intros Ht Hg. induction l as [|info l IH]; intros i r cs Hr Hp Hl.
  - exists r. rewrite Nat.add_0_r. cbn [reg_elements]. by rewrite app_nil_r.
  - apply Forall_cons in Hp as [Hi Hp]. destruct (Hl 0%nat info eq_refl) as [E0 En]. rewrite Nat.add_0_r in E0.
    cbn [length Nat.add print_registers]. rewrite E0, En.
    destruct (IH (S i) (print_register ty grp i info r) (cs ++ [Element "reg" (reg_attributes ty grp i info) []])%list)
      as (r' & E & H'); [by apply print_register_reads|done| |].
    + intros j x Hj. rewrite Nat.add_succ_l, <- Nat.add_succ_r. by apply (Hl (S j)).
    + exists r'. split; [by rewrite E, Nat.add_succ_r|]. by rewrite reg_elements_cons, cons_middle, app_assoc.
Qed.

Lemma xml_words : all_chars plain (gpr_namespace (xml_of arch)) = true ∧ all_chars plain (fpu_namespace (xml_of arch)) = true ∧
  plain_opt (Some (fpu_type (xml_of arch))) ∧ plain_opt (Some (fpu_group (xml_of arch))).
Proof. split_and!; [by destruct arch..| |]; intros s [= <-]; by destruct arch. Qed.

Lemma vector_types_read stk : read_chars (mkBuilder [] stk, InText "") (fpu_types (xml_of arch)) =
  Some (mkBuilder vector_types stk, InText "").
Proof. unfold vector_types. destruct arch; by vm_compute. Qed.

Lemma feature_open name cs stk : all_chars plain name = true ->
  read_chars (mkBuilder cs stk, InText "") (quoted "<feature name='" ++ name ++ quoted "'>" ++ nl) =
  Some (mkBuilder [] (("feature", [("name", name)], cs) :: stk), InText "").
Proof.
  intros Hn. rewrite read_chars_app.
  change (read_chars (mkBuilder cs stk, InText "") (quoted "<feature name='")) with
    (Some (mkBuilder cs stk, InValue "feature" [] "name" "")). cbn [mbind option_bind].
  rewrite read_chars_app, read_value by done. reflexivity.
Qed.

(** The first vector register closes one feature and opens the next. *)
Lemma fpu_feature_reads r name cs before outer : reads (str r) (mkBuilder cs (("feature", [("name", name)], before) :: outer), InText "") ->
  reads (str (Printf ("</feature>" ++ nl ++ quoted "<feature name='" ++ fpu_namespace (xml_of arch) ++ quoted "'>" ++ nl
                       ++ fpu_types (xml_of arch) ++ nl) r))
    (mkBuilder vector_types (("feature", [("name", fpu_namespace (xml_of arch))], before ++ [feature name cs])%list :: outer), InText "").
Proof.
  intros Hr. eapply reads_Printf; [done|]. destruct xml_words as (_ & Hf & _).
  change (read_chars (mkBuilder cs (("feature", [("name", name)], before) :: outer), InText "") ("</feature>" ++ nl ++ ?s)) with
    (read_chars (mkBuilder (before ++ [feature name cs])%list outer, InText "") s).
  rewrite <- (string_app_assoc (quoted "'>")), <- (string_app_assoc (fpu_namespace _)), <- (string_app_assoc (quoted "<feature name='")).
  rewrite (read_chars_app _ (quoted "<feature name='" ++ _)), feature_open by done. cbn [mbind option_bind].
  rewrite read_chars_app, vector_types_read. reflexivity.
Qed.

Definition fpu_index : nat := match arch with ARM64 => 34 | X64 => 40 end.

(** The tables the description needs: plain names, and the first vector
    register where the architecture has it. *)
Definition table_ok (arch : arch_t) (infos : list RegisterInfo) : bool :=
  (length infos =? Z.to_nat (GetRegisterCount arch))%nat &&
  forallb (fun info => all_chars plain (ri_name info) && match ri_alt info with Some a => all_chars plain a | None => true end) infos &&
  forallb (fun p => Bool.eqb (String.eqb (ri_name p.2) (fpu_reg0 (xml_of arch))) (p.1 =? match arch with ARM64 => 34 | X64 => 40 end)%nat)
    (imap pair infos).

Hypothesis infos_ok : table_ok arch (register_infos arch t) = true.
Abbreviation infos := (register_infos arch t).

Lemma infos_facts : length infos = Z.to_nat (GetRegisterCount arch) ∧ Forall plain_info infos ∧
  ∀ i info, infos !! i = Some info -> String.eqb (ri_name info) (fpu_reg0 (xml_of arch)) = (i =? fpu_index)%nat ∧
    GetRegisterInfoAtIndex arch t (Z.of_nat i) = Some info.
Proof.
  unfold table_ok in infos_ok. rewrite !andb_true_iff, Nat.eqb_eq, !forallb_forall in infos_ok. destruct infos_ok as [[Hl Hp] Hf].
  split_and!; [done| |].
  - apply Forall_forall. intros info Hi. apply list_elem_of_In, Hp, andb_true_iff in Hi as [Hn Ha]. split; [done|].
    intros s E. by rewrite E in Ha.
  - intros i info Hi. split.
    + apply eqb_prop. apply (Hf (i, info)), list_elem_of_In. apply list_elem_of_lookup. exists i. by rewrite list_lookup_imap, Hi.
    + unfold GetRegisterInfoAtIndex. rewrite Nat2Z.id. apply lookup_lt_Some in Hi as Hlt.
      assert (Z.of_nat i <? Z.of_nat (length (registers arch)) = true) as ->; [|done].
      apply Z.ltb_lt. unfold GetRegisterCount in Hl. lia.
Qed.

Lemma all_registers_read r cs outer : (fpu_index < length infos)%nat ->
  reads (str r) (mkBuilder [] (("feature", [("name", gpr_namespace (xml_of arch))], cs) :: outer), InText "") ->
  let x := xml_of arch in
  reads (str (print_registers (length infos) 0 None None r))
    (mkBuilder (vector_types ++ reg_elements (Some (fpu_type x)) (Some (fpu_group x)) fpu_index (drop fpu_index infos))%list
       (("feature", [("name", fpu_namespace x)], cs ++ [feature (gpr_namespace x) (reg_elements None None 0 (take fpu_index infos))])%list :: outer),
     InText "").
Proof.
  intros Hfpu Hr x. destruct infos_facts as (Hlen & Hplain & Hrow), xml_words as (_ & _ & Ht & Hg).
  assert (∀ o, plain_opt o -> plain_opt None) as Hnone by (intros ? _ ? [=]).
  assert (length infos = length (take fpu_index infos) + S (length (drop (S fpu_index) infos)))%nat as Hsplit
    by (rewrite length_take, length_drop; lia).
  rewrite Hsplit.
  destruct (print_registers_reads None None (("feature", [("name", gpr_namespace x)], cs) :: outer)
    (S (length (drop (S fpu_index) infos))) (take fpu_index infos) (Hnone _ Ht) (Hnone _ Ht) 0 r []) as (r1 & -> & H1); [done| | |].
  { by apply Forall_take. }
  { intros j info Hj. apply lookup_take_Some in Hj as [Hj Hlt]. destruct (Hrow _ _ Hj) as [En Eg]. split; [done|].
    rewrite En. apply Nat.eqb_neq. lia. }
  destruct (lookup_lt_is_Some_2 infos fpu_index Hfpu) as [info Hi]. destruct (Hrow _ _ Hi) as [Hname Hget].
  rewrite length_take_le by lia. cbn [print_registers Nat.add]. rewrite Hget, Hname, Nat.eqb_refl.
  rewrite (drop_S _ _ _ Hi), reg_elements_cons.
  rewrite <- (Nat.add_0_r (length (drop (S fpu_index) infos))).
  destruct (print_registers_reads (Some (fpu_type x)) (Some (fpu_group x))
    (("feature", [("name", fpu_namespace x)], cs ++ [feature (gpr_namespace x) (reg_elements None None 0 (take fpu_index infos))])%list :: outer)
    0 (drop (S fpu_index) infos) Ht Hg (S fpu_index)
    (print_register (Some (fpu_type x)) (Some (fpu_group x)) fpu_index info (Printf ("</feature>" ++ nl ++ quoted "<feature name='"
       ++ fpu_namespace x ++ quoted "'>" ++ nl ++ fpu_types x ++ nl) r1))
    (vector_types ++ [Element "reg" (reg_attributes (Some (fpu_type x)) (Some (fpu_group x)) fpu_index info) []])%list) as (r2 & E & H2).
  - apply print_register_reads; [by apply fpu_feature_reads|by eapply Forall_lookup_1|done|done].
  - by apply Forall_drop.
  - intros j y Hj. rewrite lookup_drop in Hj. destruct (Hrow _ _ Hj) as [En Eg]. split; [done|]. rewrite En. apply Nat.eqb_neq. lia.
  - fold x. rewrite E. cbn [print_registers]. by rewrite cons_middle, app_assoc.
Qed.

Lemma target_xml_reads p : m_threads p <> [] -> (fpu_index < length infos)%nat ->
  ∃ text, BuildTargetXml_VM p = Some text ∧ read_document text = Some (target_description fpu_index).
Proof.
  intros Hth Hfpu. unfold BuildTargetXml_VM. destruct (m_threads p); [done|]. eexists. split; [reflexivity|].
  apply reads_document. destruct infos_facts as (Hlen & _). rewrite <- Hlen.
  assert ((length infos =? 0)%nat = false) as -> by (apply Nat.eqb_neq; lia).
  eapply reads_Indent; [eapply reads_Indent; [apply (all_registers_read _ [Element "architecture" [] [Text arch_name]]
    [("target", [("version", "1.0")], [])]); [done|]|reflexivity]|reflexivity].
  eapply reads_Printf; [|apply feature_open, (proj1 xml_words)].
  eapply reads_Printf; [eapply reads_Indent; [by vm_compute|reflexivity]|].
  destruct arch_name_word as [Hw Hne].
  change (read_chars ?st ("<architecture>" ++ ?s)) with
    (read_chars (mkBuilder [] [("architecture", [], []); ("target", [("version", "1.0")], [])], InText "") s).
  rewrite read_chars_app, read_word_rest by done. cbn [mbind option_bind]. change ("" ++ arch_name) with arch_name.
  change ("</architecture>" ++ nl) with (String "<" ("/architecture>" ++ nl)). cbn [read_chars read_char].
  change (Ascii.eqb "<" "<") with true. apply String.eqb_neq in Hne. rewrite Hne. reflexivity.
Qed.

Lemma flat_map_regs ty grp l : ∀ i, flat_map (elements "reg") (reg_elements ty grp i l) = imap (fun j => reg_attributes ty grp (i + j)) l.
Proof.
  induction l as [|info l IH]; intros i; [done|]. rewrite reg_elements_cons, imap_cons, Nat.add_0_r. cbn [flat_map elements String.eqb Ascii.eqb Bool.eqb app].
  rewrite IH. f_equal. apply imap_ext. intros j x _. cbn. by rewrite Nat.add_succ_r.
Qed.

(** The registers of the description, whatever feature they are in. *)
Lemma description_regs : elements "reg" (target_description fpu_index) =
  (imap (reg_attributes None None) (take fpu_index infos) ++
   imap (fun j => reg_attributes (Some (fpu_type (xml_of arch))) (Some (fpu_group (xml_of arch))) (fpu_index + j)) (drop fpu_index infos))%list.
Proof.
  unfold target_description, feature. cbn [elements flat_map String.eqb Ascii.eqb Bool.eqb app].
  rewrite flat_map_app, !flat_map_regs, app_nil_r.
  assert (flat_map (elements "reg") vector_types = []) as -> by (unfold vector_types; by destruct arch). done.
Qed.

Lemma description_value k (f : nat -> RegisterInfo -> string) : (fpu_index < length infos)%nat ->
  (∀ ty grp i info, value_of (reg_attributes ty grp i info) k = Some (f i info)) ->
  (fun a => value_of a k) <$> elements "reg" (target_description fpu_index) = imap (fun i info => Some (f i info)) infos.
Proof.
  intros Hfpu Hf. rewrite description_regs, fmap_app, !fmap_imap. rewrite <- (take_drop fpu_index infos) at 3.
  rewrite imap_app, length_take_le by lia. f_equal; apply imap_ext; intros i info _; apply Hf.
Qed.
End Build.

(** * Properties *)

Definition string_bytes (s : string) : list Z := (fun c => Z.of_nat (nat_of_ascii c)) <$> String.list_ascii_of_string s.
Definition text_of (l : list Z) : string := String.string_of_list_ascii ((fun b => ascii_of_nat (Z.to_nat b)) <$> l).

Lemma text_of_bytes s : text_of (string_bytes s) = s.
Proof.
  unfold text_of, string_bytes. rewrite <- list_fmap_compose. rewrite <- (String.string_of_list_ascii_of_string s) at 2. f_equal.
  transitivity (id <$> String.list_ascii_of_string s); [|apply list_fmap_id]. apply list_fmap_ext. intros i c _. cbn. by rewrite Nat2Z.id, ascii_nat_embedding.
Qed.

Lemma tables_ok arch : table_ok arch (register_infos arch the_tables) = true.
Proof. destruct arch; by vm_compute. Qed.

Lemma bytes_length s : length (string_bytes s) = String.length s.
Proof. unfold string_bytes. rewrite length_fmap. induction s as [|c s IH]; [done|]. cbn. by rewrite IH. Qed.

(** What [Handle_qXfer_VM] makes of what is read. *)
Definition xfer_answer (r : exec (option string)) : option (list Z) :=
  match r with Ret (Some text) => Some (string_bytes text) | _ => None end.

(** C28: the target description. For a process with a thread the text of
    [BuildTargetXml_VM] is a well-formed document, whatever LLDB's numbers and
    names are, as long as they need no escapes: it names the architecture and
    has one feature with the registers in front of the first vector register and
    one with the vector types and the other registers. Its registers are those of
    the architecture's table, in order, each under its name, with its number and
    its size in bits; and a client that fetches the text in pieces of any size,
    while the process goes on, gets all of it and leaves nothing behind. *)
Theorem client_reads_target (indentation : nat -> string) (arch_name : string) (set_name : nat -> option string)
    (ehframe dwarf : nat -> Z) (invalid : Z) (dynamic : bool) (siginfo : AetherThread -> option string)
    (libraries : option (list SVR4LibraryInfo)) (encode : string -> string) arch p n :
  (∀ i, all_chars blank (indentation i) = true) -> all_chars word_char arch_name = true -> arch_name <> "" ->
  (∀ i s, set_name i = Some s -> all_chars plain s = true) -> m_threads p <> [] -> 0 < n < UINT64_MAX ->
  let infos := register_infos arch the_tables in
  let doc := target_description arch_name set_name ehframe dwarf invalid dynamic arch the_tables (fpu_index arch) in
  ∃ text, BuildTargetXml_VM indentation arch_name set_name ehframe dwarf invalid dynamic arch the_tables p = Some text ∧
    read_document text = Some doc ∧
    (fun a => value_of a "name") <$> elements "reg" doc = imap (fun _ info => Some (ri_name info)) infos ∧
    (fun a => value_of a "regnum") <$> elements "reg" doc = imap (fun i _ => Some (dec (Z.of_nat i))) infos ∧
    (fun a => value_of a "bitsize") <$> elements "reg" doc = imap (fun _ info => Some (dec (wrap32 (byte_size info * 8)))) infos ∧
    ∀ (ps : nat -> AetherProcess) bufs, let fuel := S (String.length text) in
      Z.of_nat (String.length text) < UINT64_MAX -> m_threads (ps fuel) <> [] -> bufs !! "featuresreadtarget.xml" = None ->
      fetch fuel (fun k object annex => xfer_answer (ReadXferObject_VM indentation arch_name set_name ehframe dwarf invalid dynamic
          arch the_tables siginfo libraries encode (Some (ps k)) object annex)) "features" "target.xml" n [] bufs =
        Some (string_bytes text, bufs).
Proof.
  intros Hi Ha Hne Hs Hp Hn infos doc. assert (fpu_index arch < length infos)%nat as Hfpu by (apply Nat.ltb_lt; destruct arch; by vm_compute).
  destruct (target_xml_reads indentation arch_name set_name ehframe dwarf invalid dynamic arch the_tables Hi (conj Ha Hne) Hs
    (tables_ok arch) p Hp Hfpu) as (text & Hb & Hr).
  assert (∀ k f, (∀ ty grp i info, value_of (reg_attributes set_name ehframe dwarf invalid dynamic ty grp i info) k = Some (f i info)) ->
    (fun a => value_of a k) <$> elements "reg" doc = imap (fun i info => Some (f i info)) infos) as Hval
    by (intros k f Hf; apply description_value; [apply tables_ok|done|done]).
  exists text. split_and!; [done|done|by apply (Hval "name" (fun _ info => ri_name info))
    |by apply (Hval "regnum" (fun i _ => dec (Z.of_nat i)))
    |by apply (Hval "bitsize" (fun _ info => dec (wrap32 (byte_size info * 8))))|].
  intros ps bufs fuel Hlen Hps Hbufs. unfold fuel. rewrite <- bytes_length. change (@nil Z) with (take 0 (string_bytes text)).
  rewrite (fetch_rest "features" "target.xml" n (string_bytes text) _); [by rewrite delete_id|by rewrite bytes_length|done|lia|lia|].
  right. split; [done|]. rewrite bytes_length. fold fuel. unfold ReadXferObject_VM. cbn [String.eqb Ascii.eqb Bool.eqb andb].
  assert (BuildTargetXml_VM indentation arch_name set_name ehframe dwarf invalid dynamic arch the_tables (ps fuel) = Some text) as ->; [|done].
  revert Hb. unfold BuildTargetXml_VM. by destruct (m_threads p), (m_threads (ps fuel)).
Qed.

(** LLDB's indentation, and names it could give. *)
Fixpoint spaces (n : nat) : string := match n with O => "" | S n' => String " " (spaces n') end.
Lemma spaces_blank n : all_chars blank (spaces n) = true.
Proof. by induction n. Qed.
Definition sample_set (i : nat) : option string := if (i <? 34)%nat then Some "General Purpose Registers" else None.
Lemma sample_set_plain i s : sample_set i = Some s -> all_chars plain s = true.
Proof. unfold sample_set. destruct (_ <? _)%nat; [|done]. by intros [= <-]. Qed.
Definition sample_process : AetherProcess := AttachThread 7 0x1000 AetherProcess_new.

Theorem client_reads_target_witness : ∃ text,
  BuildTargetXml_VM (fun n => spaces (2 * n)) "aarch64" sample_set Z.of_nat Z.of_nat (2 ^ 32 - 1) false ARM64 the_tables sample_process = Some text ∧
  fetch (S (String.length text)) (fun _ object annex => xfer_answer (ReadXferObject_VM (fun n => spaces (2 * n)) "aarch64" sample_set
      Z.of_nat Z.of_nat (2 ^ 32 - 1) false ARM64 the_tables (fun _ => None) None id (Some sample_process) object annex))
    "features" "target.xml" 1024 [] ∅ = Some (string_bytes text, ∅).
Proof.
  destruct (client_reads_target (fun n => spaces (2 * n)) "aarch64" sample_set Z.of_nat Z.of_nat (2 ^ 32 - 1) false (fun _ => None) None id
    ARM64 sample_process 1024) as (text & Hb & _ & _ & _ & _ & Hfetch);
    [intros i; apply spaces_blank|reflexivity|discriminate|exact sample_set_plain|discriminate|split; reflexivity|].
  exists text. split; [exact Hb|]. apply (Hfetch (fun _ => sample_process)); [|discriminate|reflexivity].
  assert (match BuildTargetXml_VM (fun n => spaces (2 * n)) "aarch64" sample_set Z.of_nat Z.of_nat (2 ^ 32 - 1) false ARM64 the_tables sample_process with
    Some t => Z.of_nat (String.length t) <? UINT64_MAX | None => false end = true) as Hlen by (vm_compute; reflexivity).
  rewrite Hb in Hlen. apply Z.ltb_lt. exact Hlen.
Defined.

(** Three registers of aarch64 claim the role of the flags register. *)
Lemma three_flags : ri_name <$> List.filter (fun info => String.eqb (GetKindGenericOrEmpty info) "flags") (register_infos ARM64 the_tables) =
  ["cpsr"; "fpsr"; "fpcr"].
Proof. by vm_compute. Qed.
