(* ===== verification/DebugSession.v ===== *)
(** How the engine and its debugger meet: [startDebugger] of
    src/BinaryEngine.cpp fills the table of handlers, [aether_dbgmain] and the
    handlers of lldb/src/Debugger.cpp keep the session, and Process.cpp gives
    the debugger the memory of the engine. What a thread does inside of
    [WatchDog] is Debugger; loading the library, the socket and the connection
    of the client are parameters. *)
From Stdlib Require Import ZArith Lia List String.
From stdpp Require Import base list gmap strings relations.
From S2P Require Import Prelude Utils Registers StateMem CPUState Memory Emit Debugger.
#[local] Open Scope Z_scope.

(** * The table of handlers *)

(** The empty handlers of BinaryEngine.cpp, and the debugger's. *)
Inductive handler_fn := DoNothing | AetherDbg.
(** [None] is a pointer that was never set. *)
Record AetherDbgContext := mkDbgContext {
  port : Z; arm64 : bool;
  thread_handler_fn : option handler_fn; insn_handler_fn : option handler_fn; memory_handler_fn : option handler_fn
}.

Definition aether_dbgmain (context : AetherDbgContext) : AetherDbgContext :=
  mkDbgContext (port context) (arm64 context) (Some AetherDbg) (Some AetherDbg) (Some AetherDbg).

(** [library]: whether the debugger's library loads, and then whether it has
    [aether_dbgmain]. *)
Definition startDebugger (dbgport : Z) (is_arm64 : bool) (library : option bool) : exec AetherDbgContext :=
  let dbgContext := mkDbgContext dbgport is_arm64 None None None in
  match library with
  | Some true => Ret (aether_dbgmain dbgContext)
  | Some false => Undef
  | None => Ret (mkDbgContext (port dbgContext) (arm64 dbgContext) (Some DoNothing) (Some DoNothing) (memory_handler_fn dbgContext))
  end.

(** * The session *)

(** [dbgContext] of Debugger.cpp, and each host thread's [thisThread]. *)
Record session := mkSession { proc : option AetherProcess; thisThread : gmap Z Z }.
Definition session_start : session := mkSession None ∅.

Definition session_detached (s : session) : bool := match proc s with Some p => detached p | None => false end.

Section Handlers.
(** Whether a client connects. *)
Variable connects : bool.

(** A thread attaches with the pc it starts at, or ends. *)
Definition attach_or_detach (id : Z) (cpu : option Z) (p : AetherProcess) (s : session) : session :=
  match cpu with
  | Some pc => mkSession (Some (AttachThread id pc p)) (thisThread s)
  | None => mkSession (Some (DetachThread id p)) (delete id (thisThread s))
  end.

(** [None]: the process exits, no client connected. *)
Definition initialize (id : Z) (cpu : option Z) (s : session) : option session :=
  if connects then Some (attach_or_detach id cpu AetherProcess_new s) else None.

Definition thread_handler (id : Z) (cpu : option Z) (s : session) : option session :=
  if session_detached s then Some s
  else match proc s with
  | None => initialize id cpu s
  | Some p => Some (attach_or_detach id cpu p s)
  end.

Fixpoint first_thread (id : Z) (ts : list AetherThread) : option AetherThread :=
  match ts with
  | [] => None
  | t :: ts' => if native_id t =? id then Some t else first_thread id ts'
  end.

(** The thread of the caller, kept from one call to the next; a thread that is
    not there is past the end of the list. *)
Definition ThisThread (id : Z) (p : AetherProcess) (s : session) : exec (Z * session) :=
  match thisThread s !! id with
  | Some t => Ret (t, s)
  | None =>
      match first_thread id (m_threads p) with
      | Some t => Ret (tid t, mkSession (proc s) (<[id := tid t]> (thisThread s)))
      | None => Undef
      end
  end.

(** The thread that [WatchDog] stops, if the debugger is attached; one that
    was erased is a dangling pointer. *)
Definition insn_handler (id : Z) (s : session) : exec (option Z * session) :=
  if session_detached s then Ret (None, s)
  else match proc s with
  | None => Undef
  | Some p =>
      '(t, s) ← ThisThread id p s;
      if bool_decide (t ∈ tid <$> m_threads p) then Ret (Some t, s) else Undef
  end.

Definition memory_handler (s : session) : exec session :=
  if session_detached s then Ret s
  else match proc s with None => Undef | Some _ => Ret s end.

(** What an engine with [eventConf.debug] does on one of its threads:
    [CPUState::initContext] and [freeContext], an instruction, a memory
    access. *)
Inductive call := InitContext (pc : Z) | FreeContext | Insn | MemoryAccess.

Definition engine_call (context : AetherDbgContext) (id : Z) (c : call) (s : session) : exec (option session) :=
  match c with
  | InitContext pc =>
      f ← of_option Undef (thread_handler_fn context);
      Ret (match f with DoNothing => Some s | AetherDbg => thread_handler id (Some pc) s end)
  | FreeContext =>
      f ← of_option Undef (thread_handler_fn context);
      Ret (match f with DoNothing => Some s | AetherDbg => thread_handler id None s end)
  | Insn =>
      f ← of_option Undef (insn_handler_fn context);
      match f with DoNothing => Ret (Some s) | AetherDbg => '(_, s) ← insn_handler id s; Ret (Some s) end
  | MemoryAccess =>
      f ← of_option Undef (memory_handler_fn context);
      match f with DoNothing => Ret (Some s) | AetherDbg => s ← memory_handler s; Ret (Some s) end
  end.

(** The calls a context makes, on the thread [id] at [pc], one after the
    other. *)
Fixpoint thread_calls (context : AetherDbgContext) (id pc : Z) (calls : list thread_call) (s : session) : exec (option session) :=
  match calls with
  | [] => Ret (Some s)
  | call :: calls' =>
      r ← engine_call context id (match call with thread_this => InitContext pc | thread_null => FreeContext end) s;
      match r with None => Ret None | Some s => thread_calls context id pc calls' s end
  end.

(** * Sessions as sequences of steps *)

(** What else happens to the process: its threads go on inside of [WatchDog],
    and the debugger acts. *)
Inductive quiet_step (next_pc : Z -> Z -> Z) (p : AetherProcess) : AetherProcess -> Prop :=
| quiet_guest k t t' p' : m_threads p !! k = Some t -> guest_step next_pc t p = Some (Ret (t', p')) ->
    quiet_step next_pc p (set_threads p' (<[k := t']> (m_threads p')))
| quiet_spurious k t : m_threads p !! k = Some t -> at_phase t = Waiting ->
    quiet_step next_pc p (set_threads p (<[k := set_phase t Woken]> (m_threads p)))
| quiet_debugger p' : debugger_action p p' -> quiet_step next_pc p p'.

(** The threads that have a context: [freeContext] and the handlers of
    instructions and memory run on these only. *)
Definition allowed (live : gset Z) (id : Z) (c : call) : Prop :=
  match c with InitContext _ => True | _ => id ∈ live end.
Definition live_after (live : gset Z) (id : Z) (c : call) : gset Z :=
  match c with InitContext _ => live ∪ {[id]} | FreeContext => live ∖ {[id]} | _ => live end.

Inductive session_step (next_pc : Z -> Z -> Z) (context : AetherDbgContext) : session * gset Z -> session * gset Z -> Prop :=
| do_call s live id c s' : allowed live id c -> engine_call context id c s = Ret (Some s') ->
    session_step next_pc context (s, live) (s', live_after live id c)
| do_quiet s live p p' : proc s = Some p -> quiet_step next_pc p p' ->
    session_step next_pc context (s, live) (mkSession (Some p') (thisThread s), live).
End Handlers.

(** * Threads of a program *)

Section Threads.
Context `{A64Layout} `{X86Layout}.
Variables (stack_size : Z) (alloc : Z -> Z).

(** [BinaryEngine::enterThread] and [leaveThread], with what they tell the
    debugger. *)
Definition enterThread (engine : runtime_t) (cpu : CPUState) : exec (CPUState * list thread_call) :=
  let cpu := mkCPU (pcptr cpu) (Some engine) (state cpu) (pc cpu) (rvalue cpu) (retaddr cpu) (stack cpu) (stacksize cpu) in
  '(_, cpu, calls) ← initContext stack_size alloc 0 cpu; Ret (cpu, calls).
Definition leaveThread (cpu : CPUState) : CPUState * list thread_call := freeContext cpu.
End Threads.

(** * The debugger's view of memory *)

(** LLDB's [Status], an error with its text. *)
Definition Status := option string.
Definition invalid_address (addr : Z) : Status := Some ("Invalid address " ++ hex addr)%string.

(** One page of the process. *)
Record MemoryRegionInfo := mkRegion {
  range_base : Z; range_size : Z; readable : bool; writable : bool; executable : bool; mapped : bool; region_page_size : Z
}.

Section Access.
Variable memory_read : bytes -> Z -> nat -> option (list Z).
Variable memory_write : bytes -> Z -> list Z -> option bytes.
Variable bin : option OpcodeBinary.
Variable g : GuestMemory.

(** The bytes put in [buf], how many, and the status. *)
Definition ReadMemory (m : bytes) (addr : Z) (size : nat) : list Z * Z * Status :=
  let rdbuf := readMemory memory_read bin g m addr size in
  if (length rdbuf =? 0)%nat then ([], 0, invalid_address addr)
  else (take size rdbuf, Z.of_nat size, None).

Definition WriteMemory (m : bytes) (addr : Z) (buf : list Z) : bytes * Z * Status :=
  let '(ok, m') := writeMemory memory_write bin g m addr buf in
  if ok : bool then (m', Z.of_nat (length buf), None) else (m', 0, invalid_address addr).

Definition GetMemoryRegionInfo (page_size : Z) (m : bytes) (load_addr : Z) : MemoryRegionInfo + string :=
  let page := align_down load_addr page_size in
  if (length (readMemory memory_read bin g m page 8) =? 0)%nat then inr ("Invalid address " ++ hex load_addr)%string
  else inl (mkRegion page page_size true true true true page_size).
End Access.

(** * Lemmas *)

(** Threads by their ids and the threads of the host they stand for. *)
Definition ids (p : AetherProcess) : list (Z * Z) := (fun t => (tid t, native_id t)) <$> m_threads p.
Fixpoint first_id (id : Z) (l : list (Z * Z)) : option Z :=
  match l with
  | [] => None
  | (t, n) :: l' => if n =? id then Some t else first_id id l'
  end.

Lemma first_id_thread id ts : first_id id ((fun t => (tid t, native_id t)) <$> ts) = tid <$> first_thread id ts.
Proof. induction ts as [|t ts IH]; [done|]. cbn. destruct (_ =? id); [done|exact IH]. Qed.

Lemma first_id_in id l t : first_id id l = Some t -> t ∈ l.*1.
Proof.
  induction l as [|[t' n] l IH]; [done|]. rewrite fmap_cons, elem_of_cons. cbn.
  destruct (n =? id); intros H; [left; congruence|right; by apply IH].
Qed.

Lemma first_id_app id l l' : first_id id (l ++ l') = match first_id id l with Some t => Some t | None => first_id id l' end.
Proof. induction l as [|[t n] l IH]; [done|]. cbn. by destruct (n =? id). Qed.

Lemma erase_first_id id id' ts : id' <> id ->
  first_id id' ((fun t => (tid t, native_id t)) <$> erase_thread id ts) = first_id id' ((fun t => (tid t, native_id t)) <$> ts).
Proof.
  intros Hne. induction ts as [|t ts IH]; [done|]. cbn. destruct (Z.eqb_spec (native_id t) id) as [E|_].
  - by rewrite (proj2 (Z.eqb_neq (native_id t) id')) by congruence.
  - cbn. destruct (native_id t =? id'); [done|exact IH].
Qed.

(** The other steps keep the threads, and a detached process stays so. *)
Lemma quiet_keeps next_pc p p' : quiet_step next_pc p p' -> ids p' = ids p ∧ (detached p = true -> detached p' = true).
Proof.
  unfold ids. intros [k t t' p1 Hk Hg|k t Hk Hw|p1 Hd]; cbn [m_threads detached set_threads].
  - destruct (guest_step_process _ _ _ _ _ Hg) as (Ht & _ & Hid). rewrite Ht.
    assert (native_id t' = native_id t ∧ detached p1 = detached p) as [Hn Hdt].
    { unfold guest_step, run_one, ReportStopped in Hg.
      destruct (at_phase t); [destruct (detached p) eqn:E; [|destruct (m_software_breakpoints p !! th_pc t)]|destruct (m_state t)|..];
        by simplify_eq. }
    split; [|by rewrite Hdt]. apply (fmap_insert_id _ _ _ t); [done|]. by rewrite Hid, Hn.
  - split; [|done]. by apply (fmap_insert_id _ _ _ t).
  - destruct Hd as [action p1 Hr| | |mapped0 a|mapped0 a]; try done.
    + unfold Process_Resume in Hr. destruct (resume_threads action (m_threads p)) as [[r ts]| |] eqn:E; [|done..].
      cbn [mbind exec_bind] in Hr. injection Hr as <-. apply (resume_threads_fmap (fun t => (tid t, native_id t))) in E;
        [|by intros [? ? ? ? [] ?]].
      destruct r; by split.
    + split; [|done]. cbn. by rewrite <- list_fmap_compose.
    + split; [|done]. cbn. rewrite <- list_fmap_compose. apply list_fmap_ext. intros i t _. cbn.
      unfold Thread_Resume, notify_all. by destruct (at_phase _).
Qed.

(** A session: threads with a context are attached, and the cached thread of a
    host thread is the first of its own. *)
Definition session_ok (s : session) (live : gset Z) : Prop :=
  session_detached s = true \/
  match proc s with
  | None => live = ∅ ∧ thisThread s = ∅
  | Some p => (∀ id, id ∈ live -> is_Some (first_id id (ids p))) ∧
              (∀ id t, thisThread s !! id = Some t -> first_id id (ids p) = Some t)
  end.

Lemma ids_attach id pc p : ids (AttachThread id pc p) = (ids p ++ [(m_tid p, id)])%list.
Proof. unfold ids, AttachThread. cbn [m_threads]. by rewrite fmap_app. Qed.

Lemma attach_ok id pc p s live : (∀ id, id ∈ live -> is_Some (first_id id (ids p))) ->
  (∀ id t, thisThread s !! id = Some t -> first_id id (ids p) = Some t) ->
  session_ok (attach_or_detach id (Some pc) p s) (live ∪ {[id]}).
Proof.
  intros Hl Hc. right. cbn [attach_or_detach proc thisThread]. rewrite ids_attach. split.
  - intros id' Hid. rewrite first_id_app. apply elem_of_union in Hid as [Hid|Hid%elem_of_singleton].
    + destruct (Hl id' Hid) as [t ->]. by eexists.
    + subst id'. destruct (first_id id (ids p)); [by eexists|]. cbn. rewrite Z.eqb_refl. by eexists.
  - intros id' t Hid. by rewrite first_id_app, (Hc id' t Hid).
Qed.

Lemma detach_ok id p s live : (∀ id, id ∈ live -> is_Some (first_id id (ids p))) ->
  (∀ id t, thisThread s !! id = Some t -> first_id id (ids p) = Some t) ->
  session_ok (attach_or_detach id None p s) (live ∖ {[id]}).
Proof.
  intros Hl Hc. right. cbn [attach_or_detach proc thisThread]. unfold ids, DetachThread. cbn [m_threads set_threads]. split.
  - intros id' [Hid Hne%not_elem_of_singleton]%elem_of_difference. rewrite erase_first_id by done. by apply Hl.
  - intros id' t [Hne Hid]%lookup_delete_Some. rewrite erase_first_id by done. by apply Hc.
Qed.

Lemma thread_handler_ok connects id cpu s s' live : session_ok s live -> (cpu = None -> id ∈ live) ->
  thread_handler connects id cpu s = Some s' -> session_ok s' (match cpu with Some _ => live ∪ {[id]} | None => live ∖ {[id]} end).
Proof.
  intros Hok Hcpu Hs. unfold thread_handler in Hs. destruct (session_detached s) eqn:Hd; [simplify_eq; by left|].
  destruct Hok as [Hok|Hok]; [congruence|]. destruct (proc s) as [p|] eqn:Hp.
  - destruct Hok as [Hl Hc]. injection Hs as <-. destruct cpu; [by apply attach_ok|by apply detach_ok].
  - destruct Hok as [-> Hc]. unfold initialize in Hs. destruct connects; [|done]. injection Hs as <-.
    destruct cpu as [pc|]; [|specialize (Hcpu eq_refl); set_solver].
    apply attach_ok; [set_solver|]. intros id' t. by rewrite Hc, lookup_empty.
Qed.

(** The handler finds the caller's thread. *)
Lemma insn_handler_ok id s live : session_ok s live -> id ∈ live ->
  ∃ t s', insn_handler id s = Ret (t, s') ∧ session_ok s' live ∧
    (∀ p, session_detached s = false -> proc s = Some p -> t = tid <$> first_thread id (m_threads p) ∧ is_Some t).
Proof.
  intros Hok Hid. unfold insn_handler. destruct (session_detached s) eqn:Hd.
  - exists None, s. split_and!; [done|by left|done].
  - destruct Hok as [Hok|Hok]; [congruence|]. destruct (proc s) as [p|] eqn:Hp; [|destruct Hok as [-> _]; set_solver].
    destruct Hok as [Hl Hc]. destruct (Hl id Hid) as [t Ht]. pose proof Ht as Hth. unfold ids in Hth. rewrite first_id_thread in Hth.
    apply first_id_in in Ht as Hin. unfold ids in Hin. rewrite <- list_fmap_compose in Hin.
    unfold ThisThread. destruct (thisThread s !! id) as [t'|] eqn:E; cbn [mbind exec_bind].
    + assert (t' = t) as -> by (apply Hc in E; congruence). exists (Some t), s.
      rewrite bool_decide_true by done. split_and!; [done|right; by rewrite Hp|]. intros p0 _ [= <-]. rewrite Hth. by split.
    + destruct (first_thread id (m_threads p)) as [th|] eqn:Ef; [|done]. cbn in Hth. injection Hth as Hth. cbn [mbind exec_bind].
      rewrite Hth, bool_decide_true by done. eexists (Some t), _. split_and!; [done| |].
      * right. cbn [proc thisThread]. rewrite Hp. split; [done|]. intros id' t' H. rewrite lookup_insert in H.
        case_decide; [by simplify_eq|by apply Hc].
      * intros p0 _ [= <-]. rewrite Ef. cbn. by rewrite Hth.
Qed.

Lemma session_steps_ok connects next_pc dbgport is_arm64 c c' :
  session_step connects next_pc (aether_dbgmain (mkDbgContext dbgport is_arm64 None None None)) c c' ->
  session_ok c.1 c.2 -> session_ok c'.1 c'.2.
Proof.
  intros [s live id cl s' Ha Hs|s live p p' Hp Hq] Hok; cbn [fst snd] in *.
  - destruct cl as [pc| | |]; cbn [engine_call aether_dbgmain thread_handler_fn insn_handler_fn memory_handler_fn of_option
      mbind exec_bind live_after allowed] in *.
    + injection Hs as Hs. by apply (thread_handler_ok connects id (Some pc) s s' live).
    + injection Hs as Hs. by apply (thread_handler_ok connects id None s s' live).
    + destruct (insn_handler_ok id s live Hok Ha) as (t & s1 & E & H1 & _). rewrite E in Hs. cbn in Hs. by simplify_eq.
    + unfold memory_handler in Hs. destruct (session_detached s); [by simplify_eq/=|]. destruct (proc s); by simplify_eq/=.
  - destruct (quiet_keeps next_pc p p' Hq) as [Hids Hdet]. destruct Hok as [Hok|Hok].
    + left. unfold session_detached in *. rewrite Hp in Hok. cbn. by apply Hdet.
    + right. rewrite Hp in Hok. cbn [proc thisThread]. by rewrite Hids.
Qed.

(** * Properties *)

(** C31: the debugger's session. In whatever order the threads of the engine make
    and free their contexts, run instructions and access memory, while the
    debugger acts on the process, every handler that can be called returns, or
    the process exits because no client connects: no call goes through a null
    process, a thread that is missing or one that was erased. While the debugger
    is attached, an instruction stops in the first thread of the debugger's list
    that stands for its host thread. *)
Theorem session_safe (connects : bool) (next_pc : Z -> Z -> Z) (dbgport : Z) (is_arm64 : bool) context s live :
  startDebugger dbgport is_arm64 (Some true) = Ret context ->
  rtc (session_step connects next_pc context) (session_start, ∅) (s, live) ->
  (∀ id c, allowed live id c -> ∃ r, engine_call connects context id c s = Ret r ∧ (r = None -> connects = false)) ∧
  ∀ id p, id ∈ live -> proc s = Some p -> detached p = false ->
    ∃ t s', insn_handler id s = Ret (Some (tid t), s') ∧ first_thread id (m_threads p) = Some t.
Proof.
  intros [= <-] Hr.
  assert (session_ok s live) as Hok.
  { change (session_ok (s, live).1 (s, live).2). revert Hr. generalize (s, live). intros c Hr.
    assert (session_ok (session_start, ∅ : gset Z).1 (session_start, ∅ : gset Z).2) as H0 by (right; by split).
    revert H0. induction Hr as [|c1 c2 c3 Hs _ IH]; [done|]. intros H1. apply IH. by eapply session_steps_ok. }
  split.
  - intros id [pc| | |] Ha; cbn [engine_call aether_dbgmain thread_handler_fn insn_handler_fn memory_handler_fn of_option mbind exec_bind].
    1, 2: eexists; split; [reflexivity|]; unfold thread_handler, initialize; destruct (session_detached s), (proc s), connects; done.
    + destruct (insn_handler_ok id s live Hok Ha) as (t & s1 & -> & _). by eexists.
    + unfold memory_handler. destruct (session_detached s) eqn:Hd; [by eexists|]. destruct (proc s) eqn:Hp; [by eexists|].
      destruct Hok as [Hok|Hok]; [congruence|]. rewrite Hp in Hok. destruct Hok as [-> _]. cbn in Ha. set_solver.
  - intros id p Hid Hp Hd. destruct (insn_handler_ok id s live Hok Hid) as (t & s1 & E & _ & Ht).
    destruct (Ht p) as [-> [u Hu]]; [unfold session_detached; by rewrite Hp|done|].
    destruct (first_thread id (m_threads p)) as [th|]; [|done]. exists th, s1. by split.
Qed.

Definition connected : AetherDbgContext := mkDbgContext 1234 true (Some AetherDbg) (Some AetherDbg) (Some AetherDbg).
Definition two_contexts : session := mkSession (Some (AttachThread 7 0x2000 (AttachThread 7 0x1000 AetherProcess_new))) ∅.

Lemma two_contexts_reached : rtc (session_step true (fun _ pc => pc + 4) connected) (session_start, ∅) (two_contexts, ∅ ∪ {[7]} ∪ {[7]}).
Proof.
  eapply rtc_l; [by apply (do_call true _ connected session_start ∅ 7 (InitContext 0x1000))|].
  eapply rtc_l; [by apply (do_call true _ connected _ _ 7 (InitContext 0x2000))|]. apply rtc_refl.
Qed.

Theorem session_safe_witness : ∃ t s', insn_handler 7 two_contexts = Ret (Some (tid t), s') ∧
  first_thread 7 [AetherThread_new 1 7 0x1000; AetherThread_new 2 7 0x2000] = Some t.
Proof.
  apply (proj2 (session_safe true (fun _ pc => pc + 4) 1234 true connected two_contexts _ eq_refl two_contexts_reached) 7
    (AttachThread 7 0x2000 (AttachThread 7 0x1000 AetherProcess_new)));
    [apply elem_of_union; right; by apply elem_of_singleton|reflexivity|reflexivity].
Defined.

(** Without the debugger's library the default handlers do nothing, and the
    first memory access calls a pointer that was never set. *)
Theorem no_library connects dbgport is_arm64 context id c s : startDebugger dbgport is_arm64 None = Ret context ->
  engine_call connects context id c s = match c with MemoryAccess => Undef | _ => Ret (Some s) end.
Proof. intros [= <-]. by destruct c. Qed.

Theorem no_library_witness :
  engine_call true (mkDbgContext 1234 true (Some DoNothing) (Some DoNothing) None) 7 MemoryAccess session_start = Undef.
Proof. by apply (no_library true 1234 true _ 7 MemoryAccess session_start). Defined.

(** A host thread whose context is made again (each run of the machine makes
    it) appears once more in the debugger's list, and this entry stands
    for nothing: the instructions of the thread stop in the first one. *)
Theorem context_again connects id pc s p t :
  proc s = Some p -> detached p = false -> first_thread id (m_threads p) = Some t ->
  ∃ p', thread_handler connects id (Some pc) s = Some (mkSession (Some p') (thisThread s)) ∧
    m_threads p' = (m_threads p ++ [AetherThread_new (m_tid p) id pc])%list ∧ first_thread id (m_threads p') = Some t.
Proof.
  intros Hp Hd Hf. unfold thread_handler, session_detached. rewrite Hp, Hd. eexists. split_and!; [reflexivity|done|].
  unfold AttachThread. cbn [m_threads]. induction (m_threads p) as [|u us IH]; [done|]. cbn in Hf |- *.
  destruct (native_id u =? id); auto.
Qed.

Theorem context_again_witness : ∃ p', thread_handler true 7 (Some 0x2000) (mkSession (Some (AttachThread 7 0x1000 AetherProcess_new)) ∅) =
    Some (mkSession (Some p') ∅) ∧ (length (m_threads p') = 2)%nat.
Proof.
  destruct (context_again true 7 0x2000 (mkSession (Some (AttachThread 7 0x1000 AetherProcess_new)) ∅) (AttachThread 7 0x1000 AetherProcess_new)
    (AetherThread_new 1 7 0x1000)) as (p' & E & Hm & _); [reflexivity..|].
  exists p'. split; [exact E|]. rewrite Hm. reflexivity.
Defined.

(** The debugger's memory. What it writes without an error it reads back, all
    of it; and a region it is told of is the page of the address, whose first
    bytes can be read. *)
Theorem debugger_memory memory_read memory_write (bin : option OpcodeBinary) (g : GuestMemory) (m m' : bytes) addr (buf : list Z) n
    (n_bits load_addr : Z) r :
  (∀ m a b m', memory_write m a b = Some m' -> memory_read m' a (length b) = Some b) -> 0 <= n_bits < 64 -> u64 load_addr ->
  (buf <> [] -> WriteMemory memory_write bin g m addr buf = (m', n, None) ->
     n = Z.of_nat (length buf) ∧ ReadMemory memory_read bin g m' addr (length buf) = (buf, n, None)) ∧
  (GetMemoryRegionInfo memory_read bin g (2 ^ n_bits) m load_addr = inl r ->
     range_base r <= load_addr < range_base r + range_size r ∧ (2 ^ n_bits | range_base r) ∧ range_size r = 2 ^ n_bits ∧
     readMemory memory_read bin g m (range_base r) 8 <> []).
Proof.
  intros Hrw Hn Ha. split.
  - intros Hne Hw. unfold WriteMemory in Hw. destruct (writeMemory memory_write bin g m addr buf) as [[|] m1] eqn:E; [|done].
    injection Hw as <- <-. split; [done|].
    destruct (writeMemory_readMemory memory_read memory_write bin g m m1 addr buf Hrw E) as [Hr _].
    unfold ReadMemory. rewrite Hr. destruct buf as [|b buf]; [done|]. cbn [length Nat.eqb]. by rewrite take_ge by (cbn; lia).
  - unfold GetMemoryRegionInfo. intros Hr. destruct (length (readMemory _ _ _ _ _ _) =? 0)%nat eqn:E; [done|]. injection Hr as <-.
    cbn [range_base range_size]. assert (align_down load_addr (2 ^ n_bits) = 2 ^ n_bits * (load_addr / 2 ^ n_bits)) as Hd
      by (unfold align_down; apply land_lnot_mask; [lia|done]).
    pose proof (pow2_pos n_bits ltac:(lia)). pose proof (Z.div_mod load_addr (2 ^ n_bits)). pose proof (Z.mod_pos_bound load_addr (2 ^ n_bits)).
    rewrite Hd in *. split_and!; [lia|lia|apply Z.divide_factor_l|done|]. intros Hempty. by rewrite Hempty in E.
Qed.

Theorem debugger_memory_witness :
  let m' := store_bytes ∅ 0x10100 [1; 2; 3] in
  ReadMemory (fun _ _ _ => None) None sample_gm m' 0x100 3 = ([1; 2; 3], 3, None).
Proof.
  apply (proj1 (debugger_memory (fun _ _ _ => None) (fun _ _ _ => None) None sample_gm ∅ (store_bytes ∅ 0x10100 [1; 2; 3]) 0x100 [1; 2; 3] 3
    12 0 (mkRegion 0 0 true true true true 0) ltac:(discriminate) ltac:(lia) ltac:(unfold fits; lia))); [discriminate|reflexivity].
Defined.

Lemma erase_appended id ts t : first_thread id ts = None -> native_id t = id -> erase_thread id (ts ++ [t]) = ts.
Proof.
  intros Hf Ht. induction ts as [|u us IH]; cbn in *; [by rewrite Ht, Z.eqb_refl|].
  destruct (native_id u =? id); [done|]. by rewrite IH.
Qed.

(** A thread the program starts: entering gives it a stack and registers of its
    own and adds it to the debugger's list, leaving takes both back. *)
Theorem enter_leave `{A64Layout} `{X86Layout} (stack_size : Z) (alloc : Z -> Z) (engine : runtime_t) connects dbgport is_arm64 context id s p :
  startDebugger dbgport is_arm64 (Some true) = Ret context -> rt_debug engine = true -> alloc stack_size <> 0 ->
  proc s = Some p -> detached p = false -> first_thread id (m_threads p) = None ->
  ∃ cpu calls s1 s2 p1 p2, enterThread stack_size alloc engine CPUState_new = Ret (cpu, calls) ∧
    stack cpu = alloc stack_size ∧ stacksize cpu = stack_size ∧
    thread_calls connects context id 0 calls s = Ret (Some s1) ∧ proc s1 = Some p1 ∧
    first_thread id (m_threads p1) = Some (AetherThread_new (m_tid p) id 0) ∧
    (leaveThread cpu).1 = CPUState_new ∧
    thread_calls connects context id 0 (leaveThread cpu).2 s1 = Ret (Some s2) ∧ proc s2 = Some p2 ∧
    m_threads p2 = m_threads p ∧ thisThread s2 !! id = None.
Proof.
  intros [= <-] Hdbg Ha Hp Hd Hf. unfold enterThread, initContext. cbn [stack CPUState_new Z.eqb runtime state].
  rewrite (proj2 (Z.eqb_neq (alloc stack_size) 0) Ha), Hdbg.
  destruct (rf_get Register.PC _) as [q m3]. cbn [mbind exec_bind].
  eexists _, _, _, _, _, _. split_and!; [reflexivity|reflexivity|reflexivity| | | |reflexivity| | | |].
  - cbn [thread_calls engine_call aether_dbgmain thread_handler_fn of_option mbind exec_bind].
    unfold thread_handler, session_detached. rewrite Hp, Hd. reflexivity.
  - reflexivity.
  - unfold AttachThread. cbn [m_threads]. clear -Hf. induction (m_threads p) as [|u us IH]; cbn in *; [by rewrite Z.eqb_refl|].
    destruct (native_id u =? id); [done|auto].
  - unfold leaveThread, freeContext. cbn [runtime snd]. rewrite Hdbg.
    cbn [thread_calls engine_call aether_dbgmain thread_handler_fn of_option mbind exec_bind].
    unfold thread_handler, session_detached. cbn [attach_or_detach proc detached AttachThread]. rewrite Hd. reflexivity.
  - reflexivity.
  - cbn [DetachThread m_threads set_threads AttachThread]. by apply erase_appended.
  - cbn [attach_or_detach thisThread]. apply lookup_delete_eq.
Qed.

#[local] Existing Instance a64_sample.
#[local] Existing Instance x86_sample.
Definition waiting_session : session := mkSession (Some (AttachThread 7 0x1000 AetherProcess_new)) ∅.
Theorem enter_leave_witness : ∃ cpu calls s1, enterThread 0x1000 (fun _ => 0x7000) (Runtime ARM64 true) CPUState_new = Ret (cpu, calls) ∧
  thread_calls true connected 8 0 calls waiting_session = Ret (Some s1) ∧ stack cpu = 0x7000.
Proof.
  destruct (enter_leave 0x1000 (fun _ => 0x7000) (Runtime ARM64 true) true 1234 true connected 8 waiting_session
    (AttachThread 7 0x1000 AetherProcess_new) eq_refl eq_refl ltac:(discriminate) eq_refl eq_refl eq_refl)
    as (cpu & calls & s1 & _ & _ & _ & E & Hs & _ & Hc & _).
  exists cpu, calls, s1. split_and!; [exact E|exact Hc|exact Hs].
Defined.
